(* ===== verification/_CoqProject ===== *)
-Q . S2P
Prelude.v
CString.v
Ledger.v
Scan.v
Double.v
Types.v
Json.v
JsonParse.v
Protocol.v
Config.v
Url.v
Crypto.v
Enroll.v
Ring.v
Connection.v
Executor.v
Platform.v
Patches.v
FileTransfer.v
RemoteDesktop.v
Exec.v
Dispatch.v
Agent.v
CommandSpec.v
Budget.v
Lifecycle.v
Shutdown.v
Metrics.v
Inventory.v
ExecutorWin.v
Input.v
Capture.v
Logger.v
Service.v
PatchesWin.v
InventoryWin.v
CryptoWin.v
EnrollWin.v
ServiceWin.v
MetricsWin.v
PlatformWin.v
