(* ===== verification/Prelude.v ===== *)
(** * Verification of the Leo-One agent

Leo-One is a remote management system: a server commands agents installed on
machines.  This library models the agent, the C program of [src/agent], and
proves the properties that make it safe to leave running on a machine: what a
server can make it execute, what becomes of each command and message, that its
threads neither lose wake-ups nor use freed structures, and that its parsers,
buffers and file formats are right on every input.  The server and the console
(Go, TypeScript) are other programs and are not modelled.

** The program and its parts

The agent reads its configuration, or enrols with a bootstrap token, then keeps
one mutually authenticated WebSocket to the server.  The thread that services
the socket hands each JSON message to [_on_message], which dispatches commands
to detached threads, at most four at a time; each thread runs child processes,
installs updates or downloads a file, and answers with one CMD_RESULT through
the bounded send queue of the connection.  Three more threads send heartbeats,
metrics and the list of available updates.  A remote desktop session, at most
one, has a connection and a thread of its own.

The files, in dependency order, with the sources they model (under
[src/agent]); definitions keep the names of the C functions and types.

- [Prelude]: undefined behaviour as a result ([outcome]), machine integers,
  tactics ([case_goal], [breflect], [branches], [len]), the hint database [leo],
  lemmas on lists and on step relations.
- [CString]: C strings as lists of characters before the NUL, [fit] for the
  copies that truncate, [fgets], [atoi], [strtoull] and the like.  [Scan]: the
  conversions of [sscanf] and [fscanf].
- [Ledger]: sequences of acquisitions and releases of resources that depend on
  each other.
- [Double]: the part of binary64 the agent uses; out-of-range conversions to
  integers are [Undef].
- [Types]: [include/leo_agent.h] and the record of [src/executor.h].
- [Json], [JsonParse]: the operations of [third_party/cjson/cJSON.c] the agent
  calls; printing, and the recursive parser with its nesting limit.
- [Protocol]: [src/protocol.c], every message builder and [leo_proto_parse].
- [Config]: [src/config.c].  [Url]: the parsers of [src/http_url.c],
  [src/connection.c] and [src/remote_desktop.c].
- [Crypto]: [platform/linux/crypto_linux.c], certificates on disk and pinning;
  the files of the machine as a finite map.
- [Enroll]: [src/enroll.c], over the interface [Host] of what its conditional
  code makes different on each platform; the Linux branches.
- [Ring], [Connection]: [src/connection.c]: the structure [leo_conn], the send
  queue, the callbacks, the service thread ([loop_step]) and the interleaving of
  senders, service thread and destroyer ([conn_step]).
- [Executor]: [platform/linux/executor_linux.c].  [Platform]: the interface of
  [src/executor.h] as a type class with laws, [ExecutorLaws], and the proof that
  the Linux executor satisfies them; the clients below are verified against the
  class only.
- [Patches]: [platform/linux/patches_linux.c], and the interface of
  [src/patches.h] as a class with laws, [PatchManagerLaws].
- [FileTransfer]: [src/file_transfer.c], over the working directory of the
  platform and what its [rename] does ([WorkDir]).
- [RemoteDesktop]: [src/remote_desktop.c]: pixels, wire format, callbacks and
  thread of one session, and the global state shared by successive sessions
  ([rd_step]).
- [Exec], [Dispatch], [Agent], [Lifecycle], [Shutdown]: [src/agent.c]: the
  command threads, the dispatchers and [_on_message], the periodic threads and
  the step relation of the whole agent ([Agent.step], each step labelled with
  the thread that takes it), start and stop, and [leo_agent_stop] step by step
  ([stop_step]) among the threads it stops ([sd_step]).
- [CommandSpec]: what a server may rely on, as an abstract command server
  ([spec_step]) with a queue of messages, and the proof that [Agent.act] refines
  it.  A step is labelled ([observed_step]) with the message it receives, the
  command that ends with the CMD_RESULT built for it, the connection going up or
  down, and the messages it hands to the socket, so that a reply is either
  queued or given up for a cause the events show; [run_simulation] turns the
  simulation of steps into one of runs.
- [Budget]: the time a command may take: the command threads of [Exec] run over
  a metered executor, an instance of the class of [Platform] over any other that
  adds up the limits of the children.
- [Metrics]: [platform/linux/metrics_linux.c] and [src/metrics.c], over the texts
  of /proc, up to the METRICS message.  [Inventory]:
  [platform/linux/inventory_linux.c].
- [Input], [Capture]: the injection of input and the capture of the screen, of
  both platforms ([platform/linux/input_linux.c], [capture_linux.c],
  [platform/windows/input_win.c], [capture_win.c]).
- [Logger]: [src/logger.c].  [Service]: [main] of [src/main.c] and
  [platform/linux/service_linux.c].
- [ExecutorWin], [PatchesWin], [InventoryWin], [MetricsWin], [CryptoWin]: the
  same interfaces on Windows, [platform/windows/*_win.c]; [EnrollWin]: the
  Windows branches of [src/enroll.c]; [PlatformWin]: the instances of
  [ExecutorLaws], [PatchManagerLaws] and [FileSystem] for Windows, with which
  the theorems of [Exec], [Agent] and [Shutdown] are about the agent built for
  it.  [ServiceWin]:
  [platform/windows/service_win.c], where the service thread and the control
  handler interleave ([service_step]), and the Windows branch of [main].

** How code becomes definitions

A C function is a Rocq function from the state it reads to its result and the
state it leaves; a structure is a record; a pointer to a buffer is the string
it holds, a NULL result is [None].  Functions that may reach undefined
behaviour return an [outcome].  What the code obtains from its surroundings
(the clock, random bytes, the success of an allocation or a system call, the
callbacks libwebsockets makes, what a child process writes) is an explicit
input, an [..._env] record, so that a theorem about all inputs is a theorem
about all behaviours of the surroundings.  Threads that share state are step
relations, one constructor per critical section, callback or loop iteration.
In [Agent.step] the connection moves by its own callbacks and loops, and the
other threads only through [leo_conn_send]; [step_sim] shows that every step of
the agent is a sequence of steps of [conn_step], so that what [Connection]
proves holds inside the agent.  Likewise every step of [sd_step] is one of
[Agent.step] or leaves the agent alone ([sd_step_machine]).  Log lines are left out, except where one reads
memory the thread no longer owns.

The two platforms implement the same headers with functions of the same names:
the definitions have these names too, each in the file of its platform
([Executor._run_child] and [ExecutorWin._run_child]).  The constants of
[include/leo_agent.h] that depend on the platform have their POSIX values in
[Types].  Functions that are only sequences of acquisitions and releases return
their entries, which [Lifecycle.perform] or [Ledger.replay] check.

Third-party code is a parameter: [CLib] ([strtod] and the [%g] format, law
class [CLibLaws], instance [decimal_lib]), [OpenSSL] (DER encoding, SHA-256,
PEM; [OpenSSLLaws], instance [toy_openssl]).  The instances show that the laws
can hold and are what the evaluations run on.  mkstemp's promise of a fresh
name is a hypothesis of the theorem that needs it.

Bounds and fuel.  The JSON parser gets twice the length of its input as fuel,
which [parse_fuel_enough] proves never runs out.  The waiting loops ([child_loop],
[dl_loop], [rd_loop], [post_loop]) recurse on the list of the passes the
surroundings grant them and give [None] when it is too short; the termination
theorems say that a list in which the clock passes the deadline is long enough.
The scan of /proc/mounts makes at most one pass per character of its input, and
gets that many; the enumeration of a registry key gets any fuel above the number
of its entries ([enum_loop_spec]).  All other recursion is structural.

** What is proved

The properties carry their numbers (C1, C2, ...) in their comments.

- Commands: only allowed command lines are executed (C1), for any executor that
  keeps the promises of its interface, as those of Linux and Windows do (C20),
  and any update service that keeps its own (C21); every command is answered once
  and its result reaches the socket or the queue (C2); seen from the server the
  agent is an abstract command server, by the messages on the wire (C3), from
  which follows that each CMD_RESULT written or queued answers another command
  received (C4); messages are handled without undefined
  behaviour, with the exceptions that are real (C12), and change at most the two
  intervals (C30).
- Connection: the ring buffer refines a bounded FIFO (C5); no lost wake-up (C6);
  stopping terminates (C13); the server certificate is pinned (C25), on
  Windows by the same rule (C40).
- Messages: what is serialised is parsed back (C7), for the numbers the C library
  reads back; results of commands always fit when they are text (C26).
- Child processes: output, exit code, deadline while [select] works, script files
  (C11, C14, C16);
  the time a whole command may take (C15); command lines of Windows (C31).
- File transfers: a file appears only after a success and verified, and an error
  leaves it as it was (C8); it is in its directory (C27).
- Remote desktop: one session at a time (C9), a session that is stopped makes
  room for the next if no earlier one is still ending (C10), view mode injects
  nothing (C28), sessions end and report (C29), frames fit if the server sends four
  bytes for a pixel (C34).
- Start and stop: the resources of a start (C19); a stop among the running
  threads frees nothing in use, unless something new starts behind its back
  (C17), and comes to its end once the list of updates has arrived (C18); the whole
  process and its signals (C36), the service of Windows (C37).
- Enrolment and restart (C23, C24), on either platform (C22).
- Collection: metrics are defined and typed (C32), percentages right (C33), updates of Windows
  selected and every COM object released (C38, C39).
- The log file stays bounded while it can be renamed (C35).

Further theorems without a number say of the same components what the numbered
ones leave out: among them [send_spec], [destroy_is_safe], [number_clamped],
[command_result_reported], [transfer_failed], [transfer_bounded],
[input_decoding], [frame_header_roundtrip], [repack_in_bounds],
[repack_is_nearest], [output_size_fits], [config_load_safe],
[cert_key_roundtrip], [http_url_roundtrip], [http_url_bounds],
[collected_patches_fit], [request_body_sent], [forced_heartbeat],
[proc_stat_roundtrip], [meminfo_read], [collect_hw_typed], [inventory_fits],
[win_output_captured], [env_block_extended], [same_keys],
[capture_leaves_nothing], [install_uninstall], [win_collect_typed],
[win_measures_again], [collected_updates_fit], [create_points_chain],
[win_main_ends], [stop_resources], [metrics_sent],
[disk_usage_sum], [service_stops], [config_save_load], [dpkg_roundtrip],
[uninstall_keys_read], [x11_input_confined].  [win_update_reported] runs an update through
the agent for Windows.

Theorems without a number show defects on concrete inputs:
[install_result_dangling], [file_transfer_undefined], [parse_type_overflow],
[patch_id_as_option], [stop_all_misses_session], [part_path_not_confined],
[error_path_destroys_mutexes_in_use], [cmd_result_can_be_dropped],
[enrolment_accepts_bad_fingerprint], [incomplete_download_accepted],
[hello_joins_the_queue], [backoff_is_linear], [port_bounds_not_enforced],
[usage_above_100], [cpu_never_measured], [long_options_end_scan],
[win_timeout_not_enforced], [win_scroll_unbounded], [unadded_update_counted],
[update_size_overflow], [enumeration_never_ends], [long_version_undefined],
[win_inventory_dropped], [late_command_uses_freed_agent],
[late_session_uses_freed_agent], [existing_file_kept], [workdir_needs_drive],
[install_outlasts_wait], [stop_then_start_refused], [select_error_blocks],
[remote_desktop_undefined], [full_disk_loses_certificate],
[join_waits_for_listing], [failed_rename_grows], [packed_image_overread],
[shutdown_while_stopping_uses_closed_event].

** What is not modelled

The functions of cJSON the agent does not call; the branches for macOS; the text
of the log lines; JPEG compression and libwebsockets, which are inputs.  The work
of one command, one iteration of a periodic thread and one message are single
steps of the agent; [RemoteDesktop] has the interleavings inside the start of a
session, [Connection] those inside a send.  Time passes in [Shutdown] only in
that a wait may give up; [Budget] bounds what a command is allowed, not what the
machine takes to start and reap its children.  The wait of [leo_rd_stop], during
which the service thread stands still, is in [RemoteDesktop] ([ending_step]) and
is left out of [_on_message]: the agent may then handle the next message before
the session has ended, which only adds behaviours to those the theorems cover; so
does [step_listed], by which the patch thread sends a list it asked for before,
which only [Shutdown] restricts to one that was asked for.  A patch thread that
cannot allocate its buffer, and so ends at once, is left out.  The mutexes and
conditions of an agent are one resource in [Lifecycle] ([Sync]).  The test of
[lws_ctx] and the wake-up that follows it are one step of a sender.  The error
code [X509_STORE_CTX_set_error] gives a rejected certificate is left out of
[on_cert], which models the result of the callback.  A child that received
SIGKILL is taken to be reaped ([killed_status]); so is the end of every process
the operating system is asked to end.  What [lws_write] was given counts as
written, as in the code, which ignores its result. *)
From stdpp Require Export base tactics list gmap strings option relations.
From Stdlib Require Export ZArith Lia Ascii.
From Stdlib Require String.

Open Scope Z_scope.
Set Default Goal Selector "!".

(** ** Undefined behaviour

A computation of the C program either returns a value or reaches a point
where the C standard gives it no meaning ([Undef]), such as the conversion
of an out-of-range [double] to an integer type. *)

Inductive outcome (A : Type) : Type :=
| Ret (a : A)
| Undef.

Arguments Ret {A} a.
Arguments Undef {A}.

#[export] Instance outcome_ret : MRet outcome := @Ret.
#[export] Instance outcome_bind : MBind outcome := fun A B f m =>
  match m with Ret a => f a | Undef => Undef end.

Definition defined {A} (m : outcome A) : bool :=
  match m with Ret _ => true | Undef => false end.

(** ** Machine integers *)

Definition INT_MAX : Z := 2147483647.
Definition INT_MIN : Z := -2147483648.

(** Two's complement reading of the low 32 bits ([(int)] of a wider integer). *)
Definition wrap_s32 (z : Z) : Z := (z + 2 ^ 31) `mod` 2 ^ 32 - 2 ^ 31.

(** Two's complement reading of the low 16 bits ([int16_t]). *)
Definition wrap_s16 (z : Z) : Z := (z + 2 ^ 15) `mod` 2 ^ 16 - 2 ^ 15.

(** Unsigned wrap-around. *)
Definition wrap_u32 (z : Z) : Z := z `mod` 2 ^ 32.
Definition wrap_u64 (z : Z) : Z := z `mod` 2 ^ 64.

(** ** Tactics *)

(** Case analysis on the scrutinee of a [match] or [if] of the goal. *)
Ltac case_goal :=
  match goal with
  | |- context [match ?x with _ => _ end] =>
      lazymatch x with
      | context [match _ with _ => _ end] => fail
      | _ => destruct x eqn:?
      end
  end.

(** The same in the hypotheses. *)
Ltac case_hyp :=
  match goal with
  | H : context [match ?x with _ => _ end] |- _ =>
      lazymatch x with
      | context [match _ with _ => _ end] => fail
      | _ => destruct x eqn:?
      end
  end.

(** Turn boolean tests into propositions. *)
Ltac breflect :=
  repeat match goal with
  | H : (_ && _)%bool = true |- _ => apply andb_true_iff in H as [? ?]
  | H : (_ || _)%bool = false |- _ => apply orb_false_iff in H as [? ?]
  | H : negb _ = true |- _ => apply negb_true_iff in H
  | H : negb _ = false |- _ => apply negb_false_iff in H
  | H : (_ <? _) = true |- _ => apply Z.ltb_lt in H
  | H : (_ <? _) = false |- _ => apply Z.ltb_ge in H
  | H : (_ <=? _) = true |- _ => apply Z.leb_le in H
  | H : (_ <=? _) = false |- _ => apply Z.leb_gt in H
  | H : (_ =? _) = true |- _ => apply Z.eqb_eq in H
  | H : (_ =? _) = false |- _ => apply Z.eqb_neq in H
  | H : bool_decide _ = true |- _ => apply bool_decide_eq_true in H
  | H : bool_decide _ = false |- _ => apply bool_decide_eq_false in H
  end.

(** Everything at once, for goals that are decided by their branches. *)
Ltac branches := repeat (case_goal; breflect; simplify_eq/=); try done; try lia.

(** The hint database of the development: lengths and bounds. *)
Create HintDb leo discriminated.
Create Rewrite HintDb len.
#[export] Hint Rewrite @length_take @length_drop @length_app @length_insert
  @length_replicate @length_fmap @length_reverse : len.

Ltac len := autorewrite with len in *; simpl in *; try lia.

(** ** Integers *)

Lemma wrap_s32_id z : INT_MIN <= z <= INT_MAX -> wrap_s32 z = z.
Proof. unfold wrap_s32, INT_MIN, INT_MAX. intros ?. rewrite Z.mod_small; lia. Qed.

Lemma wrap_s32_range z : INT_MIN <= wrap_s32 z <= INT_MAX.
Proof.
  unfold wrap_s32, INT_MIN, INT_MAX.
  pose proof (Z.mod_pos_bound (z + 2 ^ 31) (2 ^ 32)). lia.
Qed.

Lemma wrap_u64_id z : 0 <= z < 2 ^ 64 -> wrap_u64 z = z.
Proof. intros ?. apply Z.mod_small. lia. Qed.

Lemma wrap_u64_range z : 0 <= wrap_u64 z < 2 ^ 64.
Proof. apply Z.mod_pos_bound. lia. Qed.

(** A decidable property of a byte holds when it holds of all 256 of them. *)
Lemma forall_byte (P : Z -> bool) b :
  forallb (fun n => P (Z.of_nat n)) (seq 0 256) = true -> 0 <= b < 256 -> P b = true.
Proof.
  intros H Hb. rewrite forallb_forall in H. specialize (H (Z.to_nat b)).
  rewrite Z2Nat.id in H by lia. apply H, in_seq. lia.
Qed.

#[export] Hint Resolve wrap_s32_range wrap_u64_range : leo.

(** ** Lists *)

Lemma take_length_le {A} (n : nat) (l : list A) : (length (take n l) <= n)%nat.
Proof. len. Qed.

Lemma take_Z_all {A} (n : Z) (l : list A) :
  Z.of_nat (length l) <= n -> take (Z.to_nat n) l = l.
Proof. intros ?. apply take_ge. lia. Qed.

Lemma elem_of_take_in {A} (x : A) n l : x ∈ take n l -> x ∈ l.
Proof. intros H. rewrite <- (take_drop n l), elem_of_app. by left. Qed.

Lemma elem_of_drop_in {A} (x : A) n l : x ∈ drop n l -> x ∈ l.
Proof. intros H. rewrite <- (take_drop n l), elem_of_app. by right. Qed.

Lemma prefix_sublist {A} (l k : list A) : l `prefix_of` k -> l `sublist_of` k.
Proof. intros [m ->]. by apply sublist_inserts_r. Qed.

(** Reachability of a step relation preserves an invariant. *)
Lemma rtc_invariant {A} (R : relation A) (P : A -> Prop) :
  (forall x y, P x -> R x y -> P y) -> forall x y, rtc R x y -> P x -> P y.
Proof. intros Hstep x y. induction 1; eauto. Qed.
