(* ===== verification/CString.v ===== *)
(** C strings, character classes and the few [<string.h>], [<stdlib.h>] and
    [<stdio.h>] functions the agent relies on.

    A C string is the list of its characters before the terminating NUL, a
    buffer of [sz] bytes that holds a string is the string it holds, and the
    copies that truncate ([strncpy] into [sz - 1] bytes followed by a NUL,
    [snprintf] of a buffer of [sz] bytes) are [fit sz].  Sizes are integers of
    type [Z].  The character classes are those of the "C" locale, which the
    agent never changes.  Functions of the C library have no counterpart in
    the repository and are modelled here once for all components. *)
From S2P Require Import Prelude.

Definition str (s : string) : list ascii := String.list_ascii_of_string s.
#[global] Arguments str _ : simpl never.

Definition NUL : ascii := "000"%char.
Definition LF : ascii := "010"%char.
Definition CR : ascii := "013"%char.
Definition TAB : ascii := "009"%char.

Definition code (c : ascii) : Z := Z.of_N (N_of_ascii c).

Definition strlen (s : list ascii) : Z := Z.of_nat (length s).

(** The string a byte sequence holds: everything before the first NUL. *)
Fixpoint c_str (s : list ascii) : list ascii :=
  match s with
  | [] => []
  | c :: s' => if bool_decide (c = NUL) then [] else c :: c_str s'
  end.

(** What a buffer of [sz] bytes holds after a truncating copy of [s]. *)
Definition fit (sz : Z) (s : list ascii) : list ascii := take (Z.to_nat (sz - 1)) s.

Definition streq (a b : list ascii) : bool := bool_decide (a = b).

(** [strncmp (p, s, strlen p) == 0]. *)
Fixpoint starts_with (p s : list ascii) : bool :=
  match p, s with
  | [], _ => true
  | a :: p', b :: s' => bool_decide (a = b) && starts_with p' s'
  | _, _ => false
  end.

(** [strchr]: the index of the first occurrence. *)
Fixpoint strchr (s : list ascii) (c : ascii) : option nat :=
  match s with
  | [] => None
  | b :: s' => if bool_decide (b = c) then Some O else S <$> strchr s' c
  end.

(** [strstr (s, p) != NULL]. *)
Fixpoint has_substr (p s : list ascii) : bool :=
  starts_with p s ||
  match s with
  | [] => false
  | _ :: s' => has_substr p s'
  end.

(** ** Character classes *)

Definition isdigit (c : ascii) : bool := (48 <=? code c) && (code c <=? 57).
Definition isupper (c : ascii) : bool := (65 <=? code c) && (code c <=? 90).
Definition islower (c : ascii) : bool := (97 <=? code c) && (code c <=? 122).
Definition isalnum (c : ascii) : bool := isdigit c || isupper c || islower c.
Definition isspace (c : ascii) : bool :=
  (code c =? 32) || ((9 <=? code c) && (code c <=? 13)).

Definition tolower (c : ascii) : ascii :=
  if isupper c then ascii_of_N (N_of_ascii c + 32) else c.

(** [strcasecmp (a, b) == 0]. *)
Definition strcaseeq (a b : list ascii) : bool :=
  bool_decide (tolower <$> a = tolower <$> b).

(** ** Numbers *)

(** The digits at the head of a string, as a number: [strtol]'s inner loop. *)
Fixpoint read_digits (acc : Z) (s : list ascii) : Z :=
  match s with
  | c :: s' => if isdigit c then read_digits (acc * 10 + (code c - 48)) s' else acc
  | [] => acc
  end.

Fixpoint skip_space (s : list ascii) : list ascii :=
  match s with
  | c :: s' => if isspace c then skip_space s' else s
  | [] => []
  end.

(** [strtol] in base 10: blanks, a sign, digits; saturates at 64 bits. *)
Definition strtol (s : list ascii) : Z :=
  let t := skip_space s in
  let v := match t with
           | c :: t' =>
               if code c =? 45 then - read_digits 0 t'
               else if code c =? 43 then read_digits 0 t'
               else read_digits 0 t
           | [] => 0
           end in
  Z.max (- 2 ^ 63) (Z.min (2 ^ 63 - 1) v).

(** [atoi] is [(int) strtol (s, NULL, 10)]. *)
Definition atoi (s : list ascii) : Z := wrap_s32 (strtol s).

(** [strtoull] in base 10: a sign negates modulo [2 ^ 64], overflow saturates. *)
Definition strtoull (s : list ascii) : Z :=
  let sat (n : Z) (neg : bool) :=
    if 2 ^ 64 <=? n then 2 ^ 64 - 1 else if neg then wrap_u64 (- n) else n in
  match skip_space s with
  | c :: t =>
      if code c =? 45 then sat (read_digits 0 t) true
      else if code c =? 43 then sat (read_digits 0 t) false
      else sat (read_digits 0 (c :: t)) false
  | [] => 0
  end.

Definition digit (d : Z) : ascii := ascii_of_N (Z.to_N (48 + d)).

(** The decimal digits of [n], most significant first, in front of [acc]. *)
Fixpoint dec_digits (fuel : nat) (n : Z) (acc : list ascii) : list ascii :=
  match fuel with
  | O => acc
  | S fuel' =>
      if n <? 10 then digit n :: acc
      else dec_digits fuel' (n `div` 10) (digit (n `mod` 10) :: acc)
  end.

(** Twenty digits hold every 64-bit number. *)
Definition dec (n : Z) : list ascii := dec_digits 20 n [].

(** [printf "%d"]. *)
Definition fmt_d (n : Z) : list ascii := if n <? 0 then "-"%char :: dec (- n) else dec n.

Definition hex_digit (d : Z) : ascii :=
  if d <? 10 then ascii_of_N (Z.to_N (48 + d)) else ascii_of_N (Z.to_N (87 + d)).

(** [printf "%02x"] of a byte. *)
Definition hex2 (b : Z) : list ascii := [hex_digit (b `div` 16); hex_digit (b `mod` 16)].

(** [%0wlx] of a 32-bit number. *)
Fixpoint hex_digits (fuel : nat) (n : Z) (acc : list ascii) : list ascii :=
  match fuel with
  | O => acc
  | S fuel' => if n <? 16 then hex_digit n :: acc else hex_digits fuel' (n `div` 16) (hex_digit (n `mod` 16) :: acc)
  end.

Definition fmt_x (width : nat) (n : Z) : list ascii :=
  let d := hex_digits 8 n [] in replicate (width - length d) "0"%char ++ d.

(** ** Reading lines *)

(** The successive results of [fgets (line, sz, fp)] on a stream that holds
    [s]: each reads at most [sz - 1] characters and stops after a newline.
    [room] is what the current line can still take. *)
Fixpoint fgets_lines (max room : nat) (acc s : list ascii) : list (list ascii) :=
  match s with
  | [] => match acc with [] => [] | _ => [reverse acc] end
  | c :: s' =>
      if bool_decide (c = LF) || bool_decide (room = 1%nat)
      then reverse (c :: acc) :: fgets_lines max max [] s'
      else fgets_lines max (Nat.pred room) (c :: acc) s'
  end.

Definition fgets_all (sz : Z) (s : list ascii) : list (list ascii) :=
  let max := Z.to_nat (sz - 1) in fgets_lines max max [] s.

(** The loop [while (len > 0 && (s[len-1] == '\n' || s[len-1] == '\r'))
    s[--len] = 0] that several readers apply to a line. *)
Fixpoint drop_eol (r : list ascii) : list ascii :=
  match r with
  | c :: r' => if bool_decide (c = LF) || bool_decide (c = CR) then drop_eol r' else r
  | [] => []
  end.

Definition strip_eol (s : list ascii) : list ascii := reverse (drop_eol (reverse s)).

(** ** Lemmas *)

Lemma strlen_nonneg s : 0 <= strlen s.
Proof. unfold strlen. lia. Qed.

Lemma strlen_app a b : strlen (a ++ b) = strlen a + strlen b.
Proof. unfold strlen. rewrite length_app. lia. Qed.

Lemma strlen_nil s : strlen s = 0 -> s = [].
Proof. destruct s; [done|]. unfold strlen. simpl. lia. Qed.

Lemma fit_length sz s : 1 <= sz -> strlen (fit sz s) < sz.
Proof. unfold strlen, fit. intros ?. len. Qed.

Lemma fit_id sz s : strlen s < sz -> fit sz s = s.
Proof. unfold strlen, fit. intros ?. apply take_ge. lia. Qed.

Lemma fit_length_le sz s : strlen (fit sz s) <= strlen s.
Proof. unfold strlen, fit. len. Qed.

Lemma fit_nil sz s : 2 <= sz -> fit sz s = [] -> s = [].
Proof.
  unfold fit. intros ? H. destruct s; [done|].
  destruct (Z.to_nat (sz - 1)) eqn:E; [lia|done].
Qed.

Lemma fit_idemp sz s : fit sz (fit sz s) = fit sz s.
Proof. unfold fit. rewrite take_take. f_equal. lia. Qed.

#[export] Hint Resolve strlen_nonneg fit_length fit_length_le : leo.

Lemma starts_with_app p s : starts_with p (p ++ s) = true.
Proof. induction p; simpl; [done|]. rewrite bool_decide_true by done. done. Qed.

Lemma starts_with_inv p s : starts_with p s = true -> exists r, s = p ++ r.
Proof.
  revert s. induction p as [|a p IH]; intros s; simpl; [eauto|].
  destruct s; [done|]. intros [->%bool_decide_eq_true [r ->]%IH]%andb_true_iff.
  exists r. done.
Qed.

#[global] Arguments starts_with _ _ : simpl never.

Lemma strchr_None s c : strchr s c = None <-> c ∉ s.
Proof.
  induction s as [|b s IH]; simpl; [set_solver|].
  case_bool_decide; subst; [set_solver|].
  rewrite fmap_None, IH. set_solver.
Qed.

Lemma strchr_Some s c i :
  strchr s c = Some i -> s = take i s ++ c :: drop (S i) s /\ c ∉ take i s.
Proof.
  revert i. induction s as [|b s IH]; simpl; [done|]. intros i.
  case_bool_decide; subst.
  - intros [= <-]. simpl. rewrite drop_0. set_solver.
  - intros (j & [E N]%IH & ->)%fmap_Some. simpl. split; [f_equal; done|set_solver].
Qed.

Lemma strchr_app s c t : c ∉ s -> strchr (s ++ c :: t) c = Some (length s).
Proof.
  induction s as [|b s IH]; simpl; intros N.
  - rewrite bool_decide_true; done.
  - rewrite bool_decide_false by set_solver. rewrite IH by set_solver. done.
Qed.

Lemma strchr_app_notin s c t : c ∉ s -> strchr (s ++ t) c = (fun i => (length s + i)%nat) <$> strchr t c.
Proof.
  induction s as [|b s IH]; simpl; intros N.
  - destruct (strchr t c); done.
  - rewrite bool_decide_false by set_solver. rewrite IH by set_solver.
    destruct (strchr t c); done.
Qed.

Lemma strchr_lt s c i : strchr s c = Some i -> (i < length s)%nat.
Proof.
  revert i. induction s as [|b s IH]; simpl; [done|]. intros i.
  case_bool_decide; [intros [= <-]; lia|].
  intros (j & ?%IH & ->)%fmap_Some. lia.
Qed.

Lemma c_str_id s : NUL ∉ s -> c_str s = s.
Proof.
  induction s as [|c s IH]; simpl; intros N; [done|].
  rewrite bool_decide_false by set_solver. rewrite IH; set_solver.
Qed.

Lemma c_str_length s : strlen (c_str s) <= strlen s.
Proof. unfold strlen. induction s as [|c s IH]; simpl; [lia|]. destruct (bool_decide _); simpl; lia. Qed.

Lemma c_str_prefix s : c_str s `prefix_of` s.
Proof.
  induction s as [|c s IH]; simpl; [done|]. case_bool_decide; [apply prefix_nil|by apply prefix_cons].
Qed.

Lemma c_str_no_nul s : NUL ∉ c_str s.
Proof.
  induction s as [|c s IH]; simpl; [set_solver|]. case_bool_decide; set_solver.
Qed.

(** *** Decimal numbers *)

Lemma code_range c : 0 <= code c < 256.
Proof. unfold code. pose proof (N_ascii_bounded c). lia. Qed.

Lemma code_of_N n : (n < 256)%N -> code (ascii_of_N n) = Z.of_N n.
Proof. intros ?. unfold code. rewrite N_ascii_embedding; done. Qed.

Lemma code_digit d : 0 <= d < 10 -> code (digit d) = 48 + d.
Proof. intros ?. unfold digit. rewrite code_of_N; lia. Qed.

Lemma isdigit_digit d : 0 <= d < 10 -> isdigit (digit d) = true.
Proof. intros ?. unfold isdigit. rewrite code_digit by done. lia. Qed.

Definition all_digits (s : list ascii) : Prop := Forall (fun c => isdigit c = true) s.

Lemma dec_digits_all fuel n acc :
  0 <= n -> all_digits acc -> all_digits (dec_digits fuel n acc).
Proof.
  revert n acc. induction fuel as [|fuel IH]; intros n acc Hn Hacc; simpl; [done|].
  case_goal; breflect.
  - constructor; [apply isdigit_digit; lia|done].
  - apply IH; [apply Z.div_pos; lia|].
    constructor; [apply isdigit_digit, Z.mod_pos_bound; lia|done].
Qed.

Lemma read_digits_dec fuel n acc a :
  0 <= n < 10 ^ Z.of_nat fuel ->
  exists k, 0 <= k /\ read_digits a (dec_digits fuel n acc) = read_digits (a * 10 ^ k + n) acc.
Proof.
  revert n acc a. induction fuel as [|fuel IH]; intros n acc a Hn.
  - exists 0. simpl in *. replace n with 0 by lia. split; [done|]. f_equal. lia.
  - simpl dec_digits. case_goal; breflect.
    + exists 1. split; [lia|]. simpl. rewrite isdigit_digit, code_digit by lia. f_equal. lia.
    + assert (0 <= n `div` 10 < 10 ^ Z.of_nat fuel) as Hd.
      { split; [apply Z.div_pos; lia|]. apply Z.div_lt_upper_bound; [lia|].
        rewrite Nat2Z.inj_succ, Z.pow_succ_r in Hn by lia. lia. }
      destruct (IH _ (digit (n `mod` 10) :: acc) a Hd) as (k & Hk & ->).
      pose proof (Z.mod_pos_bound n 10 ltac:(lia)) as Hm.
      exists (k + 1). split; [lia|].
      change (read_digits ?x (?c :: ?t)) with
        (if isdigit c then read_digits (x * 10 + (code c - 48)) t else x).
      rewrite isdigit_digit, code_digit by lia.
      f_equal. rewrite Z.pow_add_r by lia.
      pose proof (Z.div_mod n 10 ltac:(lia)). lia.
Qed.

Lemma read_digits_stop a s : (forall c, head s = Some c -> isdigit c = false) -> read_digits a s = a.
Proof. destruct s as [|c s]; simpl; [done|]. intros ->; done. Qed.

(** Decimal text reads back, whatever follows it. *)
Lemma read_dec n t :
  0 <= n < 10 ^ 20 -> (forall c, head t = Some c -> isdigit c = false) ->
  read_digits 0 (dec n ++ t) = n.
Proof.
  intros Hn Ht. unfold dec.
  assert (forall fuel m acc, dec_digits fuel m acc ++ t = dec_digits fuel m (acc ++ t)) as Happ.
  { clear. intros fuel. induction fuel as [|f IH]; intros m acc; simpl; [done|].
    case_goal; [done|]. rewrite IH. done. }
  rewrite Happ. destruct (read_digits_dec 20 n ([] ++ t) 0 Hn) as (k & _ & ->).
  simpl. rewrite read_digits_stop by done. lia.
Qed.

Lemma dec_nonempty n : 0 <= n -> exists c s, dec n = c :: s /\ isdigit c = true.
Proof.
  intros Hn. unfold dec.
  assert (forall fuel m acc, 0 <= m -> (fuel <> 0)%nat ->
    exists c s, dec_digits fuel m acc = c :: s) as H.
  { clear. intros fuel. induction fuel as [|f IH]; intros m acc Hm Hf; [done|]. simpl.
    case_goal; [eauto|]. destruct f; [simpl; eauto|]. apply IH; [apply Z.div_pos; lia|done]. }
  destruct (H 20%nat n [] Hn ltac:(done)) as (c & s & E). exists c, s. split; [done|].
  pose proof (dec_digits_all 20 n [] Hn ltac:(constructor)) as A. rewrite E in A.
  by inversion A.
Qed.

Lemma isdigit_spec c : isdigit c = true -> 48 <= code c <= 57.
Proof. unfold isdigit. intros. breflect. lia. Qed.

Lemma isspace_spec c : isspace c = true -> code c = 32 \/ 9 <= code c <= 13.
Proof. unfold isspace. intros [?|?]%orb_true_iff; breflect; lia. Qed.

Lemma skip_space_id s : (forall c, head s = Some c -> isspace c = false) -> skip_space s = s.
Proof. destruct s as [|c s]; simpl; [done|]. intros ->; done. Qed.

Lemma skip_space_suffix s : exists p, s = p ++ skip_space s.
Proof.
  induction s as [|c s [p IH]]; simpl; [by exists []|].
  destruct (isspace c); [exists (c :: p); simpl; congruence|by exists []].
Qed.

Lemma skip_space_length s : (length (skip_space s) <= length s)%nat.
Proof. destruct (skip_space_suffix s) as [p E]. rewrite E at 2. rewrite length_app. lia. Qed.

Lemma strtol_dec n t :
  0 <= n < 2 ^ 63 -> (forall c, head t = Some c -> isdigit c = false) ->
  strtol (dec n ++ t) = n.
Proof.
  intros Hn Ht. pose proof (read_dec n t ltac:(lia) Ht) as R.
  destruct (dec_nonempty n ltac:(lia)) as (c & s & E & D). rewrite E in *.
  unfold strtol. pose proof (isdigit_spec c D).
  rewrite skip_space_id.
  2:{ intros c' [= <-]. unfold isspace. destruct (isspace c) eqn:S; [|done].
      apply isspace_spec in S. lia. }
  simpl app. cbv beta iota.
  assert ((code c =? 45) = false) as -> by lia. assert ((code c =? 43) = false) as -> by lia.
  simpl app in R. rewrite R. lia.
Qed.

Lemma strtol_fmt_d n t :
  INT_MIN <= n <= INT_MAX -> (forall c, head t = Some c -> isdigit c = false) ->
  strtol (fmt_d n ++ t) = n.
Proof.
  unfold INT_MIN, INT_MAX. intros Hn Ht. unfold fmt_d. case_goal; breflect.
  - unfold strtol. simpl. rewrite read_dec by (done || lia). lia.
  - apply strtol_dec; [lia|done].
Qed.

(** [atoi] reads back what [%d] printed. *)
Lemma atoi_fmt_d n t :
  INT_MIN <= n <= INT_MAX -> (forall c, head t = Some c -> isdigit c = false) ->
  atoi (fmt_d n ++ t) = n.
Proof. intros. unfold atoi. rewrite strtol_fmt_d by done. by apply wrap_s32_id. Qed.

Lemma atoi_range s : INT_MIN <= atoi s <= INT_MAX.
Proof. apply wrap_s32_range. Qed.

Lemma fmt_d_chars n c : c ∈ fmt_d n -> code c = 45 \/ 48 <= code c <= 57.
Proof.
  unfold fmt_d. assert (forall m, 0 <= m -> c ∈ dec m -> code c = 45 \/ 48 <= code c <= 57) as D.
  { intros m Hm Hc. pose proof (dec_digits_all 20 m [] Hm ltac:(constructor)) as A.
    unfold all_digits in A. rewrite Forall_forall in A. apply A, isdigit_spec in Hc. lia. }
  case_goal; breflect; [|apply D; lia].
  intros [->|Hc]%elem_of_cons; [by left|]. apply (D (- n)); [lia|done].
Qed.

Lemma dec_digits_length fuel n acc :
  (length (dec_digits fuel n acc) <= fuel + length acc)%nat.
Proof.
  revert n acc. induction fuel as [|fuel IH]; intros n acc; simpl; [lia|].
  case_goal; [simpl; lia|]. etrans; [apply IH|]. cbn [length]. lia.
Qed.

(** A number below [10 ^ k] has at most [k] digits. *)
Lemma dec_length n k : 0 <= n < 10 ^ Z.of_nat k -> (0 < k)%nat -> (length (dec n) <= k)%nat.
Proof.
  unfold dec. intros Hn Hk.
  assert (forall fuel m acc j, 0 <= m < 10 ^ Z.of_nat (S j) ->
    (length (dec_digits fuel m acc) <= S j + length acc)%nat) as H.
  { clear. intros fuel. induction fuel as [|f IH]; intros m acc j Hm; simpl; [lia|].
    destruct (Z.ltb_spec m 10); [simpl; lia|]. destruct j as [|j]; [simpl in Hm; lia|].
    rewrite Nat2Z.inj_succ, Z.pow_succ_r in Hm by lia. etrans; [apply (IH _ _ j)|cbn [length]; lia].
    split; [apply Z.div_pos; lia|]. apply Z.div_lt_upper_bound; lia. }
  destruct k; [lia|]. specialize (H 20%nat n [] k Hn). cbn [length] in H. lia.
Qed.

Lemma fmt_d_length z : strlen (fmt_d z) <= 21.
Proof.
  unfold strlen, fmt_d. destruct (z <? 0); cbn [length]; unfold dec.
  - pose proof (dec_digits_length 20 (- z) []). cbn [length] in *. lia.
  - pose proof (dec_digits_length 20 z []). cbn [length] in *. lia.
Qed.

(** *** Lines *)

Lemma fgets_line_go max room acc l s :
  LF ∉ l -> (length l < room)%nat ->
  fgets_lines max room acc (l ++ LF :: s) = (reverse acc ++ l ++ [LF]) :: fgets_lines max max [] s.
Proof.
  revert room acc. induction l as [|c l IH]; intros room acc N L; simpl.
  - rewrite reverse_cons. done.
  - rewrite bool_decide_false by set_solver.
    rewrite bool_decide_false by (simpl in L; lia). simpl.
    rewrite IH; [|set_solver|simpl in L; lia].
    rewrite reverse_cons, <- (assoc_L (++)). done.
Qed.

(** Short lines are read one by one, whatever follows them. *)
Lemma fgets_all_app sz ls rest :
  Forall (fun l => (LF ∉ l) /\ strlen l < sz - 1) ls ->
  fgets_all sz (concat (map (fun l => l ++ [LF]) ls) ++ rest) = map (fun l => l ++ [LF]) ls ++ fgets_all sz rest.
Proof.
  unfold fgets_all. induction 1 as [|l ls [N L] _ IH]; simpl; [done|].
  rewrite <- !(assoc_L (++)). simpl. rewrite fgets_line_go; [|done|unfold strlen in L; lia].
  rewrite IH. done.
Qed.

(** A text made of short lines is read line by line. *)
Lemma fgets_all_lines sz ls :
  Forall (fun l => (LF ∉ l) /\ strlen l < sz - 1) ls ->
  fgets_all sz (concat (map (fun l => l ++ [LF]) ls)) = map (fun l => l ++ [LF]) ls.
Proof. intros H. rewrite <- (app_nil_r (concat _)), fgets_all_app by done. apply app_nil_r. Qed.

(** The first line is the beginning of the text. *)
Lemma fgets_head_prefix sz s l ls : fgets_all sz s = l :: ls -> l `prefix_of` s.
Proof.
  unfold fgets_all. generalize (Z.to_nat (sz - 1)) at 2. generalize (Z.to_nat (sz - 1)). intros max room.
  assert (forall room acc, fgets_lines max room acc s = l :: ls -> l `prefix_of` reverse acc ++ s) as H;
    [|intros E; by apply H in E].
  induction s as [|c s IH]; intros room' acc; simpl.
  - destruct acc; [done|]. intros [= <- _]. by rewrite app_nil_r.
  - destruct (_ || _).
    + intros [= <- _]. rewrite reverse_cons. exists s. by rewrite <- (assoc_L (++)).
    + intros E. apply IH in E. by rewrite reverse_cons, <- (assoc_L (++)) in E.
Qed.

(** The characters of each line read are characters of the text. *)
Lemma starts_with_prefix p l s : starts_with p l = true -> l `prefix_of` s -> starts_with p s = true.
Proof. intros [r ->]%starts_with_inv [q ->]. rewrite <- (assoc_L (++)). apply starts_with_app. Qed.

(** *** Hexadecimal *)

Definition is_hex (c : ascii) : bool :=
  isdigit c || ((97 <=? code c) && (code c <=? 102)).

Lemma hex_digit_is_hex d : 0 <= d < 16 -> is_hex (hex_digit d) = true.
Proof.
  intros ?. unfold hex_digit, is_hex, isdigit.
  destruct (Z.ltb_spec d 10); rewrite code_of_N, Z2N.id by lia; apply orb_true_iff;
    [left|right]; lia.
Qed.

Lemma hex2_length b : length (hex2 b) = 2%nat.
Proof. done. Qed.

Lemma hex_digit_inj a b : 0 <= a < 16 -> 0 <= b < 16 -> hex_digit a = hex_digit b -> a = b.
Proof.
  intros ?? E. apply (f_equal code) in E. revert E. unfold hex_digit.
  destruct (Z.ltb_spec a 10), (Z.ltb_spec b 10); rewrite !code_of_N by lia; lia.
Qed.

Lemma hex2_inj a b : 0 <= a < 256 -> 0 <= b < 256 -> hex2 a = hex2 b -> a = b.
Proof.
  intros Ha Hb [= E1 E2].
  apply hex_digit_inj in E2; [|apply Z.mod_pos_bound; lia..].
  apply hex_digit_inj in E1;
    [|split; [apply Z.div_pos; lia|apply Z.div_lt_upper_bound; lia]..].
  pose proof (Z.div_mod a 16 ltac:(lia)). pose proof (Z.div_mod b 16 ltac:(lia)). lia.
Qed.
