(* ===== verification/Ledger.v ===== *)
(** Sequences of acquisitions and releases of resources that depend on each
    other.  Replaying a sequence fails on a double acquisition, on an
    acquisition before what the resource needs, on the release of something
    not held, and on the release of something that another resource still
    needs. *)
From S2P Require Import Prelude.

Section ledger.
Context {R : Type} `{EqDecision R} (needs : R -> list R).

Inductive entry : Type := Get (r : R) | Put (r : R).

Definition needed (held : list R) (r : R) : bool := existsb (fun h => bool_decide (r ∈ needs h)) held.

(** Replay entries on the resources held. *)
Fixpoint replay (held : list R) (es : list entry) : option (list R) :=
  match es with
  | [] => Some held
  | Get r :: es' =>
      if bool_decide (r ∈ held) || negb (forallb (fun n => bool_decide (n ∈ held)) (needs r)) then None
      else replay (r :: held) es'
  | Put r :: es' =>
      if negb (bool_decide (r ∈ held)) then None
      else
        let held' := List.filter (fun h => negb (bool_decide (h = r))) held in
        if needed held' r then None else replay held' es'
  end.

Lemma replay_app held es es' : replay held (es ++ es') = held' ← replay held es; replay held' es'.
Proof.
  revert held. induction es as [|[r|r] es IH]; intros held; [done|..]; cbn [app replay].
  - destruct (_ || _); [done|]. apply IH.
  - destruct (negb _); [done|]. destruct (needed _ r); [done|]. apply IH.
Qed.

(** Entries that leave what is held as it was. *)
Definition neutral (held : list R) (es : list entry) : Prop := replay held es = Some held.

Lemma neutral_nil held : neutral held [].
Proof. done. Qed.

Lemma neutral_app held es es' : neutral held es -> neutral held es' -> neutral held (es ++ es').
Proof. intros H1 H2. unfold neutral. by rewrite replay_app, H1. Qed.

Lemma neutral_scope held r es :
  r ∉ held -> Forall (fun n => n ∈ held) (needs r) -> needed held r = false -> neutral (r :: held) es ->
  neutral held ([Get r] ++ es ++ [Put r]).
Proof.
  intros Hr Hn Hu He. unfold neutral. cbn [app replay]. rewrite bool_decide_false by done.
  assert (forallb (fun n => bool_decide (n ∈ held)) (needs r) = true) as ->.
  { apply forallb_forall. intros n Hin. apply bool_decide_eq_true. rewrite Forall_forall in Hn. by apply Hn, list_elem_of_In. }
  cbn [negb orb]. rewrite replay_app, He. cbn [mbind option_bind replay].
  rewrite bool_decide_true by left. cbn [negb List.filter]. rewrite bool_decide_true by done. cbn [negb].
  assert (List.filter (fun h => negb (bool_decide (h = r))) held = held) as ->; [|by rewrite Hu].
  clear -Hr. induction held as [|h held IH]; [done|]. cbn. apply not_elem_of_cons in Hr as [Hh Ht].
  rewrite bool_decide_false by congruence. cbn. by rewrite IH.
Qed.

End ledger.

Arguments entry R : clear implicits.
