(* ===== verification/Scan.v ===== *)
(** The conversions of [sscanf] and [fscanf] the agent uses.

    A conversion takes the input that is left and gives the value with the
    input after it, or [None] for a matching failure; a format is their
    composition in the option monad.  Blanks of a format, which match any
    number of blanks, are part of the conversions that skip blanks anyway
    ([%s], [%d], [%u], [%llu], [%f]) or written out as [skip_space].  Numbers
    too large for 64 bits saturate, as glibc's do. *)
From S2P Require Import Prelude CString.

(** [%Ns]: skip blanks, then up to [N] other characters. *)
Fixpoint word_run (n : nat) (s : list ascii) : list ascii * list ascii :=
  match n, s with
  | S n', c :: s' =>
      if isspace c then ([], s) else let '(w, r) := word_run n' s' in (c :: w, r)
  | _, _ => ([], s)
  end.

Definition scan_word (n : nat) (s : list ascii) : option (list ascii * list ascii) :=
  let '(w, r) := word_run n (skip_space s) in
  if bool_decide (w = []) then None else Some (w, r).

(** [%N[^c]]: up to [N] characters other than [c], at least one. *)
Fixpoint until_run (n : nat) (stop : ascii) (s : list ascii) : list ascii * list ascii :=
  match n, s with
  | S n', c :: s' =>
      if bool_decide (c = stop) then ([], s) else let '(w, r) := until_run n' stop s' in (c :: w, r)
  | _, _ => ([], s)
  end.

Definition scan_until (n : nat) (stop : ascii) (s : list ascii) : option (list ascii * list ascii) :=
  let '(w, r) := until_run n stop s in
  if bool_decide (w = []) then None else Some (w, r).

(** The ordinary characters of a format. *)
Definition scan_lit (lit s : list ascii) : option (list ascii) :=
  if starts_with lit s then Some (drop (length lit) s) else None.

Fixpoint skip_digits (s : list ascii) : list ascii :=
  match s with
  | c :: s' => if isdigit c then skip_digits s' else s
  | [] => []
  end.

(** A sign and at least one digit, after blanks. *)
Definition scan_num (s : list ascii) : option (bool * Z * list ascii) :=
  let t := skip_space s in
  let '(neg, t) := match t with
                   | c :: t' => if code c =? 45 then (true, t')
                                else if code c =? 43 then (false, t') else (false, t)
                   | [] => (false, t)
                   end in
  match t with
  | c :: _ => if isdigit c then Some (neg, read_digits 0 t, skip_digits t) else None
  | [] => None
  end.

(** [%llu]. *)
Definition scan_llu (s : list ascii) : option (Z * list ascii) :=
  '(neg, n, r) ← scan_num s;
  Some (if 2 ^ 64 <=? n then 2 ^ 64 - 1 else if (neg : bool) then wrap_u64 (- n) else n, r).

(** [%u]: the low 32 bits of the same number. *)
Definition scan_u (s : list ascii) : option (Z * list ascii) :=
  '(n, r) ← scan_llu s; Some (wrap_u32 n, r).

(** [%d]. *)
Definition scan_d (s : list ascii) : option (Z * list ascii) :=
  '(neg, n, r) ← scan_num s;
  Some (wrap_s32 (Z.max (- 2 ^ 63) (Z.min (2 ^ 63 - 1) (if (neg : bool) then - n else n))), r).

(** [k] successive [%llu]: the numbers read before the first failure. *)
Fixpoint scan_llus (k : nat) (s : list ascii) : list Z :=
  match k with
  | O => []
  | S k' => match scan_llu s with
            | Some (n, r) => n :: scan_llus k' r
            | None => []
            end
  end.

(** ** Lemmas *)

Lemma word_run_spec n s w r : word_run n s = (w, r) -> s = w ++ r /\ (length w <= n)%nat.
Proof.
  revert s w r. induction n as [|n IH]; intros s w r; [by intros [= <- <-]|].
  destruct s as [|c s]; simpl; [intros [= <- <-]; simpl; split; [done|lia]|].
  destruct (isspace c); [intros [= <- <-]; simpl; split; [done|lia]|].
  destruct (word_run n s) as [w' r'] eqn:E. intros [= <- <-]. apply IH in E as [-> ?]. simpl. split; [done|lia].
Qed.

(** A word is not empty, fits its width, and is consumed. *)
Lemma scan_word_spec n s w r :
  scan_word n s = Some (w, r) -> w <> [] /\ (length w <= n)%nat /\ (length r < length s)%nat.
Proof.
  unfold scan_word. destruct (word_run _ _) as [w' r'] eqn:E. destruct (bool_decide _) eqn:B; [done|].
  intros [= <- <-]. apply bool_decide_eq_false in B. apply word_run_spec in E as [E L].
  split_and!; [done|done|]. pose proof (skip_space_length s). rewrite E, length_app in H.
  destruct w'; [done|]. simpl in H. lia.
Qed.

Lemma skip_digits_length s : (length (skip_digits s) <= length s)%nat.
Proof. induction s as [|c s IH]; simpl; [done|]. destruct (isdigit c); simpl; lia. Qed.

Lemma scan_num_spec s neg n r : scan_num s = Some (neg, n, r) -> 0 <= n /\ (length r <= length s)%nat.
Proof.
  unfold scan_num. pose proof (skip_space_length s) as L.
  assert (forall u acc, 0 <= acc -> 0 <= read_digits acc u) as R.
  { clear. induction u as [|c u IH]; intros acc ?; simpl; [done|]. destruct (isdigit c) eqn:D; [|done].
    apply isdigit_spec in D. apply IH. lia. }
  assert (forall u, (length (skip_digits u) <= length u)%nat) as K by apply skip_digits_length.
  destruct (skip_space s) as [|c t]; [done|].
  intros E. destruct (code c =? 45); [|destruct (code c =? 43)]; repeat case_hyp; simplify_eq;
    (split; [by apply R|]); etrans; try apply K; simpl in *; lia.
Qed.

Lemma scan_llu_range s n r : scan_llu s = Some (n, r) -> 0 <= n < 2 ^ 64.
Proof.
  unfold scan_llu. intros ([[neg m] r'] & E & H)%bind_Some. apply scan_num_spec in E as [E _].
  injection H as <- _. case_goal; breflect; [lia|]. destruct neg; [apply wrap_u64_range|lia].
Qed.

Lemma scan_u_range s n r : scan_u s = Some (n, r) -> 0 <= n < 2 ^ 32.
Proof.
  unfold scan_u. intros ([m r'] & E & H)%bind_Some. injection H as <- _. apply Z.mod_pos_bound. lia.
Qed.

Lemma scan_d_length s n r : scan_d s = Some (n, r) -> (length r <= length s)%nat.
Proof.
  unfold scan_d. intros ([[neg m] r'] & E & H)%bind_Some. apply scan_num_spec in E as [_ E]. by injection H as _ <-.
Qed.

Lemma scan_llus_range k s : Forall (fun n => 0 <= n < 2 ^ 64) (scan_llus k s).
Proof.
  revert s. induction k as [|k IH]; intros s; simpl; [done|].
  destruct (scan_llu s) as [[n r]|] eqn:E; constructor; [by eapply scan_llu_range|apply IH].
Qed.

Lemma scan_llus_length k s : (length (scan_llus k s) <= k)%nat.
Proof.
  revert s. induction k as [|k IH]; intros s; simpl; [done|].
  destruct (scan_llu s) as [[n r]|]; simpl; [|lia]. specialize (IH r). lia.
Qed.

(** *** Reading back what [printf] wrote *)

(** What may follow a number or a word. *)
Definition ends_number (t : list ascii) : Prop := forall c, head t = Some c -> isdigit c = false.
Definition ends_word (t : list ascii) : Prop := forall c, head t = Some c -> isspace c = true.
Definition is_word (w : list ascii) : Prop := w <> [] /\ Forall (fun c => isspace c = false) w.
Definition blank (s : list ascii) : Prop := Forall (fun c => isspace c = true) s.

Lemma space_not_digit c : isspace c = true -> isdigit c = false.
Proof.
  intros H%isspace_spec. destruct (isdigit c) eqn:D; [|done]. apply isdigit_spec in D. lia.
Qed.

Lemma ends_word_number t : ends_word t -> ends_number t.
Proof. intros H c Hc. by apply space_not_digit, H. Qed.

Lemma skip_space_blank b s : blank b -> skip_space (b ++ s) = skip_space s.
Proof. induction 1 as [|c b Hc _ IH]; simpl; [done|]. by rewrite Hc. Qed.

Lemma skip_digits_all d t : all_digits d -> ends_number t -> skip_digits (d ++ t) = t.
Proof.
  induction 1 as [|c d Hc _ IH]; intros Ht; simpl; [|by rewrite Hc, IH].
  destruct t as [|c t]; simpl; [done|]. by rewrite Ht.
Qed.

Lemma dec_all_digits n : 0 <= n -> all_digits (dec n).
Proof. intros ?. apply dec_digits_all; [done|constructor]. Qed.

(** [%llu] reads what [%llu] printed, after any blanks. *)
Lemma scan_llu_dec b n t : blank b -> 0 <= n < 2 ^ 64 -> ends_number t -> scan_llu (b ++ dec n ++ t) = Some (n, t).
Proof.
  intros Hb Hn Ht. unfold scan_llu, scan_num. rewrite skip_space_blank by done.
  destruct (dec_nonempty n ltac:(lia)) as (c & d & E & D). pose proof (isdigit_spec c D).
  assert (isspace c = false) as Sp.
  { destruct (isspace c) eqn:S; [|done]. apply space_not_digit in S. congruence. }
  rewrite skip_space_id by (rewrite E; simpl; congruence).
  pose proof (read_dec n t ltac:(lia) Ht) as R. pose proof (skip_digits_all (dec n) t (dec_all_digits n ltac:(lia)) Ht) as K.
  rewrite E in *. cbn [app] in *.
  assert ((code c =? 45) = false) as -> by lia. assert ((code c =? 43) = false) as -> by lia.
  rewrite D, R, K. simpl. assert ((2 ^ 64 <=? n) = false) as -> by lia. done.
Qed.

Lemma word_run_app w t n : Forall (fun c => isspace c = false) w -> ends_word t -> (length w <= n)%nat ->
  word_run n (w ++ t) = (w, t).
Proof.
  intros Hw Ht. revert n. induction Hw as [|c w Hc _ IH]; intros n Hn; simpl in *.
  - destruct n; [done|]. destruct t as [|c t]; simpl; [done|]. by rewrite Ht.
  - destruct n; [lia|]. simpl. rewrite Hc, IH by lia. done.
Qed.

Lemma scan_word_app n b w t : blank b -> is_word w -> ends_word t -> (length w <= n)%nat ->
  scan_word n (b ++ w ++ t) = Some (w, t).
Proof.
  intros Hb [Hne Hw] Ht Hn. unfold scan_word. rewrite skip_space_blank by done.
  rewrite skip_space_id.
  - rewrite word_run_app by done. by rewrite bool_decide_false.
  - destruct w as [|c w]; [done|]. simpl. intros ? [= <-]. by inversion Hw.
Qed.

Lemma scan_word_head n w t : is_word w -> ends_word t -> (length w <= n)%nat -> scan_word n (w ++ t) = Some (w, t).
Proof. apply (scan_word_app n []). constructor. Qed.

Lemma scan_lit_app lit t : scan_lit lit (lit ++ t) = Some t.
Proof. unfold scan_lit. by rewrite starts_with_app, drop_app_length. Qed.
