(* ===== verification/Double.v ===== *)
(** C [double] values: the part of IEEE-754 binary64 the agent computes with.

    A value is a NaN, an infinity or the dyadic number [m * 2 ^ e].  The
    agent compares doubles, converts integers to doubles, divides and
    multiplies numbers that are not negative (all rounding to nearest, ties to
    even) and truncates doubles to integer types; a conversion whose truncated
    value does not fit the target type is undefined behaviour (C11 6.3.1.4),
    which [cast_int] and [cast_u64] make explicit.  The numbers the agent
    computes with are far from the limits of the exponent, which the rounded
    operations leave out. *)
From S2P Require Import Prelude.

Inductive double : Type :=
| DNaN
| DInf (neg : bool)
| DFin (m e : Z).

#[export] Instance double_eq_dec : EqDecision double.
Proof. solve_decision. Defined.

(** The values a binary64 can hold. *)
Definition is_double (d : double) : bool :=
  match d with
  | DFin m e => (Z.abs m <? 2 ^ 53) && (-1074 <=? e) && (e <=? 971)
  | _ => true
  end.

(** [a < b] on finite values, over a common exponent. *)
Definition fin_lt (m1 e1 m2 e2 : Z) : bool :=
  let e := Z.min e1 e2 in m1 * 2 ^ (e1 - e) <? m2 * 2 ^ (e2 - e).

(** The C operator [<]: false as soon as one side is a NaN. *)
Definition dlt (a b : double) : bool :=
  match a, b with
  | DNaN, _ | _, DNaN => false
  | DInf n1, DInf n2 => n1 && negb n2
  | DInf n, DFin _ _ => n
  | DFin _ _, DInf n => negb n
  | DFin m1 e1, DFin m2 e2 => fin_lt m1 e1 m2 e2
  end.

Definition dgt (a b : double) : bool := dlt b a.

(** The C operator [>=] on values, for a right-hand side that is no NaN. *)
Definition dge (a b : double) : bool :=
  match a, b with
  | DNaN, _ | _, DNaN => false
  | _, _ => negb (dlt a b)
  end.

(** [v != v]. *)
Definition isnan (d : double) : bool := match d with DNaN => true | _ => false end.

(** Round [m] to 53 significant bits, ties to even. *)
Definition round53 (m : Z) : double :=
  let a := Z.abs m in
  let s := Z.max 0 (Z.log2 a - 52) in
  let q := a `div` 2 ^ s in
  let r := a `mod` 2 ^ s in
  let half := 2 ^ s in
  let q' := if (2 * r <? half) || ((2 * r =? half) && Z.even q) then q else q + 1 in
  if q' =? 2 ^ 53 then DFin (Z.sgn m * 2 ^ 52) (s + 1) else DFin (Z.sgn m * q') s.

(** [(double) z] for an integer of at most 64 bits. *)
Definition d_of_Z (z : Z) : double :=
  if Z.abs z <? 2 ^ 53 then DFin z 0 else round53 z.

(** The value truncated towards zero. *)
Definition d_trunc (d : double) : option Z :=
  match d with
  | DFin m e => Some (if 0 <=? e then m * 2 ^ e else Z.quot m (2 ^ (- e)))
  | _ => None
  end.

(** [(int) d]. *)
Definition cast_int (d : double) : outcome Z :=
  match d_trunc d with
  | Some z => if (INT_MIN <=? z) && (z <=? INT_MAX) then Ret z else Undef
  | None => Undef
  end.

(** [(uint64_t) d]. *)
Definition cast_u64 (d : double) : outcome Z :=
  match d_trunc d with
  | Some z => if (0 <=? z) && (z <? 2 ^ 64) then Ret z else Undef
  | None => Undef
  end.

(** ** Rounded operations on numbers that are not negative *)

(** A finite value as a fraction. *)
Definition fnum (d : double) : Z := match d with DFin m e => m * 2 ^ Z.max 0 e | _ => 0 end.
Definition fden (d : double) : Z := match d with DFin _ e => 2 ^ Z.max 0 (- e) | _ => 1 end.

(** [n / d] rounded to 53 significant bits, ties to even: scale the fraction
    so that its quotient has at least 53 bits, drop [k] of them. *)
Definition round_q (n d : Z) : double :=
  if n =? 0 then DFin 0 0
  else
    let s := Z.max 0 (Z.log2 d - Z.log2 n) + 54 in
    let num := n * 2 ^ s in
    let k := Z.log2 (num `div` d) - 52 in
    let den := d * 2 ^ k in
    let q := num `div` den in
    let r := num `mod` den in
    let q' := if (2 * r <? den) || ((2 * r =? den) && Z.even q) then q else q + 1 in
    if q' =? 2 ^ 53 then DFin (2 ^ 52) (k + 1 - s) else DFin q' (k - s).

(** [a / b] for [b] positive, and [a * b]. *)
Definition d_div (a b : double) : double := round_q (fnum a * fden b) (fden a * fnum b).
Definition d_mul (a b : double) : double := round_q (fnum a * fnum b) (fden a * fden b).

(** ** Lemmas *)

Lemma d_of_Z_exact z : Z.abs z < 2 ^ 53 -> d_of_Z z = DFin z 0.
Proof. intros ?. unfold d_of_Z. destruct (Z.ltb_spec (Z.abs z) (2 ^ 53)); [done|lia]. Qed.

(** Comparing a finite value with an integer is comparing numbers: clear the
    denominator. *)
Lemma fin_lt_int m e n :
  fin_lt m e n 0 = true <-> if 0 <=? e then m * 2 ^ e < n else m < n * 2 ^ (- e).
Proof.
  unfold fin_lt. destruct (Z.leb_spec 0 e).
  - rewrite Z.min_r, !Z.sub_0_r, Z.pow_0_r by lia. lia.
  - rewrite Z.min_l, Z.sub_diag, Z.pow_0_r by lia. rewrite Z.ltb_lt.
    replace (0 - e) with (- e) by lia. lia.
Qed.

Lemma int_lt_fin m e n :
  fin_lt n 0 m e = true <-> if 0 <=? e then n < m * 2 ^ e else n * 2 ^ (- e) < m.
Proof.
  unfold fin_lt. destruct (Z.leb_spec 0 e).
  - rewrite Z.min_l, !Z.sub_0_r, Z.pow_0_r by lia. lia.
  - rewrite Z.min_r, Z.sub_diag, Z.pow_0_r by lia. rewrite Z.ltb_lt.
    replace (0 - e) with (- e) by lia. lia.
Qed.

(** Truncation towards zero stays between two integer bounds of the value. *)
Lemma quot_between m p lo hi :
  0 < p -> lo * p <= m -> m <= hi * p -> lo <= Z.quot m p <= hi.
Proof.
  intros Hp Hlo Hhi.
  pose proof (Z.quot_le_mono (lo * p) m p Hp Hlo) as A.
  pose proof (Z.quot_le_mono m (hi * p) p Hp Hhi) as B.
  rewrite Z.quot_mul in A, B by lia. lia.
Qed.

(** A finite double between two integers truncates between them. *)
Lemma d_trunc_between m e lo hi :
  fin_lt m e lo 0 = false -> fin_lt hi 0 m e = false ->
  exists z, d_trunc (DFin m e) = Some z /\ lo <= z <= hi.
Proof.
  intros Hlo Hhi. eexists. split; [done|].
  apply not_true_iff_false in Hlo, Hhi.
  rewrite fin_lt_int in Hlo. rewrite int_lt_fin in Hhi.
  destruct (Z.leb_spec 0 e); [lia|].
  apply quot_between; [|lia..]. apply Z.pow_pos_nonneg; lia.
Qed.

(** *** Rounding *)

Lemma fden_pos d : 0 < fden d.
Proof. destruct d; simpl; lia. Qed.

(** A value of exponent [k - s] as a fraction. *)
Lemma frac_shift q k s : 0 <= k -> 0 <= s -> fnum (DFin q (k - s)) * 2 ^ s = q * 2 ^ k * fden (DFin q (k - s)).
Proof.
  intros Hk Hs. simpl. destruct (Z.le_ge_cases s k).
  - rewrite Z.max_r, Z.max_l, Z.pow_0_r, Z.mul_1_r by lia.
    rewrite <- Z.mul_assoc, <- Z.pow_add_r by lia. do 2 f_equal. lia.
  - rewrite Z.max_l, (Z.max_r 0), Z.pow_0_r, Z.mul_1_r by lia.
    rewrite <- Z.mul_assoc, <- Z.pow_add_r by lia. do 2 f_equal. lia.
Qed.

(** The quotient of the scaled fraction has 54 bits or more. *)
Lemma round_scale n d (s := Z.max 0 (Z.log2 d - Z.log2 n) + 54) :
  0 < n -> 0 < d -> 2 ^ 53 * d <= n * 2 ^ s.
Proof.
  intros Hn Hd. pose proof (Z.log2_spec n Hn) as [Ln _]. pose proof (Z.log2_spec d Hd) as [_ Ld].
  pose proof (Z.log2_nonneg n). pose proof (Z.log2_nonneg d).
  assert (2 ^ 53 * 2 ^ Z.succ (Z.log2 d) <= 2 ^ Z.log2 n * 2 ^ s) as Hp.
  { unfold s. rewrite <- !Z.pow_add_r by lia. apply Z.pow_le_mono_r; lia. }
  assert (0 < 2 ^ s) by (unfold s; apply Z.pow_pos_nonneg; lia). nia.
Qed.

(** What rounding does: the result is [q * 2 ^ k / 2 ^ s] with [q] next to the
    exact quotient, on the side of any number of the grid. *)
Lemma round_q_spec n d : 0 < n -> 0 < d ->
  exists q k s, 0 <= k /\ 54 <= s /\
    fnum (round_q n d) * 2 ^ s = q * 2 ^ k * fden (round_q n d) /\
    2 ^ 52 * (d * 2 ^ k) <= n * 2 ^ s /\ 2 ^ 52 <= q /\
    n * 2 ^ s - d * 2 ^ k <= q * (d * 2 ^ k) <= n * 2 ^ s + d * 2 ^ k /\
    (forall g, n * 2 ^ s <= g * (d * 2 ^ k) -> q <= g).
Proof.
  intros Hn Hd. pose proof (round_scale n d Hn Hd) as Hsc. unfold round_q.
  destruct (Z.eqb_spec n 0); [lia|]. cbv zeta.
  set (s := Z.max 0 (Z.log2 d - Z.log2 n) + 54) in *. set (num := n * 2 ^ s) in *.
  set (k := Z.log2 (num `div` d) - 52). set (den := d * 2 ^ k). set (q := num `div` den).
  assert (2 ^ 53 <= num `div` d) as Hv by (apply Z.div_le_lower_bound; lia).
  assert (0 <= k) as Hk.
  { unfold k. apply Z.log2_le_mono in Hv. rewrite Z.log2_pow2 in Hv by lia. lia. }
  assert (0 < 2 ^ k) as H2k by (apply Z.pow_pos_nonneg; lia).
  assert (0 < den) as Hden by (unfold den; nia).
  assert (2 ^ 52 <= q) as Hq.
  { unfold q, den. rewrite <- Z.div_div by lia. apply Z.div_le_lower_bound; [lia|].
    rewrite Z.mul_comm, <- Z.pow_add_r by lia. replace (52 + k) with (Z.log2 (num `div` d)) by (unfold k; lia).
    apply Z.log2_spec. lia. }
  pose proof (Z.div_mod num den ltac:(lia)) as Hdm. fold q in Hdm.
  pose proof (Z.mod_pos_bound num den Hden) as Hr. set (r := num `mod` den) in *.
  set (q' := if (_ || _)%bool then q else q + 1).
  assert (q <= q' <= q + 1) as Hq' by (unfold q'; destruct (_ || _)%bool; lia).
  exists q', k, s. assert (54 <= s) as Hs by (unfold s; lia).
  split_and!; [done|done| |nia|lia|nia|nia|].
  - destruct (Z.eqb_spec q' (2 ^ 53)) as [E|_]; [|apply frac_shift; lia].
    rewrite E. rewrite (frac_shift (2 ^ 52) (k + 1) s) by lia. rewrite Z.pow_add_r by lia. lia.
  - intros g Hg. assert (q <= g) as Hqg by nia. destruct (Z.eq_dec q g) as [E|]; [|lia].
    assert (r = 0) as R by nia. unfold q'. rewrite R. destruct (Z.ltb_spec (2 * 0) den); simpl; lia.
Qed.

Lemma round_q_nonneg n d : 0 <= n -> 0 < d -> 0 <= fnum (round_q n d).
Proof.
  intros Hn Hd. destruct (Z.eq_dec n 0) as [-> |]; [done|].
  destruct (round_q_spec n d) as (q & k & s & Hk & Hs & E & _ & Hq & _); [lia..|].
  pose proof (fden_pos (round_q n d)). assert (0 < 2 ^ s) by (apply Z.pow_pos_nonneg; lia).
  assert (0 < 2 ^ k) by (apply Z.pow_pos_nonneg; lia). nia.
Qed.

(** Rounding does not cross a number [m / 2 ^ h] of at most 53 bits. *)
Lemma round_q_le n d m h : 0 <= n -> 0 < d -> 0 <= m < 2 ^ 53 -> 0 <= h <= 54 ->
  n * 2 ^ h <= m * d -> fnum (round_q n d) * 2 ^ h <= m * fden (round_q n d).
Proof.
  intros Hn Hd Hm Hh Hle. destruct (Z.eq_dec n 0) as [-> |]; [simpl; pose proof (fden_pos (DFin 0 0)); nia|].
  destruct (round_q_spec n d) as (q & k & s & Hk & Hs & E & Hlow & Hq & _ & Hg); [lia..|].
  pose proof (fden_pos (round_q n d)) as Hf. set (f := fden _) in *. set (u := fnum _) in *.
  assert (0 < 2 ^ s) as H2s by (apply Z.pow_pos_nonneg; lia).
  assert (n * 2 ^ s <= m * (d * 2 ^ (s - h))) as Hns.
  { replace s with (h + (s - h)) at 1 by lia. rewrite Z.pow_add_r by lia.
    assert (0 < 2 ^ (s - h)) by (apply Z.pow_pos_nonneg; lia). nia. }
  assert (q * 2 ^ k * 2 ^ h <= m * 2 ^ s) as Hc.
  { destruct (Z.le_gt_cases k (s - h)) as [Hks|Hks].
    - assert (q <= m * 2 ^ (s - h - k)) as Hqm.
      { apply Hg. etrans; [exact Hns|]. replace (s - h) with ((s - h - k) + k) at 1 by lia.
        rewrite Z.pow_add_r by lia. lia. }
      replace s with ((s - h - k) + k + h) by lia. rewrite !Z.pow_add_r by lia.
      assert (0 < 2 ^ k * 2 ^ h) by (apply Z.mul_pos_pos; apply Z.pow_pos_nonneg; lia). nia.
    - exfalso. assert (2 ^ (s - h) * 2 <= 2 ^ k) as Hp.
      { rewrite Z.mul_comm, <- Z.pow_succ_r by lia. apply Z.pow_le_mono_r; lia. }
      assert (0 < 2 ^ (s - h)) by (apply Z.pow_pos_nonneg; lia).
      assert (2 ^ 53 * (d * 2 ^ (s - h)) <= m * (d * 2 ^ (s - h))) by nia. nia. }
  apply (Z.mul_le_mono_pos_r _ _ (2 ^ s) H2s).
  replace (u * 2 ^ h * 2 ^ s) with (q * 2 ^ k * 2 ^ h * f) by nia. nia.
Qed.

(** The relative error of rounding. *)
Lemma round_q_error n d : 0 <= n -> 0 < d ->
  (2 ^ 52 - 1) * n * fden (round_q n d) <= 2 ^ 52 * fnum (round_q n d) * d <= (2 ^ 52 + 1) * n * fden (round_q n d).
Proof.
  intros Hn Hd. destruct (Z.eq_dec n 0) as [-> |]; [simpl; lia|].
  destruct (round_q_spec n d) as (q & k & s & Hk & Hs & E & Hlow & _ & Hup & _); [lia..|].
  pose proof (fden_pos (round_q n d)) as Hf. set (f := fden _) in *. set (u := fnum _) in *.
  assert (0 < 2 ^ s) as H2s by (apply Z.pow_pos_nonneg; lia).
  assert (2 ^ 52 * u * d * 2 ^ s = 2 ^ 52 * (q * (d * 2 ^ k)) * f) as E2 by nia.
  split; apply (Z.mul_le_mono_pos_r _ _ (2 ^ s) H2s); rewrite E2.
  - replace ((2 ^ 52 - 1) * n * f * 2 ^ s) with ((2 ^ 52 - 1) * (n * 2 ^ s) * f) by lia. nia.
  - replace ((2 ^ 52 + 1) * n * f * 2 ^ s) with ((2 ^ 52 + 1) * (n * 2 ^ s) * f) by lia. nia.
Qed.

Lemma d_trunc_frac m e : 0 <= m -> d_trunc (DFin m e) = Some (fnum (DFin m e) `div` fden (DFin m e)).
Proof.
  intros Hm. simpl. destruct (Z.leb_spec 0 e).
  - rewrite Z.max_r, Z.max_l, Z.pow_0_r, Z.div_1_r by lia. done.
  - rewrite Z.max_l, Z.max_r, Z.pow_0_r, Z.mul_1_r by lia. rewrite Z.quot_div_nonneg; [done|done|].
    apply Z.pow_pos_nonneg; lia.
Qed.

Lemma round_q_fin n d : 0 <= n -> 0 < d -> exists m e, round_q n d = DFin m e /\ 0 <= m.
Proof.
  intros Hn Hd. pose proof (round_q_nonneg n d Hn Hd) as H.
  assert (exists m e, round_q n d = DFin m e) as (m & e & E)
    by (unfold round_q; cbv zeta; repeat case_match; eauto).
  exists m, e. split; [done|]. rewrite E in H. simpl in H.
  assert (0 < 2 ^ Z.max 0 e) by (apply Z.pow_pos_nonneg; lia). nia.
Qed.

(** A rounded number that is at most [z + 1/2] converts to an [int] of at
    most [z]. *)
Lemma cast_int_rounded n d z : 0 <= n -> 0 < d -> 0 <= z <= INT_MAX ->
  n * 2 <= (2 * z + 1) * d -> exists v, cast_int (round_q n d) = Ret v /\ 0 <= v <= z.
Proof.
  intros Hn Hd Hz Hle. unfold INT_MAX in Hz.
  pose proof (round_q_le n d (2 * z + 1) 1 Hn Hd ltac:(lia) ltac:(lia) ltac:(lia)) as Hr.
  pose proof (round_q_nonneg n d Hn Hd) as H0. pose proof (fden_pos (round_q n d)) as Hf.
  destruct (round_q_fin n d Hn Hd) as (m & e & E & Hm). rewrite E in *. unfold cast_int.
  rewrite d_trunc_frac by done. set (u := fnum _) in *. set (f := fden _) in *.
  assert (0 <= u `div` f <= z) as Hv.
  { split; [apply Z.div_pos; lia|]. apply Z.lt_succ_r, Z.div_lt_upper_bound; lia. }
  unfold INT_MIN, INT_MAX. destruct (Z.leb_spec (-2147483648) (u `div` f)), (Z.leb_spec (u `div` f) 2147483647); try lia.
  eauto.
Qed.

(** Comparing is comparing fractions. *)
Lemma fin_lt_frac m1 e1 m2 e2 :
  fin_lt m1 e1 m2 e2 = true <->
  fnum (DFin m1 e1) * fden (DFin m2 e2) < fnum (DFin m2 e2) * fden (DFin m1 e1).
Proof.
  unfold fin_lt, fnum, fden. rewrite Z.ltb_lt, <- !Z.mul_assoc, <- !Z.pow_add_r by lia.
  set (e := Z.min e1 e2). set (c := Z.max 0 e1 + Z.max 0 (- e2) - (e1 - e)).
  replace (Z.max 0 e1 + Z.max 0 (- e2)) with ((e1 - e) + c) by lia.
  replace (Z.max 0 e2 + Z.max 0 (- e1)) with ((e2 - e) + c) by lia.
  rewrite !Z.pow_add_r, !Z.mul_assoc by lia. apply Z.mul_lt_mono_pos_r. apply Z.pow_pos_nonneg; lia.
Qed.
