(* ===== verification/Types.v ===== *)
(** Global types and constants of the agent: [include/leo_agent.h] and the
    result record of [src/executor.h].

    Character arrays are the strings they hold (see [CString]); their
    capacities are the [*_SZ] constants, and [config_fits] says that a
    configuration's fields fit them. *)
From S2P Require Import Prelude CString Double.

(** ** Protocol parameters *)

Definition LEO_AGENT_VERSION : list ascii := str "1.0.0".
Definition LEO_PROTOCOL_VERSION : Z := 1.
Definition LEO_HEARTBEAT_INTERVAL_SEC : Z := 10800.
Definition LEO_METRICS_INTERVAL_SEC : Z := 300.
Definition LEO_PATCH_CHECK_INTERVAL_SEC : Z := 21600.
Definition LEO_RECONNECT_INIT_MS : Z := 5000.
Definition LEO_RECONNECT_STEP_MS : Z := 5000.
Definition LEO_RECONNECT_MAX_MS : Z := 60000.
Definition LEO_MAX_MSG_SIZE : Z := 65536.
Definition LEO_SEND_QUEUE_DEPTH : Z := 32.
Definition LEO_UUID_STR_LEN : Z := 37.

Definition LEO_CERTS_DIR : list ascii := str "/opt/leo-one/certs/".
Definition LEO_LOG_PATH : list ascii := str "/opt/leo-one/logs/agent.log".
Definition LEO_CONFIG_FILE : list ascii := str "/opt/leo-one/agent.conf".
Definition LEO_BOOTSTRAP_FILE : list ascii := str "/opt/leo-one/agent_bootstrap.conf".
Definition LEO_CLIENT_CERT_FILE : list ascii := str "/opt/leo-one/certs/client_cert.pem".
Definition LEO_CLIENT_KEY_FILE : list ascii := str "/opt/leo-one/certs/client_key.pem".

(** ** Message types *)

Inductive leo_msg_type_t : Type :=
| LEO_MSG_HELLO | LEO_MSG_HEARTBEAT | LEO_MSG_METRICS | LEO_MSG_INVENTORY
| LEO_MSG_CMD_RESULT | LEO_MSG_LOG | LEO_MSG_PONG | LEO_MSG_PATCH_INVENTORY
| LEO_MSG_FILE_TRANSFER_PROGRESS | LEO_MSG_REMOTE_DESKTOP_STATUS
| LEO_MSG_HELLO_ACK | LEO_MSG_EXEC_SCRIPT | LEO_MSG_INSTALL_PKG | LEO_MSG_REBOOT
| LEO_MSG_COLLECT_INVENTORY | LEO_MSG_PING | LEO_MSG_CONFIG_UPDATE
| LEO_MSG_FORCE_HEARTBEAT | LEO_MSG_INSTALL_PATCHES | LEO_MSG_FILE_TRANSFER
| LEO_MSG_REMOTE_DESKTOP_START | LEO_MSG_REMOTE_DESKTOP_STOP
| LEO_MSG_UNKNOWN.

#[export] Instance leo_msg_type_t_eq_dec : EqDecision leo_msg_type_t.
Proof. solve_decision. Defined.

Definition msg_code (t : leo_msg_type_t) : Z :=
  match t with
  | LEO_MSG_HELLO => 1 | LEO_MSG_HEARTBEAT => 2 | LEO_MSG_METRICS => 3
  | LEO_MSG_INVENTORY => 4 | LEO_MSG_CMD_RESULT => 5 | LEO_MSG_LOG => 6
  | LEO_MSG_PONG => 7 | LEO_MSG_PATCH_INVENTORY => 8
  | LEO_MSG_FILE_TRANSFER_PROGRESS => 9 | LEO_MSG_REMOTE_DESKTOP_STATUS => 10
  | LEO_MSG_HELLO_ACK => 100 | LEO_MSG_EXEC_SCRIPT => 101
  | LEO_MSG_INSTALL_PKG => 102 | LEO_MSG_REBOOT => 103
  | LEO_MSG_COLLECT_INVENTORY => 104 | LEO_MSG_PING => 105
  | LEO_MSG_CONFIG_UPDATE => 106 | LEO_MSG_FORCE_HEARTBEAT => 107
  | LEO_MSG_INSTALL_PATCHES => 108 | LEO_MSG_FILE_TRANSFER => 109
  | LEO_MSG_REMOTE_DESKTOP_START => 110 | LEO_MSG_REMOTE_DESKTOP_STOP => 111
  | LEO_MSG_UNKNOWN => -1
  end.

Definition msg_types : list leo_msg_type_t :=
  [LEO_MSG_HELLO; LEO_MSG_HEARTBEAT; LEO_MSG_METRICS; LEO_MSG_INVENTORY;
   LEO_MSG_CMD_RESULT; LEO_MSG_LOG; LEO_MSG_PONG; LEO_MSG_PATCH_INVENTORY;
   LEO_MSG_FILE_TRANSFER_PROGRESS; LEO_MSG_REMOTE_DESKTOP_STATUS;
   LEO_MSG_HELLO_ACK; LEO_MSG_EXEC_SCRIPT; LEO_MSG_INSTALL_PKG; LEO_MSG_REBOOT;
   LEO_MSG_COLLECT_INVENTORY; LEO_MSG_PING; LEO_MSG_CONFIG_UPDATE;
   LEO_MSG_FORCE_HEARTBEAT; LEO_MSG_INSTALL_PATCHES; LEO_MSG_FILE_TRANSFER;
   LEO_MSG_REMOTE_DESKTOP_START; LEO_MSG_REMOTE_DESKTOP_STOP; LEO_MSG_UNKNOWN].

(** The enumerator an [int] stands for, when it is one. *)
Definition msg_of_code (z : Z) : option leo_msg_type_t :=
  List.find (fun t => msg_code t =? z) msg_types.

(** ** Error codes and agent states *)

Inductive leo_error_t : Type :=
| LEO_OK | LEO_ERR_CONFIG | LEO_ERR_NETWORK | LEO_ERR_TLS | LEO_ERR_PROTOCOL
| LEO_ERR_SYSTEM | LEO_ERR_QUEUE_FULL | LEO_ERR_TIMEOUT.

#[export] Instance leo_error_t_eq_dec : EqDecision leo_error_t.
Proof. solve_decision. Defined.

Definition is_ok (e : leo_error_t) : bool := bool_decide (e = LEO_OK).

Inductive leo_agent_state_t : Type :=
| LEO_STATE_INIT | LEO_STATE_ENROLLING | LEO_STATE_CONNECTING
| LEO_STATE_CONNECTED | LEO_STATE_RECONNECTING | LEO_STATE_STOPPING.

#[export] Instance leo_agent_state_t_eq_dec : EqDecision leo_agent_state_t.
Proof. solve_decision. Defined.

(** ** Configuration *)

Definition ENDPOINT_SZ : Z := 512.
Definition HOSTNAME_SZ : Z := 256.
Definition OS_NAME_SZ : Z := 32.
Definition OS_VERSION_SZ : Z := 128.
Definition ARCH_SZ : Z := 16.
Definition FINGERPRINT_SZ : Z := 65.

Record leo_config_t : Type := mk_config {
  agent_id : list ascii;
  tenant_id : list ascii;
  ws_endpoint : list ascii;
  hostname : list ascii;
  os_name : list ascii;
  os_version : list ascii;
  arch : list ascii;
  hardware_id : list ascii;
  ca_fingerprint : list ascii;
  metrics_interval_sec : Z;
  heartbeat_interval_sec : Z;
}.

#[export] Instance leo_config_t_eq_dec : EqDecision leo_config_t.
Proof. solve_decision. Defined.

(** A configuration cleared by [memset]. *)
Definition config_zero : leo_config_t := mk_config [] [] [] [] [] [] [] [] [] 0 0.

(** The fields fit their arrays and the intervals are [int]s. *)
Definition config_fits (c : leo_config_t) : bool :=
  (strlen (agent_id c) <? LEO_UUID_STR_LEN) && (strlen (tenant_id c) <? LEO_UUID_STR_LEN) &&
  (strlen (ws_endpoint c) <? ENDPOINT_SZ) && (strlen (hostname c) <? HOSTNAME_SZ) &&
  (strlen (os_name c) <? OS_NAME_SZ) && (strlen (os_version c) <? OS_VERSION_SZ) &&
  (strlen (arch c) <? ARCH_SZ) && (strlen (hardware_id c) <? LEO_UUID_STR_LEN) &&
  (strlen (ca_fingerprint c) <? FINGERPRINT_SZ) &&
  (INT_MIN <=? metrics_interval_sec c) && (metrics_interval_sec c <=? INT_MAX) &&
  (INT_MIN <=? heartbeat_interval_sec c) && (heartbeat_interval_sec c <=? INT_MAX).

(** ** Patches and file transfers *)

Definition LEO_INVENTORY_MAX_SW_ITEMS : Z := 150.
Definition LEO_INVENTORY_MAX_PATCHES : Z := 200.
Definition LEO_PATCH_ID_MAX_LEN : Z := 160.
Definition LEO_PATCH_TITLE_MAX_LEN : Z := 256.
Definition LEO_PATCH_INSTALL_MAX_COUNT : Z := 64.

Inductive leo_patch_severity_t : Type :=
| LEO_PATCH_SEVERITY_OPTIONAL | LEO_PATCH_SEVERITY_IMPORTANT | LEO_PATCH_SEVERITY_CRITICAL.

#[export] Instance leo_patch_severity_t_eq_dec : EqDecision leo_patch_severity_t.
Proof. solve_decision. Defined.

Record leo_patch_t : Type := mk_patch {
  patch_id : list ascii;
  patch_title : list ascii;
  patch_severity : leo_patch_severity_t;
  patch_size_bytes : Z;
}.

#[export] Instance leo_patch_t_eq_dec : EqDecision leo_patch_t.
Proof. solve_decision. Defined.

Definition LEO_FILE_URL_MAX_LEN : Z := 1024.
Definition LEO_FILE_NAME_MAX_LEN : Z := 255.
Definition LEO_FILE_SHA256_HEX_LEN : Z := 65.

Inductive leo_file_transfer_status_t : Type :=
| LEO_FILE_TRANSFER_DOWNLOADING | LEO_FILE_TRANSFER_VERIFYING
| LEO_FILE_TRANSFER_COMPLETED | LEO_FILE_TRANSFER_FAILED.

#[export] Instance leo_file_transfer_status_t_eq_dec : EqDecision leo_file_transfer_status_t.
Proof. solve_decision. Defined.

Definition LEO_RD_WS_URL_MAX_LEN : Z := 1024.
Definition LEO_RD_MAX_SESSION_SEC : Z := 14400.

(** ** Metrics *)

Definition LEO_MAX_CPU_CORES : Z := 256.

Record leo_metrics_t : Type := mk_metrics {
  cpu_total_percent : double;
  cpu_per_core : list double;
  cpu_core_count : Z;
  ram_total_bytes : Z;
  ram_used_bytes : Z;
  ram_available_bytes : Z;
  disk_total_bytes : Z;
  disk_used_bytes : Z;
  net_bytes_in : Z;
  net_bytes_out : Z;
  process_count : Z;
  timestamp_ms : Z;
}.

(** ** Inventory *)

Record leo_hw_inventory_t : Type := mk_hw {
  cpu_model : list ascii;
  cpu_cores : Z;
  cpu_threads : Z;
  hw_ram_total_bytes : Z;
  disk_count : Z;
  bios_version : list ascii;
  bios_vendor : list ascii;
  motherboard : list ascii;
  serial_number : list ascii;
}.

Record leo_sw_item_t : Type := mk_sw {
  sw_name : list ascii;
  sw_version : list ascii;
  sw_publisher : list ascii;
  sw_install_path : list ascii;
}.

(** ** Command results ([src/executor.h]) *)

Definition LEO_EXEC_STDOUT_MAX : Z := 16384.
Definition LEO_EXEC_STDERR_MAX : Z := 4096.

(** The bytes written to the two buffers before their terminator. *)
Record leo_exec_result_t : Type := mk_result {
  exit_code : Z;
  stdout_buf : list ascii;
  stderr_buf : list ascii;
}.

(** A result cleared by [memset]. *)
Definition result_zero : leo_exec_result_t := mk_result 0 [] [].

(** ** Lemmas *)

Lemma msg_of_code_code t : msg_of_code (msg_code t) = Some t.
Proof. by destruct t. Qed.

Lemma msg_code_of_code z t : msg_of_code z = Some t -> msg_code t = z.
Proof. unfold msg_of_code. intros [_ H]%List.find_some. lia. Qed.
