(* ===== verification/Json.v ===== *)
(** JSON trees and the cJSON operations the agent calls
    ([third_party/cjson/cJSON.c]): lookup, type tests, detaching, appending
    and unformatted printing.

    A tree is an inductive value; an object is the list of its members in
    order, duplicates included, as cJSON's child list keeps them.  Every
    number carries its [double].  Two functions of the C library are
    parameters, gathered in the class [CLib]: the text [printf] gives a number
    that is not an [int] ([%1.15g], or [%1.17g] when the former does not read
    back) and [strtod], with the number of characters it consumed.  What the
    agent relies on of them is [CLibLaws]: [strtod] reads back the integers
    that [%d] and [%g] print.
    Allocation inside cJSON is assumed to succeed except where a caller of the
    agent tests for its failure. *)
From S2P Require Import Prelude CString Double.

Inductive cJSON : Type :=
| JFalse
| JTrue
| JNull
| JNumber (valuedouble : double)
| JString (valuestring : list ascii)
| JArray (items : list cJSON)
| JObject (members : list (list ascii * cJSON)).

Class CLib : Type := {
  fmt_g : double -> list ascii;
  strtod : list ascii -> double * nat;
}.

(** The characters [parse_number] collects. *)
Definition number_char (c : ascii) : bool :=
  isdigit c || bool_decide (c ∈ str "+-eE.").

(** At most 25 characters of a number, a sign or a digit first. *)
Definition is_number_text (t : list ascii) : bool :=
  (strlen t <=? 25) && forallb number_char t &&
  match t with
  | c :: _ => bool_decide (c = "-"%char) || isdigit c
  | [] => false
  end.

Class CLibLaws `{CLib} : Prop := {
  strtod_fmt_d z :
    INT_MIN <= z <= INT_MAX -> strtod (fmt_d z) = (d_of_Z z, length (fmt_d z));
  strtod_fmt_g z :
    INT_MAX < Z.abs z < 2 ^ 53 ->
    strtod (fmt_g (d_of_Z z)) = (d_of_Z z, length (fmt_g (d_of_Z z)));
  fmt_g_text z :
    INT_MAX < Z.abs z < 2 ^ 53 -> is_number_text (fmt_g (d_of_Z z)) = true;
}.

(** ** Access *)

(** The first member of that name, as the loop of [get_object_item] finds it. *)
Fixpoint find_member (name : list ascii) (l : list (list ascii * cJSON)) : option cJSON :=
  match l with
  | [] => None
  | (k, v) :: l' => if bool_decide (k = name) then Some v else find_member name l'
  end.

(** Children of anything but an object have no name, so nothing is found there. *)
Definition cJSON_GetObjectItemCaseSensitive (o : cJSON) (name : list ascii) : option cJSON :=
  match o with
  | JObject l => find_member name l
  | _ => None
  end.

Definition cJSON_IsNumber (o : option cJSON) : option double :=
  match o with Some (JNumber d) => Some d | _ => None end.

Definition cJSON_IsString (o : option cJSON) : option (list ascii) :=
  match o with Some (JString s) => Some s | _ => None end.

Definition cJSON_IsBool (o : option cJSON) : option bool :=
  match o with Some JTrue => Some true | Some JFalse => Some false | _ => None end.

Definition cJSON_IsArray (o : option cJSON) : option (list cJSON) :=
  match o with Some (JArray l) => Some l | _ => None end.

Definition cJSON_IsObject (o : option cJSON) : bool :=
  match o with Some (JObject _) => true | _ => false end.

(** Remove the first member of that name. *)
Fixpoint remove_member (name : list ascii) (l : list (list ascii * cJSON)) :
    list (list ascii * cJSON) :=
  match l with
  | [] => []
  | (k, v) :: l' => if bool_decide (k = name) then l' else (k, v) :: remove_member name l'
  end.

Definition cJSON_DetachItemFromObjectCaseSensitive (o : cJSON) (name : list ascii) :
    option cJSON * cJSON :=
  match o with
  | JObject l =>
      match find_member name l with
      | Some v => (Some v, JObject (remove_member name l))
      | None => (None, o)
      end
  | _ => (None, o)
  end.

(** ** Construction *)

Definition cJSON_AddItemToObject (o : cJSON) (name : list ascii) (v : cJSON) : cJSON :=
  match o with
  | JObject l => JObject (l ++ [(name, v)])
  | _ => o
  end.

Definition cJSON_AddStringToObject (o : cJSON) (name s : list ascii) : cJSON :=
  cJSON_AddItemToObject o name (JString s).

Definition cJSON_AddNumberToObject (o : cJSON) (name : list ascii) (d : double) : cJSON :=
  cJSON_AddItemToObject o name (JNumber d).

Definition cJSON_AddItemToArray (o v : cJSON) : cJSON :=
  match o with
  | JArray l => JArray (l ++ [v])
  | _ => o
  end.

(** ** Unformatted printing *)

Definition DQUOTE : ascii := "034"%char.
Definition BACKSLASH : ascii := "092"%char.

(** One character of a string, escaped as [print_string_ptr] does. *)
Definition print_char (c : ascii) : list ascii :=
  if (31 <? code c) && negb (bool_decide (c = DQUOTE)) && negb (bool_decide (c = BACKSLASH))
  then [c]
  else BACKSLASH ::
    (if bool_decide (c = BACKSLASH) then [BACKSLASH]
     else if bool_decide (c = DQUOTE) then [DQUOTE]
     else if code c =? 8 then str "b"
     else if code c =? 12 then str "f"
     else if code c =? 10 then str "n"
     else if code c =? 13 then str "r"
     else if code c =? 9 then str "t"
     else str "u00" ++ hex2 (code c)).

Definition print_string_ptr (s : list ascii) : list ascii :=
  DQUOTE :: concat (map print_char s) ++ [DQUOTE].

(** The [valueint] of a number: truncation with saturation. *)
Definition valueint (d : double) : Z :=
  match d with
  | DNaN => 0
  | DInf true => INT_MIN
  | DInf false => INT_MAX
  | DFin m e =>
      match d_trunc (DFin m e) with
      | Some z => Z.max INT_MIN (Z.min INT_MAX z)
      | None => 0
      end
  end.

(** [d == (double) z]. *)
Definition deq_int (d : double) (z : Z) : bool :=
  match d with
  | DFin m e => negb (fin_lt m e z 0) && negb (fin_lt z 0 m e)
  | _ => false
  end.

Section print.
Context `{CLib}.

(** The printed number must fit [number_buffer] (25 characters and the NUL). *)
Definition print_number (d : double) : option (list ascii) :=
  let t := match d with
           | DNaN | DInf _ => str "null"
           | _ => if deq_int d (valueint d) then fmt_d (valueint d) else fmt_g d
           end in
  if strlen t <=? 25 then Some t else None.

(** The loop of [print_array] over the elements, given how to print one. *)
Definition print_elements (f : cJSON -> option (list ascii)) :
    list cJSON -> option (list ascii) :=
  fix go l :=
    match l with
    | [] => Some []
    | [x] => f x
    | x :: l' => t ← f x; r ← go l'; Some (t ++ str "," ++ r)
    end.

(** The loop of [print_object] over the members. *)
Definition print_members (f : cJSON -> option (list ascii)) :
    list (list ascii * cJSON) -> option (list ascii) :=
  fix go l :=
    match l with
    | [] => Some []
    | [(k, x)] => t ← f x; Some (print_string_ptr k ++ str ":" ++ t)
    | (k, x) :: l' =>
        t ← f x; r ← go l'; Some (print_string_ptr k ++ str ":" ++ t ++ str "," ++ r)
    end.

Fixpoint print_value (v : cJSON) : option (list ascii) :=
  match v with
  | JNull => Some (str "null")
  | JFalse => Some (str "false")
  | JTrue => Some (str "true")
  | JNumber d => print_number d
  | JString s => Some (print_string_ptr s)
  | JArray l => t ← print_elements print_value l; Some (str "[" ++ t ++ str "]")
  | JObject l => t ← print_members print_value l; Some (str "{" ++ t ++ str "}")
  end.

Definition cJSON_PrintUnformatted (v : cJSON) : option (list ascii) := print_value v.

End print.

(** ** Lemmas *)

Lemma find_member_app name l1 l2 :
  find_member name (l1 ++ l2) =
  match find_member name l1 with Some v => Some v | None => find_member name l2 end.
Proof. induction l1 as [|[k v] l1 IH]; simpl; [done|]. case_bool_decide; done. Qed.

Lemma find_member_remove_ne name k l :
  k <> name -> find_member k (remove_member name l) = find_member k l.
Proof.
  intros N. induction l as [|[k' v] l IH]; simpl; [done|].
  case_bool_decide; subst.
  - rewrite bool_decide_false by congruence. done.
  - simpl. case_bool_decide; done.
Qed.

(** An escaped character takes between one and six bytes. *)
Lemma print_char_length c : (1 <= length (print_char c) <= 6)%nat.
Proof. unfold print_char. repeat case_goal; simpl; lia. Qed.

(** The characters that need no escape. *)
Definition plain (c : ascii) : bool :=
  (31 <? code c) && negb (bool_decide (c = DQUOTE)) && negb (bool_decide (c = BACKSLASH)).

Lemma print_char_plain c : plain c = true -> print_char c = [c].
Proof. unfold plain, print_char. intros ->. done. Qed.

Lemma print_string_length s :
  2 + strlen s <= strlen (print_string_ptr s) <= 2 + 6 * strlen s.
Proof.
  unfold print_string_ptr, strlen. simpl. len.
  induction s as [|c s IH]; simpl; [lia|].
  rewrite length_app. pose proof (print_char_length c). lia.
Qed.

Lemma print_string_plain s :
  forallb plain s = true -> print_string_ptr s = DQUOTE :: s ++ [DQUOTE].
Proof.
  intros Hs. unfold print_string_ptr. do 2 f_equal.
  induction s as [|c s IH]; simpl in *; [done|]. breflect.
  rewrite print_char_plain by done. simpl. f_equal. auto.
Qed.
