(* ===== verification/JsonParse.v ===== *)
(** The cJSON parser ([third_party/cjson/cJSON.c]).

    The parser's buffer and offset are the suffix of the input still to read.
    [cJSON_Parse] hands [strlen + 1] bytes to the parser, so the input ends
    with the terminating NUL, and [cJSON_ParseWithLength] exactly the bytes it
    is given.  [buffer_skip_whitespace] steps back to the last byte when it
    runs off the end, hence [skip_ws] keeps that byte.  The recursion
    [parse_value] / [parse_array] / [parse_object] takes fuel; each call
    consumes input, so the fuel that [cJSON_Parse] gives it, twice the length
    of the input, is never exhausted ([parse_fuel_enough]). *)
From S2P Require Import Prelude CString Double Json.

Definition CJSON_NESTING_LIMIT : Z := 1000.

(** [buffer_skip_whitespace] on the rest of the input. *)
Fixpoint skip_ws (r : list ascii) : list ascii :=
  match r with
  | [] => []
  | [c] => [c]
  | c :: r' => if code c <=? 32 then skip_ws r' else r
  end.

(** [parse_hex4]: zero on an invalid digit. *)
Definition hex_value (c : ascii) : option Z :=
  if isdigit c then Some (code c - 48)
  else if (65 <=? code c) && (code c <=? 70) then Some (10 + code c - 65)
  else if (97 <=? code c) && (code c <=? 102) then Some (10 + code c - 97)
  else None.

Definition parse_hex4 (a b c d : ascii) : Z :=
  match hex_value a, hex_value b, hex_value c, hex_value d with
  | Some x, Some y, Some z, Some t => ((x * 16 + y) * 16 + z) * 16 + t
  | _, _, _, _ => 0
  end.

Definition byte_chr (z : Z) : ascii := ascii_of_N (Z.to_N (z `mod` 256)).

(** One to four bytes for a code point, as [utf16_literal_to_utf8] writes them. *)
Definition utf8_encode (cp : Z) : list ascii :=
  let tail z := byte_chr (Z.land (Z.lor z 128) 191) in
  if cp <? 128 then [byte_chr (Z.land cp 127)]
  else if cp <? 2048 then
    [byte_chr (Z.lor (Z.shiftr cp 6) 192); tail cp]
  else if cp <? 65536 then
    [byte_chr (Z.lor (Z.shiftr cp 12) 224); tail (Z.shiftr cp 6); tail cp]
  else
    [byte_chr (Z.lor (Z.shiftr cp 18) 240); tail (Z.shiftr cp 12); tail (Z.shiftr cp 6); tail cp].

(** The literal after [\u], inside a string whose text ends where the list
    ends: the bytes it stands for and what follows. *)
Definition utf16_literal_to_utf8 (s : list ascii) : option (list ascii * list ascii) :=
  match s with
  | a :: b :: c :: d :: s' =>
      let first := parse_hex4 a b c d in
      if (56320 <=? first) && (first <=? 57343) then None
      else if (55296 <=? first) && (first <=? 56319) then
        match s' with
        | x :: y :: a' :: b' :: c' :: d' :: s'' =>
            if bool_decide (x = BACKSLASH) && bool_decide (y = "u"%char) then
              let second := parse_hex4 a' b' c' d' in
              if (second <? 56320) || (57343 <? second) then None
              else Some (utf8_encode (65536 + Z.lor (Z.shiftl (Z.land first 1023) 10)
                                                    (Z.land second 1023)), s'')
            else None
        | _ => None
        end
      else Some (utf8_encode first, s')
  | _ => None
  end.

(** The text of a string literal up to its closing quote, escapes kept, and
    what follows the quote. *)
Fixpoint scan_string (r : list ascii) : option (list ascii * list ascii) :=
  match r with
  | [] => None
  | c :: r' =>
      if bool_decide (c = DQUOTE) then Some ([], r')
      else if bool_decide (c = BACKSLASH) then
        match r' with
        | [] => None
        | d :: r'' => p ← scan_string r''; Some (c :: d :: p.1, p.2)
        end
      else p ← scan_string r'; Some (c :: p.1, p.2)
  end.

(** Unescape the text of a literal.  The fuel is the length of the text. *)
Fixpoint unescape (fuel : nat) (s : list ascii) : option (list ascii) :=
  match fuel, s with
  | _, [] => Some []
  | O, _ => None
  | S f, c :: s' =>
      if negb (bool_decide (c = BACKSLASH)) then cons c <$> unescape f s'
      else
        match s' with
        | [] => None
        | d :: s'' =>
            if bool_decide (d = "b"%char) then cons (byte_chr 8) <$> unescape f s''
            else if bool_decide (d = "f"%char) then cons (byte_chr 12) <$> unescape f s''
            else if bool_decide (d = "n"%char) then cons LF <$> unescape f s''
            else if bool_decide (d = "r"%char) then cons CR <$> unescape f s''
            else if bool_decide (d = "t"%char) then cons TAB <$> unescape f s''
            else if bool_decide (d = DQUOTE) || bool_decide (d = BACKSLASH) ||
                    bool_decide (d = "/"%char)
                 then cons d <$> unescape f s''
            else if bool_decide (d = "u"%char) then
              p ← utf16_literal_to_utf8 s''; app p.1 <$> unescape f p.2
            else None
        end
  end.

(** The value is read back as a C string: up to an escaped NUL. *)
Definition parse_string (r : list ascii) : option (list ascii * list ascii) :=
  match r with
  | c :: r' =>
      if bool_decide (c = DQUOTE) then
        p ← scan_string r'; s ← unescape (length p.1) p.1; Some (c_str s, p.2)
      else None
  | [] => None
  end.

Section parser.
Context `{CLib}.

Fixpoint number_token (r : list ascii) : list ascii :=
  match r with
  | c :: r' => if number_char c then c :: number_token r' else []
  | [] => []
  end.

Definition parse_number (r : list ascii) : option (cJSON * list ascii) :=
  let '(d, n) := strtod (number_token r) in
  if bool_decide (n = O) then None else Some (JNumber d, drop n r).

Fixpoint parse_value (fuel : nat) (depth : Z) (r : list ascii) {struct fuel} :
    option (cJSON * list ascii) :=
  match fuel with
  | O => None
  | S f =>
      if starts_with (str "null") r then Some (JNull, drop 4 r)
      else if starts_with (str "false") r then Some (JFalse, drop 5 r)
      else if starts_with (str "true") r then Some (JTrue, drop 4 r)
      else
        match r with
        | [] => None
        | c :: r' =>
            if bool_decide (c = DQUOTE) then
              p ← parse_string r; Some (JString p.1, p.2)
            else if bool_decide (c = "-"%char) || isdigit c then parse_number r
            else if bool_decide (c = "["%char) then
              if CJSON_NESTING_LIMIT <=? depth then None
              else
                match skip_ws r' with
                | [] => None
                | d :: r'' =>
                    if bool_decide (d = "]"%char) then Some (JArray [], r'')
                    else parse_elements f (depth + 1) (d :: r'') []
                end
            else if bool_decide (c = "{"%char) then
              if CJSON_NESTING_LIMIT <=? depth then None
              else
                match skip_ws r' with
                | [] => None
                | d :: r'' =>
                    if bool_decide (d = "}"%char) then Some (JObject [], r'')
                    else parse_members f (depth + 1) (d :: r'') []
                end
            else None
        end
  end
with parse_elements (fuel : nat) (depth : Z) (r : list ascii) (acc : list cJSON) {struct fuel} :
    option (cJSON * list ascii) :=
  match fuel with
  | O => None
  | S f =>
      match parse_value f depth (skip_ws r) with
      | None => None
      | Some (v, r1) =>
          match skip_ws r1 with
          | [] => None
          | c :: r2 =>
              if bool_decide (c = ","%char) then parse_elements f depth r2 (acc ++ [v])
              else if bool_decide (c = "]"%char) then Some (JArray (acc ++ [v]), r2)
              else None
          end
      end
  end
with parse_members (fuel : nat) (depth : Z) (r : list ascii)
    (acc : list (list ascii * cJSON)) {struct fuel} : option (cJSON * list ascii) :=
  match fuel with
  | O => None
  | S f =>
      match r with
      | [] => None
      | _ =>
          match parse_string (skip_ws r) with
          | None => None
          | Some (k, r1) =>
              match skip_ws r1 with
              | [] => None
              | c :: r2 =>
                  if bool_decide (c = ":"%char) then
                    match parse_value f depth (skip_ws r2) with
                    | None => None
                    | Some (v, r3) =>
                        match skip_ws r3 with
                        | [] => None
                        | d :: r4 =>
                            if bool_decide (d = ","%char)
                            then parse_members f depth r4 (acc ++ [(k, v)])
                            else if bool_decide (d = "}"%char)
                            then Some (JObject (acc ++ [(k, v)]), r4)
                            else None
                        end
                    end
                  else None
              end
          end
      end
  end.

Definition BOM : list ascii := map ascii_of_N [239; 187; 191]%N.

(** A byte order mark is skipped when at least five bytes are there. *)
Definition skip_utf8_bom (r : list ascii) : list ascii :=
  if (4 <? strlen r) && starts_with BOM r then drop 3 r else r.

Definition cJSON_ParseWithLength (bytes : list ascii) : option cJSON :=
  match bytes with
  | [] => None
  | _ => fst <$> parse_value (2 * length bytes) 0 (skip_ws (skip_utf8_bom bytes))
  end.

Definition cJSON_Parse (s : list ascii) : option cJSON := cJSON_ParseWithLength (s ++ [NUL]).

End parser.

(** ** The fuel is enough *)

Lemma skip_ws_length r : (length (skip_ws r) <= length r)%nat.
Proof.
  induction r as [|c r IH]; [done|]. simpl. destruct r; [done|].
  case_goal; [|done]. simpl in *. lia.
Qed.

Lemma scan_string_length r s r' : scan_string r = Some (s, r') -> (length r' < length r)%nat.
Proof.
  remember (length r) as n eqn:En. revert r s r' En.
  induction n as [n IH] using lt_wf_ind. intros r s r' -> E.
  destruct r as [|c r]; [done|]. simpl in E. repeat case_bool_decide; simplify_eq/=; [lia|..].
  - destruct r as [|d r]; [done|]. apply bind_Some in E as ([s1 r1] & E & [= <- <-]).
    apply (IH (length r)) in E; [simpl; lia|simpl; lia|done].
  - apply bind_Some in E as ([s1 r1] & E & [= <- <-]).
    apply (IH (length r)) in E; [simpl; lia|simpl; lia|done].
Qed.

Lemma parse_string_length r s r' : parse_string r = Some (s, r') -> (length r' < length r)%nat.
Proof.
  destruct r as [|c r]; [done|]. simpl. case_bool_decide; [|done].
  intros ([t r1] & E & (u & _ & [= _ <-])%bind_Some)%bind_Some.
  apply scan_string_length in E. simpl in *. lia.
Qed.

Section fuel.
Context `{CLib}.

Lemma parse_number_length r v r' :
  parse_number r = Some (v, r') -> (length r' <= length r)%nat.
Proof.
  unfold parse_number. destruct (strtod _) as [d n]. case_bool_decide; [done|].
  intros [= _ <-]. len.
Qed.

Lemma parse_length f :
  (forall depth r v r', parse_value f depth r = Some (v, r') -> (length r' <= length r)%nat) /\
  (forall depth r acc v r', parse_elements f depth r acc = Some (v, r') -> (length r' <= length r)%nat) /\
  (forall depth r acc v r', parse_members f depth r acc = Some (v, r') -> (length r' <= length r)%nat).
Proof.
  induction f as [|f (IHv & IHe & IHm)]; [done|]. repeat split.
  - intros depth r v r' E. cbn [parse_value] in E.
    destruct (starts_with _ r); [simplify_eq; len|].
    destruct (starts_with _ r); [simplify_eq; len|].
    destruct (starts_with _ r); [simplify_eq; len|].
    destruct r as [|c r]; [done|]. pose proof (skip_ws_length r).
    destruct (bool_decide (c = DQUOTE)).
    { apply bind_Some in E as ([s r1] & E & [= _ <-]). apply parse_string_length in E. simpl in *; lia. }
    destruct (_ || isdigit c); [by apply parse_number_length in E|].
    destruct (bool_decide (c = "["%char)).
    { case_match; [done|]. destruct (skip_ws r) as [|d r1] eqn:W; [done|].
      case_bool_decide; simplify_eq/=; [lia|]. apply IHe in E. simpl in *; lia. }
    destruct (bool_decide (c = "{"%char)); [|done].
    case_match; [done|]. destruct (skip_ws r) as [|d r1] eqn:W; [done|].
    case_bool_decide; simplify_eq/=; [lia|]. apply IHm in E. simpl in *; lia.
  - intros depth r acc v r' E. cbn [parse_elements parse_members] in E. pose proof (skip_ws_length r).
    destruct (parse_value f depth (skip_ws r)) as [[v1 r1]|] eqn:E1; [|done].
    apply IHv in E1. pose proof (skip_ws_length r1).
    destruct (skip_ws r1) as [|c r2]; [done|]. simpl in *.
    repeat case_bool_decide; simplify_eq; [apply IHe in E|]; lia.
  - intros depth r acc v r' E. cbn [parse_elements parse_members] in E. pose proof (skip_ws_length r).
    destruct r as [|c0 r0] eqn:Er; [done|]. rewrite <- Er in *.
    destruct (parse_string (skip_ws r)) as [[k r1]|] eqn:E1; [|done].
    apply parse_string_length in E1. pose proof (skip_ws_length r1).
    destruct (skip_ws r1) as [|c r2]; [done|]. case_bool_decide; [|done].
    pose proof (skip_ws_length r2).
    destruct (parse_value f depth (skip_ws r2)) as [[v1 r3]|] eqn:E2; [|done].
    apply IHv in E2. pose proof (skip_ws_length r3).
    destruct (skip_ws r3) as [|d r4]; [done|]. simpl in *.
    repeat case_bool_decide; simplify_eq; [apply IHm in E|]; lia.
Qed.

(** Two fuels that both reach the bound give the same result. *)
Lemma parse_fuel_irrel n :
  (forall f1 f2 depth r, (length r <= n)%nat -> (2 * length r <= f1)%nat -> (2 * length r <= f2)%nat ->
     parse_value f1 depth r = parse_value f2 depth r) /\
  (forall f1 f2 depth r acc, (length r <= n)%nat ->
     (2 * length r < f1)%nat -> (2 * length r < f2)%nat ->
     parse_elements f1 depth r acc = parse_elements f2 depth r acc) /\
  (forall f1 f2 depth r acc, (length r <= n)%nat ->
     (2 * length r < f1)%nat -> (2 * length r < f2)%nat ->
     parse_members f1 depth r acc = parse_members f2 depth r acc).
Proof.
  induction n as [n IH] using lt_wf_ind.
  assert (forall f1 f2 depth r, (length r <= n)%nat -> (2 * length r <= f1)%nat ->
    (2 * length r <= f2)%nat -> parse_value f1 depth r = parse_value f2 depth r) as Hv.
  { intros f1 f2 depth r Hr H1 H2.
    destruct r as [|c r]; [by destruct f1, f2|].
    destruct f1 as [|f1]; [simpl in *; lia|]. destruct f2 as [|f2]; [simpl in *; lia|].
    cbn [parse_value]. pose proof (skip_ws_length r).
    destruct (skip_ws r) as [|d r1]; [done|]. cbn [length] in *.
    destruct (IH (length r) ltac:(lia)) as (_ & IHe & IHm).
    rewrite (IHe f1 f2), (IHm f1 f2) by (simpl; lia). done. }
  repeat split; [done| |].
  - intros [|f1] [|f2] depth r acc Hr H1 H2; try lia. cbn [parse_elements parse_members]. pose proof (skip_ws_length r).
    rewrite (Hv f1 f2) by lia.
    destruct (parse_value f2 depth (skip_ws r)) as [[v r1]|] eqn:E; [|done].
    apply parse_length in E. pose proof (skip_ws_length r1).
    destruct (skip_ws r1) as [|c r2]; [done|]. simpl in *.
    destruct (IH (length r2) ltac:(lia)) as (_ & IHe & _). rewrite (IHe f1 f2) by lia. done.
  - intros [|f1] [|f2] depth r acc Hr H1 H2; try lia. cbn [parse_elements parse_members]. pose proof (skip_ws_length r).
    destruct r as [|c0 r0] eqn:Er; [done|]. rewrite <- Er in *.
    destruct (parse_string (skip_ws r)) as [[k r1]|] eqn:E1; [|done].
    apply parse_string_length in E1. pose proof (skip_ws_length r1).
    destruct (skip_ws r1) as [|c r2]; [done|]. pose proof (skip_ws_length r2). simpl in *.
    rewrite (Hv f1 f2) by lia.
    destruct (parse_value f2 depth (skip_ws r2)) as [[v r3]|] eqn:E; [|done].
    apply parse_length in E. pose proof (skip_ws_length r3).
    destruct (skip_ws r3) as [|d r4]; [done|]. simpl in *.
    destruct (IH (length r4) ltac:(lia)) as (_ & _ & IHm). rewrite (IHm f1 f2) by lia. done.
Qed.

End fuel.

(** ** Printing and parsing are inverse

    On trees whose numbers are integers below [2 ^ 53], or numbers the C library
    reads back as it wrote them, whose strings are C strings and whose nesting the
    parser accepts. *)

Definition no_nul (s : list ascii) : bool := forallb (fun c => negb (bool_decide (c = NUL))) s.

Definition json_int (d : double) : bool :=
  match d with
  | DFin m e => (e =? 0) && (Z.abs m <? 2 ^ 53)
  | _ => false
  end.

(** What the [%1.17g] of [print_number] is there for: the text of a number that
    is not an integer is a number again, and the same one. *)
Definition reads_back `{CLib} (d : double) : bool :=
  match d with
  | DFin _ _ =>
      negb (deq_int d (valueint d)) && is_number_text (fmt_g d) &&
      bool_decide (strtod (fmt_g d) = (d, length (fmt_g d)))
  | _ => false
  end.

Fixpoint wf_json `{CLib} (v : cJSON) : bool :=
  match v with
  | JNumber d => json_int d || reads_back d
  | JString s => no_nul s
  | JArray l => forallb wf_json l
  | JObject l => forallb (fun p => no_nul p.1 && wf_json p.2) l
  | _ => true
  end.

Fixpoint height (v : cJSON) : Z :=
  match v with
  | JArray l => 1 + fold_right (fun x n => Z.max (height x) n) 0 l
  | JObject l => 1 + fold_right (fun p n => Z.max (height p.2) n) 0 l
  | _ => 0
  end.

Section cJSON_induction.
Context (P : cJSON -> Prop)
  (Hf : P JFalse) (Ht : P JTrue) (Hn : P JNull)
  (Hd : forall d, P (JNumber d)) (Hs : forall s, P (JString s))
  (Ha : forall l, Forall P l -> P (JArray l))
  (Ho : forall l, Forall (fun p => P p.2) l -> P (JObject l)).

Fixpoint cJSON_nested_ind (v : cJSON) : P v :=
  match v with
  | JFalse => Hf
  | JTrue => Ht
  | JNull => Hn
  | JNumber d => Hd d
  | JString s => Hs s
  | JArray l =>
      Ha l ((fix go l := match l return Forall P l with
                         | [] => List.Forall_nil _
                         | x :: l' => List.Forall_cons _ _ _ (cJSON_nested_ind x) (go l')
                         end) l)
  | JObject l =>
      Ho l ((fix go l := match l return Forall (fun p => P p.2) l with
                         | [] => List.Forall_nil _
                         | p :: l' => List.Forall_cons _ _ _ (cJSON_nested_ind p.2) (go l')
                         end) l)
  end.
End cJSON_induction.

Lemma no_nul_spec s : no_nul s = true -> NUL ∉ s.
Proof.
  unfold no_nul. intros Hs Hin. rewrite forallb_forall in Hs.
  apply list_elem_of_In, Hs, negb_true_iff, bool_decide_eq_false in Hin. done.
Qed.

Lemma scan_print_char c r :
  scan_string (print_char c ++ r) = (p ← scan_string r; Some (print_char c ++ p.1, p.2)).
Proof.
  destruct (scan_string r) as [[s1 r1]|] eqn:E;
    destruct c as [[] [] [] [] [] [] [] []]; simpl; rewrite E; reflexivity.
Qed.

Lemma unescape_print_char f c t :
  unescape (S f) (print_char c ++ t) = cons c <$> unescape f t.
Proof. destruct c as [[] [] [] [] [] [] [] []]; reflexivity. Qed.

Lemma scan_print_string s rest :
  scan_string (concat (map print_char s) ++ DQUOTE :: rest) =
  Some (concat (map print_char s), rest).
Proof.
  induction s as [|c s IH]; [done|]. simpl. rewrite <- (assoc_L (++)), scan_print_char, IH. done.
Qed.

Lemma unescape_print_string s k :
  unescape (length s + k) (concat (map print_char s)) = Some s.
Proof.
  induction s as [|c s IH]; [by destruct k|].
  simpl length. simpl map. simpl concat. rewrite Nat.add_succ_l, unescape_print_char, IH. done.
Qed.

Lemma parse_print_string s rest :
  no_nul s = true -> parse_string (print_string_ptr s ++ rest) = Some (s, rest).
Proof.
  intros Hs. unfold print_string_ptr, parse_string. simpl app.
  cbn [bool_decide decide]. rewrite <- (assoc_L (++)). simpl app.
  rewrite scan_print_string. simpl.
  assert (length s <= length (concat (map print_char s)))%nat as L.
  { clear. induction s as [|c s IH]; simpl; [lia|]. pose proof (print_char_length c). len. }
  replace (length (concat (map print_char s))) with
    (length s + (length (concat (map print_char s)) - length s))%nat by lia.
  rewrite unescape_print_string. simpl. by rewrite c_str_id by by apply no_nul_spec.
Qed.

(** What may follow a value: a delimiter the parser does not skip. *)
Definition stop (rest : list ascii) : bool :=
  match rest with
  | [] => false
  | c :: r => negb (number_char c) && ((32 <? code c) || bool_decide (r = []))
  end.

Lemma skip_ws_stop rest : stop rest = true -> skip_ws rest = rest.
Proof.
  destruct rest as [|c r]; [done|]. simpl. intros [_ H]%andb_true_iff.
  destruct r; [done|]. destruct (Z.leb_spec (code c) 32); [|done].
  rewrite bool_decide_false in H by done. rewrite orb_false_r in H. breflect. lia.
Qed.

Lemma skip_ws_visible c r : 32 < code c -> skip_ws (c :: r) = c :: r.
Proof. intros ?. destruct r; simpl; [done|]. destruct (Z.leb_spec (code c) 32); [lia|done]. Qed.

Section roundtrip.
Context `{CLibLaws}.

Lemma number_token_app t rest :
  forallb number_char t = true -> stop rest = true -> number_token (t ++ rest) = t.
Proof.
  intros Ht Hr. induction t as [|c t IH]; simpl in *.
  - destruct rest as [|c r]; [done|]. simpl in *. breflect.
    destruct (number_char c); done.
  - apply andb_true_iff in Ht as [-> Ht]. f_equal. auto.
Qed.

Lemma dec_number_chars n : 0 <= n -> forallb number_char (dec n) = true.
Proof.
  intros Hn. apply forallb_forall. intros c Hc%list_elem_of_In.
  pose proof (dec_digits_all 20 n [] Hn ltac:(constructor)) as A.
  unfold all_digits in A. rewrite Forall_forall in A.
  unfold number_char. rewrite (A c Hc). done.
Qed.

Lemma fmt_d_number_text z : is_number_text (fmt_d z) = true.
Proof.
  unfold is_number_text. pose proof (fmt_d_length z).
  destruct (Z.leb_spec (strlen (fmt_d z)) 25); [|lia].
  unfold fmt_d. case_goal; breflect.
  - simpl. rewrite dec_number_chars by lia. done.
  - rewrite dec_number_chars by lia.
    destruct (dec_nonempty z ltac:(lia)) as (c & s & -> & Hd). by rewrite Hd, orb_true_r.
Qed.

Lemma valueint_int m : valueint (DFin m 0) = Z.max INT_MIN (Z.min INT_MAX m).
Proof. unfold valueint, d_trunc. cbn [Z.leb Z.compare]. by rewrite Z.pow_0_r, Z.mul_1_r. Qed.

Lemma deq_int_refl m : deq_int (DFin m 0) m = true.
Proof. unfold deq_int, fin_lt. rewrite Z.ltb_irrefl. done. Qed.

Lemma deq_int_neq m n : m <> n -> deq_int (DFin m 0) n = false.
Proof.
  intros ?. unfold deq_int, fin_lt. rewrite !Z.min_id, !Z.sub_diag, !Z.pow_0_r, !Z.mul_1_r. lia.
Qed.

Lemma number_text_short t : is_number_text t = true -> (strlen t <=? 25) = true.
Proof. unfold is_number_text. by intros [[T _]%andb_true_iff _]%andb_true_iff. Qed.

(** An integer number prints as number text that [strtod] reads back. *)
Lemma print_int_spec d :
  json_int d = true ->
  exists t, print_number d = Some t /\ is_number_text t = true /\ strtod t = (d, length t).
Proof.
  destruct d as [| |m e]; try done. simpl. intros Hd. breflect. subst e.
  assert (d_of_Z m = DFin m 0) as Em by by apply d_of_Z_exact.
  unfold print_number. rewrite valueint_int.
  destruct (decide (INT_MIN <= m <= INT_MAX)) as [Hr|Hr].
  - rewrite Z.min_r, Z.max_r, deq_int_refl by lia.
    pose proof (fmt_d_number_text m) as T. exists (fmt_d m).
    by rewrite strtod_fmt_d, Em, (number_text_short _ T) by done.
  - rewrite deq_int_neq by (unfold INT_MIN, INT_MAX in *; lia).
    assert (INT_MAX < Z.abs m < 2 ^ 53) as Hm by (unfold INT_MIN, INT_MAX in *; lia).
    pose proof (fmt_g_text m Hm) as T. rewrite Em in T. exists (fmt_g (DFin m 0)).
    rewrite (number_text_short _ T). split_and!; [done..|]. by rewrite <- Em, strtod_fmt_g.
Qed.

Lemma print_number_spec d :
  json_int d || reads_back d = true ->
  exists t, print_number d = Some t /\ is_number_text t = true /\ strtod t = (d, length t).
Proof.
  intros [Hi|Hr]%orb_true_iff; [by apply print_int_spec|]. destruct d as [| |m e]; try done.
  unfold reads_back in Hr. apply andb_true_iff in Hr as [[Hd%negb_true_iff T]%andb_true_iff Es].
  apply bool_decide_eq_true in Es. exists (fmt_g (DFin m e)). unfold print_number. rewrite Hd, number_text_short by done.
  by split_and!.
Qed.

(** *** Heads of printed texts *)

Definition json_head (t : list ascii) : bool :=
  match t with
  | c :: _ => (32 <? code c) && (code c <? 128) && negb (bool_decide (c = "]"%char))
  | [] => false
  end.

Lemma number_text_head t : is_number_text t = true -> json_head t = true.
Proof.
  unfold is_number_text. destruct t as [|c t]; [by rewrite andb_false_r|].
  intros [_ Hc]%andb_true_iff. simpl. apply orb_true_iff in Hc as [Hc|Hc].
  - breflect. by subst c.
  - apply andb_true_iff. split; [unfold isdigit in Hc; breflect; lia|].
    apply negb_true_iff, bool_decide_eq_false. intros ->. vm_compute in Hc. done.
Qed.

Lemma print_head v t : wf_json v = true -> print_value v = Some t -> json_head t = true.
Proof.
  destruct v as [| | |d|s|l|l]; simpl; intros Hw E.
  - by simplify_eq.
  - by simplify_eq.
  - by simplify_eq.
  - destruct (print_number_spec d Hw) as (u & Eu & T & _). simplify_eq. by apply number_text_head.
  - by simplify_eq.
  - by apply bind_Some in E as (u & _ & [= <-]).
  - by apply bind_Some in E as (u & _ & [= <-]).
Qed.

Lemma skip_ws_head t r : json_head t = true -> skip_ws (t ++ r) = t ++ r.
Proof.
  destruct t as [|c t]; [done|]. simpl json_head. intros [[Hc _]%andb_true_iff _]%andb_true_iff.
  apply skip_ws_visible. lia.
Qed.

Lemma height_nonneg v : 0 <= height v.
Proof.
  assert (forall A (f : A -> Z) l, 0 <= fold_right (fun x n => Z.max (f x) n) 0 l) as Hfold.
  { intros A f l. induction l; simpl; lia. }
  destruct v as [| | |d|s|l|l]; simpl; try lia.
  - specialize (Hfold _ height l). lia.
  - specialize (Hfold _ (fun p => height p.2) l). lia.
Qed.

(** *** The inverse, value by value *)

Definition parses_back (v : cJSON) : Prop := forall fuel depth t rest,
  wf_json v = true -> print_value v = Some t -> (length t <= fuel)%nat ->
  depth + height v <= CJSON_NESTING_LIMIT -> stop rest = true ->
  parse_value fuel depth (t ++ rest) = Some (v, rest).

Lemma starts_with_other a p c r : a <> c -> starts_with (a :: p) (c :: r) = false.
Proof. intros ?. unfold starts_with. fold starts_with. by rewrite bool_decide_false. Qed.

Lemma parse_print_number d : parses_back (JNumber d).
Proof.
  intros [|fuel] depth t rest Hw E Hf _ Hr; simpl in Hw;
    destruct (print_number_spec d Hw) as (u & Eu & T & Es); simpl in E; simplify_eq;
    unfold is_number_text in T; destruct t as [|c t]; try (by rewrite andb_false_r in T).
  - simpl in Hf. lia.
  - apply andb_true_iff in T as [[_ T]%andb_true_iff Hc].
    assert (forall a, number_char a = false -> a <> c) as Hne.
    { intros a Ha ->. simpl in T. by rewrite Ha in T. }
    assert (c <> DQUOTE) as Hq by (intros ->; vm_compute in Hc; done).
    change ((c :: t) ++ rest) with (c :: (t ++ rest)). cbn [parse_value].
    assert (forall a p, number_char a = false -> starts_with (a :: p) (c :: t ++ rest) = false) as Hsw.
    { intros a p Ha. apply starts_with_other. by apply Hne. }
    unfold str. cbn [String.list_ascii_of_string].
    rewrite !Hsw by done. rewrite (bool_decide_false (c = DQUOTE)) by done. rewrite Hc.
    unfold parse_number. change (c :: t ++ rest) with ((c :: t) ++ rest).
    rewrite number_token_app, Es by done. cbn [length].
    rewrite bool_decide_false by done. rewrite <- (drop_app_length (c :: t) rest) at 2. done.
Qed.

Lemma parse_print_elements l : l <> [] -> Forall parses_back l ->
  forall fuel depth t rest acc,
  forallb wf_json l = true -> print_elements print_value l = Some t -> (length t < fuel)%nat ->
  depth + fold_right (fun x n => Z.max (height x) n) 0 l <= CJSON_NESTING_LIMIT ->
  json_head t = true /\
  parse_elements fuel depth (t ++ "]"%char :: rest) acc = Some (JArray (acc ++ l), rest).
Proof.
  induction l as [|x l IH]; [done|]. intros _ [Px Pl]%Forall_cons fuel depth t rest acc.
  cbn [forallb fold_right]. intros [Wx Wl]%andb_true_iff E Hf Hd.
  destruct fuel as [|fuel]; [lia|]. destruct l as [|y l].
  - cbn [print_elements] in E. pose proof (print_head _ _ Wx E) as Hh. split; [done|].
    cbn [parse_elements]. rewrite skip_ws_head by done.
    rewrite (Px fuel depth t _ Wx E) by (done || lia).
    rewrite skip_ws_stop by done. cbn [bool_decide decide]. done.
  - change (print_elements print_value (x :: y :: l)) with
      (t ← print_value x; r ← print_elements print_value (y :: l); Some (t ++ str "," ++ r)) in E.
    apply bind_Some in E as (t1 & E1 & (t2 & E2 & [= <-])%bind_Some).
    pose proof (print_head _ _ Wx E1) as Hh.
    split; [by destruct t1|]. rewrite <- (assoc_L (++)).
    cbn [parse_elements]. rewrite skip_ws_head by done.
    rewrite !length_app in Hf. change (length (str ",")) with 1%nat in Hf.
    rewrite (Px fuel depth t1 _ Wx E1) by (done || lia).
    change (str "," ++ t2) with (","%char :: t2). cbn [app].
    rewrite skip_ws_visible by done. rewrite bool_decide_true by done.
    cbn [length] in Hf. destruct (IH ltac:(done) Pl fuel depth t2 rest (acc ++ [x]) Wl E2) as [_ ->]; [lia|cbn [fold_right] in Hd |- *; lia|].
    by rewrite <- (assoc_L (++)).
Qed.

Lemma parse_members_unfold f depth r acc : r <> [] ->
  parse_members (S f) depth r acc =
  match parse_string (skip_ws r) with
  | None => None
  | Some (k, r1) =>
      match skip_ws r1 with
      | [] => None
      | c :: r2 =>
          if bool_decide (c = ":"%char) then
            match parse_value f depth (skip_ws r2) with
            | None => None
            | Some (v, r3) =>
                match skip_ws r3 with
                | [] => None
                | d :: r4 =>
                    if bool_decide (d = ","%char) then parse_members f depth r4 (acc ++ [(k, v)])
                    else if bool_decide (d = "}"%char) then Some (JObject (acc ++ [(k, v)]), r4)
                    else None
                end
            end
          else None
      end
  end.
Proof. by destruct r. Qed.

Lemma parse_print_members l : l <> [] -> Forall (fun p => parses_back p.2) l ->
  forall fuel depth t rest acc,
  forallb (fun p => no_nul p.1 && wf_json p.2) l = true ->
  print_members print_value l = Some t -> (length t < fuel)%nat ->
  depth + fold_right (fun p n => Z.max (height p.2) n) 0 l <= CJSON_NESTING_LIMIT ->
  (exists t', t = DQUOTE :: t') /\
  parse_members fuel depth (t ++ "}"%char :: rest) acc = Some (JObject (acc ++ l), rest).
Proof.
  induction l as [|[k x] l IH]; [done|]. intros _ [Px Pl]%Forall_cons fuel depth t rest acc.
  cbn [forallb fold_right fst snd] in *.
  intros [[Wk Wx]%andb_true_iff Wl]%andb_true_iff E Hf Hd.
  destruct fuel as [|fuel]; [lia|].
  assert (exists t1 e, print_value x = Some t1 /\ t = print_string_ptr k ++ ":"%char :: t1 ++ e /\
    ((l = [] /\ e = []) \/
     (l <> [] /\ exists t2, e = ","%char :: t2 /\ print_members print_value l = Some t2)))
    as (t1 & e & E1 & -> & He).
  { destruct l as [|p l].
    - cbn [print_members] in E. apply bind_Some in E as (t1 & E1 & [= <-]).
      exists t1, []. rewrite app_nil_r. auto.
    - change (print_members print_value ((k, x) :: p :: l)) with
        (t ← print_value x; r ← print_members print_value (p :: l);
         Some (print_string_ptr k ++ str ":" ++ t ++ str "," ++ r)) in E.
      apply bind_Some in E as (t1 & E1 & (t2 & E2 & [= <-])%bind_Some).
      exists t1, (","%char :: t2). split_and!; [done..|right]. eauto. }
  split; [unfold print_string_ptr; cbn [app]; eauto|].
  rewrite length_app in Hf. cbn [length] in Hf. rewrite length_app in Hf.
  pose proof (print_head _ _ Wx E1) as Hh.
  rewrite <- (assoc_L (++)). cbn [app]. rewrite <- (assoc_L (++)).
  rewrite parse_members_unfold, skip_ws_head, parse_print_string by done.
  rewrite skip_ws_visible by done. rewrite (bool_decide_true (":"%char = ":"%char)) by done.
  rewrite skip_ws_head by done.
  destruct He as [[-> ->]|(Hl & t2 & -> & E2)].
  - rewrite (Px fuel depth t1 _ Wx E1) by (done || lia). cbn [app].
    rewrite skip_ws_stop by done. cbn [bool_decide decide]. done.
  - rewrite (Px fuel depth t1 _ Wx E1) by (done || lia). cbn [app length] in *.
    rewrite skip_ws_visible by done. rewrite bool_decide_true by done.
    destruct (IH Hl Pl fuel depth t2 rest (acc ++ [(k, x)]) Wl E2) as [_ ->]; [lia|cbn [fold_right] in Hd |- *; lia|].
    by rewrite <- (assoc_L (++)).
Qed.

Lemma parse_value_bracket f depth r : depth < CJSON_NESTING_LIMIT ->
  parse_value (S f) depth ("["%char :: r) =
  match skip_ws r with
  | [] => None
  | d :: r'' => if bool_decide (d = "]"%char) then Some (JArray [], r'')
                else parse_elements f (depth + 1) (d :: r'') []
  end.
Proof.
  intros Hd. transitivity (if CJSON_NESTING_LIMIT <=? depth then None else
    match skip_ws r with
    | [] => None
    | d :: r'' => if bool_decide (d = "]"%char) then Some (JArray [], r'')
                  else parse_elements f (depth + 1) (d :: r'') []
    end); [reflexivity|].
  destruct (Z.leb_spec CJSON_NESTING_LIMIT depth); [lia|done].
Qed.

Lemma parse_value_brace f depth r : depth < CJSON_NESTING_LIMIT ->
  parse_value (S f) depth ("{"%char :: r) =
  match skip_ws r with
  | [] => None
  | d :: r'' => if bool_decide (d = "}"%char) then Some (JObject [], r'')
                else parse_members f (depth + 1) (d :: r'') []
  end.
Proof.
  intros Hd. transitivity (if CJSON_NESTING_LIMIT <=? depth then None else
    match skip_ws r with
    | [] => None
    | d :: r'' => if bool_decide (d = "}"%char) then Some (JObject [], r'')
                  else parse_members f (depth + 1) (d :: r'') []
    end); [reflexivity|].
  destruct (Z.leb_spec CJSON_NESTING_LIMIT depth); [lia|done].
Qed.

Lemma parse_print v : parses_back v.
Proof.
  induction v as [| | |d|s|l IH|l IH] using cJSON_nested_ind;
    [..|by apply parse_print_number| | |]; intros [|fuel] depth t rest Hw E Hf Hd Hr;
    cbn [print_value] in E; simplify_eq; try (vm_compute in Hf; lia); try reflexivity.
  - simpl in Hw. change (print_string_ptr s ++ rest) with
      (DQUOTE :: (concat (map print_char s) ++ [DQUOTE]) ++ rest).
    cbn [parse_value]. unfold str. cbn [String.list_ascii_of_string].
    rewrite !starts_with_other by done. rewrite bool_decide_true by done.
    change (DQUOTE :: (concat (map print_char s) ++ [DQUOTE]) ++ rest) with
      (print_string_ptr s ++ rest). by rewrite parse_print_string.
  - apply bind_Some in E as (u & _ & [= <-]). simpl in Hf. lia.
  - apply bind_Some in E as (u & E & [= <-]). cbn [height wf_json] in *.
    cbn [length] in Hf. rewrite length_app in Hf. change (length (str "]")) with 1%nat in Hf.
    destruct l as [|x l].
    { cbn [print_elements] in E. simplify_eq. simpl in Hd. unfold str. cbn [app String.list_ascii_of_string].
      rewrite parse_value_bracket, skip_ws_visible by (done || lia). done. }
    assert (0 <= fold_right (fun x n => Z.max (height x) n) 0 (x :: l)).
    { simpl. pose proof (height_nonneg x). lia. }
    destruct (parse_print_elements (x :: l) ltac:(done) IH fuel (depth + 1) u rest [] Hw E)
      as [Hh Hp]; [lia..|].
    cbn [app]. rewrite <- (assoc_L (++)), parse_value_bracket by lia.
    rewrite skip_ws_head by done. destruct u as [|c u]; [done|].
    apply andb_true_iff in Hh as [_ Hc%negb_true_iff]. cbn [app] in *. by rewrite Hc.
  - apply bind_Some in E as (u & _ & [= <-]). simpl in Hf. lia.
  - apply bind_Some in E as (u & E & [= <-]). cbn [height wf_json] in *.
    cbn [length] in Hf. rewrite length_app in Hf. change (length (str "}")) with 1%nat in Hf.
    destruct l as [|[k x] l].
    { cbn [print_members] in E. simplify_eq. simpl in Hd. unfold str. cbn [app String.list_ascii_of_string].
      rewrite parse_value_brace, skip_ws_visible by (done || lia). done. }
    assert (0 <= fold_right (fun p n => Z.max (height p.2) n) 0 ((k, x) :: l)).
    { simpl. pose proof (height_nonneg x). lia. }
    destruct (parse_print_members ((k, x) :: l) ltac:(done) IH fuel (depth + 1) u rest [] Hw E)
      as [[u' ->] Hp]; [lia..|].
    cbn [app]. rewrite <- (assoc_L (++)), parse_value_brace by lia.
    by rewrite skip_ws_visible by done.
Qed.

Lemma head_not_bom t r : json_head t = true -> starts_with BOM (t ++ r) = false.
Proof.
  destruct t as [|c t]; [done|]. simpl json_head. intros [[_ Hc]%andb_true_iff _]%andb_true_iff.
  apply starts_with_other. intros <-. vm_compute in Hc. done.
Qed.

Lemma cJSON_Parse_print v t :
  wf_json v = true -> height v <= CJSON_NESTING_LIMIT -> cJSON_PrintUnformatted v = Some t ->
  cJSON_Parse t = Some v.
Proof.
  intros Hw Hh E. pose proof (print_head v t Hw E) as Ht.
  unfold cJSON_Parse, cJSON_ParseWithLength, skip_utf8_bom.
  rewrite head_not_bom, andb_false_r, skip_ws_head by done.
  rewrite (parse_print v _ _ t [NUL] Hw E) by (done || lia || (rewrite length_app; lia)).
  by destruct t.
Qed.

End roundtrip.

(** ** A C library that satisfies the laws

    Integers and halves, in decimal: enough to evaluate the model on the
    messages of the agent, whose numbers are integers but for the percentages. *)

Fixpoint digit_run (s : list ascii) : list ascii :=
  match s with
  | c :: s' => if isdigit c then c :: digit_run s' else []
  | [] => []
  end.

(** The digits of [s], and a half after them. *)
Definition decimal_read (neg : bool) (s : list ascii) : double * nat :=
  let ds := digit_run s in
  let n := read_digits 0 s in
  if bool_decide (ds = []) then (DFin 0 0, O)
  else if starts_with (str ".5") (drop (length ds) s)
  then (DFin (if neg then - (2 * n + 1) else 2 * n + 1) (-1), (length ds + 2)%nat)
  else (d_of_Z (if neg then - n else n), length ds).

Definition decimal_strtod (s : list ascii) : double * nat :=
  match s with
  | c :: s' =>
      if bool_decide (c = "-"%char) then
        match decimal_read true s' with (d, O) => (d, O) | (d, n) => (d, S n) end
      else decimal_read false s
  | [] => (DFin 0 0, O)
  end.

Definition decimal_lib : CLib := {|
  fmt_g d :=
    match d with
    | DFin m e =>
        if (e =? -1) && Z.odd m
        then fmt_d (Z.quot m 2) ++ str ".5"
        else fmt_d (m * 2 ^ e)
    | _ => str "null"
    end;
  strtod := decimal_strtod;
|}.

Lemma digit_run_dec n : 0 <= n -> digit_run (dec n) = dec n.
Proof.
  intros Hn. pose proof (dec_digits_all 20 n [] Hn ltac:(constructor)) as A. fold (dec n) in A.
  induction A as [|c s Hc _ IH]; [done|]. simpl. rewrite Hc. by f_equal.
Qed.

Lemma decimal_read_dec neg n : 0 <= n < 10 ^ 20 ->
  decimal_read neg (dec n) = (d_of_Z (if neg then - n else n), length (dec n)).
Proof.
  intros Hn. pose proof (read_dec n [] Hn ltac:(done)) as R. rewrite app_nil_r in R.
  unfold decimal_read. rewrite digit_run_dec, R by lia.
  destruct (dec_nonempty n ltac:(lia)) as (c & s & E & _). rewrite bool_decide_false by by rewrite E.
  by rewrite drop_all.
Qed.

Lemma decimal_strtod_fmt_d z :
  Z.abs z < 2 ^ 53 -> decimal_strtod (fmt_d z) = (d_of_Z z, length (fmt_d z)).
Proof.
  intros Hz. unfold fmt_d. destruct (Z.ltb_spec z 0); unfold decimal_strtod.
  - rewrite bool_decide_true, decimal_read_dec, Z.opp_involutive by (done || lia).
    destruct (dec_nonempty (- z) ltac:(lia)) as (c & s & -> & _). done.
  - pose proof (decimal_read_dec false z ltac:(lia)) as D.
    destruct (dec_nonempty z ltac:(lia)) as (c & s & E & Hc). rewrite E in *. rewrite D.
    rewrite (bool_decide_false (c = _)); [done|]. intros ->. by vm_compute in Hc.
Qed.

#[global] Instance decimal_lib_laws : @CLibLaws decimal_lib.
Proof.
  assert (forall z, Z.abs z < 2 ^ 53 -> @fmt_g decimal_lib (d_of_Z z) = fmt_d z) as Hg.
  { intros z Hz. rewrite d_of_Z_exact by done. simpl. by rewrite Z.mul_1_r. }
  split; intros z Hz; unfold INT_MIN, INT_MAX in Hz.
  - by apply decimal_strtod_fmt_d; lia.
  - rewrite Hg by lia. by apply decimal_strtod_fmt_d; lia.
  - rewrite Hg by lia. apply fmt_d_number_text.
Qed.
