(* ===== verification/Protocol.v ===== *)
(** Messages of the control channel: [src/protocol.c].

    A builder returns [Some text] when the C function returns the length of
    the text it wrote to the caller's buffer, and [None] when it returns -1.
    What a call reads from its surroundings is a [ser_env]: the 16 bytes
    [_gen_uuid] obtained from [/dev/urandom] or [rand], the clock, and whether
    each of the [cJSON_Create*] calls whose result the code tests succeeded. *)
From S2P Require Import Prelude CString Double Types Json JsonParse.

Record ser_env : Type := mk_ser_env {
  rnd : list Z;          (* the random bytes of the message identifier *)
  tv_sec : Z;            (* CLOCK_REALTIME *)
  tv_nsec : Z;
  body_ok : bool;        (* cJSON_CreateObject for the body *)
  root_ok : bool;        (* cJSON_CreateObject for the envelope *)
  hw_ok : bool;          (* cJSON_CreateObject for the hardware object *)
  array_ok : bool;       (* cJSON_CreateArray for a list *)
  item_ok : nat -> bool; (* cJSON_CreateObject for the i-th list entry *)
}.

Definition _now_ms (e : ser_env) : Z :=
  wrap_u64 (tv_sec e * 1000 + tv_nsec e `div` 1000000).

(** ** Identifiers *)

Definition byte_at (l : list Z) (i : nat) : Z := default 0 (l !! i).

(** The version and variant bits that make the bytes a version 4 UUID. *)
Definition uuid_bytes (r : list Z) : list Z :=
  <[8%nat := Z.lor (Z.land (byte_at r 8) 63) 128]>
    (<[6%nat := Z.lor (Z.land (byte_at r 6) 15) 64]> r).

Definition _gen_uuid (r : list Z) : list ascii :=
  let b i := hex2 (byte_at (uuid_bytes r) i) in
  fit LEO_UUID_STR_LEN
    (b 0%nat ++ b 1%nat ++ b 2%nat ++ b 3%nat ++ str "-" ++ b 4%nat ++ b 5%nat ++ str "-" ++
     b 6%nat ++ b 7%nat ++ str "-" ++ b 8%nat ++ b 9%nat ++ str "-" ++
     b 10%nat ++ b 11%nat ++ b 12%nat ++ b 13%nat ++ b 14%nat ++ b 15%nat).

(** ** The envelope *)

Section protocol.
Context `{CLib}.

Definition envelope (e : ser_env) (t : leo_msg_type_t) (body : option cJSON) : cJSON :=
  let root := JObject [] in
  let root := cJSON_AddNumberToObject root (str "v") (d_of_Z LEO_PROTOCOL_VERSION) in
  let root := cJSON_AddNumberToObject root (str "type") (d_of_Z (msg_code t)) in
  let root := cJSON_AddStringToObject root (str "id") (_gen_uuid (rnd e)) in
  let root := cJSON_AddNumberToObject root (str "ts") (d_of_Z (_now_ms e)) in
  match body with
  | Some b => cJSON_AddItemToObject root (str "body") b
  | None => cJSON_AddItemToObject root (str "body") (JObject [])
  end.

Definition _serialize (e : ser_env) (t : leo_msg_type_t) (body : option cJSON) (bufsz : Z) :
    option (list ascii) :=
  if negb (root_ok e) then None
  else
    match cJSON_PrintUnformatted (envelope e t body) with
    | None => None
    | Some json_str => if bufsz <=? strlen json_str then None else Some json_str
    end.

(** ** Builders *)

Definition leo_proto_build_hello (e : ser_env) (cfg : leo_config_t) (bufsz : Z) :
    option (list ascii) :=
  if negb (body_ok e) then None
  else
    let body := JObject [] in
    let body := cJSON_AddStringToObject body (str "agent_id") (agent_id cfg) in
    let body := cJSON_AddStringToObject body (str "tenant_id") (tenant_id cfg) in
    let body := cJSON_AddStringToObject body (str "hostname") (hostname cfg) in
    let body := cJSON_AddStringToObject body (str "os") (os_name cfg) in
    let body := cJSON_AddStringToObject body (str "os_version") (os_version cfg) in
    let body := cJSON_AddStringToObject body (str "arch") (arch cfg) in
    let body := cJSON_AddStringToObject body (str "agent_version") LEO_AGENT_VERSION in
    _serialize e LEO_MSG_HELLO (Some body) bufsz.

Definition leo_proto_build_heartbeat (e : ser_env) (seq : Z) (bufsz : Z) : option (list ascii) :=
  if negb (body_ok e) then None
  else
    let body := cJSON_AddNumberToObject (JObject []) (str "seq") (d_of_Z seq) in
    _serialize e LEO_MSG_HEARTBEAT (Some body) bufsz.

Definition leo_proto_build_metrics (e : ser_env) (m : leo_metrics_t) (bufsz : Z) :
    option (list ascii) :=
  if negb (body_ok e) then None
  else
    let num b k z := cJSON_AddNumberToObject b (str k) (d_of_Z z) in
    let body := cJSON_AddNumberToObject (JObject []) (str "cpu_percent") (cpu_total_percent m) in
    let body := num body "ram_total_bytes"%string (ram_total_bytes m) in
    let body := num body "ram_used_bytes"%string (ram_used_bytes m) in
    let body := num body "ram_available_bytes"%string (ram_available_bytes m) in
    let body := num body "disk_total_bytes"%string (disk_total_bytes m) in
    let body := num body "disk_used_bytes"%string (disk_used_bytes m) in
    let body := num body "net_bytes_in"%string (net_bytes_in m) in
    let body := num body "net_bytes_out"%string (net_bytes_out m) in
    let body := num body "process_count"%string (process_count m) in
    let n := Z.to_nat (Z.min (cpu_core_count m) LEO_MAX_CPU_CORES) in
    let cores := fold_left cJSON_AddItemToArray (map JNumber (take n (cpu_per_core m))) (JArray []) in
    let body := cJSON_AddItemToObject body (str "cpu_per_core") cores in
    _serialize e LEO_MSG_METRICS (Some body) bufsz.

Definition leo_proto_build_cmd_result (e : ser_env) (cmd_id : list ascii) (code : Z)
    (out err : list ascii) (bufsz : Z) : option (list ascii) :=
  if negb (body_ok e) then None
  else
    let body := JObject [] in
    let body := cJSON_AddStringToObject body (str "command_id") cmd_id in
    let body := cJSON_AddNumberToObject body (str "exit_code") (d_of_Z code) in
    let body := cJSON_AddStringToObject body (str "stdout") out in
    let body := cJSON_AddStringToObject body (str "stderr") err in
    _serialize e LEO_MSG_CMD_RESULT (Some body) bufsz.

Definition leo_proto_build_pong (e : ser_env) (ping_id : list ascii) (bufsz : Z) :
    option (list ascii) :=
  if negb (body_ok e) then None
  else
    let body := cJSON_AddStringToObject (JObject []) (str "ping_id") ping_id in
    _serialize e LEO_MSG_PONG (Some body) bufsz.

(** The entries of a list whose own object could be created. *)
Definition built_items {A} (e : ser_env) (f : A -> cJSON) (l : list A) : list cJSON :=
  omap (fun p => if item_ok e p.1 then Some (f p.2) else None) (imap pair l).

Definition sw_json (s : leo_sw_item_t) : cJSON :=
  let item := JObject [] in
  let item := cJSON_AddStringToObject item (str "name") (sw_name s) in
  let item := cJSON_AddStringToObject item (str "version") (sw_version s) in
  let item := cJSON_AddStringToObject item (str "publisher") (sw_publisher s) in
  cJSON_AddStringToObject item (str "install_path") (sw_install_path s).

Definition leo_proto_build_inventory (e : ser_env) (hw : leo_hw_inventory_t)
    (sw : list leo_sw_item_t) (sw_count : Z) (bufsz : Z) : option (list ascii) :=
  if negb (body_ok e) then None
  else if negb (hw_ok e) then None
  else
    let jhw := JObject [] in
    let jhw := cJSON_AddStringToObject jhw (str "cpu_model") (cpu_model hw) in
    let jhw := cJSON_AddNumberToObject jhw (str "cpu_cores") (d_of_Z (cpu_cores hw)) in
    let jhw := cJSON_AddNumberToObject jhw (str "cpu_threads") (d_of_Z (cpu_threads hw)) in
    let jhw := cJSON_AddNumberToObject jhw (str "ram_total_bytes") (d_of_Z (hw_ram_total_bytes hw)) in
    let jhw := cJSON_AddNumberToObject jhw (str "disk_count") (d_of_Z (disk_count hw)) in
    let jhw := cJSON_AddStringToObject jhw (str "bios_version") (bios_version hw) in
    let jhw := cJSON_AddStringToObject jhw (str "bios_vendor") (bios_vendor hw) in
    let jhw := cJSON_AddStringToObject jhw (str "motherboard") (motherboard hw) in
    let jhw := cJSON_AddStringToObject jhw (str "serial_number") (serial_number hw) in
    let body := cJSON_AddItemToObject (JObject []) (str "hardware") jhw in
    if negb (array_ok e) then None
    else
      let items := built_items e sw_json (take (Z.to_nat sw_count) sw) in
      let jsw := fold_left cJSON_AddItemToArray items (JArray []) in
      let body := cJSON_AddItemToObject body (str "software") jsw in
      _serialize e LEO_MSG_INVENTORY (Some body) bufsz.

Definition _patch_severity_str (s : leo_patch_severity_t) : list ascii :=
  match s with
  | LEO_PATCH_SEVERITY_CRITICAL => str "critical"
  | LEO_PATCH_SEVERITY_IMPORTANT => str "important"
  | LEO_PATCH_SEVERITY_OPTIONAL => str "optional"
  end.

Definition patch_json (p : leo_patch_t) : cJSON :=
  let item := JObject [] in
  let item := cJSON_AddStringToObject item (str "id") (patch_id p) in
  let item := cJSON_AddStringToObject item (str "title") (patch_title p) in
  let item := cJSON_AddStringToObject item (str "severity") (_patch_severity_str (patch_severity p)) in
  cJSON_AddNumberToObject item (str "size_bytes") (d_of_Z (patch_size_bytes p)).

Definition leo_proto_build_patch_inventory (e : ser_env) (patches : list leo_patch_t)
    (count : Z) (bufsz : Z) : option (list ascii) :=
  if negb (body_ok e) then None
  else if negb (array_ok e) then None
  else
    let items := built_items e patch_json (take (Z.to_nat count) patches) in
    let jpatches := fold_left cJSON_AddItemToArray items (JArray []) in
    let body := cJSON_AddItemToObject (JObject []) (str "patches") jpatches in
    _serialize e LEO_MSG_PATCH_INVENTORY (Some body) bufsz.

Definition _file_transfer_status_str (s : leo_file_transfer_status_t) : list ascii :=
  match s with
  | LEO_FILE_TRANSFER_DOWNLOADING => str "downloading"
  | LEO_FILE_TRANSFER_VERIFYING => str "verifying"
  | LEO_FILE_TRANSFER_COMPLETED => str "completed"
  | LEO_FILE_TRANSFER_FAILED => str "failed"
  end.

Definition leo_proto_build_file_transfer_progress (e : ser_env) (cmd_id : list ascii)
    (status : leo_file_transfer_status_t) (percent bytes_received bytes_total : Z)
    (error_msg : option (list ascii)) (bufsz : Z) : option (list ascii) :=
  if negb (body_ok e) then None
  else
    let body := JObject [] in
    let body := cJSON_AddStringToObject body (str "command_id") cmd_id in
    let body := cJSON_AddStringToObject body (str "status") (_file_transfer_status_str status) in
    let body := cJSON_AddNumberToObject body (str "percent") (d_of_Z percent) in
    let body := cJSON_AddNumberToObject body (str "bytes_received") (d_of_Z bytes_received) in
    let body := cJSON_AddNumberToObject body (str "bytes_total") (d_of_Z bytes_total) in
    let body := match error_msg with
                | Some m => cJSON_AddStringToObject body (str "error") m
                | None => body
                end in
    _serialize e LEO_MSG_FILE_TRANSFER_PROGRESS (Some body) bufsz.

Definition leo_proto_build_remote_desktop_status (e : ser_env) (session_id status : list ascii)
    (error_msg : option (list ascii)) (bufsz : Z) : option (list ascii) :=
  if negb (body_ok e) then None
  else
    let body := JObject [] in
    let body := cJSON_AddStringToObject body (str "session_id") session_id in
    let body := cJSON_AddStringToObject body (str "status") status in
    let body := match error_msg with
                | Some m => cJSON_AddStringToObject body (str "error") m
                | None => body
                end in
    _serialize e LEO_MSG_REMOTE_DESKTOP_STATUS (Some body) bufsz.

(** ** Incoming messages *)

Record leo_incoming_msg_t : Type := mk_msg {
  m_type : Z;
  m_id : list ascii;
  m_body : option cJSON;
}.

Definition msg_unknown : leo_incoming_msg_t := mk_msg (msg_code LEO_MSG_UNKNOWN) [] None.

(** The conversion of the "type" number to [int] is undefined behaviour when
    it does not fit. *)
Definition leo_proto_parse (json_str : list ascii) : outcome (leo_error_t * leo_incoming_msg_t) :=
  match cJSON_Parse json_str with
  | None => Ret (LEO_ERR_PROTOCOL, msg_unknown)
  | Some root =>
      match cJSON_IsNumber (cJSON_GetObjectItemCaseSensitive root (str "type")) with
      | None => Ret (LEO_ERR_PROTOCOL, msg_unknown)
      | Some d =>
          t ← cast_int d;
          let id := match cJSON_IsString (cJSON_GetObjectItemCaseSensitive root (str "id")) with
                    | Some s => fit LEO_UUID_STR_LEN s
                    | None => []
                    end in
          let '(jbody, _) := cJSON_DetachItemFromObjectCaseSensitive root (str "body") in
          Ret (LEO_OK, mk_msg t id jbody)
      end
  end.

Definition leo_proto_msg_free (m : leo_incoming_msg_t) : leo_incoming_msg_t := mk_msg 0 [] None.

End protocol.

(** ** Version 4 UUIDs (RFC 4122) *)

(** 36 characters, dashes at 8, 13, 18 and 23, lower-case hexadecimal digits
    elsewhere, version 4 and variant 10xx. *)
Definition is_uuid_v4 (s : list ascii) : bool :=
  (strlen s =? 36) &&
  forallb (fun p => if existsb (Nat.eqb p.1) [8; 13; 18; 23]%nat
                    then bool_decide (p.2 = "-"%char) else is_hex p.2) (imap pair s) &&
  bool_decide (s !! 14%nat = Some "4"%char) &&
  match s !! 19%nat with Some c => bool_decide (c ∈ str "89ab") | None => false end.

Definition is_byte (z : Z) : bool := (0 <=? z) && (z <? 256).

(** The randomness and the clock a message is built with are sensible: 16
    bytes, and a time the [double] of the "ts" field represents exactly. *)
Definition env_sane (e : ser_env) : bool :=
  (Z.of_nat (length (rnd e)) =? 16) && forallb is_byte (rnd e) && (_now_ms e <? 2 ^ 53).

Lemma version_bits b : 0 <= b < 256 ->
  hex_digit (Z.lor (Z.land b 15) 64 `div` 16) = "4"%char /\
  is_hex (hex_digit (Z.lor (Z.land b 15) 64 `mod` 16)) = true.
Proof.
  intros Hb. pose proof (forall_byte (fun b =>
    bool_decide (hex_digit (Z.lor (Z.land b 15) 64 `div` 16) = "4"%char) &&
    is_hex (hex_digit (Z.lor (Z.land b 15) 64 `mod` 16))) b ltac:(vm_compute; done) Hb) as H.
  cbv beta in H.
  breflect. split_and!; done.
Qed.

Lemma variant_bits b : 0 <= b < 256 ->
  hex_digit (Z.lor (Z.land b 63) 128 `div` 16) ∈ str "89ab" /\
  is_hex (hex_digit (Z.lor (Z.land b 63) 128 `div` 16)) = true /\
  is_hex (hex_digit (Z.lor (Z.land b 63) 128 `mod` 16)) = true.
Proof.
  intros Hb. pose proof (forall_byte (fun b =>
    bool_decide (hex_digit (Z.lor (Z.land b 63) 128 `div` 16) ∈ str "89ab") &&
    is_hex (hex_digit (Z.lor (Z.land b 63) 128 `div` 16)) &&
    is_hex (hex_digit (Z.lor (Z.land b 63) 128 `mod` 16))) b ltac:(vm_compute; done) Hb) as H.
  cbv beta in H.
  breflect. split_and!; done.
Qed.

Lemma hex2_hex b : is_byte b = true ->
  is_hex (hex_digit (b `div` 16)) = true /\ is_hex (hex_digit (b `mod` 16)) = true.
Proof.
  unfold is_byte. intros ?. breflect. pose proof (Z.mod_pos_bound b 16).
  split; apply hex_digit_is_hex; [|lia]. split; [apply Z.div_pos; lia|].
  apply Z.div_lt_upper_bound; lia.
Qed.

Lemma sixteen {A} (l : list A) : length l = 16%nat ->
  exists a b c d e f g h i j k m n o p q, l = [a; b; c; d; e; f; g; h; i; j; k; m; n; o; p; q].
Proof. intros E. do 16 (destruct l as [|? l]; [done|]). destruct l; [|done]. by repeat eexists. Qed.

(** The identifier of every message is a version 4 UUID. *)
Lemma gen_uuid_shape r :
  length r = 16%nat -> forallb is_byte r = true -> is_uuid_v4 (_gen_uuid r) = true.
Proof.
  intros L B. destruct (sixteen r L) as (b0&b1&b2&b3&b4&b5&b6&b7&b8&b9&b10&b11&b12&b13&b14&b15&->).
  cbn [forallb] in B. repeat (apply andb_true_iff in B as [? B]).
  repeat match goal with H : is_byte _ = true |- _ =>
    pose proof (hex2_hex _ H) as [? ?]; unfold is_byte in H end. breflect.
  destruct (version_bits b6 ltac:(lia)) as [V1 V2].
  destruct (variant_bits b8 ltac:(lia)) as (V3 & V4 & V5).
  unfold _gen_uuid, is_uuid_v4.
  change (fit LEO_UUID_STR_LEN ?s) with (take 36 s).
  change (str "-") with ["-"%char]. unfold uuid_bytes, hex2.
  cbn -[hex_digit Z.lor Z.land Z.div Z.modulo is_hex str strlen].
  rewrite V1, V2, V4, V5. repeat match goal with H : is_hex _ = true |- _ => rewrite H; clear H end.
  rewrite (bool_decide_true (_ ∈ str "89ab")) by done. done.
Qed.

Lemma uuid_v4_spec s : is_uuid_v4 s = true -> strlen s = 36 /\ no_nul s = true.
Proof.
  unfold is_uuid_v4. intros [[[Hl%Z.eqb_eq Hc]%andb_true_iff _]%andb_true_iff _]%andb_true_iff.
  split; [done|]. unfold no_nul. apply forallb_forall.
  intros c [i Hi]%list_elem_of_In%list_elem_of_lookup.
  rewrite forallb_forall in Hc. specialize (Hc (i, c)). cbn [fst snd] in Hc.
  apply negb_true_iff, bool_decide_eq_false. intros ->.
  assert (In (i, NUL) (imap pair s)) as Hin.
  { apply list_elem_of_In, list_elem_of_lookup. exists i. by rewrite list_lookup_imap, Hi. }
  specialize (Hc Hin). by destruct (existsb _ _).
Qed.

Lemma env_sane_spec e : env_sane e = true ->
  length (rnd e) = 16%nat /\ forallb is_byte (rnd e) = true /\ 0 <= _now_ms e < 2 ^ 53.
Proof.
  unfold env_sane. intros ?. breflect. pose proof (wrap_u64_range (tv_sec e * 1000 + tv_nsec e `div` 1000000)).
  split_and!; [lia|done|unfold _now_ms; lia|done].
Qed.

(** Lengths of texts made of literals and printed values. *)
Ltac text_length :=
  unfold strlen in *;
  repeat (rewrite length_app || (progress cbn [length]));
  repeat match goal with
  | |- context [length (print_string_ptr (str ?x))] =>
      let n := eval vm_compute in (length (print_string_ptr (str x))) in
      change (length (print_string_ptr (str x))) with n
  | |- context [length (str ?x)] =>
      let n := eval vm_compute in (length (str x)) in change (length (str x)) with n
  end; lia.

Section fits.
Context `{CLib}.

(** Nothing is serialised that does not fit with its terminator. *)
Lemma serialize_fits e t b bufsz txt : _serialize e t b bufsz = Some txt -> strlen txt < bufsz.
Proof.
  unfold _serialize. destruct (root_ok e), (cJSON_PrintUnformatted _) as [u|]; try done. cbn [negb].
  destruct (Z.leb_spec bufsz (strlen u)); [done|]. by intros [= <-].
Qed.

(** A serialised message begins with the version and its type. *)
Definition type_prefix (t : leo_msg_type_t) : list ascii :=
  str "{" ++ print_string_ptr (str "v") ++ str ":" ++ fmt_d LEO_PROTOCOL_VERSION ++ str "," ++
  print_string_ptr (str "type") ++ str ":" ++ fmt_d (msg_code t) ++ str ",".

Lemma print_small z : INT_MIN <= z <= INT_MAX -> print_number (d_of_Z z) = Some (fmt_d z).
Proof.
  intros Hz. unfold print_number. rewrite d_of_Z_exact by (unfold INT_MIN, INT_MAX in *; lia).
  rewrite valueint_int, Z.min_r, Z.max_r, deq_int_refl by lia.
  by rewrite (number_text_short _ (fmt_d_number_text z)).
Qed.

Lemma serialize_prefix e t b bufsz txt : _serialize e t b bufsz = Some txt -> type_prefix t `prefix_of` txt.
Proof.
  unfold _serialize. destruct (root_ok e), (cJSON_PrintUnformatted _) as [u|] eqn:E; try done. cbn [negb].
  destruct (_ <=? _); [done|]. intros [= <-].
  assert (print_number (d_of_Z (msg_code t)) = Some (fmt_d (msg_code t))) as Hp by (apply print_small; by destruct t).
  assert (exists v, envelope e t b = JObject [(str "v", JNumber (d_of_Z LEO_PROTOCOL_VERSION));
    (str "type", JNumber (d_of_Z (msg_code t))); (str "id", JString (_gen_uuid (rnd e)));
    (str "ts", JNumber (d_of_Z (_now_ms e))); (str "body", v)]) as [v Ev] by (destruct b; eauto).
  rewrite Ev in E. unfold cJSON_PrintUnformatted in E. cbn [print_value print_members] in E.
  rewrite (print_small LEO_PROTOCOL_VERSION) in E by done. rewrite Hp in E. cbn [mbind option_bind] in E.
  apply bind_Some in E as (u1 & (u2 & (u3 & _ & [= <-])%bind_Some & [= <-])%bind_Some & [= <-]).
  unfold type_prefix. eexists. rewrite <- !(assoc_L (++)). reflexivity.
Qed.

Lemma serialize_nonempty e t b bufsz txt : _serialize e t b bufsz = Some txt -> (0 <? strlen txt) = true.
Proof. intros [r ->]%serialize_prefix. reflexivity. Qed.

(** Whether a message on the socket is a CMD_RESULT. *)
Definition is_cmd_result (txt : list ascii) : bool := starts_with (type_prefix LEO_MSG_CMD_RESULT) txt.

Lemma serialize_type e t b bufsz txt : _serialize e t b bufsz = Some txt ->
  is_cmd_result txt = bool_decide (t = LEO_MSG_CMD_RESULT).
Proof. intros [r ->]%serialize_prefix. destruct t; vm_compute; reflexivity. Qed.

(** A message that fits a slot of the send queue and is not a CMD_RESULT. *)
Definition note_text (txt : list ascii) : Prop :=
  is_cmd_result txt = false /\ txt <> [] /\ strlen txt < LEO_MAX_MSG_SIZE.

Lemma serialize_note e t b bufsz txt :
  _serialize e t b bufsz = Some txt -> t <> LEO_MSG_CMD_RESULT -> bufsz <= LEO_MAX_MSG_SIZE -> note_text txt.
Proof.
  intros E Ht Hb. split_and!.
  - by rewrite (serialize_type _ _ _ _ _ E), bool_decide_false.
  - intros ->. by apply serialize_nonempty in E.
  - apply serialize_fits in E. lia.
Qed.

End fits.

(** The messages of every builder but one are notes. *)
Ltac built_note B :=
  repeat match type of B with context [if ?b then _ else _] => destruct b; try discriminate B end;
  cbn [negb] in B; apply (serialize_note _ _ _ _ _ B); done.

Section messages.
Context `{CLibLaws}.

Lemma json_int_Z z : Z.abs z < 2 ^ 53 -> json_int (d_of_Z z) = true.
Proof. intros Hz. rewrite d_of_Z_exact by done. simpl. by apply Z.ltb_lt in Hz as ->. Qed.

Lemma cast_int_Z z : INT_MIN <= z <= INT_MAX -> cast_int (d_of_Z z) = Ret z.
Proof.
  intros Hz. rewrite d_of_Z_exact by (unfold INT_MIN, INT_MAX in *; lia).
  unfold cast_int, d_trunc. cbn [Z.leb Z.compare]. rewrite Z.pow_0_r, Z.mul_1_r.
  by destruct (Z.leb_spec INT_MIN z), (Z.leb_spec z INT_MAX); try lia.
Qed.

Lemma msg_code_range t : -1 <= msg_code t <= 111.
Proof. destruct t; simpl; lia. Qed.

Lemma envelope_wf e t b : env_sane e = true -> wf_json b = true -> wf_json (envelope e t (Some b)) = true.
Proof.
  intros (L & B & T)%env_sane_spec Hb. cbn -[no_nul json_int reads_back d_of_Z _gen_uuid _now_ms msg_code].
  pose proof (msg_code_range t).
  destruct (uuid_v4_spec _ (gen_uuid_shape _ L B)) as [_ ->].
  rewrite !json_int_Z, Hb by (unfold LEO_PROTOCOL_VERSION; lia). done.
Qed.

(** What [leo_proto_parse] makes of a serialised envelope. *)
Lemma parse_envelope e t b txt :
  env_sane e = true -> wf_json b = true -> height b < CJSON_NESTING_LIMIT ->
  cJSON_PrintUnformatted (envelope e t (Some b)) = Some txt ->
  leo_proto_parse txt = Ret (LEO_OK, mk_msg (msg_code t) (_gen_uuid (rnd e)) (Some b)).
Proof.
  intros He Hb Hh Ht. unfold leo_proto_parse. pose proof (height_nonneg b).
  rewrite (cJSON_Parse_print _ _ (envelope_wf e t b He Hb)) with (2 := Ht) by (simpl; lia).
  destruct (env_sane_spec e He) as (L & B & _).
  destruct (uuid_v4_spec _ (gen_uuid_shape _ L B)) as [Hl _].
  pose proof (msg_code_range t).
  change (cJSON_IsNumber _) with (Some (d_of_Z (msg_code t))). cbv iota beta.
  rewrite cast_int_Z by (unfold INT_MIN, INT_MAX; lia).
  change (cJSON_IsString _) with (Some (_gen_uuid (rnd e))).
  change (cJSON_DetachItemFromObjectCaseSensitive _ _).1 with (Some b).
  simpl. rewrite fit_id; [done|]. rewrite Hl. done.
Qed.


Lemma print_int z : Z.abs z < 2 ^ 53 ->
  exists u, print_number (d_of_Z z) = Some u /\ strlen u <= 25.
Proof.
  intros Hz. destruct (print_int_spec _ (json_int_Z z Hz)) as (u & E & T & _).
  exists u. split; [done|]. unfold is_number_text in T. breflect. lia.
Qed.

(** The printed length of an envelope around a body. *)
Lemma envelope_length e t b ub :
  env_sane e = true -> print_value b = Some ub ->
  exists txt, cJSON_PrintUnformatted (envelope e t (Some b)) = Some txt /\
  strlen txt <= strlen ub + 350.
Proof.
  intros (L & B & T)%env_sane_spec Eb. pose proof (msg_code_range t).
  destruct (uuid_v4_spec _ (gen_uuid_shape _ L B)) as [Hl _].
  destruct (print_int LEO_PROTOCOL_VERSION ltac:(done)) as (u1 & E1 & L1).
  destruct (print_int (msg_code t) ltac:(lia)) as (u2 & E2 & L2).
  destruct (print_int (_now_ms e) ltac:(lia)) as (u3 & E3 & L3).
  eexists. split.
  - unfold cJSON_PrintUnformatted, envelope. cbn -[print_number d_of_Z print_string_ptr str].
    rewrite E1. cbn -[print_number d_of_Z print_string_ptr str].
    rewrite E2. cbn -[print_number d_of_Z print_string_ptr str].
    rewrite E3. cbn -[print_number d_of_Z print_string_ptr str].
    rewrite Eb. reflexivity.
  - pose proof (print_string_length (_gen_uuid (rnd e))) as Hu. rewrite Hl in Hu.
    text_length.
Qed.

(** Characters that print as themselves or as a two-byte escape. *)
Definition texty (c : ascii) : bool := (length (print_char c) <=? 2)%nat.

Lemma print_texty_length s : forallb texty s = true -> strlen (print_string_ptr s) <= 2 + 2 * strlen s.
Proof.
  unfold print_string_ptr, strlen. intros Hs. cbn [length]. rewrite length_app. cbn [length].
  induction s as [|c s IH]; [simpl; lia|]. cbn [forallb map concat] in *. rewrite length_app.
  apply andb_true_iff in Hs as [Hc%Nat.leb_le Hs]. specialize (IH Hs). cbn [length]. lia.
Qed.

Lemma texty_no_nul s : forallb texty s = true -> no_nul s = true.
Proof.
  unfold no_nul. rewrite !forallb_forall. intros Hs c Hc. specialize (Hs c Hc).
  apply negb_true_iff, bool_decide_eq_false. intros ->. by vm_compute in Hs.
Qed.

Definition cmd_result_body (cmd_id : list ascii) (code : Z) (out err : list ascii) : cJSON :=
  JObject [(str "command_id", JString cmd_id); (str "exit_code", JNumber (d_of_Z code));
           (str "stdout", JString out); (str "stderr", JString err)].

Lemma cmd_result_text id code out err :
  Z.abs code < 2 ^ 53 ->
  exists ub, print_value (cmd_result_body id code out err) = Some ub /\
  strlen ub <= strlen (print_string_ptr id) + strlen (print_string_ptr out) +
               strlen (print_string_ptr err) + 100.
Proof.
  intros Hc. destruct (print_int code Hc) as (u & E & L). eexists. split.
  - cbn -[print_number d_of_Z print_string_ptr str]. rewrite E. reflexivity.
  - text_length.
Qed.

(** Whether a message of strings and small numbers can be built: the memory for
    it is there, and the clock gives a time. *)
Definition serialisable (e : ser_env) : bool := env_sane e && body_ok e && root_ok e.

Lemma cmd_result_built e id code out err :
  serialisable e = true -> strlen id < LEO_UUID_STR_LEN -> INT_MIN <= code <= INT_MAX ->
  forallb texty out = true -> strlen out < LEO_EXEC_STDOUT_MAX ->
  forallb texty err = true -> strlen err < LEO_EXEC_STDERR_MAX ->
  exists txt, cJSON_PrintUnformatted (envelope e LEO_MSG_CMD_RESULT (Some (cmd_result_body id code out err))) = Some txt /\
  leo_proto_build_cmd_result e id code out err LEO_MAX_MSG_SIZE = Some txt.
Proof.
  intros [[He Hb]%andb_true_iff Hr]%andb_true_iff Lid Hc Ho Lo Hs Ls.
  assert (Z.abs code < 2 ^ 53) as Hcode by (unfold INT_MIN, INT_MAX in *; lia).
  destruct (cmd_result_text id code out err Hcode) as (ub & Eb & Lb).
  destruct (envelope_length e LEO_MSG_CMD_RESULT _ ub He Eb) as (txt & Et & Lt).
  pose proof (print_string_length id). pose proof (print_texty_length out Ho).
  pose proof (print_texty_length err Hs).
  exists txt. split; [done|]. unfold leo_proto_build_cmd_result, _serialize. rewrite Hb, Hr.
  change (cJSON_AddStringToObject _ _ _) with (cmd_result_body id code out err).
  cbn [negb]. rewrite Et. destruct (Z.leb_spec LEO_MAX_MSG_SIZE (strlen txt)); [|done].
  unfold LEO_MAX_MSG_SIZE, LEO_UUID_STR_LEN, LEO_EXEC_STDOUT_MAX, LEO_EXEC_STDERR_MAX in *. lia.
Qed.

(** C26: when the output a command left in the agent's two output buffers is
    text (no control character that needs a six-byte escape), its CMD_RESULT
    always fits the 64 KiB message buffer, and the receiver reads back the
    command identifier, the exit code and both outputs unchanged. *)
Theorem cmd_result_delivered e id code out err :
  env_sane e = true -> body_ok e = true -> root_ok e = true ->
  no_nul id = true -> strlen id < LEO_UUID_STR_LEN -> INT_MIN <= code <= INT_MAX ->
  forallb texty out = true -> strlen out < LEO_EXEC_STDOUT_MAX ->
  forallb texty err = true -> strlen err < LEO_EXEC_STDERR_MAX ->
  exists txt, leo_proto_build_cmd_result e id code out err LEO_MAX_MSG_SIZE = Some txt /\
  leo_proto_parse txt = Ret (LEO_OK, mk_msg (msg_code LEO_MSG_CMD_RESULT) (_gen_uuid (rnd e))
                                           (Some (cmd_result_body id code out err))).
Proof.
  intros He Hb Hr Hid Lid Hc Ho Lo Hs Ls.
  destruct (cmd_result_built e id code out err) as (txt & Et & B); try done.
  { unfold serialisable. by rewrite He, Hb, Hr. }
  assert (Z.abs code < 2 ^ 53) as Hcode by (unfold INT_MIN, INT_MAX in *; lia).
  exists txt. split; [done|]. apply parse_envelope; [done| |done|done].
  cbn -[no_nul json_int reads_back d_of_Z].
  rewrite Hid, (texty_no_nul out), (texty_no_nul err), json_int_Z by done. done.
Qed.

(** Whatever the backend sends, a message that is accepted has a type in
    the range of [int] and an identifier that fits its 37-byte field; a
    rejected one leaves the message empty, with the unknown type. *)
Lemma parse_bounds json_str err m :
  leo_proto_parse json_str = Ret (err, m) ->
  (err = LEO_OK /\ INT_MIN <= m_type m <= INT_MAX /\ strlen (m_id m) < LEO_UUID_STR_LEN) \/
  (err = LEO_ERR_PROTOCOL /\ m = msg_unknown).
Proof.
  unfold leo_proto_parse. destruct (cJSON_Parse _) as [root|]; [|intros [= <- <-]; auto].
  destruct (cJSON_IsNumber _) as [d|]; [|intros [= <- <-]; auto].
  unfold cast_int. destruct (d_trunc d) as [z|]; [|done].
  destruct ((INT_MIN <=? z) && (z <=? INT_MAX)) eqn:Hz; [|done]. breflect. simpl.
  destruct (cJSON_DetachItemFromObjectCaseSensitive _ _) as [jb r]. intros [= <- <-]. left.
  split_and!; simpl; [done|lia|lia|]. destruct (cJSON_IsString _); [|done].
  by apply fit_length.
Qed.

End messages.

(** ** Evaluations *)

Definition sample_env : ser_env :=
  mk_ser_env (replicate 16 171) 1700000000 5000000 true true true true (fun _ => true).


Example cmd_result_delivered_witness :
  exists txt, @leo_proto_build_cmd_result decimal_lib sample_env (str "42") 3 (str "ok") [LF] LEO_MAX_MSG_SIZE
    = Some txt /\
  @leo_proto_parse decimal_lib txt =
    Ret (LEO_OK, mk_msg 5 (_gen_uuid (rnd sample_env)) (Some (cmd_result_body (str "42") 3 (str "ok") [LF]))).
Proof.
  apply (@cmd_result_delivered decimal_lib decimal_lib_laws sample_env (str "42") 3 (str "ok") [LF]);
    try reflexivity. split; discriminate.
Defined.

(** A command whose captured output holds control characters can exceed
    the message buffer once escaped (six bytes each): the CMD_RESULT is then
    not built at all, here for 11 000 ESC characters, well within the 16 KiB
    output buffer. *)
Theorem cmd_result_can_be_dropped :
  strlen (replicate (Z.to_nat 11000) "027"%char) < LEO_EXEC_STDOUT_MAX /\
  @leo_proto_build_cmd_result decimal_lib sample_env (str "42") 0 (replicate (Z.to_nat 11000) "027"%char) []
    LEO_MAX_MSG_SIZE = None.
Proof. split; vm_compute; reflexivity. Qed.

(** The conversion of the "type" number to [int] is not guarded: a
    message of type 2 ^ 32 makes the parser reach undefined behaviour. *)
Theorem parse_type_overflow :
  @leo_proto_parse decimal_lib (str "{" ++ print_string_ptr (str "type") ++ str ":4294967296}") = Undef.
Proof. vm_compute. reflexivity. Qed.
