(* ===== verification/Config.v ===== *)
(** The INI configuration file of the agent: [src/config.c].

    A file that exists is the list of its bytes, [None] stands for a file that
    [fopen] cannot open.  [leo_config_load] returns the error code and the
    structure it leaves behind its [out] pointer. *)
From S2P Require Import Prelude CString Types.

Definition INI_LINE_MAX : Z := 1024.

Definition _trim (s : list ascii) : list ascii := reverse (skip_space (reverse (skip_space s))).

Definition _set_field (key val target_key dst : list ascii) (dst_sz : Z) : list ascii :=
  if streq key target_key then fit dst_sz val else dst.

Definition leo_config_is_valid (cfg : leo_config_t) : bool :=
  if negb (strlen (ca_fingerprint cfg) =? 64) then false
  else
    negb (bool_decide (agent_id cfg = [])) && negb (bool_decide (tenant_id cfg = [])) &&
    negb (bool_decide (ws_endpoint cfg = [])).

(** The assignments that follow a line split at its first ['=']. *)
Definition set_fields (out : leo_config_t) (key val : list ascii) : leo_config_t := {|
  agent_id := _set_field key val (str "agent_id") (agent_id out) LEO_UUID_STR_LEN;
  tenant_id := _set_field key val (str "tenant_id") (tenant_id out) LEO_UUID_STR_LEN;
  ws_endpoint := _set_field key val (str "ws_endpoint") (ws_endpoint out) ENDPOINT_SZ;
  hostname := _set_field key val (str "hostname") (hostname out) HOSTNAME_SZ;
  os_name := _set_field key val (str "os_name") (os_name out) OS_NAME_SZ;
  os_version := _set_field key val (str "os_version") (os_version out) OS_VERSION_SZ;
  arch := _set_field key val (str "arch") (arch out) ARCH_SZ;
  hardware_id := _set_field key val (str "hardware_id") (hardware_id out) LEO_UUID_STR_LEN;
  ca_fingerprint := _set_field key val (str "ca_fingerprint") (ca_fingerprint out) FINGERPRINT_SZ;
  metrics_interval_sec :=
    if streq key (str "metrics_interval_sec") then atoi val else metrics_interval_sec out;
  heartbeat_interval_sec :=
    if streq key (str "heartbeat_interval_sec") then atoi val else heartbeat_interval_sec out;
|}.

(** One round of the reading loop. *)
Definition load_line (out : leo_config_t) (line : list ascii) : leo_config_t :=
  let p := _trim (c_str line) in
  match p with
  | [] => out
  | c :: _ =>
      if bool_decide (c = "#"%char) || bool_decide (c = ";"%char) then out
      else
        match strchr p "="%char with
        | None => out
        | Some sep => set_fields out (_trim (take sep p)) (_trim (drop (S sep) p))
        end
  end.

Definition config_default : leo_config_t :=
  mk_config [] [] [] [] [] [] [] [] [] LEO_METRICS_INTERVAL_SEC LEO_HEARTBEAT_INTERVAL_SEC.

Definition leo_config_load (file : option (list ascii)) (out : leo_config_t) :
    leo_error_t * leo_config_t :=
  match file with
  | None => (LEO_ERR_CONFIG, out)
  | Some bytes =>
      let out := fold_left load_line (fgets_all INI_LINE_MAX bytes) config_default in
      if negb (leo_config_is_valid out) then (LEO_ERR_CONFIG, out) else (LEO_OK, out)
  end.

(** The lines [leo_config_save] prints, without their newlines. *)
Definition config_lines (cfg : leo_config_t) : list (list ascii) :=
  [str "# Leo-One Agent — configuration générée automatiquement";
   str "# Ne pas modifier manuellement sauf agent_id et ws_endpoint";
   [];
   str "agent_id=" ++ agent_id cfg;
   str "tenant_id=" ++ tenant_id cfg;
   str "ws_endpoint=" ++ ws_endpoint cfg;
   str "hostname=" ++ hostname cfg;
   str "os_name=" ++ os_name cfg;
   str "os_version=" ++ os_version cfg;
   str "arch=" ++ arch cfg;
   str "hardware_id=" ++ hardware_id cfg;
   str "ca_fingerprint=" ++ ca_fingerprint cfg;
   str "metrics_interval_sec=" ++ fmt_d (metrics_interval_sec cfg);
   str "heartbeat_interval_sec=" ++ fmt_d (heartbeat_interval_sec cfg)].

(** The new content of the file; [open_ok] is whether [fopen] succeeds. *)
Definition leo_config_save (open_ok : bool) (cfg : leo_config_t) :
    leo_error_t * option (list ascii) :=
  if negb open_ok then (LEO_ERR_CONFIG, None)
  else (LEO_OK, Some (concat (map (fun l => l ++ [LF]) (config_lines cfg)))).

(** ** Lemmas *)

Lemma set_field_fits key val tk dst sz :
  1 <= sz -> strlen dst < sz -> strlen (_set_field key val tk dst sz) < sz.
Proof. unfold _set_field. destruct (streq _ _); auto with leo. Qed.

Lemma config_fits_spec c : config_fits c = true <->
  strlen (agent_id c) < LEO_UUID_STR_LEN /\ strlen (tenant_id c) < LEO_UUID_STR_LEN /\
  strlen (ws_endpoint c) < ENDPOINT_SZ /\ strlen (hostname c) < HOSTNAME_SZ /\
  strlen (os_name c) < OS_NAME_SZ /\ strlen (os_version c) < OS_VERSION_SZ /\
  strlen (arch c) < ARCH_SZ /\ strlen (hardware_id c) < LEO_UUID_STR_LEN /\
  strlen (ca_fingerprint c) < FINGERPRINT_SZ /\
  INT_MIN <= metrics_interval_sec c <= INT_MAX /\ INT_MIN <= heartbeat_interval_sec c <= INT_MAX.
Proof.
  unfold config_fits. rewrite !andb_true_iff, !Z.ltb_lt, !Z.leb_le. tauto.
Qed.

Lemma load_line_fits c l : config_fits c = true -> config_fits (load_line c l) = true.
Proof.
  unfold load_line. destruct (_trim (c_str l)) as [|a p]; [done|].
  destruct (_ || _); [done|]. destruct (strchr _ _) as [sep|]; [|done].
  rewrite !config_fits_spec. simpl.
  intros (?&?&?&?&?&?&?&?&?&?&?). split_and!; try by apply set_field_fits.
  all: case_goal; try lia; apply atoi_range.
Qed.

Lemma load_lines_fits ls c : config_fits c = true -> config_fits (fold_left load_line ls c) = true.
Proof. revert c. induction ls; simpl; auto using load_line_fits. Qed.

(** A value that survives a line: no NUL, no newline, no blank at its ends. *)
Definition clean (s : list ascii) : bool :=
  bool_decide (NUL ∉ s) && bool_decide (LF ∉ s) && bool_decide (_trim s = s).

Definition config_clean (c : leo_config_t) : bool :=
  forallb clean [agent_id c; tenant_id c; ws_endpoint c; hostname c; os_name c; os_version c;
                 arch c; hardware_id c; ca_fingerprint c].

Lemma skip_space_cons c s : isspace c = false -> skip_space (c :: s) = c :: s.
Proof. intros E. simpl. by rewrite E. Qed.

(** A line [key=value] whose value is trimmed stays as it is when trimmed,
    the final newline apart. *)
Lemma trim_line c k s :
  isspace c = false -> _trim s = s ->
  _trim (c :: k ++ "="%char :: s ++ [LF]) = c :: k ++ "="%char :: s.
Proof.
  intros Hc Hs. unfold _trim. rewrite skip_space_cons by done.
  replace (c :: k ++ "="%char :: s ++ [LF]) with ((c :: k ++ "="%char :: s) ++ [LF])
    by (simpl; by rewrite <- (assoc_L (++))).
  rewrite reverse_app. change (skip_space (reverse [LF] ++ ?r)) with (skip_space r).
  assert (skip_space (reverse s) = reverse s) as Hr.
  { unfold _trim in Hs.
    assert (skip_space s = s) as E.
    { pose proof (skip_space_length s) as L1.
      pose proof (skip_space_length (reverse (skip_space s))) as L2.
      apply (f_equal length) in Hs. rewrite length_reverse in *.
      clear -Hs L1 L2. destruct s as [|a s]; [done|]. simpl in *.
      destruct (isspace a); [|done]. pose proof (skip_space_length s). lia. }
    rewrite E in Hs. apply (f_equal reverse) in Hs. by rewrite reverse_involutive in Hs. }
  assert (skip_space (reverse (c :: k ++ "="%char :: s)) = reverse (c :: k ++ "="%char :: s)) as ->.
  2: by rewrite reverse_involutive.
  replace (c :: k ++ "="%char :: s) with (c :: (k ++ ["="%char]) ++ s)
    by (by rewrite <- (assoc_L (++))).
  rewrite reverse_cons, !reverse_app. rewrite (reverse_singleton "="%char).
  destruct (reverse s) as [|d r] eqn:E; [done|].
  simpl in Hr. simpl. destruct (isspace d); [|done].
  pose proof (skip_space_length r) as L. apply (f_equal length) in Hr. simpl in Hr. lia.
Qed.

(** Reading a printed line assigns its field. *)
Lemma load_printed c k s out :
  isspace c = false -> c <> "#"%char -> c <> ";"%char -> NUL ∉ c :: k -> "="%char ∉ c :: k ->
  _trim (c :: k) = c :: k -> clean s = true ->
  load_line out (((c :: k) ++ "="%char :: s) ++ [LF]) = set_fields out (c :: k) s.
Proof.
  intros Hc H1 H2 Hn He Ht Hs. unfold clean in Hs.
  apply andb_true_iff in Hs as [[Hs1%bool_decide_eq_true _]%andb_true_iff Hs3%bool_decide_eq_true].
  unfold load_line. rewrite c_str_id
    by (rewrite !not_elem_of_app, not_elem_of_cons; split_and!; done || set_solver).
  replace (((c :: k) ++ "="%char :: s) ++ [LF]) with (c :: k ++ "="%char :: s ++ [LF])
    by (simpl; by rewrite <- (assoc_L (++))).
  rewrite trim_line by done. rewrite !bool_decide_false by done. simpl orb. cbv iota.
  change (c :: k ++ "="%char :: s) with ((c :: k) ++ "="%char :: s).
  rewrite strchr_app by done. rewrite take_app_length.
  replace (drop (S (length (c :: k))) ((c :: k) ++ "="%char :: s)) with s.
  { by rewrite Ht, Hs3. }
  rewrite drop_app_ge by lia. by replace (S (length (c :: k)) - length (c :: k))%nat with 1%nat by lia.
Qed.

Lemma fmt_d_clean z : clean (fmt_d z) = true.
Proof.
  assert (forall c, c ∈ fmt_d z -> isspace c = false) as Hn.
  { intros c Hc%fmt_d_chars. destruct (isspace c) eqn:E; [|done]. apply isspace_spec in E. lia. }
  assert (forall s, (forall c, c ∈ s -> isspace c = false) -> skip_space s = s) as Hs.
  { intros s Hs. apply skip_space_id. intros c Hc. apply Hs. destruct s; [done|].
    simplify_eq/=. set_solver. }
  unfold clean. rewrite !andb_true_iff, !bool_decide_eq_true. split_and!.
  - intros Hc%fmt_d_chars. change (code NUL) with 0 in Hc. lia.
  - intros Hc%fmt_d_chars. change (code LF) with 10 in Hc. lia.
  - unfold _trim. rewrite (Hs (fmt_d z)) by done. rewrite (Hs (reverse _)).
    + apply reverse_involutive.
    + intros c Hc. apply Hn. by rewrite elem_of_reverse in Hc.
Qed.

Lemma config_clean_spec c : config_clean c = true ->
  clean (agent_id c) = true /\ clean (tenant_id c) = true /\ clean (ws_endpoint c) = true /\
  clean (hostname c) = true /\ clean (os_name c) = true /\ clean (os_version c) = true /\
  clean (arch c) = true /\ clean (hardware_id c) = true /\ clean (ca_fingerprint c) = true.
Proof. unfold config_clean. cbn [forallb]. rewrite !andb_true_iff. tauto. Qed.

Lemma config_line_fits k s sz :
  LF ∉ k -> clean s = true -> strlen s < sz -> strlen k + sz <= 1000 ->
  (LF ∉ k ++ s) /\ strlen (k ++ s) < INI_LINE_MAX - 1.
Proof.
  unfold clean. intros Hk Hs L1 L2. breflect. rewrite strlen_app, not_elem_of_app.
  unfold INI_LINE_MAX. split; [done|lia].
Qed.

(** The printed configuration is read line by line. *)
Lemma config_lines_read cfg : config_fits cfg = true -> config_clean cfg = true ->
  fgets_all INI_LINE_MAX (concat (map (fun l => l ++ [LF]) (config_lines cfg))) =
  map (fun l => l ++ [LF]) (config_lines cfg).
Proof.
  intros (?&?&?&?&?&?&?&?&?&?&?)%config_fits_spec (?&?&?&?&?&?&?&?&?)%config_clean_spec.
  pose proof (fmt_d_length (metrics_interval_sec cfg)).
  pose proof (fmt_d_length (heartbeat_interval_sec cfg)).
  assert (forall z, strlen (fmt_d z) < 22) by (intros z; pose proof (fmt_d_length z); lia).
  apply fgets_all_lines. unfold config_lines.
  do 3 (constructor; [split; [by apply (bool_decide_unpack _)|done]|]).
  repeat (constructor; [eapply config_line_fits;
    [by apply (bool_decide_unpack _)|(eassumption || apply fmt_d_clean)|eauto|vm_compute; discriminate]|]).
  constructor.
Qed.

Definition key_ok (k : list ascii) : bool :=
  match k with
  | c :: _ => negb (isspace c) && negb (bool_decide (c = "#"%char)) && negb (bool_decide (c = ";"%char))
  | [] => false
  end && bool_decide (NUL ∉ k) && bool_decide ("="%char ∉ k) && bool_decide (_trim k = k).

Lemma load_key ke k s out :
  ke = k ++ ["="%char] -> key_ok k = true -> clean s = true ->
  load_line out ((ke ++ s) ++ [LF]) = set_fields out k s.
Proof.
  intros -> Hk Hs. unfold key_ok in Hk. destruct k as [|c k]; [done|]. breflect.
  rewrite <- (load_printed c k s) by done. by rewrite <- (assoc_L (++) (c :: k)).
Qed.

(** Each key assigns its field and no other. *)
Lemma set_fields_each a b c d e f g h i m n v :
  set_fields (mk_config a b c d e f g h i m n) (str "agent_id") v = mk_config (fit LEO_UUID_STR_LEN v) b c d e f g h i m n /\
  set_fields (mk_config a b c d e f g h i m n) (str "tenant_id") v = mk_config a (fit LEO_UUID_STR_LEN v) c d e f g h i m n /\
  set_fields (mk_config a b c d e f g h i m n) (str "ws_endpoint") v = mk_config a b (fit ENDPOINT_SZ v) d e f g h i m n /\
  set_fields (mk_config a b c d e f g h i m n) (str "hostname") v = mk_config a b c (fit HOSTNAME_SZ v) e f g h i m n /\
  set_fields (mk_config a b c d e f g h i m n) (str "os_name") v = mk_config a b c d (fit OS_NAME_SZ v) f g h i m n /\
  set_fields (mk_config a b c d e f g h i m n) (str "os_version") v = mk_config a b c d e (fit OS_VERSION_SZ v) g h i m n /\
  set_fields (mk_config a b c d e f g h i m n) (str "arch") v = mk_config a b c d e f (fit ARCH_SZ v) h i m n /\
  set_fields (mk_config a b c d e f g h i m n) (str "hardware_id") v = mk_config a b c d e f g (fit LEO_UUID_STR_LEN v) i m n /\
  set_fields (mk_config a b c d e f g h i m n) (str "ca_fingerprint") v = mk_config a b c d e f g h (fit FINGERPRINT_SZ v) m n /\
  set_fields (mk_config a b c d e f g h i m n) (str "metrics_interval_sec") v = mk_config a b c d e f g h i (atoi v) n /\
  set_fields (mk_config a b c d e f g h i m n) (str "heartbeat_interval_sec") v = mk_config a b c d e f g h i m (atoi v).
Proof. split_and!; reflexivity. Qed.

(** The saved lines rebuild the configuration, field by field. *)
Lemma load_saved_lines cfg : config_fits cfg = true -> config_clean cfg = true ->
  fold_left load_line (map (fun l => l ++ [LF]) (config_lines cfg)) config_default = cfg.
Proof.
  intros Hf Hc.
  apply config_fits_spec in Hf as (?&?&?&?&?&?&?&?&?&?&?).
  apply config_clean_spec in Hc as (?&?&?&?&?&?&?&?&?).
  cbn [config_lines map fold_left].
  change (load_line (load_line (load_line config_default ?a) ?b) ?c) with config_default.
  with_strategy opaque [load_line set_fields] (rewrite (load_key (str "agent_id=") (str "agent_id")),
    (load_key (str "tenant_id=") (str "tenant_id")),
    (load_key (str "ws_endpoint=") (str "ws_endpoint")),
    (load_key (str "hostname=") (str "hostname")),
    (load_key (str "os_name=") (str "os_name")),
    (load_key (str "os_version=") (str "os_version")),
    (load_key (str "arch=") (str "arch")),
    (load_key (str "hardware_id=") (str "hardware_id")),
    (load_key (str "ca_fingerprint=") (str "ca_fingerprint")),
    (load_key (str "metrics_interval_sec=") (str "metrics_interval_sec")),
    (load_key (str "heartbeat_interval_sec=") (str "heartbeat_interval_sec")) by (reflexivity || assumption || apply fmt_d_clean)).
  unfold config_default.
  do 11 (match goal with |- context [set_fields (mk_config ?a ?b ?c ?d ?e ?f ?g ?h ?i ?m ?n) _ ?v] =>
    destruct (set_fields_each a b c d e f g h i m n v) as (E1&E2&E3&E4&E5&E6&E7&E8&E9&E10&E11) end;
    (rewrite E1 || rewrite E2 || rewrite E3 || rewrite E4 || rewrite E5 || rewrite E6 ||
     rewrite E7 || rewrite E8 || rewrite E9 || rewrite E10 || rewrite E11);
    clear E1 E2 E3 E4 E5 E6 E7 E8 E9 E10 E11).
  rewrite !fit_id by done.
  rewrite <- (app_nil_r (fmt_d (metrics_interval_sec cfg))), <- (app_nil_r (fmt_d (heartbeat_interval_sec cfg))).
  rewrite !atoi_fmt_d by done. by destruct cfg.
Qed.

Lemma saved_config_loads cfg out :
  config_fits cfg = true -> config_clean cfg = true -> leo_config_is_valid cfg = true ->
  leo_config_load (leo_config_save true cfg).2 out = (LEO_OK, cfg).
Proof.
  intros Hf Hc Hv. cbn [leo_config_save leo_config_load negb snd].
  rewrite config_lines_read, load_saved_lines, Hv by done. done.
Qed.

(** A configuration whose fields fit their arrays and hold no newline,
    NUL or outer blanks is read back exactly as it was saved. *)
Theorem config_save_load cfg out :
  config_fits cfg = true -> config_clean cfg = true -> leo_config_is_valid cfg = true ->
  leo_config_load (leo_config_save true cfg).2 out = (LEO_OK, cfg).
Proof. apply saved_config_loads. Qed.

(** Whatever bytes the file holds, what is loaded fits the arrays of the
    configuration and its intervals are [int]s; success means that the
    identity, the endpoint and a fingerprint of exactly 64 characters are
    present, and the result does not depend on the structure's old content. *)
Theorem config_load_safe bytes out :
  let r := leo_config_load (Some bytes) out in
  config_fits r.2 = true /\ (r.1 = LEO_OK <-> leo_config_is_valid r.2 = true) /\
  forall out', leo_config_load (Some bytes) out' = r.
Proof.
  simpl. set (c := fold_left _ _ _).
  assert (config_fits c = true) by by apply load_lines_fits.
  destruct (leo_config_is_valid c) eqn:E; simpl; by rewrite E.
Qed.

Definition sample_config : leo_config_t :=
  mk_config (str "agent-1") (str "tenant-1") (str "wss://rmm.example.com:8443/agent/ws") (str "pc = 1")
    (str "Linux") (str "6.1 LTS") (str "x86_64") [] (replicate 64 "a"%char) 300 (-7).

Example config_save_load_witness :
  leo_config_load (leo_config_save true sample_config).2 config_zero = (LEO_OK, sample_config).
Proof. apply (config_save_load sample_config config_zero); vm_compute; reflexivity. Defined.
