(* ===== verification/Url.v ===== *)
(** The three URL parsers of the agent: [leo_http_parse_url] of
    [src/http_url.c], [_parse_endpoint] of [src/connection.c] and
    [_parse_ws_url] of [src/remote_desktop.c].

    A parser returns [None] for [false] and otherwise what it stores through
    its output pointers.  The destination buffers of [_parse_endpoint] are
    fields of a structure obtained from [calloc], so the bytes [strncpy] does
    not write are NUL. *)
From S2P Require Import Prelude CString.

(** [colon && (!slash || colon < slash)]. *)
Definition colon_first (colon slash : option nat) : option nat :=
  match colon, slash with
  | Some c, None => Some c
  | Some c, Some s => if (c <? s)%nat then Some c else None
  | None, _ => None
  end.

Record http_url : Type := mk_http_url {
  use_ssl : bool;
  u_host : list ascii;
  u_port : Z;
  u_path : option (list ascii);   (* None when the caller passes no buffer *)
}.

Definition http_scheme (url : list ascii) : bool * list ascii :=
  if starts_with (str "https://") url then (true, drop 8 url)
  else if starts_with (str "http://") url then (false, drop 7 url)
  else (false, url).

Definition leo_http_parse_url (url : list ascii) (host_sz : Z) (path_out_sz : option Z) :
    option http_url :=
  let '(ssl, p) := http_scheme url in
  let slash := strchr p "/"%char in
  let colon := strchr p ":"%char in
  let path := sz ← path_out_sz;
              if 0 <? sz then Some (fit sz (match slash with Some s => drop s p | None => str "/" end))
              else None in
  match colon_first colon slash with
  | Some c =>
      let host_len := Z.of_nat c in
      if (host_len =? 0) || (host_sz <=? host_len) then None
      else
        let port := atoi (drop (S c) p) in
        if (port <=? 0) || (65535 <? port) then None
        else Some (mk_http_url ssl (take c p) port path)
  | None =>
      let n := match slash with Some s => s | None => length p end in
      if (Z.of_nat n =? 0) || (host_sz <=? Z.of_nat n) then None
      else Some (mk_http_url ssl (take n p) (if ssl then 443 else 80) path)
  end.

Definition ws_scheme (url : list ascii) : list ascii :=
  if starts_with (str "wss://") url then drop 6 url
  else if starts_with (str "ws://") url then drop 5 url
  else url.

Definition _parse_endpoint (endpoint : list ascii) (hsz psz : Z) :
    option (list ascii * Z * list ascii) :=
  let p := ws_scheme endpoint in
  let slash := strchr p "/"%char in
  let colon := strchr p ":"%char in
  let path := fit psz (match slash with Some s => drop s p | None => str "/ws/agent" end) in
  let finish (host : list ascii) (port : Z) :=
    if negb (bool_decide (host = [])) && (0 <? port) then Some (host, port, path) else None in
  match colon_first colon slash with
  | Some c => if hsz <=? Z.of_nat c then None else finish (take c p) (atoi (drop (S c) p))
  | None =>
      match slash with
      | Some s => if hsz <=? Z.of_nat s then None else finish (take s p) 443
      | None => finish (fit hsz p) 443
      end
  end.

Definition _parse_ws_url (url : list ascii) (hsz psz : Z) : option (list ascii * Z * list ascii) :=
  let p := ws_scheme url in
  let slash := strchr p "/"%char in
  let colon := strchr p ":"%char in
  let path := fit psz (match slash with Some s => drop s p | None => str "/" end) in
  let finish (host : list ascii) (port : Z) :=
    if negb (bool_decide (host = [])) then Some (host, port, path) else None in
  match colon_first colon slash with
  | Some c =>
      if (Z.of_nat c =? 0) || (hsz <=? Z.of_nat c) then None
      else
        let port := atoi (drop (S c) p) in
        if (port <=? 0) || (65535 <? port) then None else finish (take c p) port
  | None =>
      let n := match slash with Some s => s | None => length p end in
      if (Z.of_nat n =? 0) || (hsz <=? Z.of_nat n) then None else finish (take n p) 443
  end.

(** ** Lemmas *)

(** A host name: something without a slash or a colon. *)
Definition host_ok (h : list ascii) : bool :=
  negb (bool_decide (h = [])) && bool_decide ("/"%char ∉ h) && bool_decide (":"%char ∉ h).

(** A path: empty, or starting with a slash. *)
Definition path_ok (p : list ascii) : bool :=
  match p with [] => true | c :: _ => bool_decide (c = "/"%char) end.

(** The parts of an authority with a port. *)
Lemma authority_split h port path :
  host_ok h = true -> path_ok path = true ->
  let p := h ++ ":"%char :: fmt_d port ++ path in
  colon_first (strchr p ":"%char) (strchr p "/"%char) = Some (length h) /\
  take (length h) p = h /\ drop (S (length h)) p = fmt_d port ++ path /\
  (forall d, match strchr p "/"%char with Some s => drop s p | None => d end =
             if bool_decide (path = []) then d else path).
Proof.
  intros Hh Hp p. unfold host_ok in Hh.
  apply andb_true_iff in Hh as [[_ Hs%bool_decide_eq_true]%andb_true_iff Hc%bool_decide_eq_true].
  assert (forall c, code c = 47 \/ code c = 58 -> c ∉ fmt_d port) as Hf.
  { intros c Hcc ?%fmt_d_chars. lia. }
  assert ("/"%char ∉ h ++ ":"%char :: fmt_d port) as Hn.
  { rewrite not_elem_of_app, not_elem_of_cons. split_and!; [done|done|]. apply Hf. by left. }
  assert (p = (h ++ ":"%char :: fmt_d port) ++ path) as Ep by by rewrite <- (assoc_L (++)).
  split_and!.
  - unfold p at 1. rewrite strchr_app by done. rewrite Ep, strchr_app_notin by done.
    destruct (strchr path "/"%char); simpl; [|done].
    destruct (Nat.ltb_spec (length h) (length (h ++ ":"%char :: fmt_d port) + n)) as [|Hl]; [done|].
    rewrite length_app in Hl. simpl in Hl. lia.
  - apply take_app_length.
  - unfold p. rewrite drop_app_ge by lia.
    by replace (S (length h) - length h)%nat with 1%nat by lia.
  - intros d. rewrite Ep, strchr_app_notin by done. destruct path as [|c path]; [done|].
    apply bool_decide_eq_true in Hp as ->. cbn [strchr]. rewrite bool_decide_true by done.
    cbn. rewrite Nat.add_0_r. apply drop_app_length.
Qed.

Lemma path_head path c : path_ok path = true -> head path = Some c -> isdigit c = false.
Proof. destruct path; [done|]. simpl. intros ->%bool_decide_eq_true [= <-]. done. Qed.

Lemma port_read port path :
  INT_MIN <= port <= INT_MAX -> path_ok path = true -> atoi (fmt_d port ++ path) = port.
Proof. intros ? Hp. apply atoi_fmt_d; [done|]. intros c. by apply path_head. Qed.

Lemma http_scheme_app (ssl : bool) r :
  http_scheme ((if ssl then str "https://" else str "http://") ++ r) = (ssl, r).
Proof.
  unfold http_scheme. destruct ssl; [by rewrite starts_with_app|].
  by rewrite (starts_with_app (str "http://")).
Qed.

Lemma ws_scheme_app (tls : bool) r :
  ws_scheme ((if tls then str "wss://" else str "ws://") ++ r) = r.
Proof.
  unfold ws_scheme. destruct tls; [by rewrite starts_with_app|].
  by rewrite (starts_with_app (str "ws://")).
Qed.

(** A positive length that is below the size of the buffer passes the guard. *)
Lemma guard_host h sz : host_ok h = true -> strlen h < sz ->
  (Z.of_nat (length h) =? 0) || (sz <=? Z.of_nat (length h)) = false.
Proof.
  unfold host_ok, strlen. destruct h; [done|]. cbn [length]. intros _ ?.
  apply orb_false_iff. split; [by apply Z.eqb_neq|apply Z.leb_gt; lia].
Qed.

Lemma colon_first_spec p c :
  colon_first (strchr p ":"%char) (strchr p "/"%char) = Some c ->
  (c < length p)%nat /\ ("/"%char ∉ take c p) /\ (":"%char ∉ take c p).
Proof.
  destruct (strchr p ":"%char) as [i|] eqn:E; [|done]. simpl. intros Hc.
  assert (i = c) as -> by (destruct (strchr p "/"%char); [destruct (_ <? _)%nat|]; congruence).
  pose proof (strchr_lt _ _ _ E). apply strchr_Some in E as [_ E]. split_and!; [done| |done].
  destruct (strchr p "/"%char) as [j|] eqn:Ej; simpl in Hc.
  - destruct (Nat.ltb_spec c j); [|done]. apply strchr_Some in Ej as [_ Ej].
    intros Hin. apply Ej. replace (take c p) with (take c (take j p)) in Hin
      by (rewrite take_take; f_equal; lia). by apply elem_of_take_in in Hin.
  - apply strchr_None in Ej. intros Hin. by apply Ej, (elem_of_take_in _ c).
Qed.

(** The host that ends at the first slash, or at the end. *)
Lemma no_colon_spec p :
  colon_first (strchr p ":"%char) (strchr p "/"%char) = None ->
  let n := match strchr p "/"%char with Some s => s | None => length p end in
  (n <= length p)%nat /\ ("/"%char ∉ take n p) /\ (":"%char ∉ take n p).
Proof.
  intros Hc. destruct (strchr p "/"%char) as [j|] eqn:Ej; simpl.
  - pose proof (strchr_lt _ _ _ Ej). apply strchr_Some in Ej as [_ Ej]. split_and!; [lia|done|].
    destruct (strchr p ":"%char) as [i|] eqn:Ei.
    + simpl in Hc. destruct (Nat.ltb_spec i j); [done|]. apply strchr_Some in Ei as [_ Ei].
      intros Hin. apply Ei. replace (take j p) with (take j (take i p)) in Hin
        by (rewrite take_take; f_equal; lia). by apply elem_of_take_in in Hin.
    + apply strchr_None in Ei. intros Hin. by apply Ei, (elem_of_take_in _ j).
  - apply strchr_None in Ej. rewrite take_ge by lia. split_and!; [lia|done|].
    destruct (strchr p ":"%char) eqn:Ei; [done|]. by apply strchr_None in Ei.
Qed.

(** What every accepted URL satisfies: a host in its buffer, without
    separators, and a port. *)
Definition host_fits (h : list ascii) (sz : Z) : bool := host_ok h && (strlen h <? sz).

Lemma host_fits_take p n sz :
  (n <= length p)%nat -> ("/"%char ∉ take n p) -> (":"%char ∉ take n p) ->
  (Z.of_nat n =? 0) || (sz <=? Z.of_nat n) = false -> host_fits (take n p) sz = true.
Proof.
  intros Hn H1 H2 [Hz Hs]%orb_false_iff. breflect. unfold host_fits, host_ok, strlen.
  rewrite length_take, Nat.min_l by lia. rewrite !andb_true_iff, negb_true_iff, !bool_decide_eq_true,
    bool_decide_eq_false. split_and!; [|done|done|lia].
  intros E. apply (f_equal length) in E. rewrite length_take in E. simpl in E. lia.
Qed.

(** An http(s) URL with a host, a port and a path is split exactly into
    them (the path cut to its buffer, and "/" when there is none). *)
Theorem http_url_roundtrip (ssl : bool) h port path host_sz path_sz :
  host_ok h = true -> strlen h < host_sz -> 1 <= port <= 65535 -> path_ok path = true -> 0 < path_sz ->
  leo_http_parse_url ((if ssl then str "https://" else str "http://") ++
                      h ++ ":"%char :: fmt_d port ++ path) host_sz (Some path_sz) =
  Some (mk_http_url ssl h port
          (Some (fit path_sz (if bool_decide (path = []) then str "/" else path)))).
Proof.
  intros Hh Hl Hp Hpath Hsz. unfold leo_http_parse_url. rewrite http_scheme_app.
  destruct (authority_split h port path Hh Hpath) as (-> & E2 & E3 & E4).
  rewrite guard_host, E2, E3, E4, port_read by (done || unfold INT_MIN, INT_MAX in *; lia).
  destruct (Z.leb_spec port 0), (Z.ltb_spec 65535 port); try lia.
  cbn [orb mbind option_bind]. by destruct (Z.ltb_spec 0 path_sz); [|lia].
Qed.

(** The same for the agent's WebSocket endpoint, whatever the scheme; a
    missing path becomes "/ws/agent". *)
Theorem endpoint_roundtrip (tls : bool) h port path hsz psz :
  host_ok h = true -> strlen h < hsz -> 1 <= port <= INT_MAX -> path_ok path = true ->
  _parse_endpoint ((if tls then str "wss://" else str "ws://") ++
                   h ++ ":"%char :: fmt_d port ++ path) hsz psz =
  Some (h, port, fit psz (if bool_decide (path = []) then str "/ws/agent" else path)).
Proof.
  intros Hh Hl Hp Hpath. unfold _parse_endpoint. rewrite ws_scheme_app.
  destruct (authority_split h port path Hh Hpath) as (-> & E2 & E3 & E4).
  rewrite E2, E3, E4, port_read by (done || unfold INT_MIN, INT_MAX in *; lia). unfold strlen in Hl.
  destruct (Z.leb_spec hsz (Z.of_nat (length h))); [lia|]. unfold host_ok in Hh.
  apply andb_true_iff in Hh as [[-> _]%andb_true_iff _]. by destruct (Z.ltb_spec 0 port); [|lia].
Qed.

(** The same for the URL of a remote desktop session. *)
Theorem ws_url_roundtrip (tls : bool) h port path hsz psz :
  host_ok h = true -> strlen h < hsz -> 1 <= port <= 65535 -> path_ok path = true ->
  _parse_ws_url ((if tls then str "wss://" else str "ws://") ++
                 h ++ ":"%char :: fmt_d port ++ path) hsz psz =
  Some (h, port, fit psz (if bool_decide (path = []) then str "/" else path)).
Proof.
  intros Hh Hl Hp Hpath. unfold _parse_ws_url. rewrite ws_scheme_app.
  destruct (authority_split h port path Hh Hpath) as (-> & E2 & E3 & E4).
  rewrite guard_host, E2, E3, E4, port_read by (done || unfold INT_MIN, INT_MAX in *; lia). unfold host_ok in Hh.
  destruct (Z.leb_spec port 0), (Z.ltb_spec 65535 port); try lia.
  by apply andb_true_iff in Hh as [[-> _]%andb_true_iff _].
Qed.

Lemma parse_host p n ssl path host_sz port r :
  (n <= length p)%nat -> ("/"%char ∉ take n p) -> (":"%char ∉ take n p) ->
  (if (Z.of_nat n =? 0) || (host_sz <=? Z.of_nat n) then None
   else Some (mk_http_url ssl (take n p) port path)) = Some r ->
  host_fits (u_host r) host_sz = true /\ u_port r = port /\ u_path r = path.
Proof.
  intros Hn H1 H2. destruct (_ || _) eqn:E; [done|]. intros [= <-]. simpl.
  auto using host_fits_take.
Qed.

(** Whatever the server sends as a URL, an accepted one has a non-empty
    host that fits its buffer and holds no separator, a port of 1 to 65535,
    and a path that fits its buffer. *)
Theorem http_url_bounds url host_sz path_sz r :
  1 <= path_sz -> leo_http_parse_url url host_sz (Some path_sz) = Some r ->
  host_fits (u_host r) host_sz = true /\ 1 <= u_port r <= 65535 /\
  exists path, u_path r = Some path /\ strlen path < path_sz.
Proof.
  intros Hsz. unfold leo_http_parse_url. destruct (http_scheme url) as [ssl p]. cbn [mbind option_bind].
  destruct (Z.ltb_spec 0 path_sz); [|lia].
  destruct (colon_first _ _) as [c|] eqn:Ec.
  - apply colon_first_spec in Ec as (Hc & H1 & H2).
    destruct (_ || _) eqn:Eg; [done|]. destruct ((_ <=? 0) || _) eqn:Ep; [done|]. intros [= <-].
    simpl. breflect. split_and!; [apply host_fits_take; (lia || done)|lia|lia|eauto with leo].
  - apply no_colon_spec in Ec as (Hn & H1 & H2). intros E.
    apply parse_host in E as (? & -> & ->); [|done..].
    split_and!; [done|by destruct ssl|by destruct ssl|eauto with leo].
Qed.

Example http_url_roundtrip_witness :
  leo_http_parse_url (str "https://rmm.example.com:8443/api/files/42") 256 (Some 1024) =
  Some (mk_http_url true (str "rmm.example.com") 8443 (Some (str "/api/files/42"))).
Proof.
  apply (http_url_roundtrip true (str "rmm.example.com") 8443 (str "/api/files/42") 256 1024);
    try reflexivity. split; discriminate.
Defined.

Example endpoint_roundtrip_witness :
  _parse_endpoint (str "wss://rmm.example.com:8443") 256 256 =
  Some (str "rmm.example.com", 8443, str "/ws/agent").
Proof.
  apply (endpoint_roundtrip true (str "rmm.example.com") 8443 [] 256 256); try reflexivity.
  split; discriminate.
Defined.

Example ws_url_roundtrip_witness :
  _parse_ws_url (str "ws://10.0.0.1:80/rd?t=1:2") 256 1024 = Some (str "10.0.0.1", 80, str "/rd?t=1:2").
Proof.
  apply (ws_url_roundtrip false (str "10.0.0.1") 80 (str "/rd?t=1:2") 256 1024); try reflexivity.
  split; discriminate.
Defined.

Example http_url_bounds_witness :
  let r := mk_http_url false (str "h") 80 (Some (str "/")) in
  host_fits (u_host r) 256 = true /\ 1 <= u_port r <= 65535 /\
  exists path, u_path r = Some path /\ strlen path < 8.
Proof. apply (http_url_bounds (str "http://h") 256 8); [discriminate|reflexivity]. Defined.

(** The endpoint parser accepts a port far above 65535, and reads the
    remote desktop port modulo 2 ^ 32: both differ from the bounds that
    [leo_http_parse_url] enforces. *)
Theorem port_bounds_not_enforced :
  _parse_endpoint (str "wss://h:99999/ws") 256 256 = Some (str "h", 99999, str "/ws") /\
  _parse_ws_url (str "wss://h:4294967739/rd") 256 1024 = Some (str "h", 443, str "/rd").
Proof. split; vm_compute; reflexivity. Qed.
