(* ===== verification/Crypto.v ===== *)
(** Certificates on disk and certificate pinning:
    [platform/linux/crypto_linux.c].

    OpenSSL is a parameter: what the code obtains from it is the DER encoding
    of a certificate, a SHA-256 digest of bytes and the certificate a PEM text
    holds.  Files are a finite map from paths to contents and modes; what the
    system may refuse is an [io_env]. *)
From S2P Require Import Prelude CString Types.

Class OpenSSL : Type := {
  X509 : Type;
  i2d_X509 : X509 -> option (list Z);          (* None: der_len <= 0 *)
  EVP_sha256 : list Z -> option (list Z);      (* None: EVP_Digest fails *)
  PEM_read_bio_X509 : list ascii -> option X509;
}.

(** A SHA-256 digest is 32 bytes. *)
Class OpenSSLLaws `{OpenSSL} : Prop := {
  sha256_bytes m d :
    EVP_sha256 m = Some d -> length d = 32%nat /\ Forall (fun b => 0 <= b < 256) d;
}.

(** ** Files *)

Record file : Type := mk_file { f_content : list ascii; f_mode : Z }.

Notation files := (gmap (list ascii) file).

Inductive mkdir_result : Type := MkdirDone | MkdirExists | MkdirFails.

#[export] Instance mkdir_result_eq_dec : EqDecision mkdir_result.
Proof. solve_decision. Defined.

Record io_env : Type := mk_io {
  read_fails : list ascii -> bool;      (* ferror after the reads *)
  can_write : list ascii -> bool;       (* fopen for writing succeeds *)
  accepted_of : list ascii -> nat;      (* bytes fwrite takes, most of them in its buffer *)
  written_of : list ascii -> nat;       (* bytes that reach the disk, by fclose at the latest *)
  mkdir_of : list ascii -> mkdir_result;
}.

(** At most [buf_max - 1] bytes are read. *)
Definition _read_file (io : io_env) (fs : files) (path : list ascii) (buf_max : Z) :
    option (list ascii) :=
  match fs !! path with
  | None => None
  | Some f => if read_fails io path then None else Some (take (Z.to_nat (buf_max - 1)) (f_content f))
  end.

(** The file that exists after the call, and whether the call succeeded: the
    count of [fwrite] is compared, the result of [fclose] is not. *)
Definition _write_file (io : io_env) (fs : files) (path content : list ascii) : files * bool :=
  if negb (can_write io path) then (fs, false)
  else
    let accepted := take (accepted_of io path) content in
    let stored := take (written_of io path) accepted in
    (<[path := mk_file stored 384]> fs, bool_decide (length accepted = length content)).

(** The prefixes of [tmp] that [_mkdir_p] hands to [mkdir], in order: those
    that end just before a slash (not the leading one), and [tmp] itself. *)
Definition mkdir_points (tmp : list ascii) : list (list ascii) :=
  omap (fun i => if match tmp !! i with
                    | Some c => bool_decide (c = "/"%char)
                    | None => true
                    end then Some (take i tmp) else None) (seq 1 (length tmp)).

Fixpoint mkdir_all (io : io_env) (ps : list (list ascii)) : list (list ascii) * bool :=
  match ps with
  | [] => ([], true)
  | p :: ps' =>
      match mkdir_of io p with
      | MkdirFails => ([], false)
      | MkdirExists => mkdir_all io ps'
      | MkdirDone => let '(made, ok) := mkdir_all io ps' in (p :: made, ok)
      end
  end.

(** The directories created, and whether the call succeeded. *)
Definition _mkdir_p (io : io_env) (path : list ascii) : list (list ascii) * bool :=
  let tmp := fit 512 path in
  let tmp := match last tmp with
             | Some c => if bool_decide (c = "/"%char) then take (length tmp - 1) tmp else tmp
             | None => tmp
             end in
  mkdir_all io (mkdir_points tmp).

(** ** Fingerprints *)

Definition _bytes_to_hex (bytes : list Z) : list ascii := concat (map hex2 bytes).

Section fingerprints.
Context `{OpenSSL}.

Definition _x509_sha256_hex (cert : X509) : option (list ascii) :=
  der ← i2d_X509 cert;
  digest ← EVP_sha256 der;
  Some (_bytes_to_hex digest).

Definition leo_crypto_x509_fingerprint_matches (cert : option X509) (expected_fp : option (list ascii)) :
    bool :=
  match cert, expected_fp with
  | Some cert, Some fp =>
      if negb (strlen fp =? 64) then false
      else
        match _x509_sha256_hex cert with
        | None => false
        | Some computed_fp => strcaseeq computed_fp fp
        end
  | _, _ => false
  end.

Definition leo_crypto_verify_ca_fingerprint (ca_cert_pem expected_fp : list ascii) (bio_ok : bool) :
    leo_error_t :=
  if negb (strlen expected_fp =? 64) then LEO_ERR_TLS
  else if negb bio_ok then LEO_ERR_TLS
  else
    match PEM_read_bio_X509 ca_cert_pem with
    | None => LEO_ERR_TLS
    | Some cert =>
        match _x509_sha256_hex cert with
        | None => LEO_ERR_TLS
        | Some computed_fp => if strcaseeq computed_fp expected_fp then LEO_OK else LEO_ERR_TLS
        end
    end.

End fingerprints.

(** ** Certificate and key *)

Definition leo_crypto_load_cert_key (io : io_env) (fs : files) (cert_sz key_sz : Z) :
    leo_error_t * option (list ascii * list ascii) :=
  if (cert_sz =? 0) || (key_sz =? 0) then (LEO_ERR_TLS, None)
  else
    match _read_file io fs LEO_CLIENT_CERT_FILE cert_sz with
    | None => (LEO_ERR_TLS, None)
    | Some cert =>
        match _read_file io fs LEO_CLIENT_KEY_FILE key_sz with
        | None => (LEO_ERR_TLS, None)
        | Some key => (LEO_OK, Some (c_str cert, c_str key))
        end
    end.

Definition leo_crypto_save_cert_key (io : io_env) (fs : files) (cert_pem key_pem : list ascii) :
    leo_error_t * files :=
  if negb (_mkdir_p io LEO_CERTS_DIR).2 then (LEO_ERR_TLS, fs)
  else
    let '(fs, ok) := _write_file io fs LEO_CLIENT_CERT_FILE cert_pem in
    if negb ok then (LEO_ERR_TLS, fs)
    else
      let '(fs, ok) := _write_file io fs LEO_CLIENT_KEY_FILE key_pem in
      if negb ok then (LEO_ERR_TLS, fs) else (LEO_OK, fs).

(** ** Lemmas *)

Lemma tolower_hex_digit d : 0 <= d < 16 -> tolower (hex_digit d) = hex_digit d.
Proof.
  intros Hd. unfold tolower, isupper, hex_digit. destruct (Z.ltb_spec d 10); rewrite code_of_N by lia.
  - by destruct (Z.leb_spec 65 (Z.of_N (Z.to_N (48 + d)))); [lia|].
  - destruct (Z.leb_spec (Z.of_N (Z.to_N (87 + d))) 90); [lia|]. by rewrite andb_false_r.
Qed.

Lemma tolower_hex2 b : 0 <= b < 256 -> tolower <$> hex2 b = hex2 b.
Proof.
  intros Hb. unfold hex2. simpl. pose proof (Z.mod_pos_bound b 16).
  rewrite !tolower_hex_digit; [done|lia|].
  split; [apply Z.div_pos; lia|apply Z.div_lt_upper_bound; lia].
Qed.

Lemma tolower_bytes l : Forall (fun b => 0 <= b < 256) l -> tolower <$> _bytes_to_hex l = _bytes_to_hex l.
Proof.
  unfold _bytes_to_hex. induction 1 as [|b l Hb _ IH]; [done|]. cbn [map concat].
  by rewrite fmap_app, tolower_hex2, IH.
Qed.

Lemma bytes_to_hex_inj l1 l2 :
  Forall (fun b => 0 <= b < 256) l1 -> Forall (fun b => 0 <= b < 256) l2 ->
  _bytes_to_hex l1 = _bytes_to_hex l2 -> l1 = l2.
Proof.
  intros H1. revert l2. induction H1 as [|a l1 Ha H1 IH]; intros l2 H2 E.
  - by destruct H2.
  - destruct H2 as [|b l2 Hb H2]; [done|]. unfold _bytes_to_hex in E. cbn [map concat] in E.
    apply app_inj_1 in E as [E1 E2]; [|by rewrite !hex2_length].
    f_equal; [by apply hex2_inj|by apply IH].
Qed.

Lemma mkdir_all_spec io ps made :
  mkdir_all io ps = (made, true) ->
  made `sublist_of` ps /\ Forall (fun p => p ∈ made \/ mkdir_of io p = MkdirExists) ps.
Proof.
  revert made. induction ps as [|p ps IH]; intros made; simpl; [by intros [= <-]|].
  destruct (mkdir_of io p) eqn:E; [| |done].
  - destruct (mkdir_all io ps) as [m ok]. intros [= <- ->].
    destruct (IH m eq_refl) as [S F]. split; [by constructor|]. constructor; [left; set_solver|].
    eapply Forall_impl; [exact F|]. set_solver.
  - intros [S F]%IH. split; [by constructor|]. constructor; auto.
Qed.

Section pinning.
Context `{OpenSSLLaws}.

(** A certificate passes the pin exactly when its SHA-256 digest is the 32
    bytes the fingerprint spells, in either case of letters. *)
Lemma fingerprint_matches_spec cert fp :
  leo_crypto_x509_fingerprint_matches (Some cert) (Some fp) = true <->
  exists digest, (der ← i2d_X509 cert; EVP_sha256 der) = Some digest /\
                 tolower <$> fp = _bytes_to_hex digest.
Proof.
  unfold leo_crypto_x509_fingerprint_matches, _x509_sha256_hex.
  destruct (i2d_X509 cert) as [der|]; simpl.
  2:{ destruct (strlen fp =? 64); split; [done|by intros (? & ? & _)|done|by intros (? & ? & _)]. }
  destruct (EVP_sha256 der) as [dig|] eqn:E; simpl.
  2:{ destruct (strlen fp =? 64); split; [done|by intros (? & ? & _)|done|by intros (? & ? & _)]. }
  destruct (sha256_bytes der dig E) as [L B]. unfold strcaseeq. rewrite tolower_bytes by done.
  split.
  - destruct (strlen fp =? 64); [|done]. simpl. intros Eq%bool_decide_eq_true. eauto.
  - intros (d & [= <-] & Eq).
    assert (strlen fp = 64) as ->.
    { unfold strlen. rewrite <- (length_fmap tolower), Eq. unfold _bytes_to_hex.
      assert (forall l, length (concat (map hex2 l)) = (2 * length l)%nat) as Hl.
      { clear. induction l as [|b l IH]; [done|]. cbn [map concat length].
        rewrite length_app, IH, hex2_length. lia. }
      rewrite Hl, L. done. }
    simpl. by apply bool_decide_eq_true.
Qed.

Lemma digest_bytes cert d :
  (der ← i2d_X509 cert; EVP_sha256 der) = Some d -> Forall (fun b => 0 <= b < 256) d.
Proof. intros (der & _ & E)%bind_Some. by destruct (sha256_bytes _ _ E). Qed.

(** Two certificates accepted by the same pin have the same SHA-256
    digest. *)
Theorem pinning_unique c1 c2 fp :
  leo_crypto_x509_fingerprint_matches (Some c1) (Some fp) = true ->
  leo_crypto_x509_fingerprint_matches (Some c2) (Some fp) = true ->
  (der ← i2d_X509 c1; EVP_sha256 der) = (der ← i2d_X509 c2; EVP_sha256 der).
Proof.
  intros (d1 & E1 & F1)%fingerprint_matches_spec (d2 & E2 & F2)%fingerprint_matches_spec.
  rewrite E1, E2. f_equal. apply bytes_to_hex_inj; [eauto using digest_bytes..|congruence].
Qed.

End pinning.


Lemma mkdir_all_done io ps : (forall p, mkdir_of io p <> MkdirFails) -> (mkdir_all io ps).2 = true.
Proof.
  intros Hm. induction ps as [|p ps IH]; [done|]. cbn. specialize (Hm p).
  destruct (mkdir_of io p); [by destruct (mkdir_all io ps)|done|done].
Qed.

(** A call that succeeds leaves what the disk kept of the content. *)
Lemma write_file_ok io fs path content fs' :
  _write_file io fs path content = (fs', true) ->
  can_write io path = true /\ fs' = <[path := mk_file (take (written_of io path) content) 384]> fs.
Proof.
  unfold _write_file. destruct (can_write io path); [|done]. cbn [negb]. intros [= <- E]. breflect.
  rewrite length_take in E. by rewrite (take_ge content) by lia.
Qed.

Lemma write_file_accepted io fs path content :
  can_write io path = true -> (length content <= accepted_of io path)%nat -> (_write_file io fs path content).2 = true.
Proof. intros Hw Hl. unfold _write_file. rewrite Hw. cbn. apply bool_decide_eq_true. rewrite length_take. lia. Qed.

(** The certificate and the key after a call that succeeds. *)
Lemma save_cert_key_ok io fs cert key fs' :
  leo_crypto_save_cert_key io fs cert key = (LEO_OK, fs') ->
  fs' = <[LEO_CLIENT_KEY_FILE := mk_file (take (written_of io LEO_CLIENT_KEY_FILE) key) 384]>
          (<[LEO_CLIENT_CERT_FILE := mk_file (take (written_of io LEO_CLIENT_CERT_FILE) cert) 384]> fs).
Proof.
  unfold leo_crypto_save_cert_key. destruct (negb _); [done|].
  destruct (_write_file io fs _ cert) as [fs1 []] eqn:E1; [|done]. apply write_file_ok in E1 as [_ ->]. cbn [negb].
  destruct (_write_file io _ _ key) as [fs2 []] eqn:E2; [|done]. apply write_file_ok in E2 as [_ ->].
  by intros [= <-].
Qed.

(** A certificate and a key that were saved, and that the disk had room for,
    are read back as they were, and both files are readable by their owner only,
    whatever was there before. *)
Theorem cert_key_roundtrip io fs cert key fs' :
  leo_crypto_save_cert_key io fs cert key = (LEO_OK, fs') ->
  (length cert <= written_of io LEO_CLIENT_CERT_FILE)%nat -> (length key <= written_of io LEO_CLIENT_KEY_FILE)%nat ->
  read_fails io LEO_CLIENT_CERT_FILE = false -> read_fails io LEO_CLIENT_KEY_FILE = false ->
  NUL ∉ cert -> NUL ∉ key -> strlen cert < 8192 -> strlen key < 8192 ->
  leo_crypto_load_cert_key io fs' 8192 8192 = (LEO_OK, Some (cert, key)) /\
  f_mode <$> fs' !! LEO_CLIENT_CERT_FILE = Some 384 /\ f_mode <$> fs' !! LEO_CLIENT_KEY_FILE = Some 384.
Proof.
  intros -> %save_cert_key_ok D1 D2 R1 R2 N1 N2 L1 L2.
  assert (LEO_CLIENT_KEY_FILE <> LEO_CLIENT_CERT_FILE) by by apply (bool_decide_unpack _).
  unfold leo_crypto_load_cert_key, _read_file.
  rewrite lookup_insert_ne, !lookup_insert_eq by done. rewrite R1, R2. simpl.
  rewrite !(take_ge cert), !(take_ge key) by (unfold strlen in *; lia).
  rewrite !c_str_id by done. done.
Qed.

(** ** Evaluations *)

(** A stand-in for OpenSSL: certificates are their DER bytes, and the digest
    repeats the length of its input. *)
Definition toy_openssl : OpenSSL := {|
  X509 := list Z;
  i2d_X509 c := if bool_decide (c = []) then None else Some c;
  EVP_sha256 m := Some (replicate 32 (Z.of_nat (length m) `mod` 256));
  PEM_read_bio_X509 t := Some (code <$> t);
|}.

#[global] Instance toy_openssl_laws : @OpenSSLLaws toy_openssl.
Proof.
  split. intros m d [= <-]. split; [reflexivity|].
  apply (Forall_replicate (fun b => 0 <= b < 256) 32), Z.mod_pos_bound. lia.
Qed.

Example pinning_unique_witness :
  @EVP_sha256 toy_openssl [7] = @EVP_sha256 toy_openssl [9].
Proof.
  apply (@pinning_unique toy_openssl toy_openssl_laws [7] [9] (_bytes_to_hex (replicate 32 1)));
    vm_compute; reflexivity.
Defined.

Definition open_io : io_env :=
  mk_io (fun _ => false) (fun _ => true) (fun _ => 4096%nat) (fun _ => 4096%nat) (fun _ => MkdirDone).

(** The disk is full: what [fwrite] takes stays in its buffer, and is lost. *)
Definition full_disk : io_env :=
  mk_io (fun _ => false) (fun _ => true) (fun _ => 4096%nat) (fun _ => 0%nat) (fun _ => MkdirDone).

Example cert_key_roundtrip_witness :
  let fs' := (leo_crypto_save_cert_key open_io ∅ (str "CERT") (str "KEY")).2 in
  leo_crypto_load_cert_key open_io fs' 8192 8192 = (LEO_OK, Some (str "CERT", str "KEY")) /\
  f_mode <$> fs' !! LEO_CLIENT_CERT_FILE = Some 384 /\ f_mode <$> fs' !! LEO_CLIENT_KEY_FILE = Some 384.
Proof.
  apply (cert_key_roundtrip open_io ∅ (str "CERT") (str "KEY")); try reflexivity; try (vm_compute; lia).
  - intros H. by apply (bool_decide_unpack (NUL ∉ str "CERT")).
  - intros H. by apply (bool_decide_unpack (NUL ∉ str "KEY")).
Defined.

(** On a full disk the certificate and the key are lost, and the save is
    reported as a success: the result of [fclose] is ignored. *)
Theorem full_disk_loses_certificate :
  let '(rc, fs') := leo_crypto_save_cert_key full_disk ∅ (str "CERT") (str "KEY") in
  rc = LEO_OK /\ f_content <$> fs' !! LEO_CLIENT_CERT_FILE = Some [] /\ f_content <$> fs' !! LEO_CLIENT_KEY_FILE = Some [].
Proof. vm_compute. split_and!; reflexivity. Qed.
