(* ===== verification/Enroll.v ===== *)
(** Enrolment: [src/enroll.c].

    The bootstrap file, the description of the machine, the request, the
    HTTP client and the response, up to the files enrolment leaves.  What the
    operating system and the server answer are inputs; the files are those of
    [Crypto].  What the conditional code makes different on each platform is
    the interface [Host]; this file has its Linux branches, [EnrollWin] those
    of Windows. *)
From S2P Require Import Prelude CString Double Types Json JsonParse Protocol Config Url Crypto.

(** ** The bootstrap file *)

Record _bootstrap_t : Type := mk_bootstrap {
  enrollment_token : list ascii;
  api_endpoint : list ascii;
}.

Definition TOKEN_SZ : Z := 128.
Definition API_SZ : Z := 256.

Definition bootstrap_line (out : _bootstrap_t) (line : list ascii) : _bootstrap_t :=
  let p := _trim (c_str line) in
  match p with
  | [] => out
  | c :: _ =>
      if bool_decide (c = "#"%char) || bool_decide (c = ";"%char) then out
      else
        match strchr p "="%char with
        | None => out
        | Some sep =>
            let key := _trim (take sep p) in
            let val := _trim (drop (S sep) p) in
            if streq key (str "enrollment_token") then mk_bootstrap (fit TOKEN_SZ val) (api_endpoint out)
            else if streq key (str "api_endpoint") then mk_bootstrap (enrollment_token out) (fit API_SZ val)
            else out
        end
  end.

Definition _load_bootstrap (file : option (list ascii)) : option _bootstrap_t :=
  match file with
  | None => None
  | Some bytes =>
      let out := fold_left bootstrap_line (fgets_all 512 bytes) (mk_bootstrap [] []) in
      if bool_decide (enrollment_token out = []) || bool_decide (api_endpoint out = []) then None
      else Some out
  end.

Definition _parse_api_endpoint (endpoint : list ascii) (hsz : Z) : option http_url :=
  leo_http_parse_url endpoint hsz None.

(** ** The machine *)

(** [gethostname] fills the buffer or fails. *)
Definition _detect_hostname (host : option (list ascii)) (sz : Z) : list ascii :=
  match host with Some h => fit sz h | None => fit sz (str "unknown-host") end.

(** The value of the first [PRETTY_NAME=] line, without its line end and its
    quotes. *)
Fixpoint pretty_name (lines : list (list ascii)) : option (list ascii) :=
  match lines with
  | [] => None
  | l :: lines' =>
      let line := c_str l in
      if starts_with (str "PRETTY_NAME=") line then
        let val := strip_eol (drop 12 line) in
        let quoted := (2 <=? strlen val) && bool_decide (head val = Some DQUOTE) &&
                      bool_decide (last val = Some DQUOTE) in
        Some (if quoted then drop 1 (take (length val - 1) val) else val)
      else pretty_name lines'
  end.

Definition _detect_os_version (os_release uname_release : option (list ascii)) (sz : Z) : list ascii :=
  match os_release ≫= fun text => pretty_name (fgets_all 256 text) with
  | Some val => fit sz val
  | None => match uname_release with Some r => fit sz r | None => fit sz (str "unknown") end
  end.

Inductive target_arch : Type := X86_64 | AARCH64 | OTHER_ARCH.

Definition _detect_arch (a : target_arch) (sz : Z) : list ascii :=
  fit sz match a with X86_64 => str "amd64" | AARCH64 => str "arm64" | OTHER_ARCH => str "unknown" end.

(** The first line of the first of the two files that has one. *)
Fixpoint _detect_hardware_id (machine_ids : list (option (list ascii))) (sz : Z) : leo_error_t * list ascii :=
  match machine_ids with
  | [] => (LEO_ERR_SYSTEM, [])
  | file :: rest =>
      match file ≫= fun text => head (fgets_all sz text) with
      | Some line =>
          let out := strip_eol (c_str line) in
          if bool_decide (out = []) then _detect_hardware_id rest sz else (LEO_OK, out)
      | None => _detect_hardware_id rest sz
      end
  end.

(** ** The interface *)

(** The description of the machine and the certificate store, over what the
    operating system answers. *)
Class Host : Type := {
  host_env : Type;
  host_os : list ascii;
  detect_hostname : host_env -> Z -> list ascii;
  detect_os_version : host_env -> Z -> list ascii;
  detect_hardware_id : host_env -> Z -> leo_error_t * list ascii;
  bootstrap_file : list ascii;
  cert_file : list ascii;
  key_file : list ascii;
  cert_mode : Z;                (* of a saved file; 0 where modes mean nothing *)
  save_cert_key : io_env -> files -> list ascii -> list ascii -> leo_error_t * files;
}.

(** What it promises: texts that fit their fields; a certificate and a key of
    which a success leaves what the disk had room for, all of it when it had room,
    next to which no file changes; and success where the directory can be made, the
    files opened and the bytes taken. *)
Class HostLaws `{Host} : Prop := {
  hostname_fits e sz : 1 <= sz -> strlen (detect_hostname e sz) < sz;
  os_version_fits e sz : 1 <= sz -> strlen (detect_os_version e sz) < sz;
  hardware_id_fits e hw :
    detect_hardware_id e LEO_UUID_STR_LEN = (LEO_OK, hw) -> strlen hw < LEO_UUID_STR_LEN;
  save_cert_key_other io fs cert key rc fs' p :
    save_cert_key io fs cert key = (rc, fs') -> p <> cert_file -> p <> key_file -> fs' !! p = fs !! p;
  save_cert_key_stored io fs cert key fs' :
    save_cert_key io fs cert key = (LEO_OK, fs') ->
    fs' !! cert_file = Some (mk_file (take (written_of io cert_file) cert) cert_mode) /\
    fs' !! key_file = Some (mk_file (take (written_of io key_file) key) cert_mode);
  save_cert_key_succeeds io fs cert key :
    (forall p, can_write io p = true) -> (forall p, mkdir_of io p <> MkdirFails) ->
    (length cert <= accepted_of io cert_file)%nat -> (length key <= accepted_of io key_file)%nat ->
    (save_cert_key io fs cert key).1 = LEO_OK;
}.

Record linux_host_env : Type := mk_linux_host {
  lh_host : option (list ascii);               (* gethostname *)
  lh_os_release : option (list ascii);         (* /etc/os-release *)
  lh_uname : option (list ascii);              (* uname *)
  lh_machine_ids : list (option (list ascii)); (* the two machine-id files *)
}.

Definition linux_host : Host := {|
  host_env := linux_host_env;
  host_os := str "linux";
  detect_hostname e := _detect_hostname (lh_host e);
  detect_os_version e := _detect_os_version (lh_os_release e) (lh_uname e);
  detect_hardware_id e := _detect_hardware_id (lh_machine_ids e);
  bootstrap_file := LEO_BOOTSTRAP_FILE;
  cert_file := LEO_CLIENT_CERT_FILE;
  key_file := LEO_CLIENT_KEY_FILE;
  cert_mode := 384;
  save_cert_key := leo_crypto_save_cert_key;
|}.

Section enroll.
Context `{CLib} `{Host}.

(** ** The request *)

Definition enroll_request (token host os os_ver arch hw : list ascii) : cJSON :=
  let root := JObject [] in
  let root := cJSON_AddStringToObject root (str "enrollment_token") token in
  let root := cJSON_AddStringToObject root (str "hostname") host in
  let root := cJSON_AddStringToObject root (str "os") os in
  let root := cJSON_AddStringToObject root (str "os_version") os_ver in
  let root := cJSON_AddStringToObject root (str "arch") arch in
  let root := cJSON_AddStringToObject root (str "hardware_id") hw in
  cJSON_AddStringToObject root (str "agent_version") LEO_AGENT_VERSION.

Definition _build_enroll_request (root_ok : bool) (bufsz : Z) (token host os os_ver arch hw : list ascii) :
    option (list ascii) :=
  if negb root_ok then None
  else
    match cJSON_PrintUnformatted (enroll_request token host os os_ver arch hw) with
    | None => None
    | Some json_str => if bufsz <=? strlen json_str then None else Some json_str
    end.

(** ** The HTTP client *)

Definition _ENROLL_HTTP_TIMEOUT_SEC : Z := 15.
Definition _ENROLL_WRITE_CHUNK : Z := 2048.

(** [sent] is the history of [lws_write]: each chunk, and whether it was
    announced as the last. *)
Record _enroll_http_ctx_t : Type := mk_hc {
  hc_body : list ascii;
  body_sent : Z;
  resp_buf : list ascii;
  hc_http_status : Z;
  hc_done : bool;
  hc_failed : bool;
  sent : list (list ascii * bool);
}.

Inductive enroll_reason : Type :=
| ENR_CONNECTION_ERROR
| ENR_ESTABLISHED (status : Z)
| ENR_APPEND_HEADER (headers_ok : bool)
| ENR_WRITEABLE (write_ok : bool)
| ENR_RECEIVE (read_ok : bool)
| ENR_READ (data : list ascii)
| ENR_COMPLETED
| ENR_CLOSED
| ENR_OTHER.

Definition hc_end (h : _enroll_http_ctx_t) (dn fl : bool) : _enroll_http_ctx_t :=
  mk_hc (hc_body h) (body_sent h) (resp_buf h) (hc_http_status h) dn fl (sent h).

(** The state, the value returned to libwebsockets, and whether another
    WRITEABLE callback was asked for. *)
Definition _enroll_lws_callback (h : _enroll_http_ctx_t) (r : enroll_reason) (dummy : Z) :
    _enroll_http_ctx_t * Z * bool :=
  match r with
  | ENR_CONNECTION_ERROR => (hc_end h true true, dummy, false)
  | ENR_ESTABLISHED status =>
      (mk_hc (hc_body h) (body_sent h) (resp_buf h) status (hc_done h) (hc_failed h) (sent h), dummy, false)
  | ENR_APPEND_HEADER headers_ok => if headers_ok then (h, dummy, true) else (h, -1, false)
  | ENR_WRITEABLE write_ok =>
      let body_len := strlen (hc_body h) in
      let remaining := body_len - body_sent h in
      let chunk := if remaining <? _ENROLL_WRITE_CHUNK then remaining else _ENROLL_WRITE_CHUNK in
      let frame := take (Z.to_nat chunk) (drop (Z.to_nat (body_sent h)) (hc_body h)) in
      let last := body_len <=? body_sent h + chunk in
      let h := mk_hc (hc_body h) (body_sent h + chunk) (resp_buf h) (hc_http_status h) (hc_done h) (hc_failed h)
                 (sent h ++ [(frame, last)]) in
      if negb write_ok then (h, -1, false) else (h, 0, negb last)
  | ENR_RECEIVE read_ok => (h, if read_ok then 0 else -1, false)
  | ENR_READ data =>
      let space := LEO_MAX_MSG_SIZE - 1 - strlen (resp_buf h) in
      let copy := if strlen data <? space then strlen data else space in
      (mk_hc (hc_body h) (body_sent h) (resp_buf h ++ take (Z.to_nat copy) data) (hc_http_status h) (hc_done h)
         (hc_failed h) (sent h), 0, false)
  | ENR_COMPLETED | ENR_CLOSED => (hc_end h true (hc_failed h), dummy, false)
  | ENR_OTHER => (h, dummy, false)
  end.

Record enroll_pass : Type := mk_enroll_pass {
  e_callbacks : list enroll_reason;
  e_service_ok : bool;
  e_now : Z;
}.

Definition enroll_callbacks (h : _enroll_http_ctx_t) (rs : list enroll_reason) : _enroll_http_ctx_t :=
  fold_left (fun h r => (_enroll_lws_callback h r 0).1.1) rs h.

(** The waiting loop; [None] when it still runs after these passes. *)
Fixpoint post_loop (h : _enroll_http_ctx_t) (deadline : Z) (ps : list enroll_pass) : option _enroll_http_ctx_t :=
  if hc_done h then Some h
  else
    match ps with
    | [] => None
    | p :: ps' =>
        let h := enroll_callbacks h (e_callbacks p) in
        if negb (e_service_ok p) then Some (hc_end h (hc_done h) true)
        else if deadline <? e_now p then Some (hc_end h (hc_done h) true)
        else post_loop h deadline ps'
    end.

Record post_env : Type := mk_post_env {
  p_context_ok : bool;
  p_connect_ok : bool;
  p_start : Z;
  p_passes : list enroll_pass;
}.

(** The response and its status, or the error; [None] while it runs. *)
Definition _http_post_json (body : list ascii) (resp_out_sz : Z) (env : post_env) :
    option (leo_error_t * list ascii * Z) :=
  if negb (p_context_ok env) then Some (LEO_ERR_NETWORK, [], 0)
  else if negb (p_connect_ok env) then Some (LEO_ERR_NETWORK, [], 0)
  else
    match post_loop (mk_hc body 0 [] 0 false false []) (p_start env + _ENROLL_HTTP_TIMEOUT_SEC) (p_passes env) with
    | None => None
    | Some h =>
        if hc_failed h || (hc_http_status h =? 0) then Some (LEO_ERR_NETWORK, [], 0)
        else
          let copy := if strlen (resp_buf h) <? resp_out_sz - 1 then strlen (resp_buf h) else resp_out_sz - 1 in
          Some (LEO_OK, take (Z.to_nat copy) (resp_buf h), hc_http_status h)
    end.

(** ** The response *)

Definition _copy_response_field (data : cJSON) (name : list ascii) (dstsz : Z) : option (list ascii) :=
  match cJSON_IsString (cJSON_GetObjectItemCaseSensitive data name) with
  | Some ((_ :: _) as s) => Some (fit dstsz s)
  | _ => None
  end.

Definition LEO_CERT_BUF_SIZE : Z := 8192.
Definition LEO_KEY_BUF_SIZE : Z := 8192.

(** The completed configuration, the certificate and the key; [None] stands
    for [LEO_ERR_PROTOCOL]. *)
Definition _parse_enroll_response (json_str : list ascii) (http_status : Z) (cfg : leo_config_t) :
    option (leo_config_t * list ascii * list ascii) :=
  root ← cJSON_Parse (c_str json_str);
  if negb (http_status =? 200) && negb (http_status =? 201) then None
  else
    data ← cJSON_GetObjectItemCaseSensitive root (str "data");
    if negb (cJSON_IsObject (Some data)) then None
    else
      aid ← _copy_response_field data (str "agent_id") LEO_UUID_STR_LEN;
      tid ← _copy_response_field data (str "tenant_id") LEO_UUID_STR_LEN;
      ws ← _copy_response_field data (str "ws_endpoint") ENDPOINT_SZ;
      fp ← _copy_response_field data (str "server_cert_fingerprint") FINGERPRINT_SZ;
      cert ← _copy_response_field data (str "client_cert_pem") LEO_CERT_BUF_SIZE;
      key ← _copy_response_field data (str "client_key_pem") LEO_KEY_BUF_SIZE;
      Some (mk_config aid tid ws (hostname cfg) (os_name cfg) (os_version cfg) (arch cfg) (hardware_id cfg) fp
              (metrics_interval_sec cfg) (heartbeat_interval_sec cfg), cert, key).

(** ** Enrolment *)

Record enroll_env : Type := mk_enroll_env {
  en_io : io_env;
  en_host : host_env;
  en_arch : target_arch;
  en_root_ok : bool;
  en_post : post_env;
  en_remove_ok : bool;
}.

Definition described (env : enroll_env) (hw : list ascii) : leo_config_t :=
  mk_config [] [] [] (detect_hostname (en_host env) HOSTNAME_SZ) (fit OS_NAME_SZ host_os)
    (detect_os_version (en_host env) OS_VERSION_SZ) (_detect_arch (en_arch env) ARCH_SZ) hw []
    LEO_METRICS_INTERVAL_SEC LEO_HEARTBEAT_INTERVAL_SEC.

(** The bytes of a file that can be opened. *)
Definition file_bytes (fs : files) (path : list ascii) : option (list ascii) := f_content <$> fs !! path.

(** The error code, the configuration when it is [LEO_OK], and the files;
    [None] while the request runs.  [leo_config_save] does not check what it
    writes: a full disk cuts the file. *)
Definition leo_enroll (bootstrap_path config_path : list ascii) (fs : files) (env : enroll_env) :
    option (leo_error_t * option leo_config_t * files) :=
  let fail e fs := Some (e, None, fs) in
  match _load_bootstrap (file_bytes fs bootstrap_path) with
  | None => fail LEO_ERR_CONFIG fs
  | Some bs =>
      match detect_hardware_id (en_host env) LEO_UUID_STR_LEN with
      | (LEO_OK, hw) =>
          let cfg := described env hw in
          match _build_enroll_request (en_root_ok env) 2048 (enrollment_token bs) (hostname cfg) (os_name cfg)
                  (os_version cfg) (arch cfg) (hardware_id cfg) with
          | None => fail LEO_ERR_PROTOCOL fs
          | Some req_body =>
              match _parse_api_endpoint (api_endpoint bs) 256 with
              | None => fail LEO_ERR_CONFIG fs
              | Some url =>
                  match _http_post_json req_body LEO_MAX_MSG_SIZE (en_post env) with
                  | None => None
                  | Some (LEO_OK, resp, status) =>
                      match _parse_enroll_response resp status cfg with
                      | None => fail LEO_ERR_PROTOCOL fs
                      | Some (cfg, cert_pem, key_pem) =>
                          match save_cert_key (en_io env) fs cert_pem key_pem with
                          | (LEO_OK, fs) =>
                              match leo_config_save (can_write (en_io env) config_path) cfg with
                              | (LEO_OK, Some bytes) =>
                                  let stored := take (written_of (en_io env) config_path) bytes in
                                  let fs := <[config_path := mk_file stored 420]> fs in
                                  Some (LEO_OK, Some cfg,
                                        if en_remove_ok env then delete bootstrap_path fs else fs)
                              | _ => fail LEO_ERR_CONFIG fs
                              end
                          | (_, fs) => fail LEO_ERR_TLS fs
                          end
                      end
                  | Some (rc, _, _) => fail rc fs
                  end
              end
          end
      | (_, _) => fail LEO_ERR_SYSTEM fs
      end
  end.

End enroll.

(** ** Lemmas *)

Section request.
Context `{CLib} `{Host}.

(** The request ends once a pass sees the clock past its deadline. *)
Lemma post_loop_ends ps h deadline :
  (exists p, p ∈ ps /\ deadline < e_now p) -> is_Some (post_loop h deadline ps).
Proof.
  revert h. induction ps as [|p ps IH]; intros h (q & Hin & Hq); [by apply not_elem_of_nil in Hin|].
  cbn [post_loop]. destruct (hc_done h); [eauto|]. cbv zeta. destruct (negb (e_service_ok p)); [eauto|].
  destruct (Z.ltb_spec deadline (e_now p)); [eauto|].
  apply elem_of_cons in Hin as [-> |Hin]; [lia|]. apply IH. eauto.
Qed.

Lemma enroll_ends bp cp fs env :
  (exists p, p ∈ p_passes (en_post env) /\ p_start (en_post env) + _ENROLL_HTTP_TIMEOUT_SEC < e_now p) ->
  is_Some (leo_enroll bp cp fs env).
Proof.
  intros Hp. unfold leo_enroll. cbv zeta. destruct (_load_bootstrap _); [|eauto].
  destruct (detect_hardware_id _ _) as [[] hw]; eauto.
  destruct (_build_enroll_request _ _ _ _ _ _ _ _) as [req|]; [|eauto].
  destruct (_parse_api_endpoint _ _); [|eauto]. unfold _http_post_json.
  destruct (p_context_ok _), (p_connect_ok _); cbn [negb]; eauto.
  destruct (post_loop_ends _ (mk_hc req 0 [] 0 false false []) _ Hp) as [hc ->].
  repeat case_match; try discriminate; eauto.
Qed.

(** [n] WRITEABLE callbacks in a row. *)
Definition write_turns (h : _enroll_http_ctx_t) (n : nat) : _enroll_http_ctx_t :=
  enroll_callbacks h (replicate n (ENR_WRITEABLE true)).

Lemma write_turns_S h n : write_turns h (S n) = (_enroll_lws_callback (write_turns h n) (ENR_WRITEABLE true) 0).1.1.
Proof.
  unfold write_turns, enroll_callbacks. replace (S n) with (n + 1)%nat by lia.
  rewrite replicate_add, fold_left_app. done.
Qed.

(** What the first [n] turns have sent. *)
Lemma write_turns_sent body n :
  let h := write_turns (mk_hc body 0 [] 0 false false []) n in
  hc_body h = body /\ body_sent h = Z.min (_ENROLL_WRITE_CHUNK * Z.of_nat n) (strlen body) /\
  concat (map fst (sent h)) = take (Z.to_nat (body_sent h)) body /\
  Forall (fun c => strlen c.1 <= _ENROLL_WRITE_CHUNK) (sent h) /\ length (sent h) = n.
Proof.
  unfold _ENROLL_WRITE_CHUNK. pose proof (strlen_nonneg body) as Hb. induction n as [|n IH].
  - cbn. split_and!; try done. unfold strlen in *. lia.
  - rewrite write_turns_S. destruct (write_turns _ n) as [b k r st dn fl se]. cbn in IH.
    destruct IH as (-> & Ek & Ec & Ef & El). cbn -[Z.mul Z.of_nat]. unfold _ENROLL_WRITE_CHUNK.
    set (chunk := if strlen body - k <? 2048 then strlen body - k else 2048).
    assert (0 <= k <= strlen body) as Hk by lia.
    assert (k + chunk = Z.min (2048 * Z.of_nat (S n)) (strlen body) /\ 0 <= chunk <= 2048) as [Ek' Hc].
    { unfold chunk. destruct (Z.ltb_spec (strlen body - k) 2048); lia. }
    split_and!; [done|lia| | |].
    + rewrite map_app, concat_app, Ec. cbn. rewrite app_nil_r, Z2Nat.inj_add by lia. apply take_take_drop.
    + apply Forall_app. split; [done|]. constructor; [|done]. cbn. unfold strlen. rewrite length_take. lia.
    + rewrite length_app, El. cbn. lia.
Qed.

(** The body of the request is sent whole, in order and in chunks of at
    most 2048 bytes; exactly the chunk that completes it is announced as the
    last one. *)
Theorem request_body_sent body n :
  let h := write_turns (mk_hc body 0 [] 0 false false []) n in
  concat (map fst (sent h)) = take (Z.to_nat (_ENROLL_WRITE_CHUNK * Z.of_nat n)) body /\
  Forall (fun c => strlen c.1 <= _ENROLL_WRITE_CHUNK) (sent h) /\
  (forall i c, sent h !! i = Some c -> c.2 = (strlen body <=? _ENROLL_WRITE_CHUNK * Z.of_nat (S i))).
Proof.
  cbv zeta. pose proof (write_turns_sent body n) as (_ & Ek & Ec & Ef & El). split_and!; [|done|].
  - rewrite Ec, Ek. unfold _ENROLL_WRITE_CHUNK, strlen in *. destruct (Z.le_ge_cases (2048 * Z.of_nat n) (Z.of_nat (length body))).
    + by rewrite Z.min_l by lia.
    + rewrite Z.min_r by lia. rewrite !take_ge by lia. done.
  - clear Ek Ec Ef El. induction n as [|n IH]; intros i c; [done|].
    rewrite write_turns_S. pose proof (write_turns_sent body n) as (Eb & Ek & _ & _ & El).
    destruct (write_turns _ n) as [b k r st dn fl se]. cbn in Eb, Ek, El, IH. subst b. cbn -[Z.mul Z.of_nat].
    intros [Hi|[Hi Hc]]%lookup_app_Some; [by apply IH|].
    destruct (i - length se)%nat as [|q] eqn:Eq; [|done]. cbn in Hc. injection Hc as <-. cbn -[Z.mul Z.of_nat].
    assert (i = n) as -> by lia. unfold _ENROLL_WRITE_CHUNK in *. pose proof (strlen_nonneg body).
    destruct (Z.ltb_spec (strlen body - k) 2048), (Z.leb_spec (strlen body) (2048 * Z.of_nat (S n)));
      match goal with |- (?a <=? ?b) = _ => destruct (Z.leb_spec a b) end; try done; lia.
Qed.

End request.

(** *** What enrolment leaves *)

Lemma strip_eol_length s : strlen (strip_eol s) <= strlen s.
Proof.
  assert (forall r, (length (drop_eol r) <= length r)%nat) as Hd.
  { induction r as [|c r IH]; simpl; [lia|]. destruct (_ || _); simpl; lia. }
  unfold strip_eol, strlen. rewrite length_reverse. specialize (Hd (reverse s)). rewrite length_reverse in Hd. lia.
Qed.

Lemma fgets_lines_length max room acc s :
  (0 < room)%nat -> (length acc + room <= max)%nat -> Forall (fun l => (length l <= max)%nat) (fgets_lines max room acc s).
Proof.
  revert room acc. induction s as [|c s IH]; intros room acc Hr Hl; simpl.
  - destruct acc; [done|]. constructor; [|done]. rewrite length_reverse. simpl in *. lia.
  - destruct (_ || _) eqn:B.
    + constructor; [rewrite length_reverse; simpl; lia|]. apply IH; simpl; lia.
    + apply orb_false_iff in B as [_ B]. breflect. apply IH; simpl; lia.
Qed.

Lemma machine_id_fits ids hw :
  _detect_hardware_id ids LEO_UUID_STR_LEN = (LEO_OK, hw) -> strlen hw < LEO_UUID_STR_LEN.
Proof.
  induction ids as [|f ids IH]; simpl; [done|].
  destruct (f ≫= _) as [line|] eqn:E; [|done]. destruct (bool_decide _); [done|]. intros [= <-].
  apply bind_Some in E as (text & _ & Hl). unfold fgets_all in Hl.
  pose proof (fgets_lines_length (Z.to_nat (LEO_UUID_STR_LEN - 1)) (Z.to_nat (LEO_UUID_STR_LEN - 1)) [] text) as F.
  destruct (fgets_lines _ _ _ text) as [|l ls]; [done|]. injection Hl as ->.
  assert (length line <= 36)%nat as L by (specialize (F ltac:(vm_compute; lia) ltac:(vm_compute; lia)); by inversion F).
  pose proof (strip_eol_length (c_str line)). pose proof (c_str_length line). unfold LEO_UUID_STR_LEN, strlen in *. lia.
Qed.

Lemma copy_field_spec data name sz v :
  1 < sz -> _copy_response_field data name sz = Some v -> strlen v < sz /\ v <> [].
Proof.
  intros Hs. unfold _copy_response_field. destruct (cJSON_IsString _) as [[|c s]|]; [done| |done].
  intros [= <-]. split; [apply fit_length; lia|]. intros E. by apply fit_nil in E; [|lia].
Qed.

Lemma linux_host_laws : @HostLaws linux_host.
Proof.
  split; cbn.
  - intros e sz Hs. unfold _detect_hostname. destruct (lh_host e); by apply fit_length.
  - intros e sz Hs. unfold _detect_os_version. repeat case_goal; by apply fit_length.
  - intros e hw. apply machine_id_fits.
  - intros io fs cert key rc fs' p. unfold leo_crypto_save_cert_key, _write_file. intros E H1 H2.
    repeat case_hyp; simplify_eq; rewrite ?lookup_insert_ne by done; done.
  - intros io fs cert key fs' -> %save_cert_key_ok.
    assert (LEO_CLIENT_KEY_FILE <> LEO_CLIENT_CERT_FILE) by by apply (bool_decide_unpack _).
    by rewrite lookup_insert_ne, !lookup_insert_eq by done.
  - intros io fs cert key Hw Hm A1 A2. unfold leo_crypto_save_cert_key, _mkdir_p. rewrite mkdir_all_done by done.
    cbn [negb].
    pose proof (write_file_accepted io fs _ _ (Hw LEO_CLIENT_CERT_FILE) A1) as E1.
    destruct (_write_file io fs _ cert) as [fs1 ok]. cbn in E1. subst ok. cbn [negb].
    pose proof (write_file_accepted io fs1 _ _ (Hw LEO_CLIENT_KEY_FILE) A2) as E2.
    destruct (_write_file io fs1 _ key) as [fs2 ok]. cbn in E2. by subst ok.
Qed.

Section enrolment.
Context `{CLib} `{HostLaws}.

(** A response that is accepted completes a configuration whose fields fit
    and whose identity is present. *)
Lemma response_spec env hw json status cfg cert key :
  strlen hw < LEO_UUID_STR_LEN ->
  _parse_enroll_response json status (described env hw) = Some (cfg, cert, key) ->
  config_fits cfg = true /\ agent_id cfg <> [] /\ tenant_id cfg <> [] /\ ws_endpoint cfg <> [] /\
  strlen cert < LEO_CERT_BUF_SIZE /\ strlen key < LEO_KEY_BUF_SIZE /\ (status = 200 \/ status = 201).
Proof.
  intros Hhw. unfold _parse_enroll_response. intros (root & _ & E)%bind_Some.
  destruct (negb (status =? 200) && negb (status =? 201)) eqn:St; [done|].
  apply bind_Some in E as (data & _ & E). destruct (cJSON_IsObject (Some data)); [|done].
  apply bind_Some in E as (aid & A1 & E). apply bind_Some in E as (tid & A2 & E).
  apply bind_Some in E as (ws & A3 & E). apply bind_Some in E as (fp & A4 & E).
  apply bind_Some in E as (c & A5 & E). apply bind_Some in E as (k & A6 & E). injection E as <- <- <-.
  apply copy_field_spec in A1 as [L1 N1], A2 as [L2 N2], A3 as [L3 N3], A4 as [L4 N4], A5 as [L5 _], A6 as [L6 _]; try done.
  split_and!; try done.
  - apply config_fits_spec. cbn.
    split_and!; try done.
    + by apply hostname_fits.
    + by apply fit_length.
    + by apply os_version_fits.
    + by destruct (en_arch env).
  - apply andb_false_iff in St as [St|St]; breflect; auto.
Qed.

(** Everything a run of [leo_enroll] that succeeds went through. *)
Lemma enroll_ok bp cp fs env cfg fs' :
  leo_enroll bp cp fs env = Some (LEO_OK, Some cfg, fs') ->
  exists fs1 cert key, save_cert_key (en_io env) fs cert key = (LEO_OK, fs1) /\
    config_fits cfg = true /\ agent_id cfg <> [] /\ tenant_id cfg <> [] /\ ws_endpoint cfg <> [] /\
    exists bytes, (leo_config_save true cfg).2 = Some bytes /\
    let fs2 := <[cp := mk_file (take (written_of (en_io env) cp) bytes) 420]> fs1 in
    fs' = if en_remove_ok env then delete bp fs2 else fs2.
Proof.
  unfold leo_enroll. destruct (_load_bootstrap _) as [bs|]; [|done].
  destruct (detect_hardware_id _ _) as [[] hw] eqn:Ehw; try done.
  destruct (_build_enroll_request _ _ _ _ _ _ _ _) as [req|]; [|done].
  destruct (_parse_api_endpoint _ _) as [url|]; [|done].
  destruct (_http_post_json _ _ _) as [[[[] resp] status]|]; try done.
  destruct (_parse_enroll_response _ _ _) as [[[cfg' cert] key]|] eqn:Er; [|done].
  apply hardware_id_fits in Ehw. apply response_spec in Er as (F & N1 & N2 & N3 & _); [|done].
  destruct (save_cert_key _ _ _ _) as [[] fs1] eqn:Es; try done.
  unfold leo_config_save. destruct (can_write _ _); [|done]. cbn [negb]. intros [= <- <-].
  exists fs1, cert, key. split_and!; try done. eexists. split; done.
Qed.

Lemma delete_other {A} (b : bool) (k p : list ascii) (m : gmap (list ascii) A) :
  p <> k -> (if b then delete k m else m) !! p = m !! p.
Proof. intros ?. destruct b; [|done]. by rewrite lookup_delete_ne. Qed.

(** C24: after a successful enrolment the agent starts from its configuration
    file as it was enrolled: what was saved is loaded back, provided that the
    disk took it, that the server sent a fingerprint of 64 characters and no
    field with line breaks or outer blanks; the certificate and the key have
    the mode of the platform (on Linux they are readable by their owner only)
    and the bootstrap file is gone when it could be removed. *)
Theorem enrolled_agent_restarts bp cp fs env cfg fs' :
  leo_enroll bp cp fs env = Some (LEO_OK, Some cfg, fs') ->
  config_clean cfg = true -> strlen (ca_fingerprint cfg) = 64 ->
  (forall bytes, (leo_config_save true cfg).2 = Some bytes -> (length bytes <= written_of (en_io env) cp)%nat) ->
  cp <> bp -> bp <> cert_file -> bp <> key_file ->
  cp <> cert_file -> cp <> key_file ->
  leo_config_load (file_bytes fs' cp) config_zero = (LEO_OK, cfg) /\
  f_mode <$> fs' !! cert_file = Some cert_mode /\ f_mode <$> fs' !! key_file = Some cert_mode /\
  (en_remove_ok env = true -> fs' !! bp = None).
Proof.
  intros E Hclean Hfp Hdisk D1 D2 D3 D4 D5.
  apply enroll_ok in E as (fs1 & cert & key & Es & Hfit & N1 & N2 & N3 & bytes & Eb & ->).
  apply save_cert_key_stored in Es as [M1 M2]. specialize (Hdisk bytes Eb).
  unfold file_bytes. rewrite !delete_other by done.
  rewrite lookup_insert_eq, !lookup_insert_ne, M1, M2 by done. cbn [fmap option_fmap option_map f_content f_mode].
  rewrite take_ge, <- Eb by done. split_and!; [|done|done|].
  - apply saved_config_loads; [done|done|]. unfold leo_config_is_valid. rewrite Hfp. cbn.
    by rewrite !bool_decide_eq_false_2.
  - intros ->. by rewrite lookup_delete_eq.
Qed.

(** C23: an enrolment that fails, at whatever step, changes no file but the
    certificate and the key: the bootstrap file stays for another attempt and
    no configuration appears. *)
Theorem failed_enrolment_keeps_bootstrap bp cp fs env rc o fs' p :
  leo_enroll bp cp fs env = Some (rc, o, fs') -> rc <> LEO_OK ->
  p <> cert_file -> p <> key_file -> fs' !! p = fs !! p.
Proof.
  unfold leo_enroll. intros E Hrc Hp1 Hp2.
  destruct (_load_bootstrap _) as [bs|]; [|by simplify_eq].
  destruct (detect_hardware_id _ _) as [[] hw]; try by simplify_eq.
  destruct (_build_enroll_request _ _ _ _ _ _ _ _) as [req|]; [|by simplify_eq].
  destruct (_parse_api_endpoint _ _) as [url|]; [|by simplify_eq].
  destruct (_http_post_json _ _ _) as [[[[] resp] status]|]; try by simplify_eq.
  destruct (_parse_enroll_response _ _ _) as [[[cfg' cert] key]|]; [|by simplify_eq].
  destruct (save_cert_key _ _ _ _) as [rc' fs1] eqn:Es. eapply save_cert_key_other in Es; [|done..].
  destruct rc'; try by simplify_eq.
  unfold leo_config_save in E. destruct (can_write _ _); cbn [negb] in E; by simplify_eq.
Qed.

End enrolment.

(** ** Evaluations *)

Section evaluation.
Local Existing Instances linux_host linux_host_laws.

Definition field_text (name value : list ascii) : list ascii := print_string_ptr name ++ str ":" ++ print_string_ptr value.

Definition response_text (fp : list ascii) : list ascii :=
  str "{" ++ print_string_ptr (str "data") ++ str ":{" ++
  field_text (str "agent_id") (str "a-1") ++ str "," ++ field_text (str "tenant_id") (str "t-1") ++ str "," ++
  field_text (str "ws_endpoint") (str "wss://h/ws") ++ str "," ++
  field_text (str "server_cert_fingerprint") fp ++ str "," ++
  field_text (str "client_cert_pem") (str "CERT") ++ str "," ++
  field_text (str "client_key_pem") (str "KEY") ++ str "}}".

Definition sample_bootstrap : files :=
  {[ LEO_BOOTSTRAP_FILE := mk_file (str "enrollment_token = T" ++ [LF] ++ str "api_endpoint=https://api:8443" ++ [LF]) 384 ]}.

Definition sample_enroll_env (fp : list ascii) : enroll_env :=
  mk_enroll_env open_io
    (mk_linux_host (Some (str "pc-1")) (Some (str "PRETTY_NAME=" ++ print_string_ptr (str "Ubuntu 24.04") ++ [LF])) None
       [None; Some (str "0123456789abcdef" ++ [LF])]) X86_64 true
    (mk_post_env true true 0
       [mk_enroll_pass [ENR_APPEND_HEADER true; ENR_WRITEABLE true] true 1;
        mk_enroll_pass [ENR_ESTABLISHED 201; ENR_READ (response_text fp); ENR_COMPLETED] true 2;
        mk_enroll_pass [] true 60]) true.

Notation enroll_with fp :=
  (@leo_enroll decimal_lib linux_host LEO_BOOTSTRAP_FILE LEO_CONFIG_FILE sample_bootstrap (sample_enroll_env fp)).

Definition enrolled_config (fp : list ascii) : leo_config_t :=
  mk_config (str "a-1") (str "t-1") (str "wss://h/ws") (str "pc-1") (str "linux") (str "Ubuntu 24.04") (str "amd64")
    (str "0123456789abcdef") fp 300 10800.

Definition enrolled_files (fp : list ascii) : files :=
  match enroll_with fp with Some (_, _, fs) => fs | None => sample_bootstrap end.

(** The files of a run, from the rest of its result. *)
Lemma enroll_with_result fp rc o :
  fst <$> enroll_with fp = Some (rc, o) -> enroll_with fp = Some (rc, o, enrolled_files fp).
Proof. unfold enrolled_files. destruct (enroll_with fp) as [[[rc' o'] fs]|]; [|done]. by intros [= -> ->]. Qed.

Definition good_fp : list ascii := replicate 64 "b"%char.

Lemma enrolled_agent_restarts_witness :
  leo_config_load (file_bytes (enrolled_files good_fp) LEO_CONFIG_FILE) config_zero = (LEO_OK, enrolled_config good_fp) /\
  f_mode <$> enrolled_files good_fp !! LEO_CLIENT_CERT_FILE = Some 384 /\
  f_mode <$> enrolled_files good_fp !! LEO_CLIENT_KEY_FILE = Some 384 /\
  (en_remove_ok (sample_enroll_env good_fp) = true -> enrolled_files good_fp !! LEO_BOOTSTRAP_FILE = None).
Proof.
  apply (@enrolled_agent_restarts decimal_lib linux_host linux_host_laws LEO_BOOTSTRAP_FILE LEO_CONFIG_FILE sample_bootstrap
    (sample_enroll_env good_fp) (enrolled_config good_fp) (enrolled_files good_fp)).
  - apply enroll_with_result. vm_compute. reflexivity.
  - vm_compute. reflexivity.
  - vm_compute. reflexivity.
  - intros bytes [= <-]. apply Nat.leb_le. vm_compute. reflexivity.
  - apply (bool_decide_unpack _). vm_compute. exact I.
  - apply (bool_decide_unpack _). vm_compute. exact I.
  - apply (bool_decide_unpack _). vm_compute. exact I.
  - apply (bool_decide_unpack _). vm_compute. exact I.
  - apply (bool_decide_unpack _). vm_compute. exact I.
Defined.

Lemma failed_enrolment_keeps_bootstrap_witness :
  enrolled_files [] !! LEO_BOOTSTRAP_FILE = sample_bootstrap !! LEO_BOOTSTRAP_FILE.
Proof.
  apply (@failed_enrolment_keeps_bootstrap decimal_lib linux_host linux_host_laws LEO_BOOTSTRAP_FILE LEO_CONFIG_FILE sample_bootstrap
    (sample_enroll_env []) LEO_ERR_PROTOCOL None (enrolled_files []) LEO_BOOTSTRAP_FILE).
  - apply enroll_with_result. vm_compute. reflexivity.
  - discriminate.
  - apply (bool_decide_unpack _). vm_compute. exact I.
  - apply (bool_decide_unpack _). vm_compute. exact I.
Defined.

Lemma request_body_sent_witness :
  concat (map fst (sent (@write_turns (mk_hc (replicate 3000 "x"%char) 0 [] 0 false false []) 2))) =
    take (Z.to_nat 4096) (replicate 3000 "x"%char) /\
  snd <$> (sent (@write_turns (mk_hc (replicate 3000 "x"%char) 0 [] 0 false false []) 2)) !! 1%nat = Some true.
Proof.
  destruct (request_body_sent (replicate 3000 "x"%char) 2) as (Hc & _ & Hl). split; [exact Hc|].
  destruct (sent _ !! 1%nat) as [c|] eqn:E; [|vm_compute in E; discriminate E].
  cbn [fmap option_fmap option_map]. by rewrite (Hl 1%nat c E).
Defined.

(** Enrolment does not check the length of the fingerprint the server sends:
    with a short one it succeeds and removes the bootstrap file, and the
    configuration it saved is refused at the next start. *)
Theorem enrolment_accepts_bad_fingerprint :
  exists cfg fs, enroll_with (str "abc") = Some (LEO_OK, Some cfg, fs) /\
  fs !! LEO_BOOTSTRAP_FILE = None /\ (leo_config_load (file_bytes fs LEO_CONFIG_FILE) config_zero).1 = LEO_ERR_CONFIG.
Proof.
  exists (enrolled_config (str "abc")), (enrolled_files (str "abc")).
  split; [apply enroll_with_result; vm_compute; reflexivity|]. split; vm_compute; reflexivity.
Qed.

End evaluation.
