(* ===== verification/Ring.v ===== *)
(** Ring buffers: the contents of a fixed array read from a head index, as
    used by the send queue of [src/connection.c]. *)
From S2P Require Import Prelude.

Section ring.
Context {A : Type} (dflt : A) (depth : Z) (Hdepth : 0 < depth).

Definition ring_at (q : list A) (i : Z) : A := default dflt (q !! Z.to_nat (i `mod` depth)).

(** The [count] entries from [head] on. *)
Definition ring_list (q : list A) (head count : Z) : list A :=
  map (fun i => ring_at q (head + Z.of_nat i)) (seq 0 (Z.to_nat count)).

Lemma ring_list_length q head count : length (ring_list q head count) = Z.to_nat count.
Proof. unfold ring_list. by rewrite length_map, length_seq. Qed.

Lemma ring_list_cons q head count :
  0 < count -> ring_list q head count = ring_at q head :: ring_list q (head + 1) (count - 1).
Proof.
  intros Hc. unfold ring_list. replace (Z.to_nat count) with (S (Z.to_nat (count - 1))) by lia.
  cbn [seq map]. rewrite Z.add_0_r. f_equal. rewrite <- seq_shift, map_map.
  apply map_ext. intros i. f_equal. lia.
Qed.

Lemma ring_list_mod q head count : ring_list q (head `mod` depth) count = ring_list q head count.
Proof.
  unfold ring_list. apply map_ext. intros i. unfold ring_at.
  by rewrite Zplus_mod_idemp_l.
Qed.

Lemma mod_distinct a i j : 0 <= i < depth -> 0 <= j < depth ->
  (a + i) `mod` depth = (a + j) `mod` depth -> i = j.
Proof.
  intros Hi Hj E. assert ((i - j) `mod` depth = 0) as Hm.
  { replace (i - j) with ((a + i) - (a + j)) by lia.
    by rewrite Zminus_mod, E, Z.sub_diag. }
  rewrite Z.mod_divide in Hm by lia. destruct Hm as [k Hk].
  destruct (Z.lt_trichotomy k 0) as [?|[->|?]]; [|lia|].
  - assert (k * depth <= -1 * depth) by (apply Z.mul_le_mono_nonneg_r; lia). lia.
  - assert (1 * depth <= k * depth) by (apply Z.mul_le_mono_nonneg_r; lia). lia.
Qed.

Lemma ring_list_snoc q head count x :
  Z.of_nat (length q) = depth -> 0 <= count < depth ->
  ring_list (<[Z.to_nat ((head + count) `mod` depth) := x]> q) head (count + 1) =
  ring_list q head count ++ [x].
Proof.
  intros Hq Hc. pose proof (Z.mod_pos_bound (head + count) depth Hdepth) as Hb.
  unfold ring_list. replace (Z.to_nat (count + 1)) with (Z.to_nat count + 1)%nat by lia.
  rewrite seq_app, map_app. cbn [seq map]. rewrite Nat.add_0_l, Z2Nat.id by lia. f_equal.
  - apply map_ext_in. intros i Hi%in_seq. unfold ring_at. f_equal.
    apply list_lookup_insert_ne. intros E.
    pose proof (Z.mod_pos_bound (head + Z.of_nat i) depth Hdepth).
    apply Z2Nat.inj in E; [|lia..]. apply mod_distinct in E; lia.
  - unfold ring_at. rewrite list_lookup_insert_eq; [done|]. lia.
Qed.

End ring.
