(* ===== verification/Connection.v ===== *)
(** The control connection: [src/connection.c].

    [leo_conn] is the structure of the same name.  The message buffers of the
    send queue are the byte sequences they hold; [lws_ctx] and [wsi] record
    whether the pointers are set.  The last five fields are not in the C
    structure: they are what libwebsockets has been asked ([armed]: a
    WRITEABLE callback is due on the connection; [cancelled]: the service loop
    is to be woken) and two histories, the messages [leo_conn_send] accepted
    and those handed to [lws_write].

    [_lws_callback] is called by libwebsockets from [lws_service]; what it
    returns, the message it hands to the agent's handler and the new state are
    the result.  The threads (the senders, the thread of [_lws_thread], the
    caller of [leo_conn_destroy]) interleave in the relation [conn_step]. *)
From S2P Require Import Prelude CString Types Json JsonParse Protocol Config Url Crypto Ring.

Record leo_conn : Type := mk_conn {
  lws_ctx : bool;
  wsi : bool;
  host : list ascii;
  port : Z;
  path : list ascii;
  send_queue : list (list ascii);
  queue_head : Z;
  queue_tail : Z;
  queue_count : Z;
  connected : bool;
  should_stop : bool;
  attempt_failed : bool;
  reconnect_delay_ms : Z;
  thread_exited : bool;
  config : leo_config_t;
  armed : bool;
  cancelled : bool;
  accepted : list (list ascii);
  wire : list (list ascii);
}.

(** *** Assignments to the fields *)

Definition set_queue c q h t n a w := mk_conn (lws_ctx c) (wsi c) (host c) (port c) (path c) q h t n
  (connected c) (should_stop c) (attempt_failed c) (reconnect_delay_ms c) (thread_exited c) (config c)
  (armed c) (cancelled c) a w.
Definition set_lws c ctx w arm can := mk_conn ctx w (host c) (port c) (path c) (send_queue c)
  (queue_head c) (queue_tail c) (queue_count c) (connected c) (should_stop c) (attempt_failed c)
  (reconnect_delay_ms c) (thread_exited c) (config c) arm can (accepted c) (wire c).
Definition set_status c conn fail delay := mk_conn (lws_ctx c) (wsi c) (host c) (port c) (path c)
  (send_queue c) (queue_head c) (queue_tail c) (queue_count c) conn (should_stop c) fail delay
  (thread_exited c) (config c) (armed c) (cancelled c) (accepted c) (wire c).
Definition set_exit c stop exited := mk_conn (lws_ctx c) (wsi c) (host c) (port c) (path c)
  (send_queue c) (queue_head c) (queue_tail c) (queue_count c) (connected c) stop (attempt_failed c)
  (reconnect_delay_ms c) exited (config c) (armed c) (cancelled c) (accepted c) (wire c).

Definition lws_callback_on_writable (c : leo_conn) : leo_conn :=
  set_lws c (lws_ctx c) (wsi c) true (cancelled c).
Definition lws_cancel_service (c : leo_conn) : leo_conn :=
  set_lws c (lws_ctx c) (wsi c) (armed c) true.

(** ** Sending *)

(** The part of [leo_conn_send] that holds the lock. *)
Definition enqueue (c : leo_conn) (data : list ascii) : leo_error_t * leo_conn :=
  let data := take (Z.to_nat LEO_MAX_MSG_SIZE) data in
  if LEO_SEND_QUEUE_DEPTH <=? queue_count c then (LEO_ERR_QUEUE_FULL, c)
  else
    (LEO_OK, set_queue c (<[Z.to_nat (queue_tail c) := data]> (send_queue c)) (queue_head c)
               ((queue_tail c + 1) `mod` LEO_SEND_QUEUE_DEPTH) (queue_count c + 1)
               (accepted c ++ [data]) (wire c)).

(** The part that follows: wake the service loop. *)
Definition wake (c : leo_conn) : leo_conn := if lws_ctx c then lws_cancel_service c else c.

Definition leo_conn_send (c : leo_conn) (data : list ascii) : leo_error_t * leo_conn :=
  if bool_decide (data = []) then (LEO_ERR_NETWORK, c)
  else if negb (connected c) then (LEO_ERR_NETWORK, c)
  else
    match enqueue c data with
    | (LEO_OK, c') => (LEO_OK, wake c')
    | r => r
    end.

Definition leo_conn_is_connected (c : option leo_conn) : bool :=
  match c with Some c => connected c | None => false end.

(** ** Callbacks *)

Section callbacks.
Context `{CLib} `{OpenSSL}.

Inductive lws_callback_reasons : Type :=
| LWS_CALLBACK_CLIENT_ESTABLISHED (e : ser_env)
| LWS_CALLBACK_CLIENT_RECEIVE (data : option (list ascii))
| LWS_CALLBACK_CLIENT_WRITEABLE (write_rc : Z)
| LWS_CALLBACK_EVENT_WAIT_CANCELLED
| LWS_CALLBACK_CLIENT_CLOSED
| LWS_CALLBACK_CLIENT_CONNECTION_ERROR
| LWS_CALLBACK_OPENSSL_PERFORM_SERVER_CERT_VERIFICATION (store_ctx : option (Z * option X509))
| LWS_CALLBACK_OTHER.

(** The [ESTABLISHED] case: HELLO joins the queue. *)
Definition on_established (e : ser_env) (c : leo_conn) : leo_conn :=
  let c := set_lws c (lws_ctx c) true (armed c) (cancelled c) in
  let c := set_status c true (attempt_failed c) LEO_RECONNECT_INIT_MS in
  let c := match leo_proto_build_hello e (config c) LEO_MAX_MSG_SIZE with
           | Some hello_buf => if 0 <? strlen hello_buf then (leo_conn_send c hello_buf).2 else c
           | None => c
           end in
  lws_callback_on_writable c.

(** The [WRITEABLE] case: one message per callback, then ask again. *)
Definition on_writeable (c : leo_conn) : leo_conn :=
  if 0 <? queue_count c then
    let msg := default [] (send_queue c !! Z.to_nat (queue_head c)) in
    let copy_len := Z.min (strlen msg) LEO_MAX_MSG_SIZE in
    let c := set_queue c (send_queue c) ((queue_head c + 1) `mod` LEO_SEND_QUEUE_DEPTH)
               (queue_tail c) (queue_count c - 1) (accepted c)
               (wire c ++ [take (Z.to_nat copy_len) msg]) in
    if 0 <? queue_count c then lws_callback_on_writable c else c
  else c.

Definition on_wait_cancelled (c : leo_conn) : leo_conn :=
  let has_pending := 0 <? queue_count c in
  if wsi c && has_pending then lws_callback_on_writable c else c.

Definition on_closed (c : leo_conn) : leo_conn :=
  let c := set_status c false true (reconnect_delay_ms c) in
  set_lws c (lws_ctx c) false (armed c) (cancelled c).

(** The [SERVER_CERT_VERIFICATION] case: 0 accepts, 1 rejects. *)
Definition on_cert (c : leo_conn) (store_ctx : option (Z * option X509)) : Z :=
  match store_ctx with
  | None => 1
  | Some (depth, peer_cert) =>
      if negb (depth =? 0) then 0
      else if leo_crypto_x509_fingerprint_matches peer_cert (Some (ca_fingerprint (config c)))
           then 0 else 1
  end.

(** The handler gets a terminated copy of what was received. *)
Definition on_receive (data : list ascii) : list ascii := c_str (take (Z.to_nat LEO_MAX_MSG_SIZE) data).

(** The state, the return code and the message handed to the handler. *)
Definition _lws_callback (c : leo_conn) (reason : lws_callback_reasons) :
    leo_conn * Z * option (list ascii) :=
  match reason with
  | LWS_CALLBACK_CLIENT_ESTABLISHED e => (on_established e c, 0, None)
  | LWS_CALLBACK_CLIENT_RECEIVE (Some ((_ :: _) as data)) =>
      (c, 0, Some (on_receive data))
  | LWS_CALLBACK_CLIENT_RECEIVE _ => (c, 0, None)
  | LWS_CALLBACK_CLIENT_WRITEABLE _ => (on_writeable c, 0, None)
  | LWS_CALLBACK_EVENT_WAIT_CANCELLED => (on_wait_cancelled c, 0, None)
  | LWS_CALLBACK_CLIENT_CLOSED | LWS_CALLBACK_CLIENT_CONNECTION_ERROR => (on_closed c, 0, None)
  | LWS_CALLBACK_OPENSSL_PERFORM_SERVER_CERT_VERIFICATION s => (c, on_cert c s, None)
  | LWS_CALLBACK_OTHER => (c, 0, None)
  end.

(** ** Creation *)

Definition HOST_SZ : Z := 256.
Definition PATH_SZ : Z := 256.

(** [calloc] and [pthread_create] may fail. *)
Definition leo_conn_create (cfg : leo_config_t) (calloc_ok create_ok : bool) : option leo_conn :=
  if negb calloc_ok then None
  else
    match _parse_endpoint (ws_endpoint cfg) HOST_SZ PATH_SZ with
    | None => None
    | Some (h, p, pa) =>
        if negb create_ok then None
        else Some (mk_conn false false h p pa (replicate (Z.to_nat LEO_SEND_QUEUE_DEPTH) []) 0 0 0
                     false false false LEO_RECONNECT_INIT_MS false cfg false false [] [])
    end.

(** ** The service thread *)

(** The delay of the next attempt. *)
Definition backoff (delay : Z) : Z :=
  let delay := delay + LEO_RECONNECT_STEP_MS in
  if LEO_RECONNECT_MAX_MS <? delay then LEO_RECONNECT_MAX_MS else delay.

(** Where [_lws_thread] is: at the head of its loop, in the event loop, in
    the waiting loop with [elapsed] milliseconds slept, or past the end. *)
Inductive phase : Type :=
| Starting
| Servicing
| Waiting (elapsed : Z)
| Exited.

#[export] Instance phase_eq_dec : EqDecision phase.
Proof. solve_decision. Defined.

Record sys : Type := mk_sys {
  conn : leo_conn;
  ph : phase;
  in_flight : nat;   (* senders between the unlock and lws_cancel_service *)
  freed : bool;      (* leo_conn_destroy has released the structure *)
}.

(** [lws_context_destroy] closes an open connection, which calls back, and
    drops what the context was asked. *)
Definition context_destroy (c : leo_conn) : leo_conn :=
  let c := if wsi c then on_closed c else c in
  set_lws c false (wsi c) false false.

(** What follows the event loop. *)
Definition after_service (c : leo_conn) : leo_conn :=
  let c := context_destroy c in set_status c false (attempt_failed c) (reconnect_delay_ms c).

Definition thread_end (c : leo_conn) : leo_conn := set_exit c (should_stop c) true.

(** The steps of the thread's own loops. *)
Inductive loop_step : phase * leo_conn -> phase * leo_conn -> Prop :=
| loop_stop c :
    should_stop c = true -> loop_step (Starting, c) (Exited, thread_end c)
| loop_no_context c :
    should_stop c = false -> loop_step (Starting, c) (Waiting 0, set_lws c false (wsi c) false false)
| loop_no_connect c :
    should_stop c = false ->
    loop_step (Starting, c)
      (Waiting 0, set_status (set_lws c false (wsi c) false false) (connected c) false (reconnect_delay_ms c))
| loop_connect c :
    should_stop c = false ->
    loop_step (Starting, c)
      (Servicing, set_status (set_lws c true (wsi c) false false) (connected c) false (reconnect_delay_ms c))
| loop_leave c :   (* should_stop, attempt_failed, or lws_service failed *)
    should_stop c = false -> loop_step (Servicing, c) (Waiting 0, after_service c)
| loop_leave_stop c :
    should_stop c = true -> loop_step (Servicing, c) (Exited, thread_end (after_service c))
| loop_sleep c elapsed :
    should_stop c = false -> elapsed < reconnect_delay_ms c ->
    loop_step (Waiting elapsed, c) (Waiting (elapsed + 100), c)
| loop_retry c elapsed :
    should_stop c = true \/ reconnect_delay_ms c <= elapsed ->
    loop_step (Waiting elapsed, c)
      (Starting, set_status c (connected c) (attempt_failed c) (backoff (reconnect_delay_ms c))).

(** libwebsockets calls back only while the thread services a context, with
    WRITEABLE only when it was asked for and WAIT_CANCELLED after a wake-up;
    an established connection is the only one that closes. *)
Definition callback_allowed (c : leo_conn) (r : lws_callback_reasons) : bool :=
  match r with
  | LWS_CALLBACK_CLIENT_ESTABLISHED _ => negb (wsi c)
  | LWS_CALLBACK_CLIENT_WRITEABLE _ => wsi c && armed c
  | LWS_CALLBACK_EVENT_WAIT_CANCELLED => cancelled c
  | LWS_CALLBACK_CLIENT_CLOSED | LWS_CALLBACK_CLIENT_RECEIVE _ => wsi c
  | _ => true
  end.

(** The request that a callback answers is no longer pending. *)
Definition consume (c : leo_conn) (r : lws_callback_reasons) : leo_conn :=
  match r with
  | LWS_CALLBACK_CLIENT_WRITEABLE _ => set_lws c (lws_ctx c) (wsi c) false (cancelled c)
  | LWS_CALLBACK_EVENT_WAIT_CANCELLED => set_lws c (lws_ctx c) (wsi c) (armed c) false
  | _ => c
  end.

(** Interleaved execution.  A sender tests [connected] before it takes the
    lock, so its message may enter the queue after the connection closed; the
    same sender wakes the loop in a second step. *)
Inductive conn_step : sys -> sys -> Prop :=
| step_enqueue s data err c' :
    freed s = false -> data <> [] -> enqueue (conn s) data = (err, c') ->
    conn_step s (mk_sys c' (ph s) (if bool_decide (err = LEO_OK) then S (in_flight s) else in_flight s) false)
| step_wake s n :
    freed s = false -> in_flight s = S n ->
    conn_step s (mk_sys (wake (conn s)) (ph s) n false)
| step_callback s r c' rc out :
    freed s = false -> ph s = Servicing -> callback_allowed (conn s) r = true ->
    _lws_callback (consume (conn s) r) r = (c', rc, out) ->
    conn_step s (mk_sys c' (ph s) (in_flight s) false)
| step_loop s p' c' :
    freed s = false -> loop_step (ph s, conn s) (p', c') ->
    conn_step s (mk_sys c' p' (in_flight s) false)
| step_stop s :
    freed s = false ->
    conn_step s (mk_sys (wake (set_exit (conn s) true (thread_exited (conn s)))) (ph s) (in_flight s) false)
| step_free s :   (* leo_conn_destroy saw thread_exited *)
    freed s = false -> should_stop (conn s) = true -> thread_exited (conn s) = true ->
    conn_step s (mk_sys (conn s) (ph s) (in_flight s) true).

(** The wait of [leo_conn_destroy]: [exited_in_time] is whether the thread
    signals its end before the deadline.  The result is the return value and
    whether the structure was released. *)
Definition leo_conn_destroy (c : leo_conn) (exited_in_time : bool) : bool * leo_conn * bool :=
  let c := wake (set_exit c true (thread_exited c)) in
  let exited := thread_exited c || exited_in_time in
  if negb exited then (false, c, false) else (true, c, true).

End callbacks.

Arguments on_receive : simpl never.

(** ** The queue is a bounded FIFO *)

(** The messages that wait, in the order they will be sent. *)
Definition queue_list (c : leo_conn) : list (list ascii) :=
  ring_list [] LEO_SEND_QUEUE_DEPTH (send_queue c) (queue_head c) (queue_count c).

Definition ring_ok (c : leo_conn) : Prop :=
  Z.of_nat (length (send_queue c)) = LEO_SEND_QUEUE_DEPTH /\
  0 <= queue_head c < LEO_SEND_QUEUE_DEPTH /\
  0 <= queue_count c <= LEO_SEND_QUEUE_DEPTH /\
  queue_tail c = (queue_head c + queue_count c) `mod` LEO_SEND_QUEUE_DEPTH /\
  Forall (fun m => strlen m <= LEO_MAX_MSG_SIZE) (send_queue c).

(** Everything accepted was sent, or still waits, in order. *)
Definition history_ok (c : leo_conn) : Prop := accepted c = wire c ++ queue_list c.

Definition delay_ok (c : leo_conn) : Prop :=
  LEO_RECONNECT_INIT_MS <= reconnect_delay_ms c <= LEO_RECONNECT_MAX_MS.

Record conn_inv (c : leo_conn) : Prop := mk_conn_inv {
  inv_ring : ring_ok c;
  inv_history : history_ok c;
  inv_delay : delay_ok c;
  inv_linked : connected c = wsi c;
}.

Lemma queue_list_length c : ring_ok c -> Z.of_nat (length (queue_list c)) = queue_count c.
Proof. intros (_ & _ & ? & _). unfold queue_list. rewrite ring_list_length. lia. Qed.

(** What [leo_conn_send]'s critical section does to the queue. *)
Lemma enqueue_spec c data err c' :
  ring_ok c -> enqueue c data = (err, c') ->
  ring_ok c' /\
  match err with
  | LEO_OK => queue_count c < LEO_SEND_QUEUE_DEPTH /\
              queue_list c' = queue_list c ++ [take (Z.to_nat LEO_MAX_MSG_SIZE) data]
  | _ => err = LEO_ERR_QUEUE_FULL /\ queue_count c = LEO_SEND_QUEUE_DEPTH /\ c' = c
  end.
Proof.
  intros (L & Hh & Hn & Ht & Hs). unfold enqueue.
  destruct (Z.leb_spec LEO_SEND_QUEUE_DEPTH (queue_count c)); intros [= <- <-].
  - repeat split; try done; lia.
  - unfold LEO_SEND_QUEUE_DEPTH in *. split.
    + unfold ring_ok; simpl. unfold LEO_SEND_QUEUE_DEPTH in *. rewrite length_insert. split_and!; try done; try lia.
      * rewrite Ht, Zplus_mod_idemp_l. f_equal. lia.
      * apply Forall_insert; [done|]. unfold strlen, LEO_MAX_MSG_SIZE. rewrite length_take. lia.
    + split; [done|]. unfold queue_list. simpl. rewrite Ht. apply ring_list_snoc; unfold LEO_SEND_QUEUE_DEPTH; lia.
Qed.

Lemma enqueue_rest c data err c' :
  enqueue c data = (err, c') ->
  lws_ctx c' = lws_ctx c /\ wsi c' = wsi c /\ connected c' = connected c /\
  should_stop c' = should_stop c /\ armed c' = armed c /\ cancelled c' = cancelled c /\
  thread_exited c' = thread_exited c /\ reconnect_delay_ms c' = reconnect_delay_ms c /\
  wire c' = wire c /\
  accepted c' = accepted c ++
    (if bool_decide (err = LEO_OK) then [take (Z.to_nat LEO_MAX_MSG_SIZE) data] else []).
Proof.
  unfold enqueue. destruct (_ <=? _); intros [= <- <-]; simpl; [by rewrite app_nil_r|done].
Qed.

Lemma enqueue_inv c data err c' : conn_inv c -> enqueue c data = (err, c') -> conn_inv c'.
Proof.
  intros [Hr Hh Hd Hl] E. pose proof (enqueue_rest _ _ _ _ E) as (_&?&?&_&_&_&_&?&Ew&Ea).
  pose proof (enqueue_spec _ _ _ _ Hr E) as [Hr' Hq]. split; [done| |unfold delay_ok in *; congruence|congruence].
  unfold history_ok in *. rewrite Ea, Ew, Hh.
  destruct err; try (destruct Hq as (? & ? & ->); by rewrite app_nil_r).
  destruct Hq as [_ ->]. by rewrite <- (assoc_L (++)).
Qed.

(** What one WRITEABLE callback does to the queue. *)
Lemma writeable_spec c :
  ring_ok c -> 0 < queue_count c ->
  exists m, queue_list c = m :: queue_list (on_writeable c) /\
  wire (on_writeable c) = wire c ++ [m] /\ ring_ok (on_writeable c) /\
  armed (on_writeable c) = armed c || (0 <? queue_count (on_writeable c)).
Proof.
  intros (L & Hh & Hn & Ht & Hs) Hc. unfold on_writeable.
  destruct (Z.ltb_spec 0 (queue_count c)); [|lia]. cbv zeta.
  set (msg := default [] (send_queue c !! Z.to_nat (queue_head c))).
  assert (strlen msg <= LEO_MAX_MSG_SIZE) as Hm.
  { unfold msg. destruct (send_queue c !! _) eqn:E; [|done]. simpl.
    by eapply (Forall_lookup_1 _ _ _ _ Hs). }
  rewrite Z.min_l by done.
  assert (take (Z.to_nat (strlen msg)) msg = msg) as -> by (apply take_ge; unfold strlen; lia).
  exists msg. set (c' := set_queue _ _ _ _ _ _ _).
  assert (queue_list c = msg :: queue_list c') as Hq.
  { unfold queue_list, c'. cbn [send_queue queue_head queue_count set_queue].
    rewrite ring_list_mod, ring_list_cons by (unfold LEO_SEND_QUEUE_DEPTH; lia). f_equal.
    unfold ring_at, msg. rewrite Z.mod_small by done. done. }
  assert (ring_ok c') as Hr.
  { unfold ring_ok, c'. simpl. unfold LEO_SEND_QUEUE_DEPTH in *. split_and!; try done; try lia.
    - apply Z.mod_pos_bound. lia.
    - apply Z.mod_pos_bound. lia.
    - rewrite Ht, Zplus_mod_idemp_l. f_equal. lia. }
  destruct (0 <? queue_count c') eqn:E.
  - split_and!; [done|done|done|]. simpl. simpl in E. rewrite E. by rewrite orb_true_r.
  - split_and!; [done|done|done|]. rewrite E. by rewrite orb_false_r.
Qed.

(** ** The invariant of the interleaved system *)

Definition same_queue (c c' : leo_conn) : Prop :=
  send_queue c' = send_queue c /\ queue_head c' = queue_head c /\ queue_tail c' = queue_tail c /\
  queue_count c' = queue_count c /\ accepted c' = accepted c /\ wire c' = wire c.

Lemma same_queue_inv c c' :
  conn_inv c -> same_queue c c' -> delay_ok c' -> connected c' = wsi c' -> conn_inv c'.
Proof.
  intros [Hr Hh _ _] (E1 & E2 & E3 & E4 & E5 & E6) Hd Hl. split; [..|done|done].
  - unfold ring_ok in *. by rewrite E1, E2, E3, E4.
  - unfold history_ok, queue_list in *. by rewrite E1, E2, E4, E5, E6.
Qed.

(** Steps that leave the queue alone, from the invariant [H]. *)
Ltac same_queue H :=
  let X := fresh in pose proof H as X; destruct X as [_ _ ? ?];
  apply (same_queue_inv _ _ H);
  [repeat split; simpl; repeat case_goal; done|try done|try done].

Lemma backoff_ok d :
  LEO_RECONNECT_INIT_MS <= d <= LEO_RECONNECT_MAX_MS ->
  LEO_RECONNECT_INIT_MS <= backoff d <= LEO_RECONNECT_MAX_MS.
Proof.
  unfold backoff, LEO_RECONNECT_INIT_MS, LEO_RECONNECT_MAX_MS, LEO_RECONNECT_STEP_MS. intros ?.
  destruct (Z.ltb_spec 60000 (d + 5000)); lia.
Qed.

Lemma wake_inv c : conn_inv c -> conn_inv (wake c).
Proof. intros H. unfold wake. destruct (lws_ctx c); [|done]. by same_queue H. Qed.

Lemma send_inv c data : conn_inv c -> conn_inv (leo_conn_send c data).2.
Proof.
  intros H. unfold leo_conn_send. destruct (bool_decide _); [done|]. destruct (connected c); [|done].
  simpl. destruct (enqueue c data) as [err c'] eqn:E. apply enqueue_inv in E; [|done].
  destruct err; simpl; auto using wake_inv.
Qed.

Lemma writeable_inv c : conn_inv c -> conn_inv (on_writeable c).
Proof.
  intros H. destruct (Z.ltb_spec 0 (queue_count c)) as [Hc|Hc].
  - destruct H as [Hr Hh Hd Hl]. destruct (writeable_spec c Hr Hc) as (m & Hq & Hw & Hr' & _).
    split; [done| | |].
    + unfold history_ok in *. rewrite Hw, <- (assoc_L (++)). simpl. rewrite <- Hq, <- Hh.
      unfold on_writeable. repeat case_goal; done.
    + unfold delay_ok, on_writeable in *. repeat case_goal; done.
    + unfold on_writeable. repeat case_goal; done.
  - unfold on_writeable. destruct (Z.ltb_spec 0 (queue_count c)); [lia|done].
Qed.

Section system.
Context `{CLib} `{OpenSSL}.

Lemma established_inv e c : conn_inv c -> conn_inv (on_established e c).
Proof.
  intros H1. unfold on_established.
  set (c1 := set_status _ _ _ _).
  assert (conn_inv c1) as Hc1.
  { apply (same_queue_inv c); [done|by repeat split| |done].
    unfold delay_ok, c1, LEO_RECONNECT_INIT_MS, LEO_RECONNECT_MAX_MS. simpl. lia. }
  set (c2 := match _ with Some _ => _ | None => _ end).
  assert (conn_inv c2) as Hc2.
  { unfold c2. destruct (leo_proto_build_hello _ _ _) as [b|]; [|done].
    destruct (0 <? strlen b); [|done]. by apply send_inv. }
  by same_queue Hc2.
Qed.

Lemma closed_inv c : conn_inv c -> conn_inv (on_closed c).
Proof. intros H1. by same_queue H1. Qed.

Lemma consume_inv c r : conn_inv c -> conn_inv (consume c r).
Proof. intros H1. destruct r; simpl; try done; by same_queue H1. Qed.

Lemma callback_inv c r c' rc out :
  conn_inv c -> _lws_callback c r = (c', rc, out) -> conn_inv c'.
Proof.
  intros H1. destruct r as [e|[[|a d]|]| | | | | |]; simpl; intros [= <- _ _];
    auto using established_inv, writeable_inv, closed_inv.
  unfold on_wait_cancelled. destruct (_ && _); [|done]. by same_queue H1.
Qed.

(** The state of the whole: the connection exists only while the thread
    services a context, the thread has ended exactly when it said so, nothing
    is released before, and a waiting message always has a wake-up under way. *)
Record sys_inv (s : sys) : Prop := mk_sys_inv {
  sinv_conn : conn_inv (conn s);
  sinv_phase : lws_ctx (conn s) = true <-> ph s = Servicing;
  sinv_wsi : wsi (conn s) = true -> ph s = Servicing;
  sinv_exit : thread_exited (conn s) = true <-> ph s = Exited;
  sinv_freed : freed s = true -> ph s = Exited;
  sinv_wake : wsi (conn s) = true -> 0 < queue_count (conn s) ->
              armed (conn s) = true \/ cancelled (conn s) = true \/ (0 < in_flight s)%nat;
}.

Definition sys_init (c : leo_conn) : sys := mk_sys c Starting 0 false.

Lemma create_inv cfg c : leo_conn_create cfg true true = Some c -> sys_inv (sys_init c).
Proof.
  unfold leo_conn_create. simpl. destruct (_parse_endpoint _ _ _) as [[[h p] pa]|]; [|done].
  intros [= <-]. split; simpl; try by split.
  - split; [|done|by split|done]. unfold ring_ok. split_and!; try done.
    by apply (Forall_replicate _ 32 []).
  - done.
  - done.
  - done.
Qed.

Lemma phase_facts s : sys_inv s ->
  (ph s = Servicing -> lws_ctx (conn s) = true) /\
  (ph s <> Servicing -> lws_ctx (conn s) = false /\ wsi (conn s) = false /\ connected (conn s) = false) /\
  (ph s <> Exited -> thread_exited (conn s) = false).
Proof.
  intros [[_ _ _ Hl] Hp Hw He _ _]. rewrite Hl. split_and!; [tauto| |].
  - intros Hn. destruct (lws_ctx (conn s)); [tauto|]. destruct (wsi (conn s)); [by destruct (Hn (Hw eq_refl))|done].
  - intros Hn. destruct (thread_exited (conn s)); [tauto|done].
Qed.

Lemma context_destroy_rest c :
  same_queue c (after_service c) /\ lws_ctx (after_service c) = false /\ wsi (after_service c) = false /\
  connected (after_service c) = false /\ thread_exited (after_service c) = thread_exited c /\
  reconnect_delay_ms (after_service c) = reconnect_delay_ms c.
Proof. unfold after_service, context_destroy. destruct (wsi c) eqn:E; simpl; rewrite ?E; by repeat split. Qed.

Lemma after_service_inv c : conn_inv c -> conn_inv (after_service c).
Proof.
  intros Hc. destruct (context_destroy_rest c) as (D1 & _ & D3 & D4 & _ & D6).
  apply (same_queue_inv c); [done|done| |congruence]. destruct Hc. unfold delay_ok in *. by rewrite D6.
Qed.

Lemma loop_step_inv s p' c' :
  sys_inv s -> freed s = false -> loop_step (ph s, conn s) (p', c') ->
  sys_inv (mk_sys c' p' (in_flight s) false).
Proof.
  intros Hs Hf Hl. destruct (phase_facts s Hs) as (F1 & F2 & F3). destruct Hs as [Hc Hp Hw He _ Hk].
  pose proof (context_destroy_rest (conn s)) as (D1 & D2 & D3 & D4 & D5 & D6).
  destruct s as [c p n f]. simpl in *. inversion Hl; subst; simpl in *;
    try (destruct F2 as (L1 & L2 & L3); [done|]); try (specialize (F3 ltac:(done)));
    (split; simpl; rewrite ?D2, ?D3, ?D4, ?D5, ?L1, ?L2, ?L3, ?F3; try (done || by split)).
  - by same_queue Hc.
  - same_queue Hc.
  - same_queue Hc.
  - same_queue Hc.
  - by apply after_service_inv.
  - apply after_service_inv in Hc. by same_queue Hc.
  - same_queue Hc. by apply backoff_ok.
Qed.

Lemma wake_rest c :
  lws_ctx (wake c) = lws_ctx c /\ wsi (wake c) = wsi c /\ thread_exited (wake c) = thread_exited c /\
  queue_count (wake c) = queue_count c /\ armed (wake c) = armed c /\
  (lws_ctx c = true -> cancelled (wake c) = true) /\ (cancelled c = true -> cancelled (wake c) = true).
Proof. unfold wake. destruct (lws_ctx c) eqn:E; simpl; by split_and!. Qed.

Lemma send_rest c d :
  lws_ctx (leo_conn_send c d).2 = lws_ctx c /\ thread_exited (leo_conn_send c d).2 = thread_exited c.
Proof.
  unfold leo_conn_send. destruct (bool_decide _), (connected c); try done. simpl.
  destruct (enqueue c d) as [err c2] eqn:E. apply enqueue_rest in E as (?&_&_&_&_&_&?&_).
  destruct err; simpl; try done. unfold wake. split; destruct (lws_ctx c2) eqn:El; simpl; congruence.
Qed.

(** The callbacks keep the phase facts and the pending wake-up. *)
Lemma callback_rest c r c' rc out :
  conn_inv c -> _lws_callback c r = (c', rc, out) ->
  lws_ctx c' = lws_ctx c /\ thread_exited c' = thread_exited c /\
  (wsi c' = true -> 0 < queue_count c' -> armed c' = true \/
    (wsi c = true /\ 0 < queue_count c /\
     match r with LWS_CALLBACK_CLIENT_WRITEABLE _ | LWS_CALLBACK_EVENT_WAIT_CANCELLED => False
                | _ => armed c' = armed c /\ cancelled c' = cancelled c end)).
Proof.
  intros Hc. destruct r as [e|[[|a d]|]| | | | | |]; simpl; intros [= <- _ _]; try tauto.
  - unfold on_established. set (c1 := set_status _ _ _ _).
    destruct (leo_proto_build_hello _ _ _) as [b|]; [|split_and!; [done..|intros _ _; by left]].
    destruct (0 <? strlen b); [|split_and!; [done..|intros _ _; by left]]. destruct (send_rest c1 b) as [E1 E2].
    split_and!; [done|done|intros _ _; by left].
  - unfold on_writeable. destruct (0 <? queue_count c) eqn:E; [|split_and!; [done..|intros; lia]].
    cbv zeta. set (c' := set_queue _ _ _ _ _ _ _).
    destruct (0 <? queue_count c') eqn:E'; [split_and!; [done..|intros _ _; by left]|].
    split_and!; [done..|]. intros _ ?. lia.
  - unfold on_wait_cancelled. destruct (wsi c) eqn:Ew; simpl; [|split_and!; [done..|intros; congruence]].
    destruct (0 <? queue_count c) eqn:E; [split_and!; [done..|intros _ _; by left]|]. split_and!; [done..|intros; lia].
  - by split_and!.
  - by split_and!.
Qed.

Lemma conn_step_inv s s' : sys_inv s -> conn_step s s' -> sys_inv s'.
Proof.
  intros Hs Hstep. destruct (phase_facts s Hs) as (F1 & F2 & F3).
  pose proof Hs as [Hc Hp Hw He Hf Hk].
  destruct Hstep as [s data err c' Hnf Hd E|s n Hnf En|s r c' rc out Hnf Hph Ha E|s p' c' Hnf Hl|s Hnf|s Hnf Hst Hex].
  - pose proof (enqueue_rest _ _ _ _ E) as (E1&E2&E3&E4&E5&E6&E7&_).
    split; simpl; rewrite ?E1, ?E2, ?E5, ?E6, ?E7; try done; [by eapply enqueue_inv|].
    intros Hw' Hq. case_bool_decide as Ho; [right; right; lia|].
    assert (c' = conn s) as -> by (unfold enqueue in E; destruct (_ <=? _); congruence). auto.
  - destruct (wake_rest (conn s)) as (W1 & W2 & W3 & W4 & W5 & W6 & _).
    split; simpl; rewrite ?W1, ?W2, ?W3, ?W4, ?W5; try done; [by apply wake_inv|]. intros Hw' _.
    right; left. by apply W6, Hp, Hw.
  - pose proof (consume_inv (conn s) r Hc) as Hc1.
    pose proof (callback_inv _ _ _ _ _ Hc1 E) as Hc'.
    pose proof (callback_rest _ _ _ _ _ Hc1 E) as (E1 & E2 & E3).
    assert (lws_ctx (consume (conn s) r) = lws_ctx (conn s)) as R1 by by destruct r.
    assert (thread_exited (consume (conn s) r) = thread_exited (conn s)) as R2 by by destruct r.
    split; simpl; rewrite ?E1, ?E2, ?R1, ?R2; try done.
    intros Hw' Hq. destruct (E3 Hw' Hq) as [?|(Hw1 & Hq1 & Hr)]; [auto|].
    destruct r; try done; destruct Hr as [-> ->]; simpl in *; auto.
  - by apply loop_step_inv.
  - destruct (wake_rest (set_exit (conn s) true (thread_exited (conn s)))) as (W1 & W2 & W3 & W4 & W5 & _ & W7).
    split; simpl; rewrite ?W1, ?W2, ?W3, ?W4, ?W5; try done; [apply wake_inv; by same_queue Hc|].
    simpl. intros Hw' Hq. destruct (Hk Hw' Hq) as [?|[?|?]]; auto.
  - split; simpl; try done. intros _. by apply He.
Qed.

(** *** Seen from the rest of the agent *)

(** What the other threads do to the connection: any number of sends. *)
Definition sends : relation leo_conn := rtc (fun c c' => exists data, c' = (leo_conn_send c data).2).

Lemma sends_one c data : sends c (leo_conn_send c data).2.
Proof. apply rtc_once. by exists data. Qed.

(** Any number of sends of messages that are not replies to commands. *)
Definition notes : relation leo_conn := rtc (fun c c' => exists txt, note_text txt /\ c' = (leo_conn_send c txt).2).

Lemma notes_one c txt : note_text txt -> notes c (leo_conn_send c txt).2.
Proof. intros Ht. apply rtc_once. by exists txt. Qed.

Lemma notes_sends c c' : notes c c' -> sends c c'.
Proof. induction 1 as [|c c1 c' (txt & _ & ->) _ IH]; [apply rtc_refl|]. eapply rtc_l; [by eexists|exact IH]. Qed.

(** A send is the step that queues the message, then the one that wakes the
    service loop. *)
Lemma send_steps c data p n : rtc conn_step (mk_sys c p n false) (mk_sys (leo_conn_send c data).2 p n false).
Proof.
  unfold leo_conn_send. case_bool_decide as Hd; [apply rtc_refl|]. destruct (connected c); [|apply rtc_refl].
  simpl. destruct (enqueue c data) as [err c'] eqn:E.
  pose proof (step_enqueue (mk_sys c p n false) data err c' eq_refl Hd E) as S1. simpl in S1.
  case_bool_decide as Ho.
  - subst. eapply rtc_l; [exact S1|]. apply rtc_once. by apply (step_wake (mk_sys c' p (S n) false) n).
  - apply rtc_once. by destruct err.
Qed.

Lemma sends_steps c c' p n : sends c c' -> rtc conn_step (mk_sys c p n false) (mk_sys c' p n false).
Proof.
  induction 1 as [c|c c1 c' (data & ->) _ IH]; [apply rtc_refl|]. etrans; [apply send_steps|exact IH].
Qed.

Lemma send_accepted c data :
  accepted (leo_conn_send c data).2 =
  accepted c ++ (if bool_decide ((leo_conn_send c data).1 = LEO_OK) then [take (Z.to_nat LEO_MAX_MSG_SIZE) data] else []).
Proof.
  unfold leo_conn_send. destruct (bool_decide (data = [])); [by rewrite app_nil_r|].
  destruct (connected c); [|by rewrite app_nil_r]. simpl. unfold enqueue.
  destruct (_ <=? _); [by rewrite app_nil_r|]. simpl. unfold wake. by destruct (lws_ctx _).
Qed.

(** Nothing is ever taken back from the messages accepted. *)
Lemma step_accepted s s' : conn_step s s' -> accepted (conn s) `prefix_of` accepted (conn s').
Proof.
  destruct 1 as [s data err c' _ _ E|s n _ _|s r c' rc out _ _ _ E|s p' c' _ Hl|s _|s _ _ _]; simpl; try done.
  - unfold enqueue in E. destruct (_ <=? _); injection E as <- <-; [done|]. by apply prefix_app_r.
  - unfold wake. by destruct (lws_ctx _).
  - assert (accepted (consume (conn s) r) = accepted (conn s)) as <- by by destruct r.
    generalize dependent (consume (conn s) r). intros c.
    destruct r as [e|[[|a d]|]| | | | | |]; simpl; intros [= <- _ _]; try done.
    + unfold on_established. simpl. destruct (leo_proto_build_hello _ _ _) as [b|]; [|done].
      destruct (0 <? strlen b); [|done]. rewrite send_accepted. by apply prefix_app_r.
    + unfold on_writeable. destruct (_ <? _); [|done]. simpl. by destruct (_ <? _).
    + unfold on_wait_cancelled. by destruct (_ && _).
  - pose proof (context_destroy_rest (conn s)) as (D & _). destruct D as (_ & _ & _ & _ & D & _).
    by inversion Hl; subst; cbn -[after_service]; rewrite ?D.
  - unfold wake. simpl. by destruct (lws_ctx _).
Qed.

Lemma steps_accepted s s' : rtc conn_step s s' -> accepted (conn s) `prefix_of` accepted (conn s').
Proof. induction 1 as [|s1 s2 s3 S _ IH]; [done|]. etrans; [by apply step_accepted|done]. Qed.

Definition reachable (cfg : leo_config_t) (s : sys) : Prop :=
  exists c, leo_conn_create cfg true true = Some c /\ rtc conn_step (sys_init c) s.

Lemma reachable_inv cfg s : reachable cfg s -> sys_inv s.
Proof.
  intros (c & Hc & Hr). eapply (rtc_invariant conn_step sys_inv); [|exact Hr|by eapply create_inv].
  eauto using conn_step_inv.
Qed.

End system.

(** ** Theorems *)

Section theorems.
Context `{CLib} `{OpenSSL}.

(** C5: in every interleaving of the senders, the service thread and the
    stopping thread, the messages handed to libwebsockets followed by those
    still queued are exactly the messages accepted by [leo_conn_send], in
    order: nothing is lost, duplicated or reordered inside the agent, and at
    most 32 messages wait. *)
Theorem queue_is_fifo cfg s :
  reachable cfg s ->
  accepted (conn s) = wire (conn s) ++ queue_list (conn s) /\
  (length (queue_list (conn s)) <= 32)%nat.
Proof.
  intros Hr%reachable_inv. destruct Hr as [[Hr Hh _ _] _ _ _ _ _]. split; [done|].
  pose proof (queue_list_length _ Hr). destruct Hr as (_ & _ & ? & _).
  unfold LEO_SEND_QUEUE_DEPTH in *. lia.
Qed.

(** C6: no lost wake-up.  While the connection is up and a message waits, a
    WRITEABLE callback is due, or the service loop is being woken, or a sender
    is about to wake it. *)
Theorem no_lost_wakeup cfg s :
  reachable cfg s -> wsi (conn s) = true -> queue_list (conn s) <> [] ->
  armed (conn s) = true \/ cancelled (conn s) = true \/ (0 < in_flight s)%nat.
Proof.
  intros Hr%reachable_inv Hw Hq. apply (sinv_wake _ Hr); [done|].
  pose proof (queue_list_length _ (inv_ring _ (sinv_conn _ Hr))).
  destruct (queue_list (conn s)); [done|]. simpl in *. lia.
Qed.

(** [leo_conn_destroy] releases the connection only when the service
    thread is past its last access: from then on the thread takes no step. *)
Theorem destroy_is_safe cfg s :
  reachable cfg s -> freed s = true \/ thread_exited (conn s) = true ->
  ph s = Exited /\ lws_ctx (conn s) = false /\ wsi (conn s) = false /\
  forall p' c', ~ loop_step (ph s, conn s) (p', c').
Proof.
  intros Hr%reachable_inv Hf. pose proof (phase_facts s Hr) as (_ & F & _).
  assert (ph s = Exited) as E by (destruct Hr as [_ _ _ He Hfr _]; destruct Hf; tauto).
  rewrite E in *. destruct F as (? & ? & _); [done|]. split_and!; [done..|].
  intros p' c' Hl. inversion Hl.
Qed.

Definition rank (p : phase) : nat :=
  match p with Exited => 0 | Servicing | Starting => 1 | Waiting _ => 2 end.

(** C13: once a stop is requested, the service thread ends after at most two
    more rounds of its loops, whatever it was doing: every loop step makes
    progress towards the end, and there always is one until then. *)
Theorem stop_terminates p c :
  should_stop c = true ->
  (forall p' c', loop_step (p, c) (p', c') -> (rank p' < rank p)%nat /\ should_stop c' = true) /\
  (p <> Exited -> exists q, loop_step (p, c) q).
Proof.
  intros Hs. split.
  - intros p' c' Hl. inversion Hl; subst; simpl; try congruence; split; try lia; try done.
    unfold after_service, context_destroy. by destruct (wsi c).
  - intros Hp. destruct p; [by exists (Exited, thread_end c); constructor| | |done].
    + exists (Exited, thread_end (after_service c)). by constructor.
    + eexists. apply loop_retry. by left.
Qed.

(** The delay before the [n]-th reconnection grows by five seconds from
    five seconds and saturates at one minute: it is linear, not exponential. *)
Theorem backoff_is_linear n :
  Nat.iter n backoff LEO_RECONNECT_INIT_MS =
  Z.min (LEO_RECONNECT_INIT_MS + Z.of_nat n * LEO_RECONNECT_STEP_MS) LEO_RECONNECT_MAX_MS.
Proof.
  unfold LEO_RECONNECT_INIT_MS, LEO_RECONNECT_STEP_MS, LEO_RECONNECT_MAX_MS.
  induction n as [|n IH]; [done|]. rewrite Nat.iter_succ, IH.
  unfold backoff, LEO_RECONNECT_STEP_MS, LEO_RECONNECT_MAX_MS.
  destruct (Z.ltb_spec 60000 (Z.min (5000 + Z.of_nat n * 5000) 60000 + 5000)); lia.
Qed.

(** What [leo_conn_send] does on every branch: nothing when there is no
    data, no connection or no room, and otherwise the message, cut to 64 KiB,
    joins the end of the queue and the service loop is woken. *)
Theorem send_spec c data :
  ring_ok c ->
  let '(err, c') := leo_conn_send c data in
  if bool_decide (data = []) || negb (connected c) then err = LEO_ERR_NETWORK /\ c' = c
  else if queue_count c =? LEO_SEND_QUEUE_DEPTH then err = LEO_ERR_QUEUE_FULL /\ c' = c
  else err = LEO_OK /\ ring_ok c' /\
       queue_list c' = queue_list c ++ [take (Z.to_nat LEO_MAX_MSG_SIZE) data] /\
       (lws_ctx c = true -> cancelled c' = true).
Proof.
  intros Hr. unfold leo_conn_send. destruct (bool_decide (data = [])); [done|].
  destruct (connected c); [|done]. simpl. destruct (enqueue c data) as [err c'] eqn:E.
  pose proof (enqueue_rest _ _ _ _ E) as (E1 & _).
  pose proof (enqueue_spec _ _ _ _ Hr E) as [Hr' Hq].
  destruct err; try by destruct Hq as (? & -> & ->).
  destruct Hq as [Hc Hq]. destruct (Z.eqb_spec (queue_count c) LEO_SEND_QUEUE_DEPTH); [lia|].
  split_and!; [done| | |].
  - unfold wake. by destruct (lws_ctx c').
  - rewrite <- Hq. unfold wake, queue_list. by destruct (lws_ctx c').
  - intros Hl. destruct (wake_rest c') as (_&_&_&_&_&W&_). apply W. by rewrite E1.
Qed.

(** The session greeting is not always the first message of a session.
    On a (re)connection HELLO joins the queue behind whatever was left there,
    and is dropped when the queue is full. *)
Theorem hello_joins_the_queue e c hello :
  ring_ok c -> leo_proto_build_hello e (config c) LEO_MAX_MSG_SIZE = Some hello -> hello <> [] ->
  strlen hello < LEO_MAX_MSG_SIZE ->
  queue_list (on_established e c) =
  if queue_count c =? LEO_SEND_QUEUE_DEPTH then queue_list c else queue_list c ++ [hello].
Proof.
  intros Hr Hb Hn Hl. unfold on_established. cbv zeta.
  set (c1 := set_status _ _ _ _). change (config c1) with (config c). rewrite Hb.
  destruct (Z.ltb_spec 0 (strlen hello)) as [_|Hz]; [|by destruct hello].
  unfold leo_conn_send. rewrite bool_decide_false by done. change (connected c1) with true. simpl.
  destruct (enqueue c1 hello) as [err c2] eqn:E.
  assert (ring_ok c1) as Hr1 by done. pose proof (enqueue_spec _ _ _ _ Hr1 E) as [_ Hq].
  destruct err; try by destruct Hq as (? & Hq & ->); change (queue_count c1) with (queue_count c) in Hq; rewrite Hq.
  destruct Hq as [Hc Hq]. change (queue_count c1) with (queue_count c) in Hc.
  destruct (Z.eqb_spec (queue_count c) LEO_SEND_QUEUE_DEPTH); [lia|].
  change (queue_list c1) with (queue_list c) in Hq.
  rewrite take_ge in Hq by (unfold strlen in Hl; lia). rewrite <- Hq.
  unfold wake, queue_list. by destruct (lws_ctx c2).
Qed.

End theorems.

Section pinning.
Context `{CLib} `{OpenSSLLaws}.

(** C25: the server's own certificate is accepted exactly when its SHA-256
    digest is the pinned fingerprint; the verdict does not depend on the chain. *)
Theorem server_cert_pinned c cert :
  on_cert c (Some (0, Some cert)) = 0 <->
  exists digest, (der ← i2d_X509 cert; EVP_sha256 der) = Some digest /\
                 tolower <$> ca_fingerprint (config c) = _bytes_to_hex digest.
Proof.
  rewrite <- fingerprint_matches_spec. unfold on_cert. cbn [negb Z.eqb].
  by destruct (leo_crypto_x509_fingerprint_matches (Some cert) (Some (ca_fingerprint (config c)))).
Qed.

End pinning.

(** ** Evaluations *)

Definition idle_conn : leo_conn :=
  mk_conn false false (str "rmm.example.com") 8443 (str "/agent/ws") (replicate 32 []) 0 0 0
    false false false LEO_RECONNECT_INIT_MS false sample_config false false [] [].

Example idle_conn_created : leo_conn_create sample_config true true = Some idle_conn.
Proof. vm_compute. reflexivity. Qed.

(** The state once a first connection is established: HELLO waits. *)
Definition greeted : sys :=
  mk_sys (@on_established decimal_lib sample_env
            (set_status (set_lws idle_conn true false false false) false false LEO_RECONNECT_INIT_MS))
    Servicing 0 false.

Lemma greeted_reachable : @reachable decimal_lib toy_openssl sample_config greeted.
Proof.
  exists idle_conn. split; [exact idle_conn_created|].
  eapply rtc_l; [apply step_loop; [done|apply loop_connect; done]|].
  eapply rtc_l; [|apply rtc_refl].
  exact (@step_callback decimal_lib toy_openssl
    (mk_sys (set_status (set_lws idle_conn true false false false) false false LEO_RECONNECT_INIT_MS)
       Servicing 0 false)
    (@LWS_CALLBACK_CLIENT_ESTABLISHED toy_openssl sample_env) (conn greeted) 0 None
    eq_refl eq_refl eq_refl eq_refl).
Qed.

Example queue_is_fifo_witness :
  accepted (conn greeted) = wire (conn greeted) ++ queue_list (conn greeted) /\
  (length (queue_list (conn greeted)) <= 32)%nat.
Proof. apply (@queue_is_fifo decimal_lib toy_openssl sample_config greeted greeted_reachable). Defined.

Example no_lost_wakeup_witness :
  armed (conn greeted) = true \/ cancelled (conn greeted) = true \/ (0 < in_flight greeted)%nat.
Proof.
  apply (@no_lost_wakeup decimal_lib toy_openssl sample_config greeted greeted_reachable);
    [reflexivity|vm_compute; discriminate].
Defined.

(** The state after a stop request that the thread noticed at its loop head. *)
Definition stopped : sys :=
  mk_sys (thread_end (wake (set_exit idle_conn true false))) Exited 0 false.

Lemma stopped_reachable : @reachable decimal_lib toy_openssl sample_config stopped.
Proof.
  exists idle_conn. split; [exact idle_conn_created|].
  eapply rtc_l; [by apply step_stop|].
  eapply rtc_l; [apply step_loop; [done|apply loop_stop; done]|]. apply rtc_refl.
Qed.

Example destroy_is_safe_witness :
  ph stopped = Exited /\ lws_ctx (conn stopped) = false /\ wsi (conn stopped) = false /\
  forall p' c', ~ loop_step (ph stopped, conn stopped) (p', c').
Proof.
  apply (@destroy_is_safe decimal_lib toy_openssl sample_config stopped stopped_reachable).
  right. reflexivity.
Defined.

Example stop_terminates_witness :
  let c := set_exit idle_conn true false in
  (forall p' c', loop_step (Waiting 300, c) (p', c') -> (rank p' < 2)%nat /\ should_stop c' = true) /\
  (Waiting 300 <> Exited -> exists q, loop_step (Waiting 300, c) q).
Proof. apply (stop_terminates (Waiting 300) (set_exit idle_conn true false)). reflexivity. Defined.

Example send_spec_witness :
  let '(err, c') := leo_conn_send (conn greeted) (str "{}") in
  if bool_decide (str "{}" = []) || negb (connected (conn greeted)) then err = LEO_ERR_NETWORK /\ c' = conn greeted
  else if queue_count (conn greeted) =? LEO_SEND_QUEUE_DEPTH then err = LEO_ERR_QUEUE_FULL /\ c' = conn greeted
  else err = LEO_OK /\ ring_ok c' /\
       queue_list c' = queue_list (conn greeted) ++ [take (Z.to_nat LEO_MAX_MSG_SIZE) (str "{}")] /\
       (lws_ctx (conn greeted) = true -> cancelled c' = true).
Proof.
  apply (send_spec (conn greeted) (str "{}")).
  exact (inv_ring _ (sinv_conn _ (reachable_inv _ _ greeted_reachable))).
Defined.

(** A connection that is lost with two messages waiting. *)
Definition backlog : leo_conn :=
  mk_conn true false (str "h") 443 (str "/") (str "a" :: str "b" :: replicate 30 []) 0 2 2
    false false true 5000 false sample_config false false [str "a"; str "b"] [].

Example hello_joins_the_queue_witness :
  exists hello, @leo_proto_build_hello decimal_lib sample_env sample_config LEO_MAX_MSG_SIZE = Some hello /\
  queue_list (@on_established decimal_lib sample_env backlog) = [str "a"; str "b"; hello].
Proof.
  destruct (@leo_proto_build_hello decimal_lib sample_env sample_config LEO_MAX_MSG_SIZE)
    as [hello|] eqn:E; [|vm_compute in E; discriminate E].
  exists hello. split; [reflexivity|].
  apply (@hello_joins_the_queue decimal_lib sample_env backlog hello); [|exact E|..].
  - unfold ring_ok. repeat split; try (vm_compute; discriminate); try reflexivity.
    repeat constructor; vm_compute; discriminate.
  - intros ->. vm_compute in E. discriminate E.
  - vm_compute in E. injection E as <-. vm_compute. reflexivity.
Defined.

Example server_cert_pinned_witness :
  let c := mk_conn false false [] 443 [] [] 0 0 0 false false false 5000 false
    (mk_config [] [] [] [] [] [] [] [] (_bytes_to_hex (replicate 32 171)) 0 0) false false [] [] in
  @on_cert toy_openssl c (Some (0, Some (replicate 171 0))) = 0.
Proof.
  intros c. apply (@server_cert_pinned toy_openssl toy_openssl_laws c (replicate 171 0)).
  exists (replicate 32 171). split; vm_compute; reflexivity.
Defined.
