(* ===== verification/Executor.v ===== *)
(** Execution of scripts and commands: [platform/linux/executor_linux.c].

    A child process is seen through the system calls of the parent.  One
    [round] is what one pass of the [select] loop observes: the time, what the
    child wrote since the last pass, the result of [select] and the result of
    [waitpid].  A [child_env] is a finite sequence of rounds; [_run_child]
    gives [None] when the loop is still running after all of them, and when the
    blocking [waitpid] after the loop never returns. *)
From S2P Require Import Prelude CString Types Crypto.

Definition ALLOWED_INTERPRETERS : list (list ascii) :=
  [str "bash"; str "sh"; str "python3"; str "python"; str "python2"].

Definition _interpreter_allowed (interp : list ascii) : bool :=
  existsb (streq interp) ALLOWED_INTERPRETERS.

(** ** The child process *)

Inductive wait_status : Type :=
| WExited (code : Z)
| WSignaled (sig : Z)
| WOther.

Inductive select_result : Type :=
| SelEintr
| SelError
| SelTimeout
| SelReady (out_set err_set : bool).

Record timespec : Type := mk_ts { ts_sec : Z; ts_nsec : Z }.

Record round : Type := mk_round {
  now : timespec;
  out_new : list ascii;             (* written to stdout before the reads *)
  err_new : list ascii;
  sel : select_result;
  waited : option wait_status;      (* Some: waitpid reports the end *)
}.

Record child_env : Type := mk_child_env {
  pipe_ok : bool;
  fork_ok : bool;
  started : timespec;
  rounds : list round;
  killed_status : wait_status;      (* what waitpid reports of the child after SIGKILL *)
  left_status : option wait_status; (* of the child left to itself, None when it does not end *)
}.

(** What has been read from a pipe, and what is still in it.  [read] on a
    pipe takes what is there, up to the room left. *)
Record stream : Type := mk_stream { buf : list ascii; pipe : list ascii }.

Definition _drain_fd (s : stream) (buf_max : Z) : stream :=
  if buf_max - 1 <=? strlen (buf s) then s
  else
    let n := Z.to_nat (buf_max - 1 - strlen (buf s)) in
    mk_stream (buf s ++ take n (pipe s)) (drop n (pipe s)).

Definition feed (s : stream) (bytes : list ascii) : stream := mk_stream (buf s) (pipe s ++ bytes).

(** [remain_ms] of the loop. *)
Definition remain_ms (deadline now : timespec) : Z :=
  (ts_sec deadline - ts_sec now) * 1000 + Z.quot (ts_nsec deadline - ts_nsec now) 1000000.

(** The exit code a status stands for; it stays as it was otherwise. *)
Definition status_code (s : wait_status) (old : Z) : Z :=
  match s with WExited c => c | WSignaled g => - g | WOther => old end.

Inductive loop_end : Type :=
| ChildDone (s : wait_status)
| Broken (killed : bool) (err : leo_error_t).   (* whether SIGKILL was sent *)

(** The [select] loop. *)
Fixpoint child_loop (deadline : option timespec) (rs : list round) (out err : stream) :
    option (loop_end * stream * stream) :=
  match rs with
  | [] => None
  | r :: rs' =>
      let out := feed out (out_new r) in
      let err := feed err (err_new r) in
      if match deadline with Some d => remain_ms d (now r) <=? 0 | None => false end
      then Some (Broken true LEO_ERR_TIMEOUT, out, err)
      else
        match sel r with
        | SelEintr => child_loop deadline rs' out err
        | SelError => Some (Broken false LEO_ERR_SYSTEM, out, err)
        | SelTimeout => Some (Broken true LEO_ERR_TIMEOUT, out, err)
        | SelReady out_set err_set =>
            let out := if out_set then _drain_fd out LEO_EXEC_STDOUT_MAX else out in
            let err := if err_set then _drain_fd err LEO_EXEC_STDERR_MAX else err in
            match waited r with
            | Some s =>
                Some (ChildDone s, _drain_fd out LEO_EXEC_STDOUT_MAX, _drain_fd err LEO_EXEC_STDERR_MAX)
            | None => child_loop deadline rs' out err
            end
        end
  end.

Definition empty_stream : stream := mk_stream [] [].

Definition deadline_of (timeout_secs : Z) (t : timespec) : option timespec :=
  if 0 <? timeout_secs then Some (mk_ts (ts_sec t + timeout_secs) (ts_nsec t)) else None.

(** The blocking [waitpid]: a child that was killed ends. *)
Definition reap (killed : bool) (env : child_env) : option wait_status :=
  if killed then Some (killed_status env) else left_status env.

(** The result, and the command line and environment handed to [execvp]. *)
Definition _run_child (argv extra_env : list (list ascii)) (timeout_secs : Z) (env : child_env) :
    option (leo_error_t * leo_exec_result_t) * option (list (list ascii) * list (list ascii)) :=
  if negb (pipe_ok env) then (Some (LEO_ERR_SYSTEM, mk_result (-1) [] []), None)
  else if negb (fork_ok env) then (Some (LEO_ERR_SYSTEM, mk_result (-1) [] []), None)
  else
    (match child_loop (deadline_of timeout_secs (started env)) (rounds env) empty_stream empty_stream with
     | None => None
     | Some (ChildDone s, out, err) => Some (LEO_OK, mk_result (status_code s (-1)) (buf out) (buf err))
     | Some (Broken killed e, out, err) =>
         status ← reap killed env;
         Some (e, mk_result (status_code status (-1)) (buf out) (buf err))
     end, Some (argv, extra_env)).

(** ** The two entry points *)

Record script_env : Type := mk_script_env {
  mkstemp_path : option (list ascii);
  fchmod_ok : bool;
  script_write_ok : bool;
  script_child : child_env;
}.

(** The temporary file and what it holds when the child starts. *)
Definition _write_script_tmp (fs : files) (script : list ascii) (env : script_env) :
    option (list ascii * files) :=
  match mkstemp_path env with
  | None => None
  | Some path_out =>
      if script_write_ok env then Some (path_out, <[path_out := mk_file script (if fchmod_ok env then 448 else 384)]> fs) else None
  end.

(** The result, the files after the call, and what was executed on which
    files; the temporary file is there as long as the child runs. *)
Definition leo_exec_script (fs : files) (interpreter script : list ascii) (timeout_secs : Z)
    (old : leo_exec_result_t) (env : script_env) :
    option (leo_error_t * leo_exec_result_t) * files * option (list (list ascii) * files) :=
  if negb (_interpreter_allowed interpreter) then (Some (LEO_ERR_PROTOCOL, old), fs, None)
  else
    match _write_script_tmp fs script env with
    | None => (Some (LEO_ERR_SYSTEM, old), fs, None)
    | Some (tmppath, fs1) =>
        let '(r, spawned) := _run_child [interpreter; tmppath] [] timeout_secs (script_child env) in
        (r, if r then delete tmppath fs1 else fs1, (fun p => (p.1, fs1)) <$> spawned)
    end.

Definition leo_exec_argv (argv extra_env : list (list ascii)) (timeout_secs : Z)
    (old : leo_exec_result_t) (env : child_env) :
    option (leo_error_t * leo_exec_result_t) * option (list (list ascii) * list (list ascii)) :=
  match argv with
  | [] => (Some (LEO_ERR_SYSTEM, old), None)
  | _ => _run_child argv extra_env timeout_secs env
  end.

(** ** Lemmas *)

(** [s] holds the bytes [w] the child wrote, split between buffer and pipe. *)
Definition holds (s : stream) (w : list ascii) (max : Z) : Prop :=
  buf s ++ pipe s = w /\ strlen (buf s) <= max - 1.

Lemma feed_holds s w max bytes : holds s w max -> holds (feed s bytes) (w ++ bytes) max.
Proof. intros [<- ?]. split; [|done]. simpl. by rewrite (assoc_L (++)). Qed.

Lemma drain_holds s w max : holds s w max -> holds (_drain_fd s max) w max.
Proof.
  intros [<- L]. unfold _drain_fd. destruct (Z.leb_spec (max - 1) (strlen (buf s))); [done|].
  split; simpl.
  - by rewrite <- (assoc_L (++)), take_drop.
  - unfold strlen in *. rewrite length_app, length_take. lia.
Qed.

(** A drain leaves nothing behind unless the buffer is full. *)
Lemma drain_all s w max :
  1 <= max -> holds s w max -> buf (_drain_fd s max) = take (Z.to_nat (max - 1)) w.
Proof.
  intros Hm [<- L]. unfold _drain_fd, strlen in *.
  destruct (Z.leb_spec (max - 1) (Z.of_nat (length (buf s)))); simpl.
  - rewrite take_app_le by lia. symmetry. apply take_ge. lia.
  - rewrite take_app_ge by lia. f_equal. f_equal. lia.
Qed.

Definition written (f : round -> list ascii) (rs : list round) : list ascii := concat (map f rs).

(** What the loop leaves, from [wo] and [we] already written: it consumed some
    rounds; at the child's end everything that fits has been read. *)
Definition loop_post (rs : list round) (wo we : list ascii) (res : loop_end * stream * stream) : Prop :=
  let '(fin, out, err) := res in
  exists k, (0 < k <= length rs)%nat /\
  holds out (wo ++ written out_new (take k rs)) LEO_EXEC_STDOUT_MAX /\
  holds err (we ++ written err_new (take k rs)) LEO_EXEC_STDERR_MAX /\
  match fin with
  | ChildDone s =>
      buf out = take (Z.to_nat (LEO_EXEC_STDOUT_MAX - 1)) (wo ++ written out_new (take k rs)) /\
      buf err = take (Z.to_nat (LEO_EXEC_STDERR_MAX - 1)) (we ++ written err_new (take k rs)) /\
      waited <$> rs !! (k - 1)%nat = Some (Some s)
  | Broken _ e => e = LEO_ERR_TIMEOUT \/ e = LEO_ERR_SYSTEM
  end.

Lemma loop_post_cons r rs wo we res :
  loop_post rs (wo ++ out_new r) (we ++ err_new r) res -> loop_post (r :: rs) wo we res.
Proof.
  destruct res as [[fin out] err]. intros (k & Hk & R). exists (S k). split; [simpl; lia|].
  unfold written in *. cbn [take map concat]. rewrite !(assoc_L (++)).
  by replace (S k - 1)%nat with (S (k - 1)) by lia.
Qed.

Lemma loop_post_here r rs wo we fin out err :
  holds out (wo ++ out_new r) LEO_EXEC_STDOUT_MAX -> holds err (we ++ err_new r) LEO_EXEC_STDERR_MAX ->
  match fin with
  | ChildDone s =>
      buf out = take (Z.to_nat (LEO_EXEC_STDOUT_MAX - 1)) (wo ++ out_new r) /\
      buf err = take (Z.to_nat (LEO_EXEC_STDERR_MAX - 1)) (we ++ err_new r) /\ waited r = Some s
  | Broken _ e => e = LEO_ERR_TIMEOUT \/ e = LEO_ERR_SYSTEM
  end -> loop_post (r :: rs) wo we (fin, out, err).
Proof.
  intros Ho He Hf. exists 1%nat. split; [simpl; lia|]. unfold written. cbn [take map concat].
  rewrite !app_nil_r. split_and!; [done..|]. destruct fin; [|done].
  destruct Hf as (? & ? & Hw). cbn. by rewrite Hw.
Qed.

Lemma child_loop_spec deadline rs out err wo we res :
  holds out wo LEO_EXEC_STDOUT_MAX -> holds err we LEO_EXEC_STDERR_MAX ->
  child_loop deadline rs out err = Some res -> loop_post rs wo we res.
Proof.
  revert out err wo we. induction rs as [|r rs IH]; intros out err wo we Ho He E; [done|].
  cbn [child_loop] in E. cbv zeta in E.
  apply (feed_holds _ _ _ (out_new r)) in Ho. apply (feed_holds _ _ _ (err_new r)) in He.
  destruct (match deadline with Some _ => _ | None => _ end).
  { simplify_eq. apply loop_post_here; auto. }
  destruct (sel r) as [| | |os es].
  - eauto using loop_post_cons.
  - simplify_eq. apply loop_post_here; auto.
  - simplify_eq. apply loop_post_here; auto.
  - assert (holds (if os then _drain_fd (feed out (out_new r)) LEO_EXEC_STDOUT_MAX else feed out (out_new r))
      (wo ++ out_new r) LEO_EXEC_STDOUT_MAX) as Ho' by (destruct os; auto using drain_holds).
    assert (holds (if es then _drain_fd (feed err (err_new r)) LEO_EXEC_STDERR_MAX else feed err (err_new r))
      (we ++ err_new r) LEO_EXEC_STDERR_MAX) as He' by (destruct es; auto using drain_holds).
    destruct (waited r) as [s|] eqn:W; [|eauto using loop_post_cons].
    simplify_eq. apply loop_post_here; auto using drain_holds.
    split_and!; [by apply drain_all..|done].
Qed.

(** With a deadline, a round that sees the clock past it ends the loop: the
    child was killed, unless it ended in an earlier round. *)
Lemma child_loop_deadline d rs i r out err :
  rs !! i = Some r -> remain_ms d (now r) <= 0 ->
  (forall j r', (j < i)%nat -> rs !! j = Some r' -> sel r' <> SelError) ->
  exists fin out' err', child_loop (Some d) rs out err = Some (fin, out', err') /\
    (fin = Broken true LEO_ERR_TIMEOUT \/
     exists s j r', (j < i)%nat /\ rs !! j = Some r' /\ waited r' = Some s /\ fin = ChildDone s).
Proof.
  revert i out err. induction rs as [|r0 rs IH]; intros i out err Hi Hr Hs; [done|].
  cbn [child_loop]. destruct (Z.leb_spec (remain_ms d (now r0)) 0) as [|Hp]; [eauto 10|].
  destruct i as [|i]; [injection Hi as ->; lia|]. cbn in Hi.
  assert (forall out err, exists fin out' err', child_loop (Some d) rs out err = Some (fin, out', err') /\
    (fin = Broken true LEO_ERR_TIMEOUT \/
     exists s j r', (j < S i)%nat /\ (r0 :: rs) !! j = Some r' /\ waited r' = Some s /\ fin = ChildDone s)) as Hrec.
  { intros o e. destruct (IH i o e Hi Hr) as (fin & o' & e' & E & Hf).
    - intros j r' Hj Ej. apply (Hs (S j) r'); [lia|done].
    - exists fin, o', e'. split; [done|]. destruct Hf as [->|(s & j & r' & Hj & Ej & ? & ?)]; [by left|right].
      exists s, (S j), r'. split_and!; [lia|done..]. }
  destruct (sel r0) eqn:Es; [apply Hrec|by destruct (Hs 0%nat r0 ltac:(lia) eq_refl)|eauto 10|].
  destruct (waited r0) as [s|] eqn:W; [|apply Hrec].
  eexists _, _, _. split; [done|]. right. exists s, 0%nat, r0. split_and!; [lia|done..].
Qed.

(** C11: what a finished command leaves in the two result buffers is exactly
    what it wrote, cut to 16383 and 4095 bytes, and its exit code is its own. *)
Theorem output_captured argv extra_env timeout env r sp :
  _run_child argv extra_env timeout env = (Some (LEO_OK, r), sp) ->
  exists k s, waited <$> rounds env !! k = Some (Some s) /\ exit_code r = status_code s (-1) /\
  stdout_buf r = take (Z.to_nat (LEO_EXEC_STDOUT_MAX - 1)) (written out_new (take (S k) (rounds env))) /\
  stderr_buf r = take (Z.to_nat (LEO_EXEC_STDERR_MAX - 1)) (written err_new (take (S k) (rounds env))).
Proof.
  unfold _run_child. destruct (pipe_ok env); [|done]. destruct (fork_ok env); [|done]. simpl.
  destruct (child_loop _ _ _ _) as [[[fin out] err]|] eqn:E; [|done]. intros Hr.
  apply (child_loop_spec _ _ _ _ [] []) in E; [|split; done..].
  destruct E as (k & Hk & _ & _ & Hf). destruct fin as [s|b e].
  - simplify_eq. destruct Hf as (Ho & He & Hw). exists (k - 1)%nat, s. simpl in *.
    by replace (S (k - 1)) with k by lia.
  - destruct (reap b env); simplify_eq/=. by destruct Hf.
Qed.

(** In all cases, timeouts and failures included, the captured outputs
    are prefixes of what was written that leave room for the final NUL. *)
Theorem output_bounded argv extra_env timeout env err r sp :
  _run_child argv extra_env timeout env = (Some (err, r), sp) ->
  strlen (stdout_buf r) < LEO_EXEC_STDOUT_MAX /\ strlen (stderr_buf r) < LEO_EXEC_STDERR_MAX /\
  stdout_buf r `prefix_of` written out_new (rounds env) /\
  stderr_buf r `prefix_of` written err_new (rounds env).
Proof.
  assert (forall f k rs s max, holds s ([] ++ written f (take k rs)) max ->
    strlen (buf s) < max /\ buf s `prefix_of` written f rs) as Hp.
  { intros f k rs s max [Hs L]. split; [lia|]. exists (pipe s ++ written f (drop k rs)).
    rewrite (assoc_L (++)), Hs. unfold written. simpl.
    by rewrite <- concat_app, <- map_app, take_drop. }
  unfold _run_child. destruct (pipe_ok env); [|intros [= <- <- _]; by split_and!; try apply prefix_nil].
  destruct (fork_ok env); [|intros [= <- <- _]; by split_and!; try apply prefix_nil]. simpl.
  destruct (child_loop _ _ _ _) as [[[fin out] er]|] eqn:E; [|done]. intros Hr.
  apply (child_loop_spec _ _ _ _ [] []) in E; [|split; done..].
  destruct E as (k & _ & Ho & He & _). apply Hp in Ho as [? ?], He as [? ?].
  destruct fin as [|b e]; [|destruct (reap b env)]; simplify_eq/=; auto.
Qed.


(** When [select] fails the child is not killed, and the call returns only
    if the child ends by itself: a limit of 5 seconds does not bound it. *)
Theorem select_error_blocks argv extra_env out err :
  exists env, Exists (fun r => ts_sec (started env) + 5 <= ts_sec (now r)) (rounds env) /\
  _run_child argv extra_env 5 env = (None, Some (argv, extra_env)) /\ out_new <$> rounds env !! 0%nat = Some out /\
  err_new <$> rounds env !! 0%nat = Some err.
Proof.
  exists (mk_child_env true true (mk_ts 100 0)
    [mk_round (mk_ts 101 0) out err SelError None; mk_round (mk_ts 999 0) [] [] SelTimeout None] WOther None).
  split_and!; [|done..]. right. left. cbn. lia.
Qed.

(** C16: a script is run only by a whitelisted interpreter, on a private
    temporary file that holds exactly the script; when the call returns,
    whatever the outcome, the files are as they were, the temporary file gone;
    as long as it does not, nothing but that file has been added. *)
Theorem script_execution fs interpreter script timeout old env res fs' sp :
  leo_exec_script fs interpreter script timeout old env = (res, fs', sp) ->
  (forall p, mkstemp_path env = Some p -> fs !! p = None) ->
  match res with
  | Some _ => fs' = fs
  | None => exists argv, sp = Some (argv, fs')
  end /\
  match sp with
  | None => True
  | Some (argv, fs1) =>
      interpreter ∈ ALLOWED_INTERPRETERS /\
      exists tmp mode, argv = [interpreter; tmp] /\ fs1 !! tmp = Some (mk_file script mode) /\
        (mode = 448 \/ mode = 384) /\ fs !! tmp = None /\ delete tmp fs1 = fs
  end.
Proof.
  unfold leo_exec_script, _write_script_tmp. intros E Hf.
  destruct (_interpreter_allowed interpreter) eqn:A; [|by simplify_eq/=].
  apply existsb_exists in A as (i & Hi%list_elem_of_In & ->%bool_decide_eq_true). cbn [negb] in E.
  destruct (mkstemp_path env) as [p|]; [|by simplify_eq/=]. specialize (Hf p eq_refl).
  destruct (script_write_ok env); [|by simplify_eq/=].
  destruct (_run_child _ _ _ _) as [r sp'] eqn:R. injection E as <- <- <-.
  assert (forall f, delete p (<[p := f]> fs) = fs) as Hd by (intros f; by rewrite delete_insert_eq, delete_id).
  split.
  - destruct r; [apply Hd|]. unfold _run_child in R. destruct (pipe_ok _), (fork_ok _); simplify_eq/=; eauto.
  - unfold _run_child in R. destruct (pipe_ok _), (fork_ok _); simplify_eq/=; try done.
    split; [done|]. exists p. rewrite lookup_insert_eq. eexists. split_and!; [done..| |done|apply Hd].
    destruct (fchmod_ok env); auto.
Qed.

(** ** Evaluations *)

(** A command that prints, ends with code 3, and leaves some output behind. *)
Definition sample_child : child_env :=
  mk_child_env true true (mk_ts 100 0)
    [mk_round (mk_ts 100 5) (str "hello") [] (SelReady true false) None;
     mk_round (mk_ts 101 0) (str " world") (str "warn") (SelReady false false) (Some (WExited 3));
     mk_round (mk_ts 999 0) [] [] SelTimeout None]
    (WSignaled 9) None.

Example sample_run :
  _run_child [str "ls"] [] 5 sample_child =
  (Some (LEO_OK, mk_result 3 (str "hello world") (str "warn")), Some ([str "ls"], [])).
Proof. vm_compute. reflexivity. Qed.

Example output_captured_witness :
  exists k s, waited <$> rounds sample_child !! k = Some (Some s) /\ 3 = status_code s (-1) /\
  str "hello world" = take (Z.to_nat (LEO_EXEC_STDOUT_MAX - 1)) (written out_new (take (S k) (rounds sample_child))) /\
  str "warn" = take (Z.to_nat (LEO_EXEC_STDERR_MAX - 1)) (written err_new (take (S k) (rounds sample_child))).
Proof.
  apply (output_captured [str "ls"] [] 5 sample_child
    (mk_result 3 (str "hello world") (str "warn")) (Some ([str "ls"], []))).
  vm_compute. reflexivity.
Defined.

Example output_bounded_witness :
  strlen (str "hello world") < LEO_EXEC_STDOUT_MAX /\ strlen (str "warn") < LEO_EXEC_STDERR_MAX /\
  str "hello world" `prefix_of` written out_new (rounds sample_child) /\
  str "warn" `prefix_of` written err_new (rounds sample_child).
Proof.
  apply (output_bounded [str "ls"] [] 5 sample_child LEO_OK
    (mk_result 3 (str "hello world") (str "warn")) (Some ([str "ls"], []))).
  vm_compute. reflexivity.
Defined.

(** A command that prints until it is killed. *)
Definition endless_child : child_env :=
  mk_child_env true true (mk_ts 100 0)
    [mk_round (mk_ts 104 0) (str "tick") [] (SelReady true false) None;
     mk_round (mk_ts 105 2) (str "tick") [] (SelReady true false) None]
    (WSignaled 9) None.


Example endless_killed :
  (_run_child [str "yes"] [] 5 endless_child).1 = Some (LEO_ERR_TIMEOUT, mk_result (-9) (str "tick") []).
Proof. reflexivity. Qed.

Example script_execution_witness :
  let env := mk_script_env (Some (str "/tmp/leo_exec_a1b2c3")) true true sample_child in
  let '(res, fs', sp) := leo_exec_script ∅ (str "bash") (str "echo hello") 5 result_zero env in
  match res with
  | Some _ => fs' = ∅
  | None => exists argv, sp = Some (argv, fs')
  end /\
  match sp with
  | None => True
  | Some (argv, fs1) =>
      str "bash" ∈ ALLOWED_INTERPRETERS /\
      exists tmp mode, argv = [str "bash"; tmp] /\ fs1 !! tmp = Some (mk_file (str "echo hello") mode) /\
        (mode = 448 \/ mode = 384) /\ (∅ : files) !! tmp = None /\ delete tmp fs1 = ∅
  end.
Proof.
  intros env. destruct (leo_exec_script _ _ _ _ _ _) as [[r fs'] sp] eqn:E.
  apply (script_execution ∅ (str "bash") (str "echo hello") 5 result_zero env r fs' sp E).
  intros p _. apply lookup_empty.
Defined.
