(* ===== verification/Platform.v ===== *)
(** The interface [src/executor.h] between the agent and the platform: what
    the command threads may rely on, and its Linux implementation.

    A thread that runs commands is a [prog]: from a world it gives a result,
    or none when it never returns, and the world it leaves. *)
From S2P Require Import Prelude CString Types Crypto Executor.

Definition prog (W A : Type) : Type := W -> option A * W.

#[export] Instance prog_ret W : MRet (prog W) := fun A a w => (Some a, w).
#[export] Instance prog_bind W : MBind (prog W) := fun A B f m w =>
  match m w with
  | (Some a, w') => f a w'
  | (None, w') => (None, w')
  end.

(** Command lines and environments are lists of C strings. *)
Notation argv_t := (list (list ascii)).

Class Executor (W : Type) : Type := {
  exec_script : list ascii -> list ascii -> Z -> leo_exec_result_t ->
                prog W (leo_error_t * leo_exec_result_t);
  exec_argv : argv_t -> argv_t -> Z -> leo_exec_result_t -> prog W (leo_error_t * leo_exec_result_t);
  exec_log : W -> list argv_t;   (* the command lines of the children started so far *)
  interpreters : list (list ascii);
  script_argv : list ascii -> list ascii -> argv_t;   (* an interpreter on a script file *)
}.

Arguments interpreters W {_}.
Arguments script_argv W {_} _ _.

(** What [executor.h] promises: one command line per call at most, the one
    that was asked for; scripts only through a whitelisted interpreter, the
    only error that says so; outputs that fit their buffers when it succeeds. *)
Class ExecutorLaws W `{Executor W} : Prop := {
  exec_argv_log argv env t old w :
    exec_log (exec_argv argv env t old w).2 = exec_log w \/
    exec_log (exec_argv argv env t old w).2 = exec_log w ++ [argv];
  exec_argv_result argv env t old w err r w' :
    argv <> [] -> exec_argv argv env t old w = (Some (err, r), w') ->
    err ∈ [LEO_OK; LEO_ERR_SYSTEM; LEO_ERR_TIMEOUT] /\
    (err = LEO_OK ->
     strlen (stdout_buf r) < LEO_EXEC_STDOUT_MAX /\ strlen (stderr_buf r) < LEO_EXEC_STDERR_MAX);
  exec_script_log interp script t old w :
    exec_log (exec_script interp script t old w).2 = exec_log w \/
    (interp ∈ interpreters W /\
     exists tmp, exec_log (exec_script interp script t old w).2 = exec_log w ++ [script_argv W interp tmp]);
  exec_script_result interp script t old w r w' :
    exec_script interp script t old w = (Some (LEO_OK, r), w') ->
    strlen (stdout_buf r) < LEO_EXEC_STDOUT_MAX /\ strlen (stderr_buf r) < LEO_EXEC_STDERR_MAX;
}.

(** ** Linux *)

(** The [n]-th child meets the [n]-th environment. *)
Record linux_world : Type := mk_linux {
  lw_files : files;
  lw_log : list argv_t;
  lw_envs : nat -> script_env;
  lw_tick : nat;
}.

Definition next_world (w : linux_world) (fs : files) (spawned : list argv_t) : linux_world :=
  mk_linux fs (lw_log w ++ spawned) (lw_envs w) (S (lw_tick w)).

#[export] Instance linux_executor : Executor linux_world := {|
  exec_script interp script t old w :=
    let '(r, fs, sp) := leo_exec_script (lw_files w) interp script t old (lw_envs w (lw_tick w)) in
    (r, next_world w fs (match sp with Some p => [p.1] | None => [] end));
  exec_argv argv env t old w :=
    let '(r, sp) := leo_exec_argv argv env t old (script_child (lw_envs w (lw_tick w))) in
    (r, next_world w (lw_files w) (match sp with Some p => [p.1] | None => [] end));
  exec_log w := lw_log w;
  interpreters := ALLOWED_INTERPRETERS;
  script_argv interp tmp := [interp; tmp];
|}.

(** ** Lemmas *)

Lemma run_child_result argv env t e err r sp :
  _run_child argv env t e = (Some (err, r), sp) -> err ∈ [LEO_OK; LEO_ERR_SYSTEM; LEO_ERR_TIMEOUT].
Proof.
  unfold _run_child. destruct (pipe_ok e), (fork_ok e); simpl; try (intros [= <- <- _]; set_solver).
  destruct (child_loop _ _ _ _) as [[[fin out] er]|] eqn:E; [|done].
  apply (child_loop_spec _ _ _ _ [] []) in E; [|split; done..].
  destruct E as (k & _ & _ & _ & Hf). destruct fin as [|b f]; [intros [= <- <- _]; set_solver|].
  destruct (reap b e); [|done]. intros [= <- <- _]. destruct Hf as [-> | ->]; set_solver.
Qed.

Lemma run_child_bounded argv env t e err r sp :
  _run_child argv env t e = (Some (err, r), sp) ->
  strlen (stdout_buf r) < LEO_EXEC_STDOUT_MAX /\ strlen (stderr_buf r) < LEO_EXEC_STDERR_MAX.
Proof.
  unfold _run_child. destruct (pipe_ok e), (fork_ok e); simpl; try (intros [= <- <- _]; done).
  destruct (child_loop _ _ _ _) as [[[fin out] er]|] eqn:E; [|done].
  apply (child_loop_spec _ _ _ _ [] []) in E; [|split; done..].
  destruct E as (k & _ & [_ ?] & [_ ?] & _).
  destruct fin as [|b f]; [|destruct (reap b e); [|done]]; intros [= <- <- _]; simpl; lia.
Qed.

Lemma run_child_spawned argv env t e : 
  (_run_child argv env t e).2 = None \/ (_run_child argv env t e).2 = Some (argv, env).
Proof. unfold _run_child. destruct (pipe_ok e), (fork_ok e); simpl; auto. Qed.

#[export] Instance linux_executor_laws : ExecutorLaws linux_world.
Proof.
  split; cbn [exec_argv exec_script exec_log interpreters script_argv linux_executor].
  - intros argv env t old w. destruct argv as [|a argv]; [left; simpl; by rewrite app_nil_r|].
    unfold leo_exec_argv. pose proof (run_child_spawned (a :: argv) env t (script_child (lw_envs w (lw_tick w)))) as Hs.
    destruct (_run_child _ _ _ _) as [r sp]. simpl in Hs.
    destruct Hs as [-> | ->]; simpl; rewrite ?app_nil_r; auto.
  - intros argv env t old w err r w' Ha E. destruct argv as [|a argv]; [done|].
    unfold leo_exec_argv in E. destruct (_run_child _ _ _ _) as [r' sp] eqn:R. injection E as -> <-.
    split; [by eapply run_child_result|]. intros _. by eapply run_child_bounded.
  - intros interp script t old w. unfold leo_exec_script.
    destruct (_interpreter_allowed interp) eqn:A; [|left; simpl; by rewrite app_nil_r].
    apply existsb_exists in A as (i & Hi%list_elem_of_In & ->%bool_decide_eq_true). cbn [negb].
    destruct (_write_script_tmp _ _ _) as [[tmp fs1]|]; [|left; simpl; by rewrite app_nil_r].
    pose proof (run_child_spawned [i; tmp] [] t (script_child (lw_envs w (lw_tick w)))) as Hs.
    destruct (_run_child _ _ _ _) as [r sp]. simpl in Hs.
    destruct Hs as [-> | ->]; simpl; rewrite ?app_nil_r; eauto.
  - intros interp script t old w r w' E. unfold leo_exec_script in E.
    destruct (_interpreter_allowed interp); [|done]. cbn [negb] in E.
    destruct (_write_script_tmp _ _ _) as [[tmp fs1]|]; [|done].
    destruct (_run_child _ _ _ _) as [r' sp] eqn:R. injection E as -> <-. by eapply run_child_bounded.
Qed.

(** ** What a program may run *)

(** Every command line [m] adds to the log satisfies [P], whether or not it
    returns. *)
Definition runs_only {W A} `{Executor W} (P : argv_t -> Prop) (m : prog W A) : Prop :=
  forall w, exists l, exec_log (m w).2 = exec_log w ++ l /\ Forall P l.

Section runs_only.
Context {W : Type} `{ExecutorLaws W}.

Lemma runs_only_ret {A} (P : argv_t -> Prop) (a : A) : runs_only P (mret a : prog W A).
Proof. intros w. exists []. by rewrite app_nil_r. Qed.

Lemma runs_only_bind {A B} (P : argv_t -> Prop) (m : prog W A) (f : A -> prog W B) :
  runs_only P m -> (forall a, runs_only P (f a)) -> runs_only P (m ≫= f).
Proof.
  intros Hm Hf w. destruct (Hm w) as (l & E & F). unfold mbind, prog_bind.
  destruct (m w) as [[a|] w']; simpl in *; [|eauto].
  destruct (Hf a w') as (l' & E' & F'). exists (l ++ l'). rewrite E', E, (assoc_L (++)).
  split; [done|]. by apply Forall_app.
Qed.

Lemma runs_only_exec (P : argv_t -> Prop) argv env t old : P argv -> runs_only P (exec_argv argv env t old).
Proof.
  intros Hp w. destruct (exec_argv_log argv env t old w) as [-> | ->].
  - exists []. by rewrite app_nil_r.
  - exists [argv]. auto.
Qed.

Lemma runs_only_mono {A} (P Q : argv_t -> Prop) (m : prog W A) :
  (forall a, P a -> Q a) -> runs_only P m -> runs_only Q m.
Proof. intros HPQ Hm w. destruct (Hm w) as (l & E & F). exists l. eauto using Forall_impl. Qed.

End runs_only.

#[export] Hint Resolve runs_only_ret runs_only_exec : leo.

(** ** What a program returns *)

(** Every result of [m] satisfies [P]. *)
Definition returns {W A} (P : A -> Prop) (m : prog W A) : Prop :=
  forall w a w', m w = (Some a, w') -> P a.

Section returns.
Context {W : Type}.

Lemma returns_ret {A} (P : A -> Prop) (a : A) : P a -> returns P (mret a : prog W A).
Proof. intros Hp w b w' [= <- _]. done. Qed.

Lemma returns_bind {A B} (P : B -> Prop) (m : prog W A) (f : A -> prog W B) :
  (forall a, returns P (f a)) -> returns P (m ≫= f).
Proof.
  intros Hf w b w'. unfold mbind, prog_bind. destruct (m w) as [[a|] w1]; [|done]. apply Hf.
Qed.

Lemma returns_bind_strong {A B} (P : B -> Prop) (Q : A -> Prop) (m : prog W A) (f : A -> prog W B) :
  returns Q m -> (forall a, Q a -> returns P (f a)) -> returns P (m ≫= f).
Proof.
  intros Hm Hf w b w'. unfold mbind, prog_bind. destruct (m w) as [[a|] w1] eqn:E; [|done]. eapply Hf, Hm, E.
Qed.

End returns.

(** Outputs that fit their buffers, and the errors of a run. *)
Definition fits (r : leo_exec_result_t) : Prop :=
  strlen (stdout_buf r) < LEO_EXEC_STDOUT_MAX /\ strlen (stderr_buf r) < LEO_EXEC_STDERR_MAX.

Definition run_ok (p : leo_error_t * leo_exec_result_t) : Prop :=
  p.1 ∈ [LEO_OK; LEO_ERR_SYSTEM; LEO_ERR_TIMEOUT] /\ (p.1 = LEO_OK -> fits p.2).

Lemma exec_argv_run_ok {W} `{ExecutorLaws W} argv env t old :
  argv <> [] -> returns (W := W) run_ok (exec_argv argv env t old).
Proof. intros Ha w [err r] w' E. by apply exec_argv_result in E. Qed.
