(* ===== verification/Patches.v ===== *)
(** Available updates and their installation:
    [platform/linux/patches_linux.c].

    The output of the package manager's listing command is a text; which
    package manager [access] finds is [pkgmgr_env].  Installation runs
    commands through the interface of [Platform]. *)
From S2P Require Import Prelude CString Scan Types Executor Platform.

Inductive _pkgmgr_t : Type := _PKGMGR_NONE | _PKGMGR_APT | _PKGMGR_DNF.

Record pkgmgr_env : Type := mk_pkgmgr {
  has_apt : bool;                    (* access ("/usr/bin/apt-get", X_OK) *)
  has_dnf : bool;
  listing : option (list ascii);     (* what popen gives, None when it fails *)
}.

Definition _detect_pkgmgr (e : pkgmgr_env) : _pkgmgr_t :=
  if has_apt e then _PKGMGR_APT else if has_dnf e then _PKGMGR_DNF else _PKGMGR_NONE.

(** ** Collection *)

Definition _looks_security (word : list ascii) : bool :=
  let n := Z.to_nat (if 128 <=? strlen word then 127 else strlen word) in
  has_substr (str "security") (tolower <$> take n word).

(** A local buffer that holds [s] when it fits and stays empty otherwise. *)
Definition small_buf (sz : Z) (s : list ascii) : list ascii := if strlen s <? sz then s else [].

Definition patch_title_of (id ver : list ascii) : list ascii :=
  fit LEO_PATCH_TITLE_MAX_LEN (id ++ str " → " ++ ver).

Definition severity_of (word : list ascii) : leo_patch_severity_t :=
  if _looks_security word then LEO_PATCH_SEVERITY_CRITICAL else LEO_PATCH_SEVERITY_IMPORTANT.

Definition _parse_apt_line (line : list ascii) : option leo_patch_t :=
  slash ← strchr line "/"%char;
  if bool_decide (slash = 0%nat) then None
  else
    let pocket := drop (S slash) line in
    space1 ← strchr pocket " "%char;
    let version := drop (S space1) pocket in
    space2 ← strchr version " "%char;
    let name_len := Z.of_nat slash in
    let ver_len := Z.of_nat space2 in
    if (name_len =? 0) || (LEO_PATCH_ID_MAX_LEN <=? name_len) || (ver_len =? 0) then None
    else
      let id := take slash line in
      let pocket_buf := small_buf 128 (take space1 pocket) in
      let ver_buf := small_buf 64 (take space2 version) in
      Some (mk_patch id (patch_title_of id ver_buf) (severity_of pocket_buf) 0).

(** The loop shared by both collectors: lines without their end, parsed until
    [max_items] were accepted.  [skip_empty] is dnf's extra test. *)
Fixpoint collect_lines (parse : list ascii -> option leo_patch_t) (skip_empty : bool)
    (room : nat) (lines : list (list ascii)) : list leo_patch_t :=
  match room, lines with
  | S room', l :: lines' =>
      let line := strip_eol (c_str l) in
      if skip_empty && bool_decide (line = []) then collect_lines parse skip_empty room lines'
      else
        match parse line with
        | Some p => p :: collect_lines parse skip_empty room' lines'
        | None => collect_lines parse skip_empty room lines'
        end
  | _, _ => []
  end.

Definition _collect_apt (out : option (list ascii)) (max_items : Z) : list leo_patch_t :=
  match out with
  | None => []
  | Some text => collect_lines _parse_apt_line false (Z.to_nat max_items) (fgets_all 512 text)
  end.

Definition _parse_dnf_line (line : list ascii) : option leo_patch_t :=
  '(name_arch, r) ← scan_word 159 line;
  '(version, r) ← scan_word 63 r;
  '(repo, _) ← scan_word 63 r;
  match strchr version "."%char, strchr version "-"%char with
  | None, None => None
  | _, _ =>
      Some (mk_patch (fit LEO_PATCH_ID_MAX_LEN name_arch) (patch_title_of name_arch version)
              (severity_of repo) 0)
  end.

Definition _collect_dnf (out : option (list ascii)) (max_items : Z) : list leo_patch_t :=
  match out with
  | None => []
  | Some text => collect_lines _parse_dnf_line true (Z.to_nat max_items) (fgets_all 512 text)
  end.

(** The entries stored; [None] stands for the result -1. *)
Definition leo_patches_collect (e : pkgmgr_env) (max_items : Z) : option (list leo_patch_t) :=
  if max_items <=? 0 then None
  else
    match _detect_pkgmgr e with
    | _PKGMGR_APT => Some (_collect_apt (listing e) max_items)
    | _PKGMGR_DNF => Some (_collect_dnf (listing e) max_items)
    | _PKGMGR_NONE => Some []
    end.

(** ** Installation *)

Definition _APT_ENV : argv_t := [str "DEBIAN_FRONTEND=noninteractive"].
Definition apt_update_argv : argv_t := [str "apt-get"; str "update"; str "-qq"].
Definition systemctl_argv : argv_t := [str "systemctl"; str "reboot"].

Section installation.
Context {W : Type} `{Executor W}.

Definition _schedule_reboot : prog W unit :=
  '(rc, r) ← exec_argv [str "shutdown"; str "-r"; str "+1"] [] 15 result_zero;
  if bool_decide (rc = LEO_OK) && (exit_code r =? 0) then mret tt
  else _ ← exec_argv systemctl_argv [] 15 r; mret tt.

Definition apt_upgrade_argv (ids : argv_t) : argv_t :=
  [str "apt-get"; str "install"; str "-y"; str "--only-upgrade"; str "--"] ++
  take (Z.to_nat LEO_PATCH_INSTALL_MAX_COUNT) ids.

Definition _install_apt (ids : argv_t) (timeout_secs : Z) (result : leo_exec_result_t) :
    prog W (leo_error_t * leo_exec_result_t) :=
  '(rc, result) ← exec_argv apt_update_argv _APT_ENV timeout_secs result;
  if negb (bool_decide (rc = LEO_OK)) || negb (exit_code result =? 0)
  then mret (if bool_decide (rc = LEO_OK) then LEO_OK else rc, result)
  else exec_argv (apt_upgrade_argv ids) _APT_ENV timeout_secs result.

Definition dnf_update_argv (ids : argv_t) : argv_t :=
  [str "dnf"; str "update"; str "-y"] ++ take (Z.to_nat LEO_PATCH_INSTALL_MAX_COUNT) ids.

Definition _install_dnf (ids : argv_t) (timeout_secs : Z) (result : leo_exec_result_t) :
    prog W (leo_error_t * leo_exec_result_t) :=
  exec_argv (dnf_update_argv ids) [] timeout_secs result.

(** [ids] is the array cut to [count] entries. *)
Definition leo_patches_install (e : pkgmgr_env) (ids : argv_t) (reboot_after : bool)
    (timeout_secs : Z) (result : leo_exec_result_t) : prog W (leo_error_t * leo_exec_result_t) :=
  if bool_decide (ids = []) then mret (LEO_ERR_SYSTEM, result)
  else
    let finish (r : leo_error_t * leo_exec_result_t) : prog W (leo_error_t * leo_exec_result_t) :=
      if bool_decide (r.1 = LEO_OK) && (exit_code r.2 =? 0) && reboot_after
      then _ ← _schedule_reboot; mret r
      else mret r in
    match _detect_pkgmgr e with
    | _PKGMGR_APT => r ← _install_apt ids timeout_secs result; finish r
    | _PKGMGR_DNF => r ← _install_dnf ids timeout_secs result; finish r
    | _PKGMGR_NONE =>
        mret (LEO_OK, mk_result (-1) []
          (fit LEO_EXEC_STDERR_MAX (str "Aucun gestionnaire de paquets supporté détecté")))
    end.

End installation.

(** ** Lemmas *)

Lemma has_no_slash_take line n : strchr line "/"%char = Some n -> "/"%char ∉ take n line.
Proof. by intros [_ ?]%strchr_Some. Qed.

(** What every collected entry satisfies. *)
Definition patch_ok (p : leo_patch_t) : bool :=
  negb (bool_decide (patch_id p = [])) && (strlen (patch_id p) <? LEO_PATCH_ID_MAX_LEN) &&
  (strlen (patch_title p) <? LEO_PATCH_TITLE_MAX_LEN) &&
  negb (bool_decide (patch_severity p = LEO_PATCH_SEVERITY_OPTIONAL)).

Lemma patch_ok_intro id ver word size : id <> [] -> strlen id < LEO_PATCH_ID_MAX_LEN ->
  forall id', patch_ok (mk_patch id (patch_title_of id' ver) (severity_of word) size) = true.
Proof.
  intros Hn Hl id'. unfold patch_ok. simpl. rewrite bool_decide_false by done.
  pose proof (fit_length LEO_PATCH_TITLE_MAX_LEN (id' ++ str " → " ++ ver) ltac:(done)) as Ht.
  apply Z.ltb_lt in Hl, Ht. unfold patch_title_of. rewrite Hl, Ht. unfold severity_of.
  by destruct (_looks_security word).
Qed.

Lemma apt_line_ok line p : _parse_apt_line line = Some p -> patch_ok p = true.
Proof.
  unfold _parse_apt_line. intros (slash & E & Ep)%bind_Some.
  destruct (bool_decide (slash = 0%nat)) eqn:Ez; [done|]. apply bool_decide_eq_false in Ez.
  apply bind_Some in Ep as (s1 & _ & (s2 & _ & Ep)%bind_Some).
  destruct (_ || _ || _) eqn:Eg; [done|]. injection Ep as <-.
  apply orb_false_iff in Eg as [[_ Hl%Z.leb_gt]%orb_false_iff _]. apply strchr_lt in E.
  assert (length (take slash line) = slash) as L by (rewrite length_take; lia).
  apply patch_ok_intro; [|unfold strlen; lia]. intros Ht. apply (f_equal length) in Ht. simpl in Ht. lia.
Qed.

Lemma dnf_line_ok line p : _parse_dnf_line line = Some p -> patch_ok p = true.
Proof.
  unfold _parse_dnf_line. intros ([n r] & E & ([v r'] & _ & ([repo r''] & _ & Ep)%bind_Some)%bind_Some)%bind_Some.
  apply scan_word_spec in E as (Hn & Hl & _).
  assert (strlen n < LEO_PATCH_ID_MAX_LEN) as Hs by (unfold strlen, LEO_PATCH_ID_MAX_LEN; lia).
  destruct (strchr v "."%char), (strchr v "-"%char); simplify_eq;
    rewrite fit_id by done; by apply patch_ok_intro.
Qed.

Lemma collect_lines_ok parse skip room lines :
  (forall l p, parse l = Some p -> patch_ok p = true) ->
  (length (collect_lines parse skip room lines) <= room)%nat /\
  Forall (fun p => patch_ok p = true) (collect_lines parse skip room lines).
Proof.
  intros Hp. revert room. induction lines as [|l lines IH]; intros [|room]; simpl; try (split; [lia|done]).
  destruct (_ && _); [apply (IH (S room))|]. destruct (parse _) as [p|] eqn:E; [|apply (IH (S room))].
  destruct (IH room) as [H1 H2]. split; [simpl; lia|]. constructor; eauto.
Qed.

Lemma collected_patches e max_items ps :
  leo_patches_collect e max_items = Some ps ->
  Z.of_nat (length ps) <= max_items /\ Forall (fun p => patch_ok p = true) ps.
Proof.
  unfold leo_patches_collect. destruct (Z.leb_spec max_items 0); [done|].
  assert (forall l, (length l <= Z.to_nat max_items)%nat -> Z.of_nat (length (l : list leo_patch_t)) <= max_items)
    as Hl by (intros; lia).
  destruct (_detect_pkgmgr e); intros [= <-]; [split; [simpl; lia|done]| |].
  - unfold _collect_apt. destruct (listing e) as [t|]; [|split; [simpl; lia|done]].
    destruct (collect_lines_ok _parse_apt_line false (Z.to_nat max_items) (fgets_all 512 t) apt_line_ok). auto.
  - unfold _collect_dnf. destruct (listing e) as [t|]; [|split; [simpl; lia|done]].
    destruct (collect_lines_ok _parse_dnf_line true (Z.to_nat max_items) (fgets_all 512 t) dnf_line_ok). auto.
Qed.

(** Whatever the package manager prints, at most [max_items] updates are
    reported, each with an identifier and a title that fit their fields. *)
Theorem collected_patches_fit e max_items ps :
  leo_patches_collect e max_items = Some ps ->
  Z.of_nat (length ps) <= max_items /\ Forall (fun p => patch_ok p = true) ps.
Proof. apply collected_patches. Qed.

(** A well-formed line of [apt list --upgradable] gives its package, the
    announced version and the severity of its pocket. *)
Theorem apt_line_roundtrip name pocket version rest :
  "/"%char ∉ name -> name <> [] -> strlen name < LEO_PATCH_ID_MAX_LEN ->
  " "%char ∉ pocket -> strlen pocket < 128 ->
  " "%char ∉ version -> version <> [] -> strlen version < 64 ->
  _parse_apt_line (name ++ "/"%char :: pocket ++ " "%char :: version ++ " "%char :: rest) =
  Some (mk_patch name (patch_title_of name version)
          (if has_substr (str "security") (tolower <$> pocket)
           then LEO_PATCH_SEVERITY_CRITICAL else LEO_PATCH_SEVERITY_IMPORTANT) 0).
Proof.
  intros H1 H2 H3 H4 H5 H6 H7 H8. unfold _parse_apt_line. rewrite strchr_app by done. cbn [mbind option_bind].
  assert (forall (a : list ascii) c b, drop (S (length a)) (a ++ c :: b) = b) as Hd.
  { intros a c b. rewrite drop_app_ge by lia. by replace (S (length a) - length a)%nat with 1%nat by lia. }
  rewrite bool_decide_false by by destruct name. cbv zeta.
  rewrite Hd, strchr_app by done. cbn [mbind option_bind]. rewrite Hd, strchr_app by done. cbn [mbind option_bind].
  rewrite !take_app_length.
  assert ((Z.of_nat (length name) =? 0) || (LEO_PATCH_ID_MAX_LEN <=? Z.of_nat (length name)) ||
    (Z.of_nat (length version) =? 0) = false) as ->.
  { unfold strlen in *. destruct name, version; try done. cbn [length] in *.
    apply orb_false_iff. split; [apply orb_false_iff; split|]; [by apply Z.eqb_neq|by apply Z.leb_gt|by apply Z.eqb_neq]. }
  unfold small_buf. apply Z.ltb_lt in H5 as E5, H8 as E8. rewrite E5, E8. unfold severity_of, _looks_security.
  destruct (Z.leb_spec 128 (strlen pocket)); [lia|]. unfold strlen. rewrite Nat2Z.id, firstn_all. done.
Qed.

Section commands.
Context {W : Type} `{ExecutorLaws W}.

(** The command lines an installation of [ids] may run. *)
Definition patch_command (ids : argv_t) (reboot_after : bool) (argv : argv_t) : Prop :=
  argv = apt_update_argv \/ argv = apt_upgrade_argv ids \/ argv = dnf_update_argv ids \/
  (reboot_after = true /\ (argv = [str "shutdown"; str "-r"; str "+1"] \/ argv = systemctl_argv)).

Lemma patches_install_runs e ids reboot_after timeout result :
  runs_only (patch_command ids reboot_after) (leo_patches_install (W := W) e ids reboot_after timeout result).
Proof.
  unfold leo_patches_install. destruct (bool_decide (ids = [])); [apply runs_only_ret|].
  assert (reboot_after = true -> runs_only (patch_command ids reboot_after) (_schedule_reboot (W := W))) as Hr.
  { intros ->. unfold _schedule_reboot. apply runs_only_bind; [apply runs_only_exec; red; auto 10|].
    intros [rc r]. destruct (_ && _); [apply runs_only_ret|].
    apply runs_only_bind; [apply runs_only_exec; red; auto 10|]. intros _. apply runs_only_ret. }
  cbv zeta. assert (forall r, runs_only (patch_command ids reboot_after)
    (if bool_decide (r.1 = LEO_OK) && (exit_code r.2 =? 0) && reboot_after
     then _ ← _schedule_reboot; mret r else mret r : prog W (leo_error_t * leo_exec_result_t))) as Hf.
  { intros r. destruct reboot_after; [|rewrite andb_false_r; apply runs_only_ret].
    destruct (_ && _); [|apply runs_only_ret]. apply runs_only_bind; [auto|]. intros _. apply runs_only_ret. }
  destruct (_detect_pkgmgr e); [apply runs_only_ret| |]; (apply runs_only_bind; [|done]).
  - unfold _install_apt. apply runs_only_bind; [apply runs_only_exec; red; auto|].
    intros [rc r]. destruct (_ || _); [apply runs_only_ret|]. apply runs_only_exec; red; auto.
  - apply runs_only_exec; red; auto.
Qed.

(** An installation of patches runs nothing but the package manager on
    exactly the given identifiers, and reboots only when it was asked to. *)
Theorem patches_run_only e ids reboot_after timeout result :
  runs_only (patch_command ids reboot_after) (leo_patches_install (W := W) e ids reboot_after timeout result).
Proof. apply patches_install_runs. Qed.

End commands.

(** ** The interface *)

(** What [patches.h] declares: the available updates and their installation,
    each over what the update service of the platform answers. *)
Class PatchManager (W : Type) : Type := {
  patch_env : Type;
  collect_patches : patch_env -> Z -> outcome (option (list leo_patch_t));
  install_patches : patch_env -> argv_t -> bool -> Z -> leo_exec_result_t ->
                    prog W (outcome (leo_error_t * leo_exec_result_t));
}.

Arguments patch_env W {_}.

(** An update that fits the fields of its structure, and can be asked for. *)
Definition patch_fits (p : leo_patch_t) : Prop :=
  patch_id p <> [] /\ strlen (patch_id p) < LEO_PATCH_ID_MAX_LEN /\ strlen (patch_title p) < LEO_PATCH_TITLE_MAX_LEN.

(** What it promises: at most the updates asked for, each one fit to be sent;
    no command line but those of a package manager on the given identifiers; an
    error it documents, or outputs that fit their buffers. *)
Class PatchManagerLaws (W : Type) `{Executor W} `{!PatchManager W} : Prop := {
  collect_patches_fit e max_items ps :
    collect_patches (W := W) e max_items = Ret (Some ps) ->
    Z.of_nat (length ps) <= max_items /\ Forall patch_fits ps;
  install_patches_runs e ids reboot_after t old :
    runs_only (W := W) (patch_command ids reboot_after) (install_patches e ids reboot_after t old);
  install_patches_result e ids reboot_after t old :
    returns (W := W) (fun o => forall p, o = Ret p -> run_ok p) (install_patches e ids reboot_after t old);
}.

(** On Linux, for any executor that keeps its promises. *)
Definition package_manager (W : Type) `{Executor W} : PatchManager W := {|
  patch_env := pkgmgr_env;
  collect_patches e max_items := Ret (leo_patches_collect e max_items);
  install_patches e ids reboot_after t old := r ← leo_patches_install e ids reboot_after t old; mret (Ret r);
|}.

#[export] Instance linux_patches : PatchManager linux_world := package_manager linux_world.

Lemma patch_ok_fits p : patch_ok p = true -> patch_fits p.
Proof.
  unfold patch_ok, patch_fits. intros [[[H1 H2%Z.ltb_lt]%andb_true_iff H3%Z.ltb_lt]%andb_true_iff _]%andb_true_iff.
  apply negb_true_iff, bool_decide_eq_false in H1. done.
Qed.

Section installed.
Context {W : Type} `{ExecutorLaws W}.

Lemma patches_install_run_ok pm ids reboot t old :
  returns (W := W) run_ok (leo_patches_install pm ids reboot t old).
Proof.
  unfold leo_patches_install. destruct (bool_decide _); [apply returns_ret; split; [cbn; set_solver|done]|]. cbv zeta.
  assert (forall r : leo_error_t * leo_exec_result_t, run_ok r -> returns run_ok
    (if bool_decide (r.1 = LEO_OK) && (exit_code r.2 =? 0) && reboot
     then _ ← _schedule_reboot (W := W); mret r else mret r)) as Hf.
  { intros r Hr. destruct (_ && _); [|by apply returns_ret]. apply returns_bind. intros _. by apply returns_ret. }
  destruct (_detect_pkgmgr pm); [apply returns_ret; split; [cbn; set_solver|intros _; by split; vm_compute]| |];
    eapply (returns_bind_strong _ run_ok); try exact Hf.
  - unfold _install_apt. eapply returns_bind_strong; [by apply exec_argv_run_ok|].
    intros [rc r] Hr. destruct (_ || _); [apply returns_ret; case_bool_decide; by subst|]. by apply exec_argv_run_ok.
  - by apply exec_argv_run_ok.
Qed.

Lemma package_manager_laws : @PatchManagerLaws W _ (package_manager W).
Proof.
  split; cbn.
  - intros e max_items ps [= E]. destruct (collected_patches e max_items ps E) as [Hl Hf]. split; [done|].
    eapply Forall_impl; [exact Hf|]. apply patch_ok_fits.
  - intros e ids rb t old. apply runs_only_bind; [apply patches_install_runs|]. auto with leo.
  - intros e ids rb t old. eapply returns_bind_strong; [apply patches_install_run_ok|].
    intros p Hp. apply returns_ret. by intros q [= <-].
Qed.

End installed.

#[export] Instance linux_patches_laws : PatchManagerLaws linux_world.
Proof. exact package_manager_laws. Qed.

Example collected_patches_fit_witness :
  let e := mk_pkgmgr true false (Some (str "Listing... Done" ++ [LF] ++
    str "bash/jammy-security 5.1-6ubuntu1.1 amd64 [upgradable from: 5.1-6ubuntu1]" ++ [LF])) in
  exists ps, leo_patches_collect e 200 = Some ps /\
  Z.of_nat (length ps) <= 200 /\ Forall (fun p => patch_ok p = true) ps.
Proof.
  intros e. destruct (leo_patches_collect e 200) as [ps|] eqn:E; [|vm_compute in E; discriminate E].
  exists ps. split; [reflexivity|]. exact (collected_patches_fit e 200 ps E).
Defined.

Example apt_line_roundtrip_witness :
  _parse_apt_line (str "bash/jammy-Security 5.1-6ubuntu1.1 amd64 [upgradable from: 5.1-6ubuntu1]") =
  Some (mk_patch (str "bash") (str "bash → 5.1-6ubuntu1.1") LEO_PATCH_SEVERITY_CRITICAL 0).
Proof.
  apply (apt_line_roundtrip (str "bash") (str "jammy-Security") (str "5.1-6ubuntu1.1")
    (str "amd64 [upgradable from: 5.1-6ubuntu1]")); try discriminate; try reflexivity;
    by apply (bool_decide_unpack _).
Defined.

(** A world in which every command succeeds at once. *)
Definition quiet_world : linux_world :=
  mk_linux ∅ [] (fun _ => mk_script_env None true false
    (mk_child_env true true (mk_ts 0 0) [mk_round (mk_ts 0 1) [] [] (SelReady false false) (Some (WExited 0))] WOther None)) 0.

Example patches_run_only_witness :
  exists l, exec_log (leo_patches_install (mk_pkgmgr true true None) [str "bash"] true 60 result_zero quiet_world).2
    = exec_log quiet_world ++ l /\ Forall (patch_command [str "bash"] true) l.
Proof. apply (patches_run_only (mk_pkgmgr true true None) [str "bash"] true 60 result_zero quiet_world). Defined.
