(* ===== verification/FileTransfer.v ===== *)
(** Downloads into the working directory: [src/file_transfer.c].

    The HTTP client of libwebsockets calls [_dl_lws_callback]; one [service]
    is one pass of the loop of [leo_file_transfer_run]: the callbacks made by
    [lws_service], whether it succeeded, and the time read afterwards.  The
    open ".part" file is the list of bytes written to it; at [fclose] what the
    disk can still take is stored. *)
From S2P Require Import Prelude CString Types Json JsonParse Protocol Config Url Crypto Ring Connection.

Definition _DL_WRITE_TIMEOUT_SEC_MIN : Z := 30.

(** ** The working directory *)

(** What depends on the platform: the directory, and whether [rename] takes
    the name of a file that exists (POSIX) or fails (the C library of
    Windows). *)
Class WorkDir : Type := {
  LEO_WORKDIR : list ascii;
  rename_replaces : bool;
  workdir_short : strlen LEO_WORKDIR <= 64;
}.

Definition linux_workdir : WorkDir := {|
  LEO_WORKDIR := str "/opt/leo-one/work/"; rename_replaces := true; workdir_short := ltac:(by vm_compute)
|}.

Definition windows_workdir : WorkDir := {|
  LEO_WORKDIR := str "C:\ProgramData\LeoOne\work\"; rename_replaces := false; workdir_short := ltac:(by vm_compute)
|}.

Section workdir.
Context `{WorkDir}.

Definition is_sep (c : ascii) : bool := bool_decide (c = "/"%char) || bool_decide (c = "\"%char).

(** The prefixes before a separator (not the first character), then the whole. *)
Definition workdir_points (tmp : list ascii) : list (list ascii) :=
  omap (fun i => match tmp !! i with
                 | Some c => if is_sep c then Some (take i tmp) else None
                 | None => None
                 end) (seq 1 (length tmp)) ++ [tmp].

Definition _ensure_workdir (io : io_env) : bool :=
  let tmp := fit 512 LEO_WORKDIR in
  let tmp := match last tmp with
             | Some c => if is_sep c then take (length tmp - 1) tmp else tmp
             | None => tmp
             end in
  (mkdir_all io (workdir_points tmp)).2.

Definition part_path_of (cmd_id : list ascii) : list ascii :=
  fit 600 (LEO_WORKDIR ++ cmd_id ++ str ".part").
Definition final_path_of (filename : list ascii) : list ascii := fit 600 (LEO_WORKDIR ++ filename).

(** Whether renaming the ".part" file fails because of the file it would
    replace. *)
Definition rename_refused (fs : files) (part_path final_path : list ascii) : bool :=
  negb rename_replaces && bool_decide (is_Some (delete part_path fs !! final_path)).

End workdir.

Definition _filename_valid (name : list ascii) : bool :=
  if (strlen name =? 0) || (LEO_FILE_NAME_MAX_LEN <=? strlen name) then false
  else if has_substr (str "..") name then false
  else forallb (fun c => negb (is_sep c)) name.

(** ** The HTTP client *)

Record _dl_ctx_t : Type := mk_dl {
  fp : list ascii;              (* what fwrite accepted; also what was hashed *)
  bytes_received : Z;
  bytes_total : Z;
  last_reported_pct : Z;
  dl_conn : leo_conn;
  dl_cmd_id : list ascii;
  http_status : Z;
  dl_timeout_secs : Z;
  done : bool;
  failed : bool;
  err_buf : list ascii;
  reports : nat;                (* progress messages built so far *)
}.

Definition ERR_SZ : Z := 256.

Definition dl_set_end (d : _dl_ctx_t) (dn fl : bool) (err : list ascii) : _dl_ctx_t :=
  mk_dl (fp d) (bytes_received d) (bytes_total d) (last_reported_pct d) (dl_conn d) (dl_cmd_id d)
    (http_status d) (dl_timeout_secs d) dn fl err (reports d).
Definition dl_set_http (d : _dl_ctx_t) (status total : Z) : _dl_ctx_t :=
  mk_dl (fp d) (bytes_received d) total (last_reported_pct d) (dl_conn d) (dl_cmd_id d)
    status (dl_timeout_secs d) (done d) (failed d) (err_buf d) (reports d).
Definition dl_set_data (d : _dl_ctx_t) (f : list ascii) (n : Z) : _dl_ctx_t :=
  mk_dl f n (bytes_total d) (last_reported_pct d) (dl_conn d) (dl_cmd_id d)
    (http_status d) (dl_timeout_secs d) (done d) (failed d) (err_buf d) (reports d).
Definition dl_set_report (d : _dl_ctx_t) (pct : Z) (c : leo_conn) (n : nat) : _dl_ctx_t :=
  mk_dl (fp d) (bytes_received d) (bytes_total d) pct c (dl_cmd_id d)
    (http_status d) (dl_timeout_secs d) (done d) (failed d) (err_buf d) n.
Definition dl_set_timeout (d : _dl_ctx_t) (t : Z) : _dl_ctx_t :=
  mk_dl (fp d) (bytes_received d) (bytes_total d) (last_reported_pct d) (dl_conn d) (dl_cmd_id d)
    (http_status d) t (done d) (failed d) (err_buf d) (reports d).

(** [(int) ((received * 100) / total)] on 64-bit unsigned numbers. *)
Definition percent (received total : Z) : Z :=
  if 0 <? total then wrap_s32 (wrap_u64 (received * 100) `div` total) else 0.

Inductive dl_reason : Type :=
| DL_CONNECTION_ERROR (msg : option (list ascii))
| DL_ESTABLISHED_HTTP (status : Z) (content_length : option (list ascii))
| DL_RECEIVE_HTTP (read_ok : bool)
| DL_RECEIVE_HTTP_READ (data : list ascii) (written : Z) (strerror : list ascii)
| DL_COMPLETED_HTTP
| DL_CLOSED_HTTP
| DL_TIMER
| DL_OTHER.

Record service : Type := mk_service {
  callbacks : list dl_reason;
  service_ok : bool;
  now_sec : Z;
}.

Section download.
Context `{CLib} `{OpenSSL} `{WorkDir} (envs : nat -> ser_env).

Definition _report_progress (d : _dl_ctx_t) (status : leo_file_transfer_status_t)
    (err : option (list ascii)) : _dl_ctx_t :=
  let pct := percent (bytes_received d) (bytes_total d) in
  let c := match leo_proto_build_file_transfer_progress (envs (reports d)) (dl_cmd_id d) status pct
                   (bytes_received d) (bytes_total d) err 1024 with
           | Some txt => if 0 <? strlen txt then (leo_conn_send (dl_conn d) txt).2 else dl_conn d
           | None => dl_conn d
           end in
  dl_set_report d (last_reported_pct d) c (S (reports d)).

(** The state and the value returned to libwebsockets ([dummy] is what its own
    default handler returns). *)
Definition _dl_lws_callback (d : _dl_ctx_t) (r : dl_reason) (dummy : Z) : _dl_ctx_t * Z :=
  match r with
  | DL_CONNECTION_ERROR msg =>
      (dl_set_end d true true
         (fit ERR_SZ (str "Connexion au serveur de fichiers échouée : " ++
                      match msg with Some m => m | None => str "(inconnue)" end)), dummy)
  | DL_ESTABLISHED_HTTP status clen =>
      let total := if bytes_total d =? 0
                   then match clen with
                        | Some t => strtoull t
                        | None => 0
                        end
                   else bytes_total d in
      let d := dl_set_http d status total in
      if negb (status =? 200)
      then (dl_set_end d (done d) true
              (fit ERR_SZ (str "Réponse HTTP " ++ fmt_d status ++ str " du serveur de fichiers")), dummy)
      else (d, dummy)
  | DL_RECEIVE_HTTP read_ok => (d, if read_ok then 0 else -1)
  | DL_RECEIVE_HTTP_READ data written strerror =>
      if (0 <? strlen data) && negb (failed d) then
        if negb (written =? strlen data)
        then (dl_set_end d (done d) true (fit ERR_SZ (str "Écriture disque échouée : " ++ strerror)), -1)
        else
          let d := dl_set_data d (fp d ++ data) (wrap_u64 (bytes_received d + strlen data)) in
          let pct := percent (bytes_received d) (bytes_total d) in
          if (last_reported_pct d + 10 <=? pct) ||
             ((bytes_total d =? 0) && (bytes_received d `mod` (1024 * 1024) <? strlen data))
          then (_report_progress (dl_set_report d pct (dl_conn d) (reports d))
                  LEO_FILE_TRANSFER_DOWNLOADING None, 0)
          else (d, 0)
      else (d, 0)
  | DL_COMPLETED_HTTP | DL_CLOSED_HTTP => (dl_set_end d true (failed d) (err_buf d), dummy)
  | DL_TIMER =>
      (dl_set_end d true true
         (fit ERR_SZ (str "Timeout du transfert (" ++ fmt_d (dl_timeout_secs d) ++ str "s)")), dummy)
  | DL_OTHER => (d, dummy)
  end.

(** The waiting loop; [None] when it still runs after these passes. *)
Fixpoint dl_loop (d : _dl_ctx_t) (deadline : Z) (ss : list service) : option (_dl_ctx_t * leo_error_t) :=
  if done d then Some (d, LEO_OK)
  else
    match ss with
    | [] => None
    | s :: ss' =>
        let d := fold_left (fun d r => (_dl_lws_callback d r 0).1) (callbacks s) d in
        if negb (service_ok s)
        then Some (dl_set_end d (done d) true
                     (fit ERR_SZ (str "Erreur du client HTTP pendant le transfert")), LEO_OK)
        else if deadline <? now_sec s
        then Some (dl_set_end d (done d) true
                     (fit ERR_SZ (str "Timeout du transfert (" ++ fmt_d (dl_timeout_secs d) ++ str "s)")),
                   LEO_ERR_TIMEOUT)
        else dl_loop d deadline ss'
    end.

Record transfer_env : Type := mk_transfer {
  t_io : io_env;                 (* mkdir, and fopen of the ".part" file *)
  mdctx_ok : bool;
  context_ok : bool;             (* lws_create_context *)
  connect_ok : bool;             (* lws_client_connect_via_info *)
  start_sec : Z;
  services : list service;
  rename_ok : bool;
  t_strerror : list ascii;
}.

Definition effective_timeout (timeout_secs : Z) : Z :=
  if _DL_WRITE_TIMEOUT_SEC_MIN <? timeout_secs then timeout_secs else _DL_WRITE_TIMEOUT_SEC_MIN.

(** SHA-256 of the bytes that were hashed, in hexadecimal. *)
Definition digest_hex (bytes : list ascii) : list ascii :=
  fit LEO_FILE_SHA256_HEX_LEN (_bytes_to_hex (default [] (EVP_sha256 (code <$> bytes)))).

(** What follows a download that succeeded: the digest of the bytes is checked
    before the ".part" file, which holds [stored], takes its final name. *)
Definition verify_and_rename (fs : files) (dl : _dl_ctx_t) (part_path filename expected_sha256_hex stored : list ascii)
    (final_path_out_sz err_out_sz : Z) (env : transfer_env) :
    leo_error_t * list ascii * list ascii * files * leo_conn :=
  let dl := _report_progress dl LEO_FILE_TRANSFER_VERIFYING None in
  let hex := digest_hex (fp dl) in
  if negb (bool_decide (expected_sha256_hex = [])) && negb (strcaseeq hex expected_sha256_hex)
  then
    let err := fit err_out_sz
      (str "Empreinte SHA-256 non correspondante (attendue " ++ expected_sha256_hex ++
       str ", obtenue " ++ hex ++ str ")") in
    let dl := _report_progress dl LEO_FILE_TRANSFER_FAILED (Some err) in
    (LEO_ERR_PROTOCOL, [], err, delete part_path fs, dl_conn dl)
  else
    let final_path := final_path_of filename in
    if negb (rename_ok env) || rename_refused fs part_path final_path then
      let err := fit err_out_sz
        (str "Renommage vers '" ++ final_path ++ str "' échoué : " ++ t_strerror env) in
      let dl := _report_progress dl LEO_FILE_TRANSFER_FAILED (Some err) in
      (LEO_ERR_SYSTEM, [], err, delete part_path fs, dl_conn dl)
    else
      let fs := <[final_path := mk_file stored 420]> (delete part_path fs) in
      let dl := dl_set_report dl 100 (dl_conn dl) (reports dl) in
      let dl := _report_progress dl LEO_FILE_TRANSFER_COMPLETED None in
      (LEO_OK, fit final_path_out_sz final_path, [], fs, dl_conn dl).

(** The error code, the final path, the error text, the files and the
    connection that are left; [None] when the download has not ended. *)
Definition leo_file_transfer_run (fs : files) (conn : leo_conn)
    (cmd_id download_url filename expected_sha256_hex : list ascii) (expected_size timeout_secs : Z)
    (final_path_out_sz err_out_sz : Z) (env : transfer_env) :
    option (leo_error_t * list ascii * list ascii * files * leo_conn) :=
  let fail e msg fs c := Some (e, [], fit err_out_sz msg, fs, c) in
  if negb (_filename_valid filename) then fail LEO_ERR_PROTOCOL (str "Nom de fichier invalide") fs conn
  else
    match leo_http_parse_url download_url 256 (Some LEO_FILE_URL_MAX_LEN) with
    | None => fail LEO_ERR_PROTOCOL (str "URL de téléchargement invalide") fs conn
    | Some url =>
        if negb (_ensure_workdir (t_io env))
        then fail LEO_ERR_SYSTEM
               (str "Impossible de créer le répertoire de travail (" ++ LEO_WORKDIR ++ str ")") fs conn
        else
          let part_path := part_path_of cmd_id in
          let dl := mk_dl [] 0 expected_size 0 conn (fit LEO_UUID_STR_LEN cmd_id) 0 0 false false [] 0 in
          if negb (can_write (t_io env) part_path)
          then fail LEO_ERR_SYSTEM
                 (str "Impossible de créer '" ++ part_path ++ str "' : " ++ t_strerror env) fs conn
          else
            let removed := delete part_path fs in
            if negb (mdctx_ok env)
            then fail LEO_ERR_SYSTEM (str "Initialisation SHA-256 échouée") removed conn
            else
              let dl := _report_progress dl LEO_FILE_TRANSFER_DOWNLOADING None in
              if negb (context_ok env)
              then fail LEO_ERR_NETWORK (str "Impossible de créer le contexte HTTP libwebsockets")
                     removed (dl_conn dl)
              else if negb (connect_ok env)
              then fail LEO_ERR_NETWORK
                     (str "Connexion au serveur de fichiers échouée (" ++ u_host url ++ str ":" ++
                      fmt_d (u_port url) ++ str ")") removed (dl_conn dl)
              else
                let t := effective_timeout timeout_secs in
                match dl_loop (dl_set_timeout dl t) (start_sec env + t) (services env) with
                | None => None
                | Some (dl, rc) =>
                    (* fclose: what the disk can take of the bytes written *)
                    let stored := take (written_of (t_io env) part_path) (fp dl) in
                    let fs := <[part_path := mk_file stored 420]> fs in
                    if failed dl || negb (http_status dl =? 200) then
                      let err := fit err_out_sz (err_buf dl) in
                      let dl := _report_progress dl LEO_FILE_TRANSFER_FAILED (Some err) in
                      Some (if bool_decide (rc = LEO_OK) then LEO_ERR_NETWORK else rc, [], err,
                            delete part_path fs, dl_conn dl)
                    else
                      Some (verify_and_rename fs dl part_path filename expected_sha256_hex stored final_path_out_sz err_out_sz env)
                end
    end.

End download.

(** ** Lemmas *)

(** The bytes libwebsockets handed over. *)
Definition data_of (r : dl_reason) : list ascii :=
  match r with DL_RECEIVE_HTTP_READ data _ _ => data | _ => [] end.

Definition received (ss : list service) : list ascii := concat (map data_of (concat (map callbacks ss))).

Section download_lemmas.
Context `{CLib} `{OpenSSL} `{WorkDir} (envs : nat -> ser_env).

Lemma report_fields d st err :
  let d' := _report_progress envs d st err in
  fp d' = fp d /\ failed d' = failed d /\ done d' = done d /\ http_status d' = http_status d /\
  bytes_received d' = bytes_received d.
Proof. done. Qed.

(** A callback either fails the transfer for good or stores its data. *)
Lemma callback_fp d r dummy :
  let d' := (_dl_lws_callback envs d r dummy).1 in
  (failed d = true -> failed d' = true) /\
  (failed d' = false -> fp d' = fp d ++ data_of r).
Proof.
  destruct r as [m|st cl|ok|data w e| | | |]; simpl; try (split; [done|by rewrite app_nil_r]).
  - destruct (negb (st =? 200)); simpl; (split; [done|by rewrite app_nil_r]).
  - destruct (failed d) eqn:F; [rewrite andb_false_r; simpl; split; [done|intros; congruence]|].
    rewrite andb_true_r. destruct (Z.ltb_spec 0 (strlen data)) as [_|Hz].
    + destruct (negb (w =? strlen data)); [by split|]. cbv zeta. destruct (_ || _); by split.
    + split; [done|]. intros _. unfold strlen in Hz. destruct data; [by rewrite app_nil_r|]. simpl in Hz. lia.
Qed.

Lemma callbacks_fp rs d :
  let d' := fold_left (fun d r => (_dl_lws_callback envs d r 0).1) rs d in
  (failed d = true -> failed d' = true) /\
  (failed d' = false -> fp d' = fp d ++ concat (map data_of rs)).
Proof.
  revert d. induction rs as [|r rs IH]; intros d; simpl; [split; [done|by rewrite app_nil_r]|].
  destruct (IH (_dl_lws_callback envs d r 0).1) as [I1 I2].
  destruct (callback_fp d r 0) as [C1 C2]. split; [auto|]. intros Hf. rewrite I2 by done.
  rewrite C2; [by rewrite (assoc_L (++))|]. destruct (failed (_dl_lws_callback envs d r 0).1); [|done].
  rewrite I1 in Hf; done.
Qed.

Lemma dl_loop_fp ss d deadline d' rc :
  dl_loop envs d deadline ss = Some (d', rc) -> failed d' = false ->
  rc = LEO_OK /\ failed d = false /\ done d' = true /\
  exists k, (k <= length ss)%nat /\ fp d' = fp d ++ received (take k ss).
Proof.
  revert d. induction ss as [|s ss IH]; intros d; simpl.
  - destruct (done d) eqn:D; [|done]. intros [= <- <-] Hf. split_and!; [done..|].
    exists O. by rewrite app_nil_r.
  - destruct (done d) eqn:D; [intros [= <- <-] Hf; split_and!; [done..|]; exists O; by rewrite app_nil_r; split; [lia|]|].
    destruct (callbacks_fp (callbacks s) d) as [C1 C2].
    destruct (service_ok s); [|by intros [= <- <-]]. simpl.
    destruct (deadline <? now_sec s); [by intros [= <- <-]|].
    intros E Hf. destruct (IH _ E Hf) as (-> & Hd & Hdone & k & Hk & Hfp).
    split_and!; [done| |done|].
    + destruct (failed d); [|done]. rewrite C1 in Hd; done.
    + exists (S k). split; [lia|]. rewrite Hfp, C2 by done. unfold received. cbn [take map concat].
      by rewrite map_app, concat_app, (assoc_L (++)).
Qed.

Lemma dl_loop_ends ss d deadline :
  (exists s, s ∈ ss /\ deadline < now_sec s) -> is_Some (dl_loop envs d deadline ss).
Proof.
  revert d. induction ss as [|s ss IH]; intros d (s' & Hin & Hs); [by apply not_elem_of_nil in Hin|].
  cbn [dl_loop]. destruct (done d); [eauto|]. cbv zeta. destruct (negb (service_ok s)); [eauto|].
  destruct (Z.ltb_spec deadline (now_sec s)); [eauto|].
  apply elem_of_cons in Hin as [->|Hin]; [lia|]. apply IH. eauto.
Qed.

(** *** The connection only gets progress messages *)

Lemma report_notes d st err : notes (dl_conn d) (dl_conn (_report_progress envs d st err)).
Proof.
  unfold _report_progress. simpl. destruct (leo_proto_build_file_transfer_progress _ _ _ _ _ _ _ _) as [t|] eqn:B;
    [|apply rtc_refl]. destruct (0 <? strlen t); [|apply rtc_refl].
  apply notes_one. unfold leo_proto_build_file_transfer_progress in B. built_note B.
Qed.

Lemma callback_notes d r dummy : notes (dl_conn d) (dl_conn (_dl_lws_callback envs d r dummy).1).
Proof.
  destruct r as [m|st cl|ok|data w e| | | |]; simpl; try apply rtc_refl.
  - destruct (negb (st =? 200)); apply rtc_refl.
  - destruct (_ && _); [|apply rtc_refl]. destruct (negb (w =? strlen data)); [apply rtc_refl|].
    destruct (_ || _); [|apply rtc_refl].
    set (d' := dl_set_report _ _ _ _). change (dl_conn d) with (dl_conn d'). apply report_notes.
Qed.

Lemma dl_loop_notes ss d deadline d' rc :
  dl_loop envs d deadline ss = Some (d', rc) -> notes (dl_conn d) (dl_conn d').
Proof.
  revert d. induction ss as [|s ss IH]; intros d; simpl; (destruct (done d); [intros [= <- _]; apply rtc_refl|]); [done|].
  set (d1 := fold_left _ _ _). assert (notes (dl_conn d) (dl_conn d1)) as Hs.
  { unfold d1. generalize (callbacks s) d. intros rs. induction rs as [|r rs IHr]; intros e; simpl; [apply rtc_refl|].
    etrans; [apply (callback_notes e r 0)|apply IHr]. }
  destruct (negb (service_ok s)); [intros [= <- _]; exact Hs|].
  destruct (deadline <? now_sec s); [intros [= <- _]; exact Hs|].
  intros E. etrans; [exact Hs|]. by apply IH.
Qed.

Lemma run_notes fs conn cmd_id url name sha size t psz esz env res :
  leo_file_transfer_run envs fs conn cmd_id url name sha size t psz esz env = Some res ->
  notes conn res.2.
Proof.
  unfold leo_file_transfer_run. cbv zeta.
  destruct (negb (_filename_valid name)); [intros <-%(inj Some); apply rtc_refl|].
  destruct (leo_http_parse_url _ _ _) as [u|]; [|intros <-%(inj Some); apply rtc_refl].
  destruct (negb (_ensure_workdir _)); [intros <-%(inj Some); apply rtc_refl|].
  destruct (negb (can_write _ _)); [intros <-%(inj Some); apply rtc_refl|].
  destruct (negb (mdctx_ok env)); [intros <-%(inj Some); apply rtc_refl|].
  set (d0 := mk_dl _ _ _ _ _ _ _ _ _ _ _ _). set (d1 := _report_progress envs d0 _ _).
  assert (notes conn (dl_conn d1)) as Hd1 by exact (report_notes d0 _ _).
  destruct (negb (context_ok env)); [intros <-%(inj Some); exact Hd1|].
  destruct (negb (connect_ok env)); [intros <-%(inj Some); exact Hd1|].
  destruct (dl_loop _ _ _ _) as [[d2 rc2]|] eqn:E; [|done].
  assert (notes conn (dl_conn d2)) as Hd2 by (etrans; [exact Hd1|by apply dl_loop_notes in E]).
  assert (forall d st e, notes conn (dl_conn d) -> notes conn (dl_conn (_report_progress envs d st e))) as Hr
    by (intros d st e Hd; etrans; [exact Hd|apply report_notes]).
  assert (forall d st e pct n, notes conn (dl_conn d) ->
    notes conn (dl_conn (_report_progress envs (dl_set_report d pct (dl_conn d) n) st e))) as Hc
    by (intros d st e pct n Hd; by apply (Hr (dl_set_report d pct (dl_conn d) n))).
  destruct (failed d2 || _); [intros <-%(inj Some); cbn [snd]; auto|]. unfold verify_and_rename. cbv zeta.
  case_match; [intros <-%(inj Some); cbn [snd]; auto|].
  destruct (negb (rename_ok env) || _); intros <-%(inj Some); cbn [snd]; auto.
Qed.

End download_lemmas.

Lemma filename_valid_spec name : _filename_valid name = true ->
  name <> [] /\ strlen name < LEO_FILE_NAME_MAX_LEN /\ has_substr (str "..") name = false /\
  "/"%char ∉ name /\ "\"%char ∉ name.
Proof.
  unfold _filename_valid. destruct (_ || _) eqn:Eg; [done|]. apply orb_false_iff in Eg as [E1%Z.eqb_neq E2%Z.leb_gt].
  destruct (has_substr _ _); [done|]. intros Hf. rewrite forallb_forall in Hf.
  split_and!; [by intros ->|done|done| |]; intros Hc%list_elem_of_In%Hf; done.
Qed.

Section transfer_theorems.
Context `{CLib} `{OpenSSL} `{WorkDir} (envs : nat -> ser_env).

(** What a run leaves when the download loop has ended. *)
Lemma run_spec fs conn cmd_id url name sha size t psz esz env res :
  leo_file_transfer_run envs fs conn cmd_id url name sha size t psz esz env = Some res ->
  let '(err, path, msg, fs', conn') := res in
  (err <> LEO_OK /\ path = [] /\ (fs' = fs \/ fs' = delete (part_path_of cmd_id) fs)) \/
  (err = LEO_OK /\ _filename_valid name = true /\ path = fit psz (final_path_of name) /\
   (rename_replaces = true \/ delete (part_path_of cmd_id) fs !! final_path_of name = None) /\
   exists k data, data = received (take k (services env)) /\
   (sha <> [] -> strcaseeq (digest_hex data) sha = true) /\
   fs' = <[final_path_of name := mk_file (take (written_of (t_io env) (part_path_of cmd_id)) data) 420]>
           (delete (part_path_of cmd_id) fs)).
Proof.
  unfold leo_file_transfer_run. destruct (_filename_valid name) eqn:Hn; [|by intros [= <-]; left; auto].
  cbn [negb]. destruct (leo_http_parse_url _ _ _) as [u|]; [|by intros [= <-]; left; auto].
  destruct (_ensure_workdir (t_io env)); [|by intros [= <-]; left; auto]. cbn [negb].
  destruct (can_write (t_io env) (part_path_of cmd_id)); [|by intros [= <-]; left; auto]. cbn [negb].
  destruct (mdctx_ok env); [|by intros [= <-]; left; auto]. cbn [negb].
  destruct (context_ok env); [|by intros [= <-]; left; auto]. cbn [negb].
  destruct (connect_ok env); [|by intros [= <-]; left; auto]. cbn [negb].
  destruct (dl_loop _ _ _ _) as [[d rc]|] eqn:L; [|done].
  destruct (failed d) eqn:F; cbn [orb].
  { intros [= <-]. left. split_and!; [by destruct rc|done|].
    right. by rewrite delete_insert_eq. }
  apply dl_loop_fp in L as (-> & _ & _ & k & _ & Hfp); [|done]. simpl in Hfp.
  destruct (negb (http_status d =? 200)).
  { intros [= <-]. left. split_and!; [done|done|]. right. by rewrite delete_insert_eq. }
  unfold verify_and_rename. change (fp (_report_progress envs d LEO_FILE_TRANSFER_VERIFYING None)) with (fp d). rewrite Hfp.
  destruct (_ && _) eqn:S.
  { intros [= <-]. left. split_and!; [done|done|]. right. by rewrite delete_insert_eq. }
  destruct (negb (rename_ok env) || _) eqn:Er.
  { intros [= <-]. left. split_and!; [done|done|]. right. by rewrite delete_insert_eq. }
  intros [= <-]. right. split_and!; [done..| |].
  { apply orb_false_iff in Er as [_ Er]. unfold rename_refused in Er. rewrite delete_insert_eq in Er.
    apply andb_false_iff in Er as [?%negb_false_iff|Er%bool_decide_eq_false]; [by left|right; by apply eq_None_not_Some]. }
  exists k, (received (take k (services env))).
  split_and!; [done| |by rewrite delete_insert_eq].
  intros Hs. rewrite bool_decide_false in S by done. simpl in S. by apply negb_false_iff in S.
Qed.

(** C8: a file appears under its final name only after a transfer that is
    reported as a success.  It then holds what the disk kept of the bytes
    received, in order, all of them when the disk had room; the SHA-256 digest of
    the bytes received is the expected one when one was given, and the name stays
    inside the working directory.  After any error the file of that name is as it
    was, present or not, and no path is given.  In both cases every file but this
    one and the temporary one is as before. *)
Theorem transfer_completed fs conn cmd_id url name sha size t psz esz env err path msg fs' conn' :
  leo_file_transfer_run envs fs conn cmd_id url name sha size t psz esz env
    = Some (err, path, msg, fs', conn') ->
  (if decide (err = LEO_OK) then
     _filename_valid name = true /\
     exists k stored, let data := received (take k (services env)) in
       fs' !! final_path_of name = Some (mk_file stored 420) /\
       stored `prefix_of` data /\
       ((length data <= written_of (t_io env) (part_path_of cmd_id))%nat -> stored = data) /\
       (sha <> [] -> strcaseeq (digest_hex data) sha = true)
   else
     path = [] /\ (final_path_of name <> part_path_of cmd_id -> fs' !! final_path_of name = fs !! final_path_of name)) /\
  forall p, p <> final_path_of name -> p <> part_path_of cmd_id -> fs' !! p = fs !! p.
Proof.
  intros E. apply run_spec in E as [(He & -> & Hf)|(-> & Hn & _ & _ & k & data & -> & Hs & ->)].
  - rewrite decide_False by done. split_and!; [done|..]; intros; destruct Hf as [-> | ->]; by rewrite ?lookup_delete_ne by done.
  - rewrite decide_True by done. split_and!; [done| |].
    + exists k, (take (written_of (t_io env) (part_path_of cmd_id)) (received (take k (services env)))).
      cbv zeta. rewrite lookup_insert_eq. split_and!; [done|apply prefix_take|apply take_ge|done].
    + intros p Hp1 Hp2. by rewrite lookup_insert_ne, lookup_delete_ne by done.
Qed.

(** A transfer that fails, at whatever point, exposes nothing: no file
    but the temporary one is touched, and the temporary one is gone unless it
    could not be opened in the first place. *)
Theorem transfer_failed fs conn cmd_id url name sha size t psz esz env err path msg fs' conn' :
  leo_file_transfer_run envs fs conn cmd_id url name sha size t psz esz env
    = Some (err, path, msg, fs', conn') ->
  err <> LEO_OK ->
  path = [] /\ (fs' = fs \/ fs' = delete (part_path_of cmd_id) fs).
Proof. intros E He. by apply run_spec in E as [(_ & ? & ?)|(? & _)]. Qed.

(** Where [rename] does not replace (the C library of Windows), a file
    that is there already is never replaced by a later version: the transfer
    fails after the download. *)
Theorem existing_file_kept fs conn cmd_id url name sha size t psz esz env err path msg fs' conn' :
  rename_replaces = false -> is_Some (fs !! final_path_of name) -> final_path_of name <> part_path_of cmd_id ->
  leo_file_transfer_run envs fs conn cmd_id url name sha size t psz esz env
    = Some (err, path, msg, fs', conn') ->
  err <> LEO_OK /\ fs' !! final_path_of name = fs !! final_path_of name.
Proof.
  intros Hr [f Hf] Hne E. apply run_spec in E as [(He & _ & [-> | ->])|(_ & _ & _ & [?|Hn] & _)]; [done| |congruence|].
  - by rewrite lookup_delete_ne.
  - rewrite lookup_delete_ne in Hn by done. congruence.
Qed.

(** A download is bounded in time: once a pass of the service loop sees
    the clock past the effective timeout (at least thirty seconds), the call
    returns. *)
Theorem transfer_bounded fs conn cmd_id url name sha size t psz esz env :
  (exists s, s ∈ services env /\ start_sec env + Z.max t 30 < now_sec s) ->
  is_Some (leo_file_transfer_run envs fs conn cmd_id url name sha size t psz esz env).
Proof.
  intros (s & Hin & Hs). unfold leo_file_transfer_run. destruct (_filename_valid name); [|by eauto].
  cbn [negb]. destruct (leo_http_parse_url _ _ _) as [u|]; [|by eauto].
  destruct (_ensure_workdir (t_io env)); [|by eauto]. cbn [negb].
  destruct (can_write (t_io env) (part_path_of cmd_id)); [|by eauto]. cbn [negb].
  destruct (mdctx_ok env); [|by eauto]. cbn [negb].
  destruct (context_ok env); [|by eauto]. cbn [negb].
  destruct (connect_ok env); [|by eauto]. cbn [negb].
  match goal with |- context [dl_loop ?a ?b ?c ?d] => destruct (dl_loop_ends a d b c) as [[d' rc] ->] end.
  - exists s. split; [done|]. unfold effective_timeout, _DL_WRITE_TIMEOUT_SEC_MIN.
    destruct (Z.ltb_spec 30 t); lia.
  - repeat case_goal; eauto.
Qed.

End transfer_theorems.

(** C27: an accepted name stays directly inside the working directory: the
    final path is the directory followed by a name without separator and
    without "..", never cut by the path buffer. *)
Theorem final_path_confined `{WorkDir} name :
  _filename_valid name = true ->
  final_path_of name = LEO_WORKDIR ++ name /\ name <> [] /\ has_substr (str "..") name = false /\
  "/"%char ∉ name /\ "\"%char ∉ name.
Proof.
  intros (Hn & Hl & Hd & Hs1 & Hs2)%filename_valid_spec. split_and!; [|done..].
  unfold final_path_of. apply fit_id. rewrite strlen_app. unfold LEO_FILE_NAME_MAX_LEN in Hl.
  pose proof workdir_short. lia.
Qed.

(** ** Evaluations *)

Section evaluation.
Local Existing Instance linux_workdir.

Definition sample_transfer (ss : list service) : transfer_env :=
  mk_transfer open_io true true true 1000 ss true [].

(** Three bytes of a hundred announced, then the server closes. *)
Definition short_services : list service :=
  [mk_service [DL_ESTABLISHED_HTTP 200 (Some (str "100"));
               DL_RECEIVE_HTTP_READ (str "abc") 3 []] true 1001;
   mk_service [DL_CLOSED_HTTP] true 1002;
   mk_service [] true 9999].

Notation sample_download cmd_id sha :=
  (@leo_file_transfer_run decimal_lib toy_openssl linux_workdir (fun _ => sample_env) ∅ idle_conn cmd_id
    (str "https://files.example.com/f/1") (str "report.txt") sha 0 60 600 256
    (sample_transfer short_services)).

Definition good_sha : list ascii := _bytes_to_hex (replicate 32 3).

Definition error_of (r : option (leo_error_t * list ascii * list ascii * files * leo_conn)) : option leo_error_t :=
  (fun p => p.1.1.1.1) <$> r.

(** A download that is complete, and one whose digest is not the expected one. *)
Example transfer_completed_witness :
  (exists p m fs' c, sample_download (str "42") good_sha = Some (LEO_OK, p, m, fs', c) /\
   _filename_valid (str "report.txt") = true /\
   exists k stored, let data := received (take k short_services) in
     fs' !! final_path_of (str "report.txt") = Some (mk_file stored 420) /\
     stored `prefix_of` data /\
     ((length data <= written_of (t_io (sample_transfer short_services)) (part_path_of (str "42")))%nat -> stored = data) /\
     (good_sha <> [] -> strcaseeq (@digest_hex toy_openssl data) good_sha = true)) /\
  exists p m fs' c, sample_download (str "42") (str "00") = Some (LEO_ERR_PROTOCOL, p, m, fs', c) /\
    p = [] /\ fs' !! final_path_of (str "report.txt") = (∅ : files) !! final_path_of (str "report.txt").
Proof.
  split.
  - assert (error_of (sample_download (str "42") good_sha) = Some LEO_OK) as Er by (vm_compute; reflexivity).
    destruct (sample_download (str "42") good_sha) as [[[[[err p] m] fs'] c]|] eqn:E; [|discriminate Er].
    injection Er as ->. exists p, m, fs', c. split; [reflexivity|].
    exact (proj1 (@transfer_completed decimal_lib toy_openssl linux_workdir _ _ _ _ _ _ _ _ _ _ _ _ LEO_OK p m fs' c E)).
  - assert (error_of (sample_download (str "42") (str "00")) = Some LEO_ERR_PROTOCOL) as Er by (vm_compute; reflexivity).
    destruct (sample_download (str "42") (str "00")) as [[[[[err p] m] fs'] c]|] eqn:E; [|discriminate Er].
    injection Er as ->. exists p, m, fs', c. split; [reflexivity|].
    destruct (proj1 (@transfer_completed decimal_lib toy_openssl linux_workdir _ _ _ _ _ _ _ _ _ _ _ _ LEO_ERR_PROTOCOL p m fs' c E))
      as [Hp Hf]. split; [exact Hp|]. apply Hf. vm_compute. discriminate.
Defined.

Example transfer_failed_witness :
  exists err p m fs' c, sample_download (str "42") (str "00") = Some (err, p, m, fs', c) /\
  p = [] /\ (fs' = (∅ : files) \/ fs' = delete (part_path_of (str "42")) (∅ : files)).
Proof.
  assert (error_of (sample_download (str "42") (str "00")) = Some LEO_ERR_PROTOCOL) as Er
    by (vm_compute; reflexivity).
  destruct (sample_download (str "42") (str "00")) as [[[[[err p] m] fs'] c]|] eqn:E; [|discriminate Er].
  injection Er as ->. exists LEO_ERR_PROTOCOL, p, m, fs', c. split; [reflexivity|].
  refine (@transfer_failed decimal_lib toy_openssl linux_workdir _ _ _ _ _ _ _ _ _ _ _ _ _ p m fs' c E _). discriminate.
Defined.

Example transfer_bounded_witness : is_Some (sample_download (str "42") []).
Proof.
  apply (@transfer_bounded decimal_lib toy_openssl linux_workdir (fun _ => sample_env) ∅ idle_conn (str "42")
    (str "https://files.example.com/f/1") (str "report.txt") [] 0 60 600 256
    (sample_transfer short_services)).
  exists (mk_service [] true 9999). split; [|reflexivity]. right. right. left.
Defined.

Example final_path_confined_witness :
  final_path_of (str "report.txt") = LEO_WORKDIR ++ str "report.txt" /\ str "report.txt" <> [] /\
  has_substr (str "..") (str "report.txt") = false /\
  "/"%char ∉ str "report.txt" /\ "\"%char ∉ str "report.txt".
Proof. apply (final_path_confined (str "report.txt")). vm_compute. reflexivity. Defined.

(** Without an expected digest an incomplete download is accepted: three
    bytes of an announced hundred become the final file. *)
Theorem incomplete_download_accepted :
  match sample_download (str "42") [] with
  | Some (err, _, _, fs', _) =>
      err = LEO_OK /\ fs' !! final_path_of (str "report.txt") = Some (mk_file (str "abc") 420)
  | None => False
  end.
Proof. vm_compute. split; reflexivity. Qed.

(** The temporary file is not confined to the working directory: its name
    is the message identifier, which nothing validates. *)
Theorem part_path_not_confined :
  part_path_of (str "../../../etc/cron.d/x") = str "/opt/leo-one/work/../../../etc/cron.d/x.part".
Proof. vm_compute. reflexivity. Qed.

End evaluation.

(** The same file sent twice on Windows. *)
Lemma existing_file_kept_witness :
  let fs : files := {[ str "C:\ProgramData\LeoOne\work\report.txt" := mk_file (str "old") 420 ]} in
  exists err p m fs' c,
    @leo_file_transfer_run decimal_lib toy_openssl windows_workdir (fun _ => sample_env) fs idle_conn (str "42")
      (str "https://files.example.com/f/1") (str "report.txt") [] 0 60 600 256 (sample_transfer short_services)
      = Some (err, p, m, fs', c) /\
  err <> LEO_OK /\ fs' !! @final_path_of windows_workdir (str "report.txt") = fs !! @final_path_of windows_workdir (str "report.txt").
Proof.
  intros fs.
  assert (error_of (@leo_file_transfer_run decimal_lib toy_openssl windows_workdir (fun _ => sample_env) fs idle_conn
    (str "42") (str "https://files.example.com/f/1") (str "report.txt") [] 0 60 600 256
    (sample_transfer short_services)) = Some LEO_ERR_SYSTEM) as Er by (vm_compute; reflexivity).
  destruct (@leo_file_transfer_run _ _ windows_workdir _ fs _ _ _ _ _ _ _ _ _ _) as [[[[[err p] m] fs'] c]|] eqn:E;
    [|discriminate Er].
  exists err, p, m, fs', c. split; [reflexivity|].
  refine (@existing_file_kept decimal_lib toy_openssl windows_workdir _ fs _ _ _ _ _ _ _ _ _ _ err p m fs' c _ _ _ E).
  - reflexivity.
  - eexists. vm_compute. reflexivity.
  - by apply (bool_decide_unpack _).
Defined.
