(* ===== verification/RemoteDesktop.v ===== *)
(** Remote desktop sessions: [src/remote_desktop.c].

    The pixel copy, the binary protocol of the dedicated connection, the
    callbacks of one session, the session thread and the global state that
    allows one session at a time.  The results of screen capture (see
    [Capture]) and JPEG compression are inputs of the callbacks, and what is
    asked of them and of input injection (see [Input]) are [rd_action]s. *)
From S2P Require Import Prelude CString Double Types Json JsonParse Protocol Config Url Crypto Ring Connection.

(** ** Pixels *)

(** [memcpy] of [n] bytes at [off]; reading outside the buffer is undefined. *)
Definition read_bytes (src : list Z) (off n : Z) : outcome (list Z) :=
  if (0 <=? off) && (off + n <=? Z.of_nat (length src))
  then Ret (take (Z.to_nat n) (drop (Z.to_nat off) src)) else Undef.

Fixpoint concat_outcome {A} (l : list (outcome (list A))) : outcome (list A) :=
  match l with
  | [] => Ret []
  | m :: l' => a ← m; b ← concat_outcome l'; Ret (a ++ b)
  end.

Definition upto (n : Z) : list Z := map Z.of_nat (seq 0 (Z.to_nat n)).

(** The size of the frames for a screen and a maximum, the ratio kept. *)
Definition leo_rd_compute_output_size (src_w src_h max_w max_h : Z) : outcome (Z * Z) :=
  if (src_w <=? max_w) && (src_h <=? max_h) then Ret (src_w, src_h)
  else
    let scale := DFin 1 0 in
    let scale := if max_w <? src_w then d_div (d_of_Z max_w) (d_of_Z src_w) else scale in
    let scale := if max_h <? src_h then
                   let scale_h := d_div (d_of_Z max_h) (d_of_Z src_h) in
                   if dlt scale_h scale then scale_h else scale
                 else scale in
    out_w ← cast_int (d_mul (d_of_Z src_w) scale);
    out_h ← cast_int (d_mul (d_of_Z src_h) scale);
    Ret (if out_w <? 1 then 1 else out_w, if out_h <? 1 then 1 else out_h).

(** The [out_w * out_h * 4] bytes written to [dst]. *)
Definition leo_rd_repack_scale (out_w out_h : Z) (src : list Z) (src_w src_h src_stride : Z) :
    outcome (list Z) :=
  if (out_w =? src_w) && (out_h =? src_h)
  then concat_outcome (map (fun y => read_bytes src (y * src_stride) (out_w * 4)) (upto src_h))
  else
    concat_outcome (map (fun y =>
      let sy := (y * src_h) `div` out_h in
      concat_outcome (map (fun x =>
        let sx := (x * src_w) `div` out_w in
        read_bytes src (sy * src_stride + sx * 4) 4) (upto out_w))) (upto out_h)).

(** ** The binary protocol *)

Definition _RD_WIRE_FRAME : Z := 1.
Definition _RD_WIRE_INPUT_MOVE : Z := 16.
Definition _RD_WIRE_INPUT_BUTTON : Z := 17.
Definition _RD_WIRE_INPUT_SCROLL : Z := 18.
Definition _RD_WIRE_INPUT_KEY : Z := 19.
Definition _RD_WIRE_CONTROL : Z := 32.

Inductive rd_input : Type :=
| leo_rd_input_move (x y : Z)
| leo_rd_input_button (button : Z) (down : bool)
| leo_rd_input_scroll (delta : Z)
| leo_rd_input_key (key : Z) (down : bool).

Inductive rd_action : Type :=
| RdInput (i : rd_input)
| RdArmTimer (interval_us : Z)
| RdAskWriteable
| RdWrite (bytes : list Z).

Definition at_ (data : list Z) (i : nat) : Z := default 0 (data !! i).

(** A 16-bit number, most significant byte first. *)
Definition be16 (hi lo : Z) : Z := Z.lor (Z.shiftl hi 8) lo.

Definition decode_input (data : list Z) : option rd_input :=
  let len := Z.of_nat (length data) in
  let t := at_ data 0 in
  if t =? _RD_WIRE_INPUT_MOVE then
    if 5 <=? len then
      Some (leo_rd_input_move (be16 (at_ data 1) (at_ data 2)) (be16 (at_ data 3) (at_ data 4)))
    else None
  else if t =? _RD_WIRE_INPUT_BUTTON then
    if 3 <=? len then Some (leo_rd_input_button (at_ data 1) (negb (at_ data 2 =? 0))) else None
  else if t =? _RD_WIRE_INPUT_SCROLL then
    if 3 <=? len then Some (leo_rd_input_scroll (wrap_s16 (be16 (at_ data 1) (at_ data 2)))) else None
  else if t =? _RD_WIRE_INPUT_KEY then
    if 3 <=? len then Some (leo_rd_input_key (at_ data 1) (negb (at_ data 2 =? 0))) else None
  else None.

(** The nine bytes before the JPEG data of a frame. *)
Definition frame_header (width height frame_seq : Z) : list Z :=
  [_RD_WIRE_FRAME;
   Z.land (Z.shiftr width 8) 255; Z.land width 255;
   Z.land (Z.shiftr height 8) 255; Z.land height 255;
   Z.land (Z.shiftr frame_seq 24) 255; Z.land (Z.shiftr frame_seq 16) 255;
   Z.land (Z.shiftr frame_seq 8) 255; Z.land frame_seq 255].

(** ** One session *)

Record rd_ctx : Type := mk_rd {
  session_id : list ascii;
  ws_url : list ascii;
  control_mode : bool;
  fps : Z;
  quality : Z;
  max_width : Z;
  max_height : Z;
  rd_config : leo_config_t;
  rd_host : list ascii;
  rd_port : Z;
  rd_path : list ascii;
  cap : bool;
  input : bool;
  frame_seq : Z;
  consecutive_capture_failures : Z;
  established : bool;
  rd_done : bool;
  fail_reason : list ascii;
  rd_should_stop : bool;
}.

Definition FAIL_SZ : Z := 128.

Definition rd_set_end (s : rd_ctx) (dn : bool) (reason : list ascii) : rd_ctx :=
  mk_rd (session_id s) (ws_url s) (control_mode s) (fps s) (quality s) (max_width s) (max_height s)
    (rd_config s) (rd_host s) (rd_port s) (rd_path s) (cap s) (input s) (frame_seq s)
    (consecutive_capture_failures s) (established s) dn reason (rd_should_stop s).
Definition rd_set_open (s : rd_ctx) (c i e : bool) : rd_ctx :=
  mk_rd (session_id s) (ws_url s) (control_mode s) (fps s) (quality s) (max_width s) (max_height s)
    (rd_config s) (rd_host s) (rd_port s) (rd_path s) c i (frame_seq s)
    (consecutive_capture_failures s) e (rd_done s) (fail_reason s) (rd_should_stop s).
Definition rd_set_frame (s : rd_ctx) (seq failures : Z) : rd_ctx :=
  mk_rd (session_id s) (ws_url s) (control_mode s) (fps s) (quality s) (max_width s) (max_height s)
    (rd_config s) (rd_host s) (rd_port s) (rd_path s) (cap s) (input s) seq
    failures (established s) (rd_done s) (fail_reason s) (rd_should_stop s).
Definition rd_set_stop (s : rd_ctx) (stop : bool) : rd_ctx :=
  mk_rd (session_id s) (ws_url s) (control_mode s) (fps s) (quality s) (max_width s) (max_height s)
    (rd_config s) (rd_host s) (rd_port s) (rd_path s) (cap s) (input s) (frame_seq s)
    (consecutive_capture_failures s) (established s) (rd_done s) (fail_reason s) stop.

Section session.
Context `{CLib} `{OpenSSL}.

Definition _handle_input_message (s : rd_ctx) (data : list Z) : list rd_action :=
  if negb (control_mode s) || negb (input s) then []
  else match decode_input data with Some i => [RdInput i] | None => [] end.

Definition _handle_control_message (s : rd_ctx) (data : list Z) : rd_ctx :=
  if Z.of_nat (length data) <? 2 then s
  else
    match cJSON_ParseWithLength (map (fun b => ascii_of_N (Z.to_N b)) (drop 1 data)) with
    | None => s
    | Some root =>
        match cJSON_IsString (cJSON_GetObjectItemCaseSensitive root (str "type")) with
        | Some t => if streq t (str "stop") then rd_set_end s true (fail_reason s) else s
        | None => s
        end
    end.

Definition _arm_frame_timer (s : rd_ctx) : rd_action :=
  RdArmTimer (Z.quot 1000000 (if 0 <? fps s then fps s else 1)).

Inductive rd_reason : Type :=
| RD_CONNECTION_ERROR (msg : option (list ascii))
| RD_ESTABLISHED (cap_ok input_ok : bool)
| RD_RECEIVE (data : list Z)
| RD_TIMER
| RD_WRITEABLE (grab : option (Z * Z)) (jpeg : option (list Z)) (malloc_ok : bool)
| RD_CLOSED
| RD_CERT_VERIFICATION (store_ctx : option (Z * option X509))
| RD_OTHER.

Definition _send_frame (s : rd_ctx) (grab : option (Z * Z)) (jpeg : option (list Z)) (malloc_ok : bool) :
    rd_ctx * list rd_action :=
  match grab with
  | None =>
      let s := rd_set_frame s (frame_seq s) (consecutive_capture_failures s + 1) in
      if 20 <=? consecutive_capture_failures s
      then (rd_set_end s true (fit FAIL_SZ (str "Échecs de capture d'écran répétés")), [])
      else (s, [])
  | Some (width, height) =>
      let s := rd_set_frame s (frame_seq s) 0 in
      match jpeg with
      | None => (s, [])
      | Some jpeg_buf =>
          if negb malloc_ok then (s, [])
          else (rd_set_frame s (wrap_u32 (frame_seq s + 1)) 0,
                [RdWrite (frame_header width height (frame_seq s) ++ jpeg_buf)])
      end
  end.

(** As [on_cert] of the control connection. *)
Definition rd_on_cert (s : rd_ctx) (store_ctx : option (Z * option X509)) : Z :=
  match store_ctx with
  | None => 1
  | Some (depth, peer_cert) =>
      if negb (depth =? 0) then 0
      else if leo_crypto_x509_fingerprint_matches peer_cert (Some (ca_fingerprint (rd_config s)))
           then 0 else 1
  end.

Definition _rd_lws_callback (s : rd_ctx) (r : rd_reason) : rd_ctx * Z * list rd_action :=
  match r with
  | RD_CONNECTION_ERROR msg =>
      (rd_set_end s true (fit FAIL_SZ (str "Connexion dédiée échouée : " ++
         match msg with Some m => m | None => str "(inconnue)" end)), 0, [])
  | RD_ESTABLISHED cap_ok input_ok =>
      let s := rd_set_open s cap_ok (input s) (established s) in
      if negb cap_ok
      then (rd_set_end s true (fit FAIL_SZ (str "Capture d'écran indisponible")), 0, [])
      else
        let s := if control_mode s then rd_set_open s (cap s) input_ok (established s) else s in
        if control_mode s && negb input_ok
        then (rd_set_end s true (fit FAIL_SZ (str "Injection d'input indisponible")), 0, [])
        else (rd_set_open s (cap s) (input s) true, 0, [_arm_frame_timer s])
  | RD_RECEIVE data =>
      if negb (bool_decide (data = [])) && established s then
        if at_ data 0 =? _RD_WIRE_CONTROL then (_handle_control_message s data, 0, [])
        else (s, 0, _handle_input_message s data)
      else (s, 0, [])
  | RD_TIMER =>
      if established s && negb (rd_done s) then (s, 0, [RdAskWriteable; _arm_frame_timer s]) else (s, 0, [])
  | RD_WRITEABLE grab jpeg malloc_ok =>
      if established s && negb (rd_done s)
      then let '(s, acts) := _send_frame s grab jpeg malloc_ok in (s, 0, acts)
      else (s, 0, [])
  | RD_CLOSED => (rd_set_end s true (fail_reason s), 0, [])
  | RD_CERT_VERIFICATION store_ctx => (s, rd_on_cert s store_ctx, [])
  | RD_OTHER => (s, 0, [])
  end.

(** ** The session thread *)

Record rd_pass : Type := mk_pass {
  stop_seen : bool;              (* should_stop was set by another thread *)
  pass_callbacks : list rd_reason;
  pass_ok : bool;
  pass_now : Z;
}.

Definition run_callbacks (s : rd_ctx) (rs : list rd_reason) : rd_ctx * list rd_action :=
  fold_left (fun p r => let '(s', _, acts) := _rd_lws_callback p.1 r in (s', p.2 ++ acts)) rs (s, []).

(** The service loop: the session at its end and what it asked, or [None]
    while it runs. *)
Fixpoint rd_loop (s : rd_ctx) (deadline : Z) (ps : list rd_pass) (acts : list rd_action) :
    option (rd_ctx * list rd_action) :=
  match ps with
  | [] => if rd_done s || rd_should_stop s then Some (s, acts) else None
  | p :: ps' =>
      let s := rd_set_stop s (rd_should_stop s || stop_seen p) in
      if rd_done s || rd_should_stop s then Some (s, acts)
      else
        let '(s, more) := run_callbacks s (pass_callbacks p) in
        if negb (pass_ok p) then Some (s, acts ++ more)
        else
          let s := if deadline <? pass_now p
                   then rd_set_end s true (fit FAIL_SZ (str "Durée maximale de session atteinte (" ++
                          fmt_d LEO_RD_MAX_SESSION_SEC ++ str "s)"))
                   else s in
          rd_loop s deadline ps' (acts ++ more)
  end.

Record rd_env : Type := mk_rd_env {
  tj_ok : bool;
  rd_context_ok : bool;
  rd_connect_ok : bool;
  rd_start : Z;
  passes : list rd_pass;
  destroy_callbacks : list rd_reason;   (* made by lws_context_destroy *)
  status_env : ser_env;
}.

Definition _report_status (s : rd_ctx) (e : ser_env) (conn : leo_conn) (status : list ascii)
    (err : option (list ascii)) : leo_conn :=
  match leo_proto_build_remote_desktop_status e (session_id s) status err 512 with
  | Some buf => if 0 <? strlen buf then (leo_conn_send conn buf).2 else conn
  | None => conn
  end.

(** The status the thread reports on the control connection, and the
    connection after it. *)
Definition _rd_session_thread (s : rd_ctx) (conn : leo_conn) (env : rd_env) :
    option (list ascii * option (list ascii) * leo_conn * list rd_action) :=
  let report status err acts := Some (status, err, _report_status s (status_env env) conn status err, acts) in
  if negb (tj_ok env)
  then report (str "failed") (Some (str "Initialisation de l'encodeur JPEG échouée")) []
  else if negb (rd_context_ok env)
  then report (str "failed") (Some (str "Contexte réseau indisponible")) []
  else if negb (rd_connect_ok env)
  then report (str "failed") (Some (str "Connexion au serveur impossible")) []
  else
    match rd_loop s (rd_start env + LEO_RD_MAX_SESSION_SEC) (passes env) [] with
    | None => None
    | Some (s, acts) =>
        let '(s, more) := run_callbacks s (destroy_callbacks env) in
        let acts := acts ++ more in
        if bool_decide (fail_reason s = [])
        then report (str "ended") None acts
        else report (str "failed") (Some (fail_reason s)) acts
    end.

(** ** Starting a session *)

Definition positive_or (v dflt : Z) : Z := if 0 <? v then v else dflt.

(** The session context [leo_rd_start] builds, or [None]. *)
Definition rd_new (config : leo_config_t) (session_id ws_url mode : list ascii)
    (fps quality max_width max_height : Z) : option rd_ctx :=
  match _parse_ws_url ws_url 256 LEO_RD_WS_URL_MAX_LEN with
  | None => None
  | Some (h, p, pa) =>
      Some (mk_rd (fit LEO_UUID_STR_LEN session_id) (fit LEO_RD_WS_URL_MAX_LEN ws_url)
              (streq mode (str "control")) (positive_or fps 8) (positive_or quality 60)
              (positive_or max_width 1920) (positive_or max_height 1080) config h p pa
              false false 0 0 false false [] false)
  end.

(** ** The global state: at most one session *)

(** A session thread runs its session, then has cleared [g_rd_ctx] and freed
    its context but not yet reported its end. *)
Inductive rd_thread : Type := InSession | Cleared.

(** Where the one thread that starts sessions (the control connection's) is
    inside [leo_rd_start], for the session it is starting. *)
Inductive start_stage : Type := Reserved | Announced | CreateFailed.

Record rd_global : Type := mk_global {
  g_rd_ctx : option nat;                (* the session context it points to *)
  g_rd_thread_running : bool;
  contexts : gmap nat rd_ctx;           (* allocated session contexts *)
  rd_threads : gmap nat rd_thread;
  starting : option (nat * start_stage);
  next_ctx : nat;
}.

Definition rd_idle : rd_global := mk_global None false ∅ ∅ None 0.

(** The critical section of [leo_rd_start]. *)
Definition rd_reserve (g : rd_global) (c : rd_ctx) : rd_global :=
  mk_global (Some (next_ctx g)) (g_rd_thread_running g) (<[next_ctx g := c]> (contexts g))
    (rd_threads g) (Some (next_ctx g, Reserved)) (S (next_ctx g)).

Definition rd_announce (g : rd_global) (n : nat) : rd_global :=
  mk_global (g_rd_ctx g) true (contexts g) (rd_threads g) (Some (n, Announced)) (next_ctx g).

Definition rd_create (g : rd_global) (n : nat) : rd_global :=
  mk_global (g_rd_ctx g) (g_rd_thread_running g) (contexts g) (<[n := InSession]> (rd_threads g)) None
    (next_ctx g).

Definition rd_unreserve (g : rd_global) (n : nat) : rd_global :=
  mk_global None (g_rd_thread_running g) (contexts g) (rd_threads g) (Some (n, CreateFailed)) (next_ctx g).

Definition rd_unannounce (g : rd_global) (n : nat) : rd_global :=
  mk_global (g_rd_ctx g) false (delete n (contexts g)) (rd_threads g) None (next_ctx g).

(** The whole of [leo_rd_start], when nothing interleaves but, at its end, the
    new thread: [sctx_freed] is whether that one has freed its context when the
    last log line reads it. *)
Definition leo_rd_start (g : rd_global) (config : leo_config_t) (sid url mode : list ascii)
    (fps quality max_width max_height : Z) (calloc_ok create_ok sctx_freed : bool) : outcome (rd_global * bool) :=
  match g_rd_ctx g with
  | Some _ => Ret (g, false)
  | None =>
      if negb calloc_ok then Ret (g, false)
      else
        match rd_new config sid url mode fps quality max_width max_height with
        | None => Ret (g, false)
        | Some c =>
            let n := next_ctx g in
            let g := rd_announce (rd_reserve g c) n in
            if create_ok then if sctx_freed then Undef else Ret (rd_create g n, true)
            else Ret (rd_unannounce (rd_unreserve g n) n, false)
        end
  end.

Definition rd_flag (g : rd_global) : rd_global :=
  match g_rd_ctx g with
  | Some n => mk_global (g_rd_ctx g) (g_rd_thread_running g)
                (alter (fun c => rd_set_stop c true) n (contexts g)) (rd_threads g) (starting g) (next_ctx g)
  | None => g
  end.

(** [leo_rd_stop] up to its bounded wait; the flag says whether it waits.  The
    warning about another session reads [g_rd_ctx] after the mutex was released:
    [session_gone] is whether the session thread has reset it by then. *)
Definition leo_rd_stop (g : rd_global) (sid : option (list ascii)) (session_gone : bool) :
    outcome (rd_global * bool) :=
  match g_rd_ctx g with
  | None => Ret (g, false)
  | Some n =>
      let mismatch := match sid, contexts g !! n with
                      | Some s, Some c => negb (streq (session_id c) s)
                      | _, _ => false
                      end in
      if mismatch then if session_gone then Undef else Ret (g, false) else Ret (rd_flag g, true)
  end.

(** [_rd_wait_thread_exit] returns [true] at once when no thread is said to
    run; otherwise [in_time] is whether one signals its end before the
    deadline. *)
Definition _rd_wait_thread_exit (g : rd_global) (in_time : bool) : bool :=
  if g_rd_thread_running g then in_time else true.

Definition leo_rd_stop_all (g : rd_global) (in_time : bool) : rd_global * bool :=
  let g := rd_flag g in (g, _rd_wait_thread_exit g in_time).

(** What the end of [_rd_session_thread] does, in two critical sections. *)
Definition rd_clear (g : rd_global) (n : nat) : rd_global :=
  mk_global (if bool_decide (g_rd_ctx g = Some n) then None else g_rd_ctx g) (g_rd_thread_running g)
    (delete n (contexts g)) (<[n := Cleared]> (rd_threads g)) (starting g) (next_ctx g).

Definition rd_exit (g : rd_global) (n : nat) : rd_global :=
  mk_global (g_rd_ctx g) false (contexts g) (delete n (rd_threads g)) (starting g) (next_ctx g).

Inductive rd_step : rd_global -> rd_global -> Prop :=
| rd_step_reserve g c :
    starting g = None -> g_rd_ctx g = None -> rd_step g (rd_reserve g c)
| rd_step_announce g n : starting g = Some (n, Reserved) -> rd_step g (rd_announce g n)
| rd_step_create g n : starting g = Some (n, Announced) -> rd_step g (rd_create g n)
| rd_step_unreserve g n : starting g = Some (n, Announced) -> rd_step g (rd_unreserve g n)
| rd_step_unannounce g n : starting g = Some (n, CreateFailed) -> rd_step g (rd_unannounce g n)
| rd_step_clear g n : rd_threads g !! n = Some InSession -> rd_step g (rd_clear g n)
| rd_step_exit g n : rd_threads g !! n = Some Cleared -> rd_step g (rd_exit g n)
| rd_step_flag g : rd_step g (rd_flag g).

End session.

(** ** Lemmas *)

Lemma read_bytes_ok src off n :
  0 <= off -> 0 <= n -> off + n <= Z.of_nat (length src) ->
  exists b, read_bytes src off n = Ret b /\ Z.of_nat (length b) = n.
Proof.
  intros Ho Hn Hl. unfold read_bytes.
  destruct (Z.leb_spec 0 off), (Z.leb_spec (off + n) (Z.of_nat (length src))); try lia.
  eexists. split; [done|]. rewrite length_take, length_drop. lia.
Qed.

Lemma concat_outcome_ok {A B} (f : B -> outcome (list A)) (l : list B) n :
  (forall x, x ∈ l -> exists b, f x = Ret b /\ Z.of_nat (length b) = n) ->
  exists b, concat_outcome (map f l) = Ret b /\ Z.of_nat (length b) = n * Z.of_nat (length l).
Proof.
  induction l as [|x l IH]; intros Hf; simpl; [exists []; split; [done|simpl; lia]|].
  destruct (Hf x) as (b & Eb & Lb); [set_solver|]. destruct IH as (c & Ec & Lc); [set_solver|].
  rewrite Eb, Ec. exists (b ++ c). split; [done|]. rewrite length_app. lia.
Qed.

Lemma upto_spec n i : i ∈ upto n -> 0 <= i < n.
Proof.
  unfold upto. intros (k & -> & Hk%elem_of_seq)%list_elem_of_fmap. lia.
Qed.

Lemma upto_length n : 0 <= n -> Z.of_nat (length (upto n)) = n.
Proof. unfold upto. rewrite length_map, length_seq. lia. Qed.

(** A scaled index stays inside the source. *)
Lemma scale_bound i src out : 0 <= i < out -> 0 < src -> 0 <= (i * src) `div` out < src.
Proof.
  intros Hi Hs. split; [apply Z.div_pos; nia|]. apply Z.div_lt_upper_bound; [lia|]. nia.
Qed.

(** *** Sizes *)

(** [sc] scales a length [src] into at most [max], half a pixel apart. *)
Definition scales (sc : double) (src max : Z) : Prop :=
  0 <= fnum sc /\ src * fnum sc * 2 <= (2 * max + 1) * fden sc.

Lemma scales_one src max : 0 < src <= max -> scales (DFin 1 0) src max.
Proof. intros ?. unfold scales. change (fnum (DFin 1 0)) with 1. change (fden (DFin 1 0)) with 1. lia. Qed.

(** The rounded ratio. *)
Lemma ratio_scales src max : 0 < max < src -> src <= INT_MAX ->
  let sc := d_div (d_of_Z max) (d_of_Z src) in scales sc src max /\ fnum sc < fden sc /\ exists m e, sc = DFin m e.
Proof.
  unfold INT_MAX. intros Hm Hs.
  assert (d_div (d_of_Z max) (d_of_Z src) = round_q max src) as ->.
  { unfold d_div. rewrite !d_of_Z_exact by lia. unfold fnum, fden. change (- 0) with 0. rewrite Z.max_id, Z.pow_0_r. f_equal; lia. }
  pose proof (round_q_error max src ltac:(lia) ltac:(lia)) as [_ He].
  destruct (round_q_fin max src) as (m & e & E & _); [lia..|].
  pose proof (fden_pos (round_q max src)) as Hf. pose proof (round_q_nonneg max src ltac:(lia) ltac:(lia)) as H0.
  unfold scales. set (u := fnum _) in *. set (f := fden _) in *. cbv zeta. split_and!; [exact H0|nia|nia|eauto].
Qed.

(** A smaller scale scales too. *)
Lemma scales_le a b src max : 0 < src -> 0 <= fnum a ->
  fnum a * fden b <= fnum b * fden a -> scales b src max -> scales a src max.
Proof.
  intros Hs Ha Hle [_ Hb]. split; [done|]. pose proof (fden_pos a). pose proof (fden_pos b).
  set (u := fnum a) in *. set (v := fnum b) in *. set (f := fden a) in *. set (g := fden b) in *.
  apply (Z.mul_le_mono_pos_r _ _ g); [done|].
  assert (src * 2 * (u * g) <= src * 2 * (v * f)) by (apply Z.mul_le_mono_nonneg_l; lia). nia.
Qed.

Lemma dlt_frac a b : (exists m e, a = DFin m e) -> (exists m e, b = DFin m e) ->
  dlt a b = true <-> fnum a * fden b < fnum b * fden a.
Proof. intros (m1 & e1 & ->) (m2 & e2 & ->). apply fin_lt_frac. Qed.

Lemma scaled_size sc src max : 0 < src <= INT_MAX -> 0 < max <= INT_MAX -> scales sc src max ->
  exists v, cast_int (d_mul (d_of_Z src) sc) = Ret v /\ 0 <= v <= max.
Proof.
  intros Hs Hm [H0 Hsc]. unfold d_mul. rewrite d_of_Z_exact by (unfold INT_MAX in *; lia).
  change (fnum (DFin src 0)) with (src * 1). change (fden (DFin src 0)) with 1.
  pose proof (fden_pos sc). apply cast_int_rounded; nia.
Qed.

(** The scale the code chooses fits both directions. *)
Lemma chosen_scale src_w src_h max_w max_h :
  0 < src_w <= INT_MAX -> 0 < src_h <= INT_MAX -> 0 < max_w -> 0 < max_h ->
  (src_w <=? max_w) && (src_h <=? max_h) = false ->
  let s0 := if max_w <? src_w then d_div (d_of_Z max_w) (d_of_Z src_w) else DFin 1 0 in
  let sc := if max_h <? src_h then
              let scale_h := d_div (d_of_Z max_h) (d_of_Z src_h) in
              if dlt scale_h s0 then scale_h else s0
            else s0 in
  scales sc src_w max_w /\ scales sc src_h max_h.
Proof.
  intros Hw Hh Hmw Hmh Hfit. cbv zeta.
  assert (fnum (DFin 1 0) = 1 /\ fden (DFin 1 0) = 1) as [N1 D1] by done.
  destruct (Z.ltb_spec max_w src_w) as [Ow|Ow], (Z.ltb_spec max_h src_h) as [Oh|Oh].
  - destruct (ratio_scales src_w max_w) as (Sw & _ & Fw); [lia..|].
    destruct (ratio_scales src_h max_h) as (Sh & _ & Fh); [lia..|].
    destruct (dlt _ _) eqn:E.
    + apply dlt_frac in E; [|done..]. split; [|done]. eapply scales_le; [lia|apply Sh|apply Z.lt_le_incl, E|done].
    + apply not_true_iff_false in E. rewrite dlt_frac in E by done. split; [done|].
      eapply scales_le; [lia|apply Sw|apply Z.nlt_ge, E|done].
  - destruct (ratio_scales src_w max_w) as (Sw & Lw & _); [lia..|]. split; [done|].
    eapply scales_le; [lia|apply Sw| |apply scales_one; lia]. rewrite N1, D1. lia.
  - destruct (ratio_scales src_h max_h) as (Sh & Lh & Fh); [lia..|].
    assert (dlt (d_div (d_of_Z max_h) (d_of_Z src_h)) (DFin 1 0) = true) as ->.
    { apply dlt_frac; [done|eauto|]. rewrite N1, D1. lia. }
    split; [|done]. eapply scales_le; [lia|apply Sh| |apply scales_one; lia]. rewrite N1, D1. lia.
  - destruct (Z.leb_spec src_w max_w), (Z.leb_spec src_h max_h); lia.
Qed.

Lemma output_size_bounds src_w src_h max_w max_h :
  0 < src_w <= INT_MAX -> 0 < src_h <= INT_MAX -> 0 < max_w <= INT_MAX -> 0 < max_h <= INT_MAX ->
  exists w h, leo_rd_compute_output_size src_w src_h max_w max_h = Ret (w, h) /\
  1 <= w <= max_w /\ 1 <= h <= max_h /\
  (src_w <= max_w -> src_h <= max_h -> w = src_w /\ h = src_h).
Proof.
  intros Hw Hh Hmw Hmh. unfold leo_rd_compute_output_size.
  destruct ((src_w <=? max_w) && (src_h <=? max_h)) eqn:Hfit.
  - breflect. exists src_w, src_h. split_and!; try lia; done.
  - pose proof (chosen_scale src_w src_h max_w max_h Hw Hh ltac:(lia) ltac:(lia) Hfit) as [Sw Sh].
    cbv zeta in *. set (sc := if max_h <? src_h then _ else _) in *.
    destruct (scaled_size sc src_w max_w Hw Hmw Sw) as (w & -> & Bw).
    destruct (scaled_size sc src_h max_h Hh Hmh Sh) as (h & -> & Bh). simpl.
    eexists _, _. split; [reflexivity|]. split_and!; repeat case_match; breflect; try lia.
Qed.

(** The captured image fits the maximum size in both directions, with at
    least one pixel, whatever the rounding of the scale; an image that fits is
    not resized. *)
Theorem output_size_fits src_w src_h max_w max_h :
  0 < src_w <= INT_MAX -> 0 < src_h <= INT_MAX -> 0 < max_w <= INT_MAX -> 0 < max_h <= INT_MAX ->
  exists w h, leo_rd_compute_output_size src_w src_h max_w max_h = Ret (w, h) /\
  1 <= w <= max_w /\ 1 <= h <= max_h /\
  (src_w <= max_w -> src_h <= max_h -> w = src_w /\ h = src_h).
Proof. apply output_size_bounds. Qed.

Lemma output_size_fits_witness :
  leo_rd_compute_output_size 3840 2160 1280 800 = Ret (1280, 720) /\
  exists w h, leo_rd_compute_output_size 3841 7 1280 800 = Ret (w, h) /\
  1 <= w <= 1280 /\ 1 <= h <= 800 /\ (3841 <= 1280 -> 7 <= 800 -> w = 3841 /\ h = 7).
Proof. split; [vm_compute; reflexivity|]. apply (output_size_fits 3841 7 1280 800); done. Defined.

Lemma repack_filled out_w out_h src src_w src_h src_stride :
  0 < out_w -> 0 < out_h -> 0 < src_w -> 0 < src_h -> src_w * 4 <= src_stride ->
  src_stride * src_h <= Z.of_nat (length src) ->
  exists dst, leo_rd_repack_scale out_w out_h src src_w src_h src_stride = Ret dst /\
  Z.of_nat (length dst) = out_w * out_h * 4.
Proof.
  intros Hw Hh Hsw Hsh Hst Hl. unfold leo_rd_repack_scale.
  destruct ((out_w =? src_w) && (out_h =? src_h)) eqn:E.
  - breflect. subst.
    destruct (concat_outcome_ok (fun y => read_bytes src (y * src_stride) (src_w * 4)) (upto src_h) (src_w * 4))
      as (b & -> & Lb).
    + intros y Hy%upto_spec. apply read_bytes_ok; nia.
    + exists b. split; [done|]. rewrite Lb, upto_length by lia. lia.
  - edestruct (concat_outcome_ok (fun y => concat_outcome (map (fun x =>
        read_bytes src ((y * src_h) `div` out_h * src_stride + (x * src_w) `div` out_w * 4) 4) (upto out_w)))
      (upto out_h) (4 * out_w)) as (b & Eb & Lb).
    + intros y Hy%upto_spec. pose proof (scale_bound y src_h out_h Hy Hsh).
      edestruct (concat_outcome_ok (fun x =>
        read_bytes src ((y * src_h) `div` out_h * src_stride + (x * src_w) `div` out_w * 4) 4) (upto out_w) 4)
        as (b & Eb & Lb).
      * intros x Hx%upto_spec. pose proof (scale_bound x src_w out_w Hx Hsw).
        apply read_bytes_ok; [nia|lia|nia].
      * exists b. split; [done|]. by rewrite Lb, upto_length by lia.
    + exists b. split; [exact Eb|]. rewrite Lb, upto_length by lia. lia.
Qed.

(** The pixel copy never reads outside the source image and fills the
    whole destination, for any sizes. *)
Theorem repack_in_bounds out_w out_h src src_w src_h src_stride :
  0 < out_w -> 0 < out_h -> 0 < src_w -> 0 < src_h -> src_w * 4 <= src_stride ->
  src_stride * src_h <= Z.of_nat (length src) ->
  exists dst, leo_rd_repack_scale out_w out_h src src_w src_h src_stride = Ret dst /\
  Z.of_nat (length dst) = out_w * out_h * 4.
Proof. apply repack_filled. Qed.

(** Every pixel of the result is the nearest one of the source. *)
Definition nearest (out_w out_h : Z) (src : list Z) (src_w src_h src_stride : Z) : outcome (list Z) :=
  concat_outcome (map (fun y => concat_outcome (map (fun x =>
    read_bytes src ((y * src_h) `div` out_h * src_stride + (x * src_w) `div` out_w * 4) 4) (upto out_w))) (upto out_h)).

Lemma concat_outcome_ext {A B} (f g : A -> outcome (list B)) l :
  (forall x, x ∈ l -> f x = g x) -> concat_outcome (map f l) = concat_outcome (map g l).
Proof.
  intros H. f_equal. apply map_ext_in. intros x Hx. apply H. by apply list_elem_of_In.
Qed.

(** Pieces of [k] bytes one after the other are one piece. *)
Lemma read_pieces src off k n : 0 <= off -> 0 <= k -> off + k * Z.of_nat n <= Z.of_nat (length src) ->
  concat_outcome (map (fun x => read_bytes src (off + x * k) k) (map Z.of_nat (seq 0 n))) =
  read_bytes src off (k * Z.of_nat n).
Proof.
  intros Ho Hk Hl.
  assert (forall a b, 0 <= a -> 0 <= b -> a + b <= Z.of_nat (length src) ->
    read_bytes src a b = Ret (take (Z.to_nat b) (drop (Z.to_nat a) src))) as R.
  { intros a b Ha Hb Hab. unfold read_bytes. by destruct (Z.leb_spec 0 a), (Z.leb_spec (a + b) (Z.of_nat (length src))); try lia. }
  assert (forall m j, off + k * Z.of_nat (j + m) <= Z.of_nat (length src) ->
    concat_outcome (map (fun x => read_bytes src (off + x * k) k) (map Z.of_nat (seq j m))) =
    Ret (take (Z.to_nat (k * Z.of_nat m)) (drop (Z.to_nat (off + Z.of_nat j * k)) src))) as G.
  { induction m as [|m IH]; intros j Hj; [by rewrite Z.mul_0_r|]. cbn [seq map concat_outcome].
    rewrite R by nia. cbn [mbind outcome_bind]. rewrite IH by (by replace (S j + m)%nat with (j + S m)%nat by lia).
    cbn [mbind outcome_bind]. f_equal.
    replace (Z.to_nat (off + Z.of_nat (S j) * k)) with (Z.to_nat (off + Z.of_nat j * k) + Z.to_nat k)%nat by nia.
    rewrite <- drop_drop, take_take_drop. f_equal. nia. }
  rewrite G by (by rewrite Nat.add_0_l). rewrite R by nia. by rewrite Z.mul_0_l, Z.add_0_r.
Qed.

(** The copy row by row of an image that is not resized gives the same
    pixels as the general scaling. *)
Theorem repack_is_nearest out_w out_h src src_w src_h src_stride :
  0 < src_w -> 0 < src_h -> src_w * 4 <= src_stride -> src_stride * src_h <= Z.of_nat (length src) ->
  leo_rd_repack_scale out_w out_h src src_w src_h src_stride = nearest out_w out_h src src_w src_h src_stride.
Proof.
  intros Hw Hh Hs Hl. unfold leo_rd_repack_scale, nearest.
  destruct ((out_w =? src_w) && (out_h =? src_h)) eqn:E; [|done]. breflect. subst.
  apply concat_outcome_ext. intros y Hy%upto_spec. symmetry. rewrite Z.div_mul by lia.
  etrans; [apply concat_outcome_ext; intros x Hx; by rewrite Z.div_mul by lia|].
  unfold upto. rewrite read_pieces by nia. f_equal. lia.
Qed.

Lemma repack_is_nearest_witness :
  leo_rd_repack_scale 2 1 [1; 2; 3; 4; 5; 6; 7; 8; 0; 0] 2 1 10 = nearest 2 1 [1; 2; 3; 4; 5; 6; 7; 8; 0; 0] 2 1 10.
Proof. apply (repack_is_nearest 2 1 [1; 2; 3; 4; 5; 6; 7; 8; 0; 0] 2 1 10); vm_compute; try done. Defined.

(** *** Bytes of the protocol *)

Lemma be16_spec hi lo : 0 <= lo < 256 -> be16 hi lo = hi * 256 + lo.
Proof.
  intros Hl. unfold be16. pose proof (Z.add_lor_land (Z.shiftl hi 8) lo) as E.
  assert (Z.land (Z.shiftl hi 8) lo = 0) as Z0.
  { apply Z.bits_inj'. intros n Hn. rewrite Z.land_spec, Z.bits_0.
    destruct (Z.lt_ge_cases n 8).
    - by rewrite Z.shiftl_spec_low.
    - rewrite <- (Z.mod_small lo (2 ^ 8)) by lia. by rewrite Z.mod_pow2_bits_high, andb_false_r by lia. }
  rewrite Z0 in E. rewrite !Z.shiftl_mul_pow2 in * by lia. lia.
Qed.

Lemma land255 z : Z.land z 255 = z `mod` 256.
Proof. change 255 with (Z.ones 8). by rewrite Z.land_ones by lia. Qed.

Lemma shiftr_byte z k : 0 <= k -> Z.land (Z.shiftr z k) 255 = (z `div` 2 ^ k) `mod` 256.
Proof. intros ?. by rewrite land255, Z.shiftr_div_pow2 by lia. Qed.

(** What the receiver of a frame reads from its header. *)
Definition decode_header (h : list Z) : Z * Z * Z :=
  (at_ h 1 * 256 + at_ h 2, at_ h 3 * 256 + at_ h 4,
   ((at_ h 5 * 256 + at_ h 6) * 256 + at_ h 7) * 256 + at_ h 8).

Lemma decode_header_eq t a b c d e f g h :
  decode_header [t; a; b; c; d; e; f; g; h] =
  (a * 256 + b, c * 256 + d, ((e * 256 + f) * 256 + g) * 256 + h).
Proof. reflexivity. Qed.

(** The header of a frame carries its dimensions (below 65536) and its
    32-bit sequence number without loss, in nine bytes. *)
Theorem frame_header_roundtrip w h seq :
  0 <= w < 65536 -> 0 <= h < 65536 -> 0 <= seq < 2 ^ 32 ->
  decode_header (frame_header w h seq) = (w, h, seq) /\
  Forall (fun b => 0 <= b < 256) (frame_header w h seq) /\ length (frame_header w h seq) = 9%nat.
Proof.
  intros Hw Hh Hs. unfold frame_header. rewrite !shiftr_byte, !land255 by lia.
  change (2 ^ 8) with 256. change (2 ^ 16) with 65536. change (2 ^ 24) with 16777216.
  split_and!; [|repeat constructor; try (unfold _RD_WIRE_FRAME; lia); apply Z.mod_pos_bound; lia|done].
  rewrite decode_header_eq. f_equal; [f_equal|].
  - rewrite (Z.mod_small (w `div` 256)) by (split; [apply Z.div_pos; lia|apply Z.div_lt_upper_bound; lia]).
    pose proof (Z.div_mod w 256). lia.
  - rewrite (Z.mod_small (h `div` 256)) by (split; [apply Z.div_pos; lia|apply Z.div_lt_upper_bound; lia]).
    pose proof (Z.div_mod h 256). lia.
  - replace (seq `div` 65536) with (seq `div` 256 `div` 256) by (rewrite Z.div_div by lia; done).
    replace (seq `div` 16777216) with (seq `div` 256 `div` 256 `div` 256) by (rewrite !Z.div_div by lia; done).
    set (a := seq `div` 256). set (b := a `div` 256).
    assert (0 <= b `div` 256 < 256) as Hb.
    { unfold b, a. rewrite !Z.div_div by lia. split; [apply Z.div_pos; lia|apply Z.div_lt_upper_bound; lia]. }
    rewrite (Z.mod_small (b `div` 256)) by done.
    pose proof (Z.div_mod seq 256). pose proof (Z.div_mod a 256). pose proof (Z.div_mod b 256).
    fold a in H. fold b in H0. lia.
Qed.

Lemma repack_in_bounds_witness :
  exists dst, leo_rd_repack_scale 2 1 (map Z.of_nat (seq 0 60)) 3 4 15 = Ret dst /\ Z.of_nat (length dst) = 2 * 1 * 4.
Proof. apply (repack_in_bounds 2 1 (map Z.of_nat (seq 0 60)) 3 4 15); vm_compute; done. Defined.

Lemma frame_header_roundtrip_witness :
  decode_header (frame_header 1920 1080 70000) = (1920, 1080, 70000) /\
  Forall (fun b => 0 <= b < 256) (frame_header 1920 1080 70000) /\ length (frame_header 1920 1080 70000) = 9%nat.
Proof. apply (frame_header_roundtrip 1920 1080 70000); lia. Defined.

(** What the browser sends for an input event. *)
Definition encode_input (i : rd_input) : list Z :=
  match i with
  | leo_rd_input_move x y =>
      [_RD_WIRE_INPUT_MOVE; x `div` 256; x `mod` 256; y `div` 256; y `mod` 256]
  | leo_rd_input_button b down => [_RD_WIRE_INPUT_BUTTON; b; if down then 1 else 0]
  | leo_rd_input_scroll d => [_RD_WIRE_INPUT_SCROLL; (d `mod` 65536) `div` 256; d `mod` 256]
  | leo_rd_input_key k down => [_RD_WIRE_INPUT_KEY; k; if down then 1 else 0]
  end.

Definition input_in_range (i : rd_input) : Prop :=
  match i with
  | leo_rd_input_move x y => 0 <= x < 65536 /\ 0 <= y < 65536
  | leo_rd_input_button b _ => 0 <= b < 256
  | leo_rd_input_scroll d => -32768 <= d < 32768
  | leo_rd_input_key k _ => 0 <= k < 256
  end.

Lemma at_byte data i : Forall (fun b => 0 <= b < 256) data -> 0 <= at_ data i < 256.
Proof.
  intros Hd. unfold at_. destruct (data !! i) as [b|] eqn:E; simpl; [|lia].
  by apply (Forall_lookup_1 _ _ _ _ Hd) in E.
Qed.

Lemma be16_bound hi lo : 0 <= hi < 256 -> 0 <= lo < 256 -> 0 <= be16 hi lo < 65536.
Proof. intros ??. rewrite be16_spec by lia. lia. Qed.

Lemma wrap_s16_range z : -32768 <= wrap_s16 z < 32768.
Proof. unfold wrap_s16. pose proof (Z.mod_pos_bound (z + 2 ^ 15) (2 ^ 16)). lia. Qed.

Lemma wrap_s16_mod z : -32768 <= z < 32768 -> wrap_s16 (z `mod` 65536) = z.
Proof.
  intros Hz. unfold wrap_s16. change (2 ^ 16) with 65536. change (2 ^ 15) with 32768.
  rewrite Zplus_mod_idemp_l, Z.mod_small; lia.
Qed.

Lemma div_mod_65536 z : ((z `mod` 65536) `div` 256) * 256 + z `mod` 256 = z `mod` 65536.
Proof.
  pose proof (Z.div_mod (z `mod` 65536) 256 ltac:(lia)) as E.
  change 65536 with (256 * 256) in E at 3. rewrite Z.rem_mul_r in * by lia. 
  replace ((z `mod` 256 + 256 * ((z `div` 256) `mod` 256)) `mod` 256) with (z `mod` 256) in E.
  - lia.
  - rewrite Z.mul_comm, Z_mod_plus_full. by rewrite Zmod_mod.
Qed.

(** Every input event the browser encodes is decoded to itself, and
    whatever bytes are received, a decoded event is in range: coordinates
    below 65536, signed 16-bit scroll. *)
Theorem input_decoding :
  (forall i, input_in_range i -> decode_input (encode_input i) = Some i) /\
  (forall data i, Forall (fun b => 0 <= b < 256) data -> decode_input data = Some i -> input_in_range i).
Proof.
  split.
  - intros [x y|b d|d|k d] Hi; cbn in Hi |- *; unfold decode_input; cbn.
    + rewrite !be16_spec by (apply Z.mod_pos_bound; lia).
      pose proof (Z.div_mod x 256). pose proof (Z.div_mod y 256). do 2 f_equal; lia.
    + by destruct d.
    + rewrite be16_spec by (apply Z.mod_pos_bound; lia). by rewrite div_mod_65536, wrap_s16_mod.
    + by destruct d.
  - intros data i Hd. unfold decode_input.
    pose proof (fun i => at_byte data i Hd) as Ha. pose proof (be16_bound) as Hb.
    repeat case_goal; intros [= <-]; cbn; auto using wrap_s16_range.
Qed.

(** *** What the callbacks of a session may do *)

Section sessions.
Context `{CLib} `{OpenSSL}.

Lemma run_callbacks_snoc s rs r :
  run_callbacks s (rs ++ [r]) =
  let '(s', acts) := run_callbacks s rs in
  let '(s'', _, more) := _rd_lws_callback s' r in (s'', acts ++ more).
Proof. unfold run_callbacks. rewrite fold_left_app. simpl. by destruct (fold_left _ rs _). Qed.

(** An invariant of the session and of each action it asks, over any
    sequence of callbacks. *)
Lemma run_callbacks_ind (I : rd_ctx -> Prop) (P : rd_action -> Prop) s rs :
  (forall s r, I s -> let '(s', _, acts) := _rd_lws_callback s r in I s' /\ Forall P acts) ->
  I s -> I (run_callbacks s rs).1 /\ Forall P (run_callbacks s rs).2.
Proof.
  intros Hcb Hs. induction rs as [|r rs IH] using rev_ind; [by split|].
  rewrite run_callbacks_snoc. destruct (run_callbacks s rs) as [s' acts]. destruct IH as [Hi Ha].
  specialize (Hcb s' r Hi). destruct (_rd_lws_callback s' r) as [[s'' ?] more]. simpl in *.
  rewrite Forall_app. naive_solver.
Qed.

Lemma callback_static s r :
  let '(s', _, _) := _rd_lws_callback s r in
  control_mode s' = control_mode s /\ rd_should_stop s' = rd_should_stop s /\ session_id s' = session_id s.
Proof.
  destruct r; simpl; unfold _handle_control_message, _send_frame; repeat case_goal; simplify_eq/=; auto.
Qed.

Lemma callback_view s r :
  control_mode s = false /\ input s = false ->
  let '(s', _, acts) := _rd_lws_callback s r in
  (control_mode s' = false /\ input s' = false) /\ Forall (fun a => match a with RdInput _ => False | _ => True end) acts.
Proof.
  intros [Hc Hi].
  destruct r; simpl; unfold _handle_control_message, _handle_input_message, _send_frame; rewrite ?Hc, ?Hi; simpl;
    repeat case_goal; simplify_eq/=; split; auto; repeat constructor.
Qed.

(** The reason of a failure is never empty and fits its buffer. *)
Definition reason_ok (s : rd_ctx) : Prop := strlen (fail_reason s) < FAIL_SZ.

Lemma callback_reason s r :
  reason_ok s -> let '(s', _, acts) := _rd_lws_callback s r in
  reason_ok s' /\ Forall (fun _ => True) acts.
Proof.
  unfold reason_ok. intros Hr.
  destruct r; simpl; unfold _handle_control_message, _handle_input_message, _send_frame;
    repeat case_goal; simplify_eq/=; split; auto; try (apply Forall_forall; done);
    apply fit_length; done.
Qed.

(** C28: a session opened in view mode never injects an input event, whatever
    the server sends and in whatever order, and it never opens the input
    device. *)
Theorem view_mode_injects_nothing config sid url mode fps quality mw mh s rs :
  streq mode (str "control") = false ->
  rd_new config sid url mode fps quality mw mh = Some s ->
  let '(s', acts) := run_callbacks s rs in
  input s' = false /\ forall i, RdInput i ∉ acts.
Proof.
  intros Hm Hn. unfold rd_new in Hn. destruct (_parse_ws_url _ _ _) as [[[h p] pa]|]; simplify_eq.
  destruct (run_callbacks_ind _ _
    (mk_rd (fit LEO_UUID_STR_LEN sid) (fit LEO_RD_WS_URL_MAX_LEN url) (streq mode (str "control"))
       (positive_or fps 8) (positive_or quality 60) (positive_or mw 1920) (positive_or mh 1080) config h p pa
       false false 0 0 false false [] false) rs callback_view) as [[_ Hi] Ha]; [done|].
  destruct (run_callbacks _ rs) as [s' acts]. split; [done|]. intros i Hin.
  by apply (proj1 (Forall_forall _ _) Ha (RdInput i)).
Qed.

Lemma rd_loop_reason ps s deadline acts s' acts' :
  reason_ok s -> rd_loop s deadline ps acts = Some (s', acts') -> reason_ok s'.
Proof.
  revert s acts. induction ps as [|p ps IH]; intros s acts Hr E; simpl in E.
  - destruct (_ || _); by simplify_eq.
  - destruct (_ || _); [by simplify_eq|].
    destruct (run_callbacks_ind reason_ok (fun _ => True) (rd_set_stop s (rd_should_stop s || stop_seen p))
                (pass_callbacks p)) as [Hr' _]; [apply callback_reason|done|].
    destruct (run_callbacks _ _) as [s1 more]. destruct (pass_ok p); simpl in E; [|by simplify_eq].
    apply IH in E; [done|]. destruct (_ <? _); [|done]. by apply fit_length.
Qed.

(** A callback that says the connection is gone. *)
Definition breaks (r : rd_reason) : bool :=
  match r with RD_CONNECTION_ERROR _ | RD_CLOSED => true | _ => false end.

(** A pass that ends the loop at the latest at the next test: it sees a request
    to stop, [lws_service] fails, the connection breaks, or time is up. *)
Definition ends_loop (deadline : Z) (p : rd_pass) : Prop :=
  stop_seen p = true \/ pass_ok p = false \/ existsb breaks (pass_callbacks p) = true \/ deadline < pass_now p.

Lemma callback_done s r :
  let '(s', _, acts) := _rd_lws_callback s r in
  (rd_done s = true \/ breaks r = true -> rd_done s' = true) /\ Forall (fun _ => True) acts.
Proof.
  destruct r; simpl; unfold _handle_control_message, _handle_input_message, _send_frame;
    repeat case_goal; simplify_eq/=; (split; [naive_solver|apply Forall_forall; done]).
Qed.

Lemma run_callbacks_done s rs : existsb breaks rs = true -> rd_done (run_callbacks s rs).1 = true.
Proof.
  assert (forall rs, rd_done s = true \/ existsb breaks rs = true -> rd_done (run_callbacks s rs).1 = true) as Hg;
    [|intros ?; apply Hg; by right].
  clear rs. intros rs. induction rs as [|r rs IH] using rev_ind; [by intros [?|?]|].
  rewrite existsb_app, run_callbacks_snoc. destruct (run_callbacks s rs) as [s' acts]. intros Hb.
  pose proof (callback_done s' r) as Hd. destruct (_rd_lws_callback s' r) as [[s'' ?] more]. cbn in *.
  apply Hd. rewrite orb_false_r, orb_true_iff in Hb. naive_solver.
Qed.

Lemma rd_loop_ends ps s deadline acts p :
  p ∈ ps -> ends_loop deadline p -> is_Some (rd_loop s deadline ps acts).
Proof.
  intros Hin He. revert s acts. induction Hin as [p ps|p q ps _ IH]; intros s acts; simpl.
  - destruct He as [-> |He]; [by rewrite !orb_true_r|].
    destruct (_ || _); [done|].
    pose proof (run_callbacks_done (rd_set_stop s (rd_should_stop s || stop_seen p)) (pass_callbacks p)) as Hb.
    destruct (run_callbacks _ _) as [s1 more]. cbn in Hb.
    destruct He as [-> |He]; [done|]. destruct (pass_ok p); [|done]. cbn [negb].
    destruct He as [He|Hd]; [|rewrite (proj2 (Z.ltb_lt _ _) Hd); by destruct ps].
    destruct (_ <? _); [by destruct ps|]. destruct ps; cbn; by rewrite Hb.
  - destruct (_ || _); [done|]. destruct (run_callbacks _ _) as [s1 more].
    destruct (pass_ok q); [|done]. by apply IH.
Qed.

(** What a thread may report. *)
Definition report_ok (status : list ascii) (err : option (list ascii)) : Prop :=
  (status = str "ended" /\ err = None) \/
  (status = str "failed" /\ exists m, err = Some m /\ m <> [] /\ strlen m < FAIL_SZ).

Lemma report_failed m : m <> [] -> strlen m < FAIL_SZ -> report_ok (str "failed") (Some m).
Proof. right. eauto. Qed.

(** The status message is handed to the control connection: it is queued, whole
    and once, unless it does not fit its buffer or the connection refuses it. *)
Lemma report_status_sent s e conn status err :
  accepted (_report_status s e conn status err) = accepted conn ++
    match leo_proto_build_remote_desktop_status e (session_id s) status err 512 with
    | Some txt => if bool_decide ((leo_conn_send conn txt).1 = LEO_OK) then [txt] else []
    | None => []
    end.
Proof.
  unfold _report_status. destruct (leo_proto_build_remote_desktop_status _ _ _ _ _) as [txt|] eqn:B;
    [|by rewrite app_nil_r].
  unfold leo_proto_build_remote_desktop_status in B. destruct (body_ok e); [|done]. cbn [negb] in B.
  rewrite (serialize_nonempty _ _ _ _ _ B), send_accepted. apply serialize_fits in B.
  by rewrite take_Z_all by (unfold strlen in B; unfold LEO_MAX_MSG_SIZE; lia).
Qed.

Lemma report_status_notes s e conn status err : notes conn (_report_status s e conn status err).
Proof.
  unfold _report_status. destruct (leo_proto_build_remote_desktop_status _ _ _ _ _) as [txt|] eqn:B; [|apply rtc_refl].
  destruct (0 <? strlen txt); [|apply rtc_refl].
  apply notes_one. unfold leo_proto_build_remote_desktop_status in B. built_note B.
Qed.

(** C29: a session thread ends once a stop is requested, [lws_service] fails,
    the connection breaks or the maximum duration has passed, and it hands one
    status to the control connection: [ended] without a reason, or [failed]
    with a reason that is not empty and fits its buffer.  The message is queued
    there, once, if it fits 512 bytes and the connection takes it. *)
Theorem session_ends s conn env p :
  reason_ok s -> p ∈ passes env -> ends_loop (rd_start env + LEO_RD_MAX_SESSION_SEC) p ->
  exists status err conn' acts,
    _rd_session_thread s conn env = Some (status, err, conn', acts) /\ report_ok status err /\
    accepted conn' = accepted conn ++
      match leo_proto_build_remote_desktop_status (status_env env) (session_id s) status err 512 with
      | Some txt => if bool_decide ((leo_conn_send conn txt).1 = LEO_OK) then [txt] else []
      | None => []
      end.
Proof.
  intros Hr Hp He.
  assert (forall status err (acts : list rd_action), report_ok status err -> exists status0 err0 conn' acts0,
    Some (status, err, _report_status s (status_env env) conn status err, acts) = Some (status0, err0, conn', acts0) /\
    report_ok status0 err0 /\ accepted conn' = accepted conn ++
      match leo_proto_build_remote_desktop_status (status_env env) (session_id s) status0 err0 512 with
      | Some txt => if bool_decide ((leo_conn_send conn txt).1 = LEO_OK) then [txt] else []
      | None => []
      end) as Hrep.
  { intros status err acts Hok. eexists _, _, _, _. split_and!; [done|done|apply report_status_sent]. }
  unfold _rd_session_thread.
  destruct (tj_ok env); cbn [negb]; [|by apply Hrep, report_failed; vm_compute].
  destruct (rd_context_ok env); cbn [negb]; [|by apply Hrep, report_failed; vm_compute].
  destruct (rd_connect_ok env); cbn [negb]; [|by apply Hrep, report_failed; vm_compute].
  destruct (rd_loop_ends (passes env) s (rd_start env + LEO_RD_MAX_SESSION_SEC) [] p Hp He) as [[s1 acts] E].
  rewrite E. apply rd_loop_reason in E; [|done].
  destruct (run_callbacks_ind reason_ok (fun _ => True) s1 (destroy_callbacks env)) as [Hr' _];
    [apply callback_reason|done|].
  destruct (run_callbacks s1 _) as [s2 more]. simpl in Hr'.
  destruct (bool_decide _) eqn:B; breflect; apply Hrep; [by left|by apply report_failed].
Qed.

(** A pass that reads the request to stop ends the thread. *)
Lemma flagged_session_ends s conn env p :
  p ∈ passes env -> stop_seen p = true -> is_Some (_rd_session_thread s conn env).
Proof.
  intros Hp Hs. unfold _rd_session_thread.
  destruct (tj_ok env), (rd_context_ok env), (rd_connect_ok env); cbn [negb]; eauto.
  destruct (rd_loop_ends (passes env) s (rd_start env + LEO_RD_MAX_SESSION_SEC) [] p Hp) as [[s1 acts] ->]; [by left|].
  destruct (run_callbacks _ _). destruct (bool_decide _); eauto.
Qed.

(** Screen capture that fails twenty times in a row ends the session, and
    not before. *)
Lemma capture_failures s jpeg m n :
  established s = true -> rd_done s = false -> consecutive_capture_failures s = 0 ->
  rd_done (run_callbacks s (replicate n (RD_WRITEABLE None jpeg m))).1 = bool_decide (20 <= n)%nat.
Proof.
  intros He Hd Hc. assert (forall n, let s' := (run_callbacks s (replicate n (RD_WRITEABLE None jpeg m))).1 in
    established s' = true /\ rd_done s' = bool_decide (20 <= n)%nat /\
    consecutive_capture_failures s' = Z.of_nat (n `min` 20)) as Hall; [|by apply Hall].
  clear n. induction n as [|n IH]; [by rewrite bool_decide_eq_false_2 by lia|].
  replace (replicate (S n) (RD_WRITEABLE None jpeg m)) with (replicate n (RD_WRITEABLE None jpeg m) ++ [RD_WRITEABLE None jpeg m])
    by (rewrite <- replicate_S_end; done).
  rewrite run_callbacks_snoc. destruct (run_callbacks s _) as [s' acts]. cbn -[Nat.min] in IH |- *.
  destruct IH as (E1 & E2 & E3). rewrite E1, E2. unfold _send_frame.
  destruct (Nat.le_gt_cases 20 n).
  - rewrite bool_decide_eq_true_2 by lia. cbn -[Nat.min]. rewrite E2, bool_decide_eq_true_2, E3, bool_decide_eq_true_2 by lia. repeat split; auto. lia.
  - rewrite bool_decide_eq_false_2 by lia. cbn -[Nat.min]. rewrite E3.
    destruct (20 <=? _) eqn:B; breflect; cbn -[Nat.min].
    + rewrite bool_decide_eq_true_2 by lia. repeat split; auto; lia.
    + rewrite E2, !bool_decide_eq_false_2 by lia. repeat split; auto; lia.
Qed.

End sessions.

(** *** One session at a time *)

(** The thread or the start that the session in [g_rd_ctx] belongs to. *)
Definition owns (g : rd_global) (n : nat) : Prop :=
  rd_threads g !! n = Some InSession \/ starting g = Some (n, Reserved) \/ starting g = Some (n, Announced).

Record rd_inv (g : rd_global) : Prop := {
  inv_owner n : owns g n <-> g_rd_ctx g = Some n;
  inv_context n : owns g n -> is_Some (contexts g !! n);
  inv_start n st : starting g = Some (n, st) -> rd_threads g !! n = None /\ (n < next_ctx g)%nat;
  inv_fresh n t : rd_threads g !! n = Some t -> (n < next_ctx g)%nat;
}.

Lemma rd_idle_inv : rd_inv rd_idle.
Proof. split; unfold owns; cbn; intros *; rewrite ?lookup_empty; naive_solver. Qed.

Lemma rd_reserve_inv g c : rd_inv g -> starting g = None -> g_rd_ctx g = None -> rd_inv (rd_reserve g c).
Proof.
  intros [Ho Hc Hs Hf] Es Eg. unfold owns in *. 
  assert (forall n, rd_threads g !! n <> Some InSession) as Hno by (intros n E; specialize (Ho n); naive_solver).
  assert (rd_threads g !! next_ctx g = None) as Hnew.
  { destruct (rd_threads g !! next_ctx g) eqn:E; [|done]. apply Hf in E. lia. }
  split; unfold owns; cbn.
  - intros n. split; [naive_solver|]. intros [= <-]. auto.
  - intros n [E|[[= <-]|E]]; [by apply Hno in E|by rewrite lookup_insert_eq|naive_solver].
  - intros n st [= <- <-]. split; [done|lia].
  - intros n t E. apply Hf in E. lia.
Qed.

Lemma rd_announce_inv g n : rd_inv g -> starting g = Some (n, Reserved) -> rd_inv (rd_announce g n).
Proof.
  intros [Ho Hc Hs Hf] Es. unfold owns in *.
  split; unfold owns; cbn; intros m; specialize (Ho m); specialize (Hc m); rewrite Es in *; naive_solver.
Qed.

Lemma rd_create_inv g n : rd_inv g -> starting g = Some (n, Announced) -> rd_inv (rd_create g n).
Proof.
  intros [Ho Hc Hs Hf] Es. unfold owns in *. destruct (Hs n Announced Es) as [Hn Hl].
  assert (g_rd_ctx g = Some n) as Eg by (apply Ho; auto).
  split; unfold owns; cbn; intros m; specialize (Ho m); specialize (Hc m); rewrite Es in *;
    destruct (decide (n = m)) as [<-|]; rewrite ?lookup_insert_eq, ?lookup_insert_ne by done; naive_solver.
Qed.

Lemma rd_unreserve_inv g n : rd_inv g -> starting g = Some (n, Announced) -> rd_inv (rd_unreserve g n).
Proof.
  intros [Ho Hc Hs Hf] Es. unfold owns in *. destruct (Hs n Announced Es) as [Hn Hl].
  assert (g_rd_ctx g = Some n) as Eg by (apply Ho; auto).
  split; unfold owns; cbn; intros m; specialize (Ho m); specialize (Hc m); rewrite Es in *; [|naive_solver..].
  split; [|done]. intros [E|]; [|naive_solver]. assert (m = n) by naive_solver. naive_solver.
Qed.

Lemma rd_unannounce_inv g n : rd_inv g -> starting g = Some (n, CreateFailed) -> rd_inv (rd_unannounce g n).
Proof.
  intros [Ho Hc Hs Hf] Es. unfold owns in *. destruct (Hs n CreateFailed Es) as [Hn Hl].
  split; unfold owns; cbn; intros m; specialize (Ho m); specialize (Hc m); rewrite Es in *; [naive_solver| |naive_solver..].
  intros [E|?]; [|naive_solver]. rewrite lookup_delete_ne by naive_solver. auto.
Qed.

Lemma rd_clear_inv g n : rd_inv g -> rd_threads g !! n = Some InSession -> rd_inv (rd_clear g n).
Proof.
  intros [Ho Hc Hs Hf] Et. unfold owns in *. assert (g_rd_ctx g = Some n) as Eg by (apply Ho; auto).
  split; unfold owns; cbn; rewrite ?bool_decide_eq_true_2 by done; intros m; specialize (Ho m); specialize (Hc m);
    pose proof (Hs m); pose proof (Hf m);
    destruct (decide (n = m)) as [<-|]; rewrite ?lookup_insert_eq, ?lookup_insert_ne, ?lookup_delete_ne by done;
    naive_solver.
Qed.

Lemma rd_exit_inv g n : rd_inv g -> rd_threads g !! n = Some Cleared -> rd_inv (rd_exit g n).
Proof.
  intros [Ho Hc Hs Hf] Et. unfold owns in *.
  split; unfold owns; cbn; intros m; specialize (Ho m); specialize (Hc m); pose proof (Hs m); pose proof (Hf m);
    destruct (decide (n = m)) as [<-|]; rewrite ?lookup_delete_eq, ?lookup_delete_ne by done; naive_solver.
Qed.

Lemma rd_flag_inv g : rd_inv g -> rd_inv (rd_flag g).
Proof.
  intros [Ho Hc Hs Hf]. unfold rd_flag. destruct (g_rd_ctx g) as [k|] eqn:Eg; [|by split; rewrite ?Eg].
  split; cbn; rewrite ?Eg; auto. intros m E. apply Hc in E. by apply lookup_alter_is_Some.
Qed.

Lemma rd_step_inv g g' : rd_inv g -> rd_step g g' -> rd_inv g'.
Proof.
  intros Hi. destruct 1; auto using rd_reserve_inv, rd_announce_inv, rd_create_inv, rd_unreserve_inv,
    rd_unannounce_inv, rd_clear_inv, rd_exit_inv, rd_flag_inv.
Qed.

(** [leo_rd_start], uninterrupted, is a sequence of these steps. *)
Lemma leo_rd_start_steps g config sid url mode f q w h c k freed g' ok :
  starting g = None -> leo_rd_start g config sid url mode f q w h c k freed = Ret (g', ok) -> rtc rd_step g g'.
Proof.
  intros Es. unfold leo_rd_start. destruct (g_rd_ctx g) eqn:Eg; [by intros [= <- _]|].
  destruct c; [|by intros [= <- _]]. destruct (rd_new _ _ _ _ _ _ _ _) as [s|]; [|by intros [= <- _]]. cbn [negb].
  intros E. eapply rtc_l; [by apply (rd_step_reserve g s)|].
  eapply rtc_l; [by apply (rd_step_announce _ (next_ctx g))|].
  destruct k; [destruct freed; [done|]|]; injection E as <- _.
  - apply rtc_once. by apply rd_step_create.
  - eapply rtc_l; [by apply (rd_step_unreserve _ (next_ctx g))|]. apply rtc_once. by apply rd_step_unannounce.
Qed.

(** C9: in every interleaving of session starts, stops and ends, at most one
    thread is in a session, it is the one [g_rd_ctx] points to, and
    [g_rd_ctx] never points to a freed context; and [g_rd_ctx] is never left
    set by a session that is over, so that a new one can start. *)
Theorem one_session_at_a_time g :
  rtc rd_step rd_idle g ->
  (forall n m, rd_threads g !! n = Some InSession -> rd_threads g !! m = Some InSession -> n = m) /\
  (forall n, g_rd_ctx g = Some n -> owns g n /\ is_Some (contexts g !! n)).
Proof.
  intros Hr. apply (rtc_invariant rd_step rd_inv rd_step_inv) in Hr; [|apply rd_idle_inv].
  destruct Hr as [Ho Hc _ _]. split.
  - intros n m Hn Hm. assert (g_rd_ctx g = Some n) by (apply Ho; by left).
    assert (g_rd_ctx g = Some m) by (apply Ho; by left). congruence.
  - intros n Hn%Ho. auto.
Qed.

Definition sample_session : rd_ctx :=
  mk_rd (str "3e11") (str "wss://h:8443/rd") false 8 60 1920 1080 sample_config (str "h") 8443 (str "/rd")
    false false 0 0 false false [] false.

(** A second session starts between the two critical sections that end the
    first one. *)
Definition overlapping : list (rd_global -> rd_global) :=
  [fun g => rd_reserve g sample_session; fun g => rd_announce g 0; fun g => rd_create g 0;
   fun g => rd_clear g 0; fun g => rd_reserve g sample_session; fun g => rd_announce g 1;
   fun g => rd_create g 1; fun g => rd_exit g 0].

Definition overlap_state : rd_global := fold_left (fun g f => f g) overlapping rd_idle.

Lemma overlap_reachable : rtc rd_step rd_idle overlap_state.
Proof.
  unfold overlap_state, overlapping. cbn [fold_left].
  eapply rtc_l; [by apply (rd_step_reserve _ sample_session)|].
  eapply rtc_l; [by apply (rd_step_announce _ 0)|].
  eapply rtc_l; [by apply (rd_step_create _ 0)|].
  eapply rtc_l; [by apply (rd_step_clear _ 0)|].
  eapply rtc_l; [by apply (rd_step_reserve _ sample_session)|].
  eapply rtc_l; [by apply (rd_step_announce _ 1)|].
  eapply rtc_l; [by apply (rd_step_create _ 1)|].
  eapply rtc_l; [by apply (rd_step_exit _ 0)|]. done.
Qed.

Lemma one_session_at_a_time_witness :
  (forall n m, rd_threads overlap_state !! n = Some InSession ->
     rd_threads overlap_state !! m = Some InSession -> n = m) /\
  (forall n, g_rd_ctx overlap_state = Some n -> owns overlap_state n /\ is_Some (contexts overlap_state !! n)).
Proof. apply (one_session_at_a_time overlap_state). exact overlap_reachable. Defined.

(** [leo_rd_stop_all] can answer that no session thread runs while one
    does: when the thread of a session that is over signals its end after
    the next session was announced, it clears the flag of the latter. *)
Theorem stop_all_misses_session :
  exists g n, rtc rd_step rd_idle g /\ starting g = None /\ rd_threads g !! n = Some InSession /\
    forall in_time, (leo_rd_stop_all g in_time).2 = true.
Proof.
  exists overlap_state, 1%nat. split_and!; [exact overlap_reachable|done|done|done].
Qed.

(** ** Stopping a session to start another *)

(** What may happen while the thread of the control connection, which alone
    starts sessions, waits in [leo_rd_stop]. *)
Inductive ending_step : rd_global -> rd_global -> Prop :=
| ending_clear g n : rd_threads g !! n = Some InSession -> ending_step g (rd_clear g n)
| ending_exit g n : rd_threads g !! n = Some Cleared -> ending_step g (rd_exit g n)
| ending_flag g : ending_step g (rd_flag g).

(** The session [k] goes on, is cleared, is gone. *)
Inductive ending (k : nat) (g : rd_global) : Prop :=
| ending_session : rd_threads g = {[k := InSession]} -> g_rd_thread_running g = true -> ending k g
| ending_cleared : rd_threads g = {[k := Cleared]} -> g_rd_ctx g = None -> g_rd_thread_running g = true -> ending k g
| ending_gone : rd_threads g = ∅ -> g_rd_ctx g = None -> g_rd_thread_running g = false -> ending k g.

Lemma rd_flag_fields g : rd_threads (rd_flag g) = rd_threads g /\ g_rd_ctx (rd_flag g) = g_rd_ctx g /\
  g_rd_thread_running (rd_flag g) = g_rd_thread_running g /\ starting (rd_flag g) = starting g.
Proof. unfold rd_flag. destruct (g_rd_ctx g) eqn:E; by rewrite ?E. Qed.

Lemma ending_step_inv k g g' :
  rd_inv g /\ ending k g -> ending_step g g' -> rd_inv g' /\ ending k g'.
Proof.
  intros [Hi He] Hs. split; [destruct Hs; auto using rd_clear_inv, rd_exit_inv, rd_flag_inv|].
  destruct Hs as [g n Hn|g n Hn|g].
  - assert (g_rd_ctx g = Some n) as Eg by (apply (inv_owner g Hi); by left).
    destruct He as [Et Er|Et _ _|Et _ _]; rewrite Et in Hn; [|by apply lookup_singleton_Some in Hn as [_ ?]|done].
    apply lookup_singleton_Some in Hn as [<- _]. apply ending_cleared; cbn; [|by rewrite bool_decide_true|done].
    by rewrite Et, insert_singleton_eq.
  - destruct He as [Et Er|Et Ec Er|Et _ _]; rewrite Et in Hn; [by apply lookup_singleton_Some in Hn as [_ ?]| |done].
    apply lookup_singleton_Some in Hn as [<- _]. apply ending_gone; cbn; [|done..]. by rewrite Et, delete_singleton_eq.
  - destruct (rd_flag_fields g) as (E1 & E2 & E3 & _).
    destruct He as [Et Er|Et Ec Er|Et Ec Er];
      [apply ending_session|apply ending_cleared|apply ending_gone]; congruence.
Qed.

(** C10: a session that is stopped makes room for the next one, as when an
    operator goes from watching to controlling, if no earlier session is still
    ending: the request sets the flag of the session; a thread that reads it in a
    pass of its loop ends, which leaves [g_rd_thread_running] reset after its two
    critical sections; and once [leo_rd_stop] has seen that, there is no session
    thread, and a request to start that follows is not refused. *)
Theorem stop_then_start `{CLib} `{OpenSSL} g k sid gone g1 :
  rtc rd_step rd_idle g -> rd_threads g = {[k := InSession]} -> g_rd_thread_running g = true ->
  leo_rd_stop g sid gone = Ret (g1, true) ->
  (exists c, contexts g1 !! k = Some c /\
     forall s conn env p, p ∈ passes env -> stop_seen p = rd_should_stop c ->
       is_Some (_rd_session_thread s conn env)) /\
  rtc ending_step g1 (rd_exit (rd_clear g1 k) k) /\ g_rd_thread_running (rd_exit (rd_clear g1 k) k) = false /\
  forall g2, rtc ending_step g1 g2 -> g_rd_thread_running g2 = false ->
    rd_threads g2 = ∅ /\
    forall config sid url mode f q w h c, rd_new config sid url mode f q w h = Some c ->
      exists g3, leo_rd_start g2 config sid url mode f q w h true true false = Ret (g3, true).
Proof.
  intros Hr Et Er Hs. apply (rtc_invariant rd_step rd_inv rd_step_inv) in Hr; [|apply rd_idle_inv].
  assert (g_rd_ctx g = Some k) as Eg by (apply (inv_owner g Hr); left; by rewrite Et, lookup_singleton_eq).
  destruct (inv_context g Hr k) as [c Ec]; [by apply (inv_owner g Hr)|].
  assert (g1 = rd_flag g) as -> by (unfold leo_rd_stop in Hs; rewrite Eg in Hs; repeat case_match; congruence).
  destruct (rd_flag_fields g) as (E1 & E2 & E3 & _).
  assert (rd_threads (rd_flag g) !! k = Some InSession) as Hk by (rewrite E1, Et; apply lookup_singleton_eq).
  split_and!; [| |done|].
  - unfold rd_flag. rewrite Eg. cbn. rewrite lookup_alter_eq, Ec. eexists. split; [done|].
    intros s conn env p Hp Hf. by eapply flagged_session_ends.
  - eapply rtc_l; [by apply ending_clear|]. apply rtc_once, ending_exit. cbn. by rewrite lookup_insert_eq.
  - intros g2 H2 Hf. apply (rtc_invariant ending_step (fun g => rd_inv g /\ ending k g) (ending_step_inv k)) in H2.
    + destruct H2 as [_ [? ?|? ? ?|Et2 Ec2 _]]; [congruence..|]. split; [done|].
      intros config sid' url mode f q w h c' En. unfold leo_rd_start. rewrite Ec2, En. by eexists.
    + split; [by apply rd_flag_inv|]. apply ending_session; congruence.
Qed.

Definition running_state : rd_global := rd_create (rd_announce (rd_reserve rd_idle sample_session) 0) 0.

Lemma running_reachable : rtc rd_step rd_idle running_state.
Proof.
  eapply rtc_l; [by apply (rd_step_reserve _ sample_session)|].
  eapply rtc_l; [by apply (rd_step_announce _ 0)|]. by apply rtc_once, rd_step_create.
Qed.

Lemma stop_then_start_witness :
  let g1 := rd_flag running_state in
  (exists c, contexts g1 !! 0%nat = Some c /\
     forall s conn env p, p ∈ passes env -> stop_seen p = rd_should_stop c ->
       is_Some (@_rd_session_thread decimal_lib toy_openssl s conn env)) /\
  rtc ending_step g1 (rd_exit (rd_clear g1 0) 0) /\ g_rd_thread_running (rd_exit (rd_clear g1 0) 0) = false /\
  forall g2, rtc ending_step g1 g2 -> g_rd_thread_running g2 = false ->
    rd_threads g2 = ∅ /\
    forall config sid url mode f q w h c, rd_new config sid url mode f q w h = Some c ->
      exists g3, leo_rd_start g2 config sid url mode f q w h true true false = Ret (g3, true).
Proof.
  apply (@stop_then_start decimal_lib toy_openssl running_state 0 (Some (str "3e11")) false).
  - exact running_reachable.
  - reflexivity.
  - reflexivity.
  - reflexivity.
Defined.

(** When the end of an earlier session has cleared the flag of this one, the
    wait of [leo_rd_stop] is over at once and the request that follows is
    refused. *)
Theorem stop_then_start_refused :
  exists g g1, rtc rd_step rd_idle g /\ starting g = None /\ leo_rd_stop g None false = Ret (g1, true) /\
    g_rd_thread_running g1 = false /\
    forall config sid url mode f q w h, leo_rd_start g1 config sid url mode f q w h true true false = Ret (g1, false).
Proof. exists overlap_state. eexists. split_and!; [exact overlap_reachable|done|reflexivity|done|done]. Qed.

Lemma view_mode_injects_nothing_witness :
  let s := (mk_rd (str "s1") (str "wss://h/rd") false 8 60 1920 1080 sample_config (str "h") 443 (str "/rd")
    false false 0 0 false false [] false) in
  let '(s', acts) := run_callbacks (H:=decimal_lib) (H0:=toy_openssl) s
     [RD_ESTABLISHED true true; RD_RECEIVE [16; 1; 2; 3; 4]; RD_TIMER] in
  input s' = false /\ forall i, RdInput i ∉ acts.
Proof.
  exact (view_mode_injects_nothing (H:=decimal_lib) (H0:=toy_openssl) sample_config (str "s1") (str "wss://h/rd")
           (str "view") 8 60 1920 1080 _ [RD_ESTABLISHED true true; RD_RECEIVE [16; 1; 2; 3; 4]; RD_TIMER]
           eq_refl eq_refl).
Defined.

Lemma input_decoding_witness :
  decode_input [18; 255; 255] = Some (leo_rd_input_scroll (-1)) /\ input_in_range (leo_rd_input_scroll (-1)).
Proof.
  destruct input_decoding as [Hd Hr]. split.
  - apply (Hd (leo_rd_input_scroll (-1))). cbn. lia.
  - apply (Hr [18; 255; 255]); [repeat constructor; lia|reflexivity].
Defined.

Lemma session_ends_witness :
  let env := mk_rd_env true true true 0 [mk_pass false [] true 10; mk_pass false [RD_CLOSED] true 20] [] sample_env in
  exists status err conn' acts,
    @_rd_session_thread decimal_lib toy_openssl sample_session idle_conn env = Some (status, err, conn', acts) /\
    report_ok status err /\
    accepted conn' = accepted idle_conn ++
      match @leo_proto_build_remote_desktop_status decimal_lib (status_env env) (session_id sample_session) status err 512 with
      | Some txt => if bool_decide ((leo_conn_send idle_conn txt).1 = LEO_OK) then [txt] else []
      | None => []
      end.
Proof.
  apply (@session_ends decimal_lib toy_openssl sample_session idle_conn
    (mk_rd_env true true true 0 [mk_pass false [] true 10; mk_pass false [RD_CLOSED] true 20] [] sample_env)
    (mk_pass false [RD_CLOSED] true 20)); [done|set_solver|].
  right. right. left. reflexivity.
Defined.
