(* ===== verification/Exec.v ===== *)
(** The command threads of [src/agent.c]: [_exec_thread] and
    [_inventory_thread], from the context a dispatcher prepared to the
    CMD_RESULT that closes the command.

    [_exec_thread] keeps its outputs in [stdout_s] and [stderr_s], pointers to
    string literals or to buffers on its stack.  Some of these buffers belong
    to the block of one [case] and are gone when the result is built, so the
    pointers carry the lifetime of what they point to ([cptr]), and reading
    through a dangling one is undefined behaviour. *)
From S2P Require Import Prelude CString Double Types Json JsonParse Protocol Config Url.
From S2P Require Import Crypto Ring Connection Executor Platform Patches FileTransfer.

(** ** Contexts *)

Definition LEO_EXEC_MAX_CONCURRENT : Z := 4.
Definition LEO_EXEC_DEFAULT_TIMEOUT_SEC : Z := 300.
Definition LEO_EXEC_MAX_TIMEOUT_SEC : Z := 300.
Definition LEO_PKG_NAME_MAX_LEN : Z := 128.
Definition LEO_PKG_MAX_COUNT : Z := 32.
Definition INTERPRETER_SZ : Z := 32.

Inductive _exec_kind_t : Type :=
| _EXEC_KIND_SCRIPT | _EXEC_KIND_INSTALL_PKG | _EXEC_KIND_REBOOT
| _EXEC_KIND_INSTALL_PATCHES | _EXEC_KIND_FILE_TRANSFER.

#[export] Instance exec_kind_eq_dec : EqDecision _exec_kind_t.
Proof. solve_decision. Defined.

(** The arrays of names are cut to their counts. *)
Record _exec_ctx_t : Type := mk_ctx {
  cmd_id : list ascii;
  timeout_secs : Z;
  kind : _exec_kind_t;
  interpreter : list ascii;
  script : list ascii;
  pkg_names : argv_t;
  reboot_delay_sec : Z;
  patch_ids : argv_t;
  reboot_after : bool;
  download_url : list ascii;
  file_name : list ascii;
  sha256_hex : list ascii;
  file_size : Z;
}.

(** [calloc], then the fields every dispatcher sets. *)
Definition ctx_new (id : list ascii) (k : _exec_kind_t) (t : Z) : _exec_ctx_t :=
  mk_ctx (fit LEO_UUID_STR_LEN id) t k [] [] [] 0 [] false [] [] [] 0.
Definition ctx_script (c : _exec_ctx_t) (i s : list ascii) : _exec_ctx_t :=
  mk_ctx (cmd_id c) (timeout_secs c) (kind c) i s (pkg_names c) (reboot_delay_sec c) (patch_ids c)
    (reboot_after c) (download_url c) (file_name c) (sha256_hex c) (file_size c).
Definition ctx_pkgs (c : _exec_ctx_t) (names : argv_t) : _exec_ctx_t :=
  mk_ctx (cmd_id c) (timeout_secs c) (kind c) (interpreter c) (script c) names (reboot_delay_sec c) (patch_ids c)
    (reboot_after c) (download_url c) (file_name c) (sha256_hex c) (file_size c).
Definition ctx_reboot (c : _exec_ctx_t) (delay : Z) : _exec_ctx_t :=
  mk_ctx (cmd_id c) (timeout_secs c) (kind c) (interpreter c) (script c) (pkg_names c) delay (patch_ids c)
    (reboot_after c) (download_url c) (file_name c) (sha256_hex c) (file_size c).
Definition ctx_patches (c : _exec_ctx_t) (ids : argv_t) (reboot : bool) : _exec_ctx_t :=
  mk_ctx (cmd_id c) (timeout_secs c) (kind c) (interpreter c) (script c) (pkg_names c) (reboot_delay_sec c) ids
    reboot (download_url c) (file_name c) (sha256_hex c) (file_size c).
Definition ctx_file (c : _exec_ctx_t) (url name sha : list ascii) (size : Z) : _exec_ctx_t :=
  mk_ctx (cmd_id c) (timeout_secs c) (kind c) (interpreter c) (script c) (pkg_names c) (reboot_delay_sec c)
    (patch_ids c) (reboot_after c) url name sha size.

(** ** Results *)

Inductive cptr : Type :=
| Live (s : list ascii)
| Dangling.

Definition deref (p : cptr) : outcome (list ascii) :=
  match p with Live s => Ret s | Dangling => Undef end.

Definition empty_string : cptr := Live [].

Record report : Type := mk_report {
  rep_exit_code : Z;
  rep_stdout : cptr;
  rep_stderr : cptr;
}.

(** The report of a run whose result record outlives the [switch]; its
    buffers are read as C strings, up to a first NUL byte. *)
Definition report_result (r : leo_exec_result_t) : report :=
  mk_report (exit_code r) (Live (c_str (stdout_buf r))) (Live (c_str (stderr_buf r))).

(** The report of a run whose result record is local to its [case]: the
    buffers are gone when the report is read. *)
Definition report_local (r : leo_exec_result_t) : report :=
  mk_report (exit_code r) Dangling Dangling.

Definition report_failure (msg : list ascii) : report := mk_report (-1) empty_string (Live msg).

(** Files are a part of the world a thread acts on. *)
Class FileSystem (W : Type) `{Executor W} : Type := {
  fs_workdir :: WorkDir;
  get_files : W -> files;
  put_files : files -> W -> W;
  put_files_log fs w : exec_log (put_files fs w) = exec_log w;
}.

#[export] Program Instance linux_file_system : FileSystem linux_world := {|
  fs_workdir := linux_workdir;
  get_files := lw_files;
  put_files fs w := mk_linux fs (lw_log w) (lw_envs w) (lw_tick w);
|}.
Next Obligation. done. Qed.

Record exec_env (W : Type) `{PatchManager W} : Type := mk_exec_env {
  x_stack : leo_exec_result_t;      (* what the uninitialised records hold *)
  x_patches : patch_env W;
  x_transfer : transfer_env;
  x_progress : nat -> ser_env;
}.

Arguments mk_exec_env {W _} _ _ _ _.
Arguments x_stack {W _} _.
Arguments x_patches {W _} _.
Arguments x_transfer {W _} _.
Arguments x_progress {W _} _ _.

Definition LEO_APT_ENV : argv_t := [str "DEBIAN_FRONTEND=noninteractive"].

Section exec.
Context {W : Type} `{Executor W} `{!FileSystem W} `{!PatchManager W} `{CLib} `{OpenSSL}.

Definition run_script (ctx : _exec_ctx_t) (e : exec_env W) : prog W report :=
  '(rc, result) ← exec_script (interpreter ctx) (script ctx) (timeout_secs ctx) (x_stack e);
  mret match rc with
       | LEO_OK => report_result result
       | LEO_ERR_TIMEOUT =>
           report_failure (str "Timeout d'exécution dépassé — script interrompu (SIGKILL)")
       | LEO_ERR_PROTOCOL =>
           report_failure (fit 128 (str "Interpréteur non autorisé : " ++ interpreter ctx))
       | _ => report_failure (str "Erreur système lors de l'exécution du script")
       end.

Definition install_argv (names : argv_t) : argv_t :=
  [str "apt-get"; str "install"; str "-y"; str "--no-install-recommends"; str "--"] ++ names.

Definition run_install_pkg (ctx : _exec_ctx_t) (e : exec_env W) : prog W report :=
  '(rc, result) ← exec_argv apt_update_argv LEO_APT_ENV (timeout_secs ctx) (x_stack e);
  if negb (bool_decide (rc = LEO_OK)) || negb (exit_code result =? 0) then
    mret (if bool_decide (rc = LEO_OK) then report_result result
          else if bool_decide (rc = LEO_ERR_TIMEOUT)
          then report_failure (str "Timeout pendant 'apt-get update'")
          else report_failure (str "Erreur système pendant 'apt-get update'"))
  else
    '(irc, install_result) ← exec_argv (install_argv (pkg_names ctx)) LEO_APT_ENV (timeout_secs ctx) (x_stack e);
    mret (if bool_decide (irc = LEO_OK) then report_local install_result
          else if bool_decide (irc = LEO_ERR_TIMEOUT)
          then report_failure (str "Timeout pendant 'apt-get install'")
          else report_failure (str "Erreur système pendant 'apt-get install'")).

Definition delay_arg (delay_sec : Z) : list ascii :=
  if 0 <? delay_sec then fit 16 (str "+" ++ fmt_d (Z.quot (delay_sec + 59) 60)) else str "now".

Definition shutdown_argv (delay_sec : Z) : argv_t := [str "shutdown"; str "-r"; delay_arg delay_sec].

Definition run_reboot (ctx : _exec_ctx_t) (e : exec_env W) : prog W report :=
  '(rc, result) ← exec_argv (shutdown_argv (reboot_delay_sec ctx)) [] (timeout_secs ctx) (x_stack e);
  if bool_decide (rc = LEO_OK) && (exit_code result =? 0) then mret (report_result result)
  else
    '(frc, fallback_result) ← exec_argv systemctl_argv [] (timeout_secs ctx) (x_stack e);
    mret (if bool_decide (frc = LEO_OK) then report_local fallback_result
          else if bool_decide (frc = LEO_ERR_TIMEOUT)
          then report_failure (str "Timeout pendant la planification du redémarrage")
          else report_failure (str "Erreur système lors de la planification du redémarrage " ++
                               str "(shutdown et systemctl ont tous deux échoué)")).

Definition run_install_patches (ctx : _exec_ctx_t) (e : exec_env W) : prog W (outcome report) :=
  o ← install_patches (x_patches e) (patch_ids ctx) (reboot_after ctx) (timeout_secs ctx) (x_stack e);
  mret ('(rc, result) ← o;
        Ret (if bool_decide (rc = LEO_OK) then report_result result
             else if bool_decide (rc = LEO_ERR_TIMEOUT)
             then report_failure (str "Timeout pendant l'installation des patchs")
             else report_failure (str "Erreur système pendant l'installation des patchs"))).

(** [final_path] and the inner [err_buf] are local to the [case]. *)
Definition run_file_transfer (ctx : _exec_ctx_t) (conn : leo_conn) (e : exec_env W) :
    prog W (outcome (report * leo_conn)) :=
  fun w =>
    match leo_file_transfer_run (x_progress e) (get_files w) conn (cmd_id ctx) (download_url ctx) (file_name ctx)
            (sha256_hex ctx) (file_size ctx) (timeout_secs ctx) 600 256 (x_transfer e) with
    | None => (None, w)
    | Some (rc, final_path, err_buf, fs, conn') =>
        (Some (Ret (if bool_decide (rc = LEO_OK) then mk_report 0 Dangling empty_string
                    else mk_report (-1) empty_string
                           (if bool_decide (err_buf = []) then Live (str "Échec du transfert de fichier") else Dangling),
                    conn')), put_files fs w)
    end.

(** The [switch] of [_exec_thread]; the update service of a platform may
    meet undefined behaviour. *)
Definition exec_switch (ctx : _exec_ctx_t) (conn : leo_conn) (e : exec_env W) : prog W (outcome (report * leo_conn)) :=
  match kind ctx with
  | _EXEC_KIND_SCRIPT => r ← run_script ctx e; mret (Ret (r, conn))
  | _EXEC_KIND_INSTALL_PKG => r ← run_install_pkg ctx e; mret (Ret (r, conn))
  | _EXEC_KIND_REBOOT => r ← run_reboot ctx e; mret (Ret (r, conn))
  | _EXEC_KIND_INSTALL_PATCHES => o ← run_install_patches ctx e; mret (r ← o; Ret (r, conn))
  | _EXEC_KIND_FILE_TRANSFER => run_file_transfer ctx conn e
  end.

(** [leo_proto_build_cmd_result], and the message sent when it was built; the
    second result is the message the connection accepted. *)
Definition send_cmd_result (c : leo_conn) (e : ser_env) (id : list ascii) (exit_code : Z)
    (stdout_s stderr_s : list ascii) : leo_conn * option (list ascii) :=
  match leo_proto_build_cmd_result e id exit_code stdout_s stderr_s LEO_MAX_MSG_SIZE with
  | Some buf =>
      if 0 <? strlen buf then
        match leo_conn_send c buf with
        | (LEO_OK, c) => (c, Some buf)
        | (_, c) => (c, None)
        end
      else (c, None)
  | None => (c, None)
  end.

(** What [_exec_thread] does after the [switch], up to the end of its use of
    the connection. *)
Definition exec_report (ctx : _exec_ctx_t) (conn : leo_conn) (r : report) (e : ser_env) :
    outcome (leo_conn * option (list ascii)) :=
  stdout_s ← deref (rep_stdout r);
  stderr_s ← deref (rep_stderr r);
  Ret (send_cmd_result conn e (cmd_id ctx) (rep_exit_code r) stdout_s stderr_s).

(** The CMD_RESULT it builds, if it can. *)
Definition exec_reply (ctx : _exec_ctx_t) (r : report) (e : ser_env) : outcome (option (list ascii)) :=
  stdout_s ← deref (rep_stdout r);
  stderr_s ← deref (rep_stderr r);
  Ret (leo_proto_build_cmd_result e (cmd_id ctx) (rep_exit_code r) stdout_s stderr_s LEO_MAX_MSG_SIZE).

Definition _exec_thread (ctx : _exec_ctx_t) (conn : leo_conn) (e : exec_env W) (se : ser_env) :
    prog W (outcome (leo_conn * option (list ascii))) :=
  o ← exec_switch ctx conn e;
  mret ('(r, conn) ← o; exec_report ctx conn r se).

(** *** Inventory *)

(** What the platform collects: the hardware, and the software when both the
    allocation and the collection succeed. *)
Record inventory_env : Type := mk_inventory {
  inv_hw : leo_error_t * leo_hw_inventory_t;
  inv_sw_calloc_ok : bool;
  inv_sw : option (list leo_sw_item_t);   (* [None]: the result was negative *)
  inv_ser : ser_env;
  inv_result_ser : ser_env;
}.

(** The INVENTORY message, and the result the thread then reports: the exit
    code, the summary and the error. *)
Definition inventory_result (conn : leo_conn) (e : inventory_env) : leo_conn * Z * list ascii * list ascii :=
  let sw := if inv_sw_calloc_ok e then default [] (inv_sw e) else [] in
  let sw_count := Z.of_nat (length sw) in
  if negb (bool_decide ((inv_hw e).1 = LEO_OK))
  then (conn, -1, [], str "Échec de la collecte de l'inventaire matériel")
  else
    match leo_proto_build_inventory (inv_ser e) (inv_hw e).2 sw sw_count LEO_MAX_MSG_SIZE with
    | Some buf =>
        if 0 <? strlen buf then
          match leo_conn_send conn buf with
          | (LEO_OK, conn) =>
              (conn, 0, fit 64 (str "Inventaire envoyé (" ++ fmt_d sw_count ++ str " logiciel(s))"), [])
          | (_, conn) => (conn, -1, [], str "Échec envoi du message INVENTORY")
          end
        else (conn, -1, [], str "Échec de sérialisation de l'inventaire (trop volumineux ?)")
    | None => (conn, -1, [], str "Échec de sérialisation de l'inventaire (trop volumineux ?)")
    end.

Definition inventory_reply (id : list ascii) (conn : leo_conn) (e : inventory_env) : option (list ascii) :=
  let '(_, exit_code, summary, err_s) := inventory_result conn e in
  leo_proto_build_cmd_result (inv_result_ser e) id exit_code summary err_s LEO_MAX_MSG_SIZE.

Definition _inventory_thread (id : list ascii) (conn : leo_conn) (e : inventory_env) :
    leo_conn * option (list ascii) :=
  let '(conn, exit_code, summary, err_s) := inventory_result conn e in
  send_cmd_result conn (inv_result_ser e) id exit_code summary err_s.

End exec.

(** ** What a command runs *)

(** The command lines a context may lead to. *)
Definition command_of W `{Executor W} (ctx : _exec_ctx_t) (argv : argv_t) : Prop :=
  match kind ctx with
  | _EXEC_KIND_SCRIPT =>
      interpreter ctx ∈ interpreters W /\ exists tmp, argv = script_argv W (interpreter ctx) tmp
  | _EXEC_KIND_INSTALL_PKG => argv = apt_update_argv \/ argv = install_argv (pkg_names ctx)
  | _EXEC_KIND_REBOOT => argv = shutdown_argv (reboot_delay_sec ctx) \/ argv = systemctl_argv
  | _EXEC_KIND_INSTALL_PATCHES => patch_command (patch_ids ctx) (reboot_after ctx) argv
  | _EXEC_KIND_FILE_TRANSFER => False
  end.

(** *** What a command sends *)

Section replies.
Context `{CLib}.

(** The messages the connection accepted grow by the CMD_RESULT that was
    sent, whole, and by nothing else. *)
Lemma cmd_result_sent c e id code out err :
  let '(c', m) := send_cmd_result c e id code out err in
  sends c c' /\ accepted c' = accepted c ++ option_list m /\
  forall txt, m = Some txt -> leo_proto_build_cmd_result e id code out err LEO_MAX_MSG_SIZE = Some txt.
Proof.
  unfold send_cmd_result. destruct (leo_proto_build_cmd_result _ _ _ _ _ _) as [buf|] eqn:B;
    [|split_and!; [apply rtc_refl|by rewrite app_nil_r|done]].
  destruct (0 <? strlen buf); [|split_and!; [apply rtc_refl|by rewrite app_nil_r|done]].
  assert (strlen buf < LEO_MAX_MSG_SIZE) as Hl.
  { unfold leo_proto_build_cmd_result in B. destruct (body_ok e); [|done]. by apply serialize_fits in B. }
  pose proof (send_accepted c buf) as Ha. pose proof (sends_one c buf) as Hs.
  rewrite take_Z_all in Ha by (unfold strlen in Hl; lia).
  destruct (leo_conn_send c buf) as [[] c']; simpl in *; by split_and!; [|rewrite Ha|intros ? [= <-] || idtac].
Qed.

Lemma inventory_notes c e : notes c (inventory_result c e).1.1.1.
Proof.
  unfold inventory_result. destruct (negb _); [apply rtc_refl|].
  destruct (leo_proto_build_inventory _ _ _ _ _) as [buf|] eqn:B; [|apply rtc_refl].
  destruct (0 <? strlen buf); [|apply rtc_refl].
  assert (note_text buf) as Hn by (unfold leo_proto_build_inventory in B; built_note B).
  pose proof (notes_one c buf Hn) as Hs. by destruct (leo_conn_send c buf) as [[] c'].
Qed.

End replies.

(** Whether reading the outputs of a report is defined. *)
Definition readable (r : report) : bool := defined (deref (rep_stdout r)) && defined (deref (rep_stderr r)).

Section exec_lemmas.
Context {W : Type} `{ExecutorLaws W} `{!FileSystem W} `{!PatchManager W} `{!PatchManagerLaws W} `{CLib} `{OpenSSL}.

Lemma runs_only_script (P : argv_t -> Prop) i s t old :
  (i ∈ interpreters W -> forall tmp, P (script_argv W i tmp)) -> runs_only (W := W) P (exec_script i s t old).
Proof.
  intros Hp w. destruct (exec_script_log i s t old w) as [-> |(Hi & tmp & ->)].
  - exists []. by rewrite app_nil_r.
  - exists [script_argv W i tmp]. auto.
Qed.

Lemma exec_switch_runs ctx conn e : runs_only (W := W) (command_of W ctx) (exec_switch ctx conn e).
Proof.
  unfold exec_switch, command_of. destruct (kind ctx).
  - apply runs_only_bind; [|auto with leo]. apply runs_only_bind; [|intros [rc r]; auto with leo].
    apply runs_only_script. eauto.
  - apply runs_only_bind; [|auto with leo]. apply runs_only_bind; [auto with leo|]. intros [rc r].
    destruct (_ || _); [auto with leo|]. apply runs_only_bind; [auto with leo|]. intros [irc ir]. auto with leo.
  - apply runs_only_bind; [|auto with leo]. apply runs_only_bind; [auto with leo|]. intros [rc r].
    destruct (_ && _); [auto with leo|]. apply runs_only_bind; [auto with leo|]. intros [irc ir]. auto with leo.
  - apply runs_only_bind; [|auto with leo]. apply runs_only_bind; [apply install_patches_runs|].
    intros o. auto with leo.
  - intros w. exists []. rewrite app_nil_r. unfold run_file_transfer.
    destruct (leo_file_transfer_run _ _ _ _ _ _ _ _ _ _ _ _) as [[[[[? ?] ?] ?] ?]|]; simpl; auto using put_files_log.
Qed.

(** The outputs of scripts and of patch installations are always in live
    buffers. *)
Lemma script_report_live ctx e : returns (fun r => readable r = true) (run_script (W := W) ctx e).
Proof. apply returns_bind. intros [[] r]; by apply returns_ret. Qed.

Lemma patches_report_live ctx e :
  returns (fun o => forall r, o = Ret r -> readable r = true) (run_install_patches (W := W) ctx e).
Proof.
  apply returns_bind. intros [[rc r]|]; apply returns_ret; [|done]. intros r' [= <-]. by repeat case_goal.
Qed.

(** *** Bounds *)

Lemma exec_script_fits i s t old :
  returns (fun p => p.1 = LEO_OK -> fits p.2) (exec_script (W := W) i s t old).
Proof. intros w [err r] w' E. simpl. intros ->. by apply exec_script_result in E. Qed.

(** What the CMD_RESULT of a script or of a patch installation carries. *)
Definition carried (r : report) (code : Z) (out err : list ascii) : Prop :=
  r = mk_report code (Live out) (Live err) /\
  strlen out < LEO_EXEC_STDOUT_MAX /\ strlen err < LEO_EXEC_STDERR_MAX.

Lemma carried_result r : fits r -> exists code out err, carried (report_result r) code out err.
Proof.
  intros [Ho He]. pose proof (c_str_length (stdout_buf r)). pose proof (c_str_length (stderr_buf r)).
  eexists _, _, _. split_and!; [done|lia|lia].
Qed.

Lemma carried_failure m : strlen m < LEO_EXEC_STDERR_MAX -> exists code out err, carried (report_failure m) code out err.
Proof. intros ?. by eexists _, _, _. Qed.

Lemma script_report_carried ctx e :
  returns (fun r => exists code out err, carried r code out err) (run_script (W := W) ctx e).
Proof.
  eapply (returns_bind_strong _ (fun p => p.1 = LEO_OK -> fits p.2)); [apply exec_script_fits|].
  intros [rc r] Hr. apply returns_ret.
  destruct rc; try (apply carried_failure; vm_compute; done); [by apply carried_result, Hr|].
  apply carried_failure. pose proof (fit_length 128 (str "Interpréteur non autorisé : " ++ interpreter ctx)).
  unfold LEO_EXEC_STDERR_MAX in *. lia.
Qed.

Lemma patches_report_carried ctx e :
  returns (fun o => forall r, o = Ret r -> exists code out err, carried r code out err)
    (run_install_patches (W := W) ctx e).
Proof.
  eapply (returns_bind_strong _ (fun o => forall p, o = Ret p -> run_ok p)); [apply install_patches_result|].
  intros [[rc r]|] Hr; apply returns_ret; [|done]. intros r' [= <-]. destruct (Hr _ eq_refl) as [_ Hf].
  repeat case_goal; breflect.
  - by apply carried_result, Hf.
  - apply carried_failure; vm_compute; done.
  - apply carried_failure; vm_compute; done.
Qed.

(** When a script or a patch installation ends (and the update service
    has met no undefined behaviour), exactly one CMD_RESULT is built for its
    identifier, from output buffers that are still alive and hold terminated
    strings. *)
Theorem command_result_reported ctx conn e se w o w' :
  kind ctx = _EXEC_KIND_SCRIPT \/ kind ctx = _EXEC_KIND_INSTALL_PATCHES ->
  exec_switch (W := W) ctx conn e w = (Some (Ret o), w') ->
  exists code out err, exec_report ctx o.2 o.1 se = Ret (send_cmd_result conn se (cmd_id ctx) code out err) /\
  strlen out < LEO_EXEC_STDOUT_MAX /\ strlen err < LEO_EXEC_STDERR_MAX.
Proof.
  intros Hk E.
  assert (returns (fun o => forall p, o = Ret p -> p.2 = conn /\ exists code out err, carried p.1 code out err)
    (exec_switch (W := W) ctx conn e)) as Hs.
  { unfold exec_switch. destruct Hk as [-> | ->].
    - eapply returns_bind_strong; [apply script_report_carried|]. intros r Hr. apply returns_ret. by intros p [= <-].
    - eapply returns_bind_strong; [apply patches_report_carried|]. intros [r|] Hr; apply returns_ret; [|done].
      intros p [= <-]. auto. }
  destruct (Hs _ _ _ E _ eq_refl) as (Hc & code & out & err & Hr & Ho & He). rewrite Hc, Hr. by eexists _, _, _.
Qed.

Lemma exec_switch_notes ctx conn e :
  returns (fun o => forall p, o = Ret p -> notes conn p.2) (exec_switch (W := W) ctx conn e).
Proof.
  unfold exec_switch. destruct (kind ctx);
    try (apply returns_bind; intros r; apply returns_ret; intros p [= <-]; apply rtc_refl).
  - apply returns_bind. intros [r|]; apply returns_ret; [|done]. intros p [= <-]. apply rtc_refl.
  - intros w o w'. unfold run_file_transfer.
    destruct (leo_file_transfer_run _ _ _ _ _ _ _ _ _ _ _ _) as [[[[[rc path] err] fs] c']|] eqn:E; [|done].
    intros [= <- _] p [= <-]. by apply run_notes in E.
Qed.

Lemma exec_report_readable ctx conn r e :
  readable r = true -> exists c', exec_report ctx conn r e = Ret c'.
Proof. unfold readable, exec_report. destruct (rep_stdout r), (rep_stderr r); simpl; try done. eauto. Qed.

End exec_lemmas.

(** The delay given to [shutdown] in minutes is the requested one rounded
    up: the machine never restarts before it. *)
Lemma reboot_delay d : 0 < d <= 3600 ->
  exists m, shutdown_argv d = [str "shutdown"; str "-r"; str "+" ++ fmt_d m] /\
  60 * (m - 1) < d <= 60 * m /\ 1 <= m <= 60.
Proof.
  intros Hd. exists ((d + 59) `quot` 60).
  rewrite Z.quot_div_nonneg by lia. pose proof (Z.div_mod (d + 59) 60 ltac:(lia)).
  pose proof (Z.mod_pos_bound (d + 59) 60 ltac:(lia)).
  split_and!; try lia. unfold shutdown_argv, delay_arg.
  destruct (Z.ltb_spec 0 d); [|lia]. rewrite Z.quot_div_nonneg by lia.
  assert (1 <= (d + 59) `div` 60 <= 60) as Hm by lia. generalize dependent ((d + 59) `div` 60). intros m _ Hm.
  do 3 f_equal. assert (exists k, m = Z.of_nat k /\ (k <= 60)%nat) as (k & -> & Hk) by (exists (Z.to_nat m); lia).
  do 61 (destruct k as [|k]; [vm_compute; reflexivity|]). lia.
Qed.

(** ** Evaluations *)

Definition sample_exec_env : exec_env linux_world :=
  mk_exec_env result_zero (mk_pkgmgr true false None)
    (mk_transfer open_io true true true 0 [] true []) (fun _ => sample_env).

Lemma command_result_reported_witness :
  let ctx := ctx_patches (ctx_new (str "42") _EXEC_KIND_INSTALL_PATCHES 60) [str "bash"] false in
  exists o w', @exec_switch linux_world _ _ _ decimal_lib toy_openssl ctx idle_conn sample_exec_env quiet_world
    = (Some (Ret o), w') /\
  exists code out err,
    @exec_report decimal_lib ctx o.2 o.1 sample_env =
      Ret (@send_cmd_result decimal_lib idle_conn sample_env (str "42") code out err) /\
    strlen out < LEO_EXEC_STDOUT_MAX /\ strlen err < LEO_EXEC_STDERR_MAX.
Proof.
  intros ctx. eexists _, _. split; [vm_compute; reflexivity|].
  eapply (@command_result_reported linux_world _ _ _ _ _ decimal_lib toy_openssl ctx idle_conn sample_exec_env
    sample_env quiet_world).
  - right. reflexivity.
  - vm_compute. reflexivity.
Defined.

(** The result of a successful package installation is read after the
    block that holds it has ended: the thread reaches undefined behaviour,
    and so it does for the path or the error text of a file transfer. *)
Theorem install_result_dangling :
  (@_exec_thread linux_world _ _ _ decimal_lib toy_openssl
     (ctx_pkgs (ctx_new (str "42") _EXEC_KIND_INSTALL_PKG 60) [str "htop"]) idle_conn sample_exec_env
     sample_env quiet_world).1 = Some Undef /\
  (@_exec_thread linux_world _ _ _ decimal_lib toy_openssl
     (ctx_file (ctx_new (str "42") _EXEC_KIND_FILE_TRANSFER 60) (str "ftp:") (str "a.bin") [] 0) idle_conn
     sample_exec_env sample_env quiet_world).1 = Some Undef.
Proof. split; vm_compute; reflexivity. Qed.
