(* ===== verification/Dispatch.v ===== *)
(** Commands and messages: the dispatchers and [_on_message] of
    [src/agent.c], with the slots that bound the command threads.

    [agent] is [struct leo_agent].  [running] holds the detached command
    threads, [rd] the state of the remote desktop, and the last two fields
    are histories that are not in the code: the identifiers of the commands
    received, and those whose CMD_RESULT the code has finished with, each with
    the message when it was built and the connection accepted it. *)
From S2P Require Import Prelude CString Double Types Json JsonParse Protocol Config Url.
From S2P Require Import Crypto Ring Connection Executor Platform Patches FileTransfer RemoteDesktop Exec.

(** A command thread: at work, past its [switch] with the result to report,
    in a call that never returns, or collecting an inventory. *)
Inductive thread : Type :=
| Working (ctx : _exec_ctx_t)
| Reporting (ctx : _exec_ctx_t) (r : report)
| Hung (ctx : _exec_ctx_t)
| Collecting (id : list ascii).

Definition thread_id (t : thread) : list ascii :=
  match t with
  | Working ctx | Reporting ctx _ | Hung ctx => cmd_id ctx
  | Collecting id => id
  end.

Record agent : Type := mk_agent {
  ag_config : leo_config_t;
  ag_conn : leo_conn;
  ag_state : leo_agent_state_t;
  threads_stop : bool;
  force_heartbeat_pending : bool;
  exec_active_count : Z;
  running : list thread;
  rd : rd_global;
  asked : list (list ascii);
  answered : list (list ascii * option (list ascii));
}.

Definition set_conn (ag : agent) (c : leo_conn) : agent :=
  mk_agent (ag_config ag) c (ag_state ag) (threads_stop ag) (force_heartbeat_pending ag)
    (exec_active_count ag) (running ag) (rd ag) (asked ag) (answered ag).
Definition set_config (ag : agent) (cfg : leo_config_t) (st : leo_agent_state_t) : agent :=
  mk_agent cfg (ag_conn ag) st (threads_stop ag) (force_heartbeat_pending ag)
    (exec_active_count ag) (running ag) (rd ag) (asked ag) (answered ag).
Definition set_flags (ag : agent) (stop force : bool) : agent :=
  mk_agent (ag_config ag) (ag_conn ag) (ag_state ag) stop force
    (exec_active_count ag) (running ag) (rd ag) (asked ag) (answered ag).
Definition set_exec (ag : agent) (n : Z) (l : list thread) : agent :=
  mk_agent (ag_config ag) (ag_conn ag) (ag_state ag) (threads_stop ag) (force_heartbeat_pending ag)
    n l (rd ag) (asked ag) (answered ag).
Definition set_rd (ag : agent) (g : rd_global) : agent :=
  mk_agent (ag_config ag) (ag_conn ag) (ag_state ag) (threads_stop ag) (force_heartbeat_pending ag)
    (exec_active_count ag) (running ag) g (asked ag) (answered ag).
Definition ask (ag : agent) (id : list ascii) : agent :=
  mk_agent (ag_config ag) (ag_conn ag) (ag_state ag) (threads_stop ag) (force_heartbeat_pending ag)
    (exec_active_count ag) (running ag) (rd ag) (asked ag ++ [id]) (answered ag).
Definition answer (ag : agent) (id : list ascii) (m : option (list ascii)) : agent :=
  mk_agent (ag_config ag) (ag_conn ag) (ag_state ag) (threads_stop ag) (force_heartbeat_pending ag)
    (exec_active_count ag) (running ag) (rd ag) (asked ag) (answered ag ++ [(id, m)]).

(** What a handler meets: the randomness and clock of its reply, whether
    [calloc], [strdup] and [pthread_create] succeed, whether the new thread has
    already freed its context when the handler logs it, and whether the session
    thread has ended when the handler logs its session. *)
Record dispatch_env : Type := mk_dispatch_env {
  d_ser : ser_env;
  calloc_ok : bool;
  strdup_ok : bool;
  create_ok : bool;
  ctx_freed : bool;
  session_gone : bool;
}.

(** ** Numbers of a message *)

(** [(int)v] is undefined outside the range of [int]: the bounds are tested
    on the [double]. *)
Definition _json_number_clamped (v : double) (lo hi : Z) : outcome Z :=
  if isnan v then Ret lo
  else if dlt v (d_of_Z lo) then Ret lo
  else if dgt v (d_of_Z hi) then Ret hi
  else cast_int v.

Definition _clamp_timeout (timeout_secs : Z) : Z :=
  if timeout_secs <=? 0 then LEO_EXEC_DEFAULT_TIMEOUT_SEC
  else if LEO_EXEC_MAX_TIMEOUT_SEC <? timeout_secs then LEO_EXEC_MAX_TIMEOUT_SEC
  else timeout_secs.

(** [if (cJSON_IsNumber(j) && j->valuedouble > 0) ...], with the value kept
    otherwise. *)
Definition positive_number (j : option cJSON) (lo hi dflt : Z) : outcome Z :=
  match cJSON_IsNumber j with
  | Some v => if dgt v (d_of_Z 0) then _json_number_clamped v lo hi else Ret dflt
  | None => Ret dflt
  end.

Definition field (body : option cJSON) (name : string) : option cJSON :=
  b ← body; cJSON_GetObjectItemCaseSensitive b (str name).

(** ** Names *)

Definition name_char (c : ascii) : bool :=
  isalnum c || bool_decide (c = "."%char) || bool_decide (c = "+"%char) || bool_decide (c = "-"%char) ||
  bool_decide (c = "_"%char) || bool_decide (c = ":"%char).

Definition _pkg_name_valid (name : list ascii) : bool :=
  negb (strlen name =? 0) && (strlen name <=? LEO_PKG_NAME_MAX_LEN) && forallb name_char name.

Definition _patch_id_valid (id : list ascii) : bool :=
  negb (strlen id =? 0) && (strlen id <? LEO_PATCH_ID_MAX_LEN) && forallb name_char id.

(** The loop over an array: its strings, each copied by [f], up to [max]. *)
Fixpoint collect_strings (f : list ascii -> list ascii) (max : Z) (items : list cJSON) (acc : argv_t) : argv_t :=
  match items with
  | [] => acc
  | item :: items' =>
      if max <=? Z.of_nat (length acc) then acc
      else collect_strings f max items'
             match cJSON_IsString (Some item) with Some s => acc ++ [f s] | None => acc end
  end.

Section dispatch.
Context `{CLib}.

(** ** Slots and threads *)

Definition _send_cmd_error (ag : agent) (e : ser_env) (id err_msg : list ascii) : agent :=
  let '(c, m) := send_cmd_result (ag_conn ag) e id (-1) [] err_msg in answer (set_conn ag c) id m.

Definition _reserve_exec_slot (ag : agent) (e : ser_env) (id : list ascii) : bool * agent :=
  if LEO_EXEC_MAX_CONCURRENT <=? exec_active_count ag
  then (false, _send_cmd_error ag e id (str "Trop de commandes en cours d'exécution sur l'agent"))
  else (true, set_exec ag (exec_active_count ag + 1) (running ag)).

Definition _release_exec_slot (ag : agent) : agent := set_exec ag (exec_active_count ag - 1) (running ag).

Definition _spawn_detached (ag : agent) (env : dispatch_env) (id : list ascii) (t : thread) : bool * agent :=
  if negb (create_ok env)
  then (false, _send_cmd_error (_release_exec_slot ag) (d_ser env) id (str "Erreur interne de l'agent (thread)"))
  else (true, set_exec ag (exec_active_count ag) (running ag ++ [t])).

(** The path taken when the context cannot be allocated. *)
Definition alloc_failed (ag : agent) (env : dispatch_env) (id : list ascii) : agent :=
  _send_cmd_error (_release_exec_slot ag) (d_ser env) id (str "Erreur interne de l'agent (allocation)").

(** ** Dispatchers *)

Definition _launch_exec (ag : agent) (id interp scr : list ascii) (timeout : Z) (env : dispatch_env) : agent :=
  let timeout := _clamp_timeout timeout in
  match _reserve_exec_slot ag (d_ser env) id with
  | (false, ag) => ag
  | (true, ag) =>
      if negb (calloc_ok env) || negb (strdup_ok env) then alloc_failed ag env id
      else
        let ctx := ctx_script (ctx_new id _EXEC_KIND_SCRIPT timeout) (fit INTERPRETER_SZ interp) scr in
        (_spawn_detached ag env id (Working ctx)).2
  end.

Definition _dispatch_exec_script (ag : agent) (id : list ascii) (body : option cJSON) (env : dispatch_env) :
    outcome agent :=
  timeout ← positive_number (field body "timeout_sec") 1 LEO_EXEC_MAX_TIMEOUT_SEC LEO_EXEC_DEFAULT_TIMEOUT_SEC;
  match cJSON_IsString (field body "interpreter"), cJSON_IsString (field body "script") with
  | Some interp, Some scr => Ret (_launch_exec ag id interp scr timeout env)
  | _, _ => Ret (_send_cmd_error ag (d_ser env) id (str "Requête invalide : 'interpreter' et 'script' requis"))
  end.

Definition pkg_names_of (body : option cJSON) : argv_t :=
  match cJSON_IsArray (field body "packages") with
  | Some items => collect_strings (fun s => s) LEO_PKG_MAX_COUNT items []
  | None => match cJSON_IsString (field body "package") with Some s => [s] | None => [] end
  end.

Definition _dispatch_install_pkg (ag : agent) (id : list ascii) (body : option cJSON) (env : dispatch_env) :
    outcome agent :=
  let names := pkg_names_of body in
  timeout ← positive_number (field body "timeout_sec") 1 LEO_EXEC_MAX_TIMEOUT_SEC LEO_EXEC_DEFAULT_TIMEOUT_SEC;
  if bool_decide (names = [])
  then Ret (_send_cmd_error ag (d_ser env) id (str "Requête invalide : 'package' ou 'packages' requis"))
  else if negb (forallb _pkg_name_valid names)
  then Ret (_send_cmd_error ag (d_ser env) id (str "Requête invalide : nom de paquet non autorisé"))
  else
    match _reserve_exec_slot ag (d_ser env) id with
    | (false, ag) => Ret ag
    | (true, ag) =>
        if negb (calloc_ok env) then Ret (alloc_failed ag env id)
        else
          let ctx := ctx_pkgs (ctx_new id _EXEC_KIND_INSTALL_PKG (_clamp_timeout timeout))
                       (map (fit (LEO_PKG_NAME_MAX_LEN + 1)) names) in
          Ret (_spawn_detached ag env id (Working ctx)).2
    end.

Definition patch_ids_of (body : option cJSON) : argv_t :=
  match cJSON_IsArray (field body "patch_ids") with
  | Some items => collect_strings (fit LEO_PATCH_ID_MAX_LEN) LEO_PATCH_INSTALL_MAX_COUNT items []
  | None => []
  end.

Definition _dispatch_install_patches (ag : agent) (id : list ascii) (body : option cJSON) (env : dispatch_env) :
    outcome agent :=
  let names := patch_ids_of body in
  let reboot := match cJSON_IsBool (field body "reboot_after") with Some b => b | None => false end in
  timeout ← positive_number (field body "timeout_sec") 1 LEO_EXEC_MAX_TIMEOUT_SEC LEO_EXEC_DEFAULT_TIMEOUT_SEC;
  if bool_decide (names = [])
  then Ret (_send_cmd_error ag (d_ser env) id (str "Requête invalide : 'patch_ids' requis"))
  else if negb (forallb _patch_id_valid names)
  then Ret (_send_cmd_error ag (d_ser env) id (str "Requête invalide : identifiant de patch non autorisé"))
  else
    match _reserve_exec_slot ag (d_ser env) id with
    | (false, ag) => Ret ag
    | (true, ag) =>
        if negb (calloc_ok env) then Ret (alloc_failed ag env id)
        else
          let ctx := ctx_patches (ctx_new id _EXEC_KIND_INSTALL_PATCHES (_clamp_timeout timeout))
                       (map (fit LEO_PATCH_ID_MAX_LEN) names) reboot in
          Ret (_spawn_detached ag env id (Working ctx)).2
    end.

Definition LEO_FILE_TRANSFER_DEFAULT_TIMEOUT_SEC : Z := 1800.
Definition LEO_FILE_TRANSFER_MAX_TIMEOUT_SEC : Z := 7200.

(** A string member that is present and not empty. *)
Definition nonempty_string (j : option cJSON) : option (list ascii) :=
  match cJSON_IsString j with
  | Some ((_ :: _) as s) => Some s
  | _ => None
  end.

(** The size is converted without a bound, and the log line after the launch
    reads the context the new thread owns. *)
Definition _dispatch_file_transfer (ag : agent) (id : list ascii) (body : option cJSON) (env : dispatch_env) :
    outcome agent :=
  match body with
  | None => Ret (_send_cmd_error ag (d_ser env) id (str "Requête invalide : corps manquant"))
  | Some _ =>
      match nonempty_string (field body "download_url"), nonempty_string (field body "filename") with
      | Some url, Some name =>
          timeout ← positive_number (field body "timeout_sec") 1 LEO_FILE_TRANSFER_MAX_TIMEOUT_SEC
                      LEO_FILE_TRANSFER_DEFAULT_TIMEOUT_SEC;
          match _reserve_exec_slot ag (d_ser env) id with
          | (false, ag) => Ret ag
          | (true, ag) =>
              if negb (calloc_ok env) then Ret (alloc_failed ag env id)
              else
                let sha := match cJSON_IsString (field body "sha256") with
                           | Some s => fit LEO_FILE_SHA256_HEX_LEN s
                           | None => []
                           end in
                size ← match cJSON_IsNumber (field body "size_bytes") with
                       | Some v => if dgt v (d_of_Z 0) then cast_u64 v else Ret 0
                       | None => Ret 0
                       end;
                let ctx := ctx_file (ctx_new id _EXEC_KIND_FILE_TRANSFER timeout)
                             (fit LEO_FILE_URL_MAX_LEN url) (fit LEO_FILE_NAME_MAX_LEN name) sha size in
                match _spawn_detached ag env id (Working ctx) with
                | (true, ag) => if ctx_freed env then Undef else Ret ag
                | (false, ag) => Ret ag
                end
          end
      | _, _ =>
          Ret (_send_cmd_error ag (d_ser env) id (str "Requête invalide : 'download_url' et 'filename' requis"))
      end
  end.

Definition LEO_RD_FPS_MIN : Z := 1.
Definition LEO_RD_FPS_MAX : Z := 30.
Definition LEO_RD_QUALITY_MIN : Z := 1.
Definition LEO_RD_QUALITY_MAX : Z := 100.
Definition LEO_RD_DIM_MIN : Z := 1.
Definition LEO_RD_DIM_MAX : Z := 7680.

Definition number_or (j : option cJSON) (lo hi dflt : Z) : outcome Z :=
  match cJSON_IsNumber j with Some v => _json_number_clamped v lo hi | None => Ret dflt end.

Definition _dispatch_remote_desktop_start (ag : agent) (body : option cJSON) (env : dispatch_env) : outcome agent :=
  match body with
  | None => Ret ag
  | Some _ =>
      match nonempty_string (field body "session_id"), nonempty_string (field body "ws_url") with
      | Some sid, Some url =>
          fps ← number_or (field body "fps") LEO_RD_FPS_MIN LEO_RD_FPS_MAX 8;
          quality ← number_or (field body "quality") LEO_RD_QUALITY_MIN LEO_RD_QUALITY_MAX 60;
          max_width ← number_or (field body "max_width") LEO_RD_DIM_MIN LEO_RD_DIM_MAX 1920;
          max_height ← number_or (field body "max_height") LEO_RD_DIM_MIN LEO_RD_DIM_MAX 1080;
          let mode := match cJSON_IsString (field body "mode") with Some m => m | None => str "view" end in
          '(g, _) ← leo_rd_start (rd ag) (ag_config ag) sid url mode fps quality max_width max_height
                      (calloc_ok env) (create_ok env) (ctx_freed env);
          Ret (set_rd ag g)
      | _, _ => Ret ag
      end
  end.

Definition _dispatch_remote_desktop_stop (ag : agent) (body : option cJSON) (env : dispatch_env) : outcome agent :=
  '(g, _) ← leo_rd_stop (rd ag) (cJSON_IsString (field body "session_id")) (session_gone env);
  Ret (set_rd ag g).

Definition LEO_REBOOT_DEFAULT_DELAY_SEC : Z := 60.
Definition LEO_REBOOT_MAX_DELAY_SEC : Z := 3600.
Definition LEO_REBOOT_SCHEDULE_TIMEOUT_SEC : Z := 15.

Definition _dispatch_reboot (ag : agent) (id : list ascii) (body : option cJSON) (env : dispatch_env) :
    outcome agent :=
  delay_sec ← match cJSON_IsNumber (field body "delay_sec") with
              | Some v => if dge v (d_of_Z 0) then _json_number_clamped v 0 LEO_REBOOT_MAX_DELAY_SEC
                          else Ret LEO_REBOOT_DEFAULT_DELAY_SEC
              | None => Ret LEO_REBOOT_DEFAULT_DELAY_SEC
              end;
  match _reserve_exec_slot ag (d_ser env) id with
  | (false, ag) => Ret ag
  | (true, ag) =>
      if negb (calloc_ok env) then Ret (alloc_failed ag env id)
      else
        let ctx := ctx_reboot (ctx_new id _EXEC_KIND_REBOOT LEO_REBOOT_SCHEDULE_TIMEOUT_SEC) delay_sec in
        Ret (_spawn_detached ag env id (Working ctx)).2
  end.

Definition _dispatch_collect_inventory (ag : agent) (id : list ascii) (env : dispatch_env) : agent :=
  match _reserve_exec_slot ag (d_ser env) id with
  | (false, ag) => ag
  | (true, ag) =>
      if negb (calloc_ok env) then alloc_failed ag env id
      else (_spawn_detached ag env id (Collecting (fit LEO_UUID_STR_LEN id))).2
  end.

(** ** Messages *)

Definition set_intervals (cfg : leo_config_t) (metrics heartbeat : Z) : leo_config_t :=
  mk_config (agent_id cfg) (tenant_id cfg) (ws_endpoint cfg) (hostname cfg) (os_name cfg) (os_version cfg)
    (arch cfg) (hardware_id cfg) (ca_fingerprint cfg) metrics heartbeat.

Definition on_hello_ack (ag : agent) (body : option cJSON) : outcome agent :=
  let cfg := ag_config ag in
  hi ← positive_number (field body "heartbeat_interval_sec") 1 86400 (heartbeat_interval_sec cfg);
  mi ← positive_number (field body "metrics_interval_sec") 1 86400 (metrics_interval_sec cfg);
  Ret (set_config ag (set_intervals cfg mi hi) LEO_STATE_CONNECTED).

Definition on_config_update (ag : agent) (body : option cJSON) : outcome agent :=
  let cfg := ag_config ag in
  mi ← positive_number (field body "metrics_interval_sec") 1 86400 (metrics_interval_sec cfg);
  Ret (set_config ag (set_intervals cfg mi (heartbeat_interval_sec cfg)) (ag_state ag)).

Definition on_ping (ag : agent) (id : list ascii) (e : ser_env) : agent :=
  match leo_proto_build_pong e id LEO_MAX_MSG_SIZE with
  | Some buf => if 0 <? strlen buf then set_conn ag (leo_conn_send (ag_conn ag) buf).2 else ag
  | None => ag
  end.

(** The [switch] of [_on_message]. *)
Definition on_type (ag : agent) (t : leo_msg_type_t) (id : list ascii) (body : option cJSON) (env : dispatch_env) :
    outcome agent :=
  match t with
  | LEO_MSG_HELLO_ACK => on_hello_ack ag body
  | LEO_MSG_PING => Ret (on_ping ag id (d_ser env))
  | LEO_MSG_EXEC_SCRIPT => _dispatch_exec_script (ask ag id) id body env
  | LEO_MSG_INSTALL_PKG => _dispatch_install_pkg (ask ag id) id body env
  | LEO_MSG_REBOOT => _dispatch_reboot (ask ag id) id body env
  | LEO_MSG_COLLECT_INVENTORY => Ret (_dispatch_collect_inventory (ask ag id) id env)
  | LEO_MSG_INSTALL_PATCHES => _dispatch_install_patches (ask ag id) id body env
  | LEO_MSG_FILE_TRANSFER => _dispatch_file_transfer (ask ag id) id body env
  | LEO_MSG_REMOTE_DESKTOP_START => _dispatch_remote_desktop_start ag body env
  | LEO_MSG_REMOTE_DESKTOP_STOP => _dispatch_remote_desktop_stop ag body env
  | LEO_MSG_FORCE_HEARTBEAT => Ret (set_flags ag (threads_stop ag) true)
  | LEO_MSG_CONFIG_UPDATE => on_config_update ag body
  | _ => Ret ag
  end.

Definition _on_message (ag : agent) (json_str : list ascii) (env : dispatch_env) : outcome agent :=
  '(err, msg) ← leo_proto_parse json_str;
  if negb (bool_decide (err = LEO_OK)) then Ret ag
  else
    match msg_of_code (m_type msg) with
    | Some t => on_type ag t (m_id msg) (m_body msg) env
    | None => Ret ag
    end.

End dispatch.

(** ** Numbers are clamped before they are converted *)

Lemma clamped_spec v lo hi :
  INT_MIN <= lo -> lo <= hi -> hi <= INT_MAX -> exists z, _json_number_clamped v lo hi = Ret z /\ lo <= z <= hi.
Proof.
  intros Hlo Hle Hhi. unfold _json_number_clamped, dgt. unfold INT_MIN, INT_MAX in *.
  rewrite !d_of_Z_exact by lia.
  destruct v as [|n|m e]; simpl; [eexists; split; [done|lia]| |].
  { destruct n; (eexists; split; [done|lia]). }
  destruct (fin_lt m e lo 0) eqn:El; [eexists; split; [done|lia]|].
  destruct (fin_lt hi 0 m e) eqn:Eh; [eexists; split; [done|lia]|].
  destruct (d_trunc_between m e lo hi El Eh) as (z & Ez & Hz). unfold cast_int. rewrite Ez. exists z.
  unfold INT_MIN, INT_MAX. destruct (Z.leb_spec (-2147483648) z), (Z.leb_spec z 2147483647); try lia. done.
Qed.

Lemma positive_number_spec j lo hi dflt :
  INT_MIN <= lo -> lo <= hi -> hi <= INT_MAX ->
  exists z, positive_number j lo hi dflt = Ret z /\ (lo <= z <= hi \/ z = dflt).
Proof.
  intros. unfold positive_number. destruct (cJSON_IsNumber j) as [v|]; [|eauto].
  destruct (dgt v _); [|eauto]. destruct (clamped_spec v lo hi) as (z & -> & ?); eauto.
Qed.

Lemma number_or_spec j lo hi dflt :
  INT_MIN <= lo -> lo <= dflt <= hi -> hi <= INT_MAX ->
  exists z, number_or j lo hi dflt = Ret z /\ lo <= z <= hi.
Proof.
  intros. unfold number_or. destruct (cJSON_IsNumber j) as [v|]; [|eauto]. apply clamped_spec; lia.
Qed.

(** A number of a message converts to an [int] without undefined
    behaviour and within the given bounds, for every [double]: NaN,
    infinities and huge values included; a value within the bounds is only
    truncated. *)
Theorem number_clamped v lo hi :
  INT_MIN <= lo -> lo <= hi -> hi <= INT_MAX ->
  (exists z, _json_number_clamped v lo hi = Ret z /\ lo <= z <= hi) /\
  (forall z, lo <= z <= hi -> _json_number_clamped (d_of_Z z) lo hi = Ret z).
Proof.
  intros H1 H2 H3. split; [by apply clamped_spec|]. intros z Hz.
  unfold _json_number_clamped, dgt, INT_MIN, INT_MAX in *. rewrite !d_of_Z_exact by lia. simpl.
  unfold fin_lt. simpl. rewrite !Z.mul_1_r.
  destruct (Z.ltb_spec z lo), (Z.ltb_spec hi z); try lia. unfold cast_int, INT_MIN, INT_MAX. simpl.
  rewrite Z.mul_1_r. destruct (Z.leb_spec (-2147483648) z), (Z.leb_spec z 2147483647); try lia. done.
Qed.

Lemma number_clamped_witness :
  (exists z, _json_number_clamped (DFin 1 1000) 1 300 = Ret z /\ 1 <= z <= 300) /\
  _json_number_clamped (DFin 1 1000) 1 300 = Ret 300 /\ _json_number_clamped (d_of_Z 45) 1 300 = Ret 45.
Proof.
  destruct (number_clamped (DFin 1 1000) 1 300) as [Hv Hz]; [vm_compute; discriminate|lia|vm_compute; discriminate|].
  split; [exact Hv|]. split; [vm_compute; reflexivity|]. apply Hz. lia.
Defined.

Lemma clamp_timeout_range t : 1 <= _clamp_timeout t <= LEO_EXEC_MAX_TIMEOUT_SEC.
Proof.
  unfold _clamp_timeout, LEO_EXEC_DEFAULT_TIMEOUT_SEC, LEO_EXEC_MAX_TIMEOUT_SEC.
  destruct (Z.leb_spec t 0), (Z.ltb_spec 300 t); lia.
Qed.

(** *** Names *)

Lemma collect_strings_spec f (P : list ascii -> Prop) max items acc :
  0 <= max -> (forall s, P (f s)) -> Forall P acc -> Z.of_nat (length acc) <= max ->
  Forall P (collect_strings f max items acc) /\ Z.of_nat (length (collect_strings f max items acc)) <= max.
Proof.
  intros Hm Hf. revert acc. induction items as [|it items IH]; intros acc Ha Hl; simpl; [done|].
  destruct (Z.leb_spec max (Z.of_nat (length acc))); [done|].
  apply IH; destruct it; simpl; auto; [by apply Forall_app; auto|]. rewrite length_app. simpl. lia.
Qed.

Lemma pkg_name_valid_fit n : _pkg_name_valid n = true -> fit (LEO_PKG_NAME_MAX_LEN + 1) n = n.
Proof. unfold _pkg_name_valid. intros ?. breflect. apply fit_id. lia. Qed.

Lemma patch_id_valid_fit n : _patch_id_valid n = true -> fit LEO_PATCH_ID_MAX_LEN n = n.
Proof. unfold _patch_id_valid. intros ?. breflect. by apply fit_id. Qed.

Lemma map_fit_id {f : list ascii -> bool} {sz} names :
  (forall n, f n = true -> fit sz n = n) -> forallb f names = true -> map (fit sz) names = names.
Proof.
  intros Hf. induction names as [|n names IH]; [done|]. simpl. intros ?. breflect. f_equal; auto.
Qed.

Lemma pkg_names_length body : Z.of_nat (length (pkg_names_of body)) <= LEO_PKG_MAX_COUNT.
Proof.
  unfold pkg_names_of. destruct (cJSON_IsArray _) as [items|].
  - apply (collect_strings_spec _ (fun _ => True)); done.
  - by destruct (cJSON_IsString _).
Qed.

Lemma patch_ids_length body : Z.of_nat (length (patch_ids_of body)) <= LEO_PATCH_INSTALL_MAX_COUNT.
Proof.
  unfold patch_ids_of. destruct (cJSON_IsArray _) as [items|]; [|done].
  apply (collect_strings_spec _ (fun _ => True)); done.
Qed.

(** ** What a dispatcher does with a command *)

(** A context as every dispatcher prepares it. *)
Definition ctx_safe (ctx : _exec_ctx_t) : Prop :=
  match kind ctx with
  | _EXEC_KIND_SCRIPT =>
      1 <= timeout_secs ctx <= LEO_EXEC_MAX_TIMEOUT_SEC /\ strlen (interpreter ctx) < INTERPRETER_SZ
  | _EXEC_KIND_INSTALL_PKG =>
      1 <= timeout_secs ctx <= LEO_EXEC_MAX_TIMEOUT_SEC /\ pkg_names ctx <> [] /\
      Z.of_nat (length (pkg_names ctx)) <= LEO_PKG_MAX_COUNT /\ forallb _pkg_name_valid (pkg_names ctx) = true
  | _EXEC_KIND_REBOOT =>
      timeout_secs ctx = LEO_REBOOT_SCHEDULE_TIMEOUT_SEC /\ 0 <= reboot_delay_sec ctx <= LEO_REBOOT_MAX_DELAY_SEC
  | _EXEC_KIND_INSTALL_PATCHES =>
      1 <= timeout_secs ctx <= LEO_EXEC_MAX_TIMEOUT_SEC /\ patch_ids ctx <> [] /\
      Z.of_nat (length (patch_ids ctx)) <= LEO_PATCH_INSTALL_MAX_COUNT /\
      forallb _patch_id_valid (patch_ids ctx) = true
  | _EXEC_KIND_FILE_TRANSFER =>
      1 <= timeout_secs ctx <= LEO_FILE_TRANSFER_MAX_TIMEOUT_SEC /\ 0 <= file_size ctx < 2 ^ 64 /\
      strlen (file_name ctx) < LEO_FILE_NAME_MAX_LEN /\ strlen (download_url ctx) < LEO_FILE_URL_MAX_LEN
  end.

Definition thread_safe (t : thread) : Prop :=
  match t with
  | Working ctx | Reporting ctx _ | Hung ctx => ctx_safe ctx
  | Collecting _ => True
  end.

Section dispatch_lemmas.
Context `{CLib}.

(** A reason that is given for a refusal: a short text. *)
Definition refusal (msg : list ascii) : bool :=
  negb (bool_decide (msg = [])) && (strlen msg <? 128) && forallb texty msg.

(** A command is given to one new thread, in one new slot, or refused at
    once with a CMD_RESULT of exit code -1; nothing else changes. *)
Inductive dispatched (e : ser_env) (ag : agent) (id : list ascii) : agent -> Prop :=
| dispatched_launch t :
    thread_id t = id -> thread_safe t -> exec_active_count ag < LEO_EXEC_MAX_CONCURRENT ->
    dispatched e ag id (set_exec ag (exec_active_count ag + 1) (running ag ++ [t]))
| dispatched_refuse msg :
    refusal msg = true -> dispatched e ag id (_send_cmd_error ag e id msg).

Lemma release_reserved ag : _release_exec_slot (set_exec ag (exec_active_count ag + 1) (running ag)) = ag.
Proof. destruct ag. unfold _release_exec_slot, set_exec. simpl. f_equal. lia. Qed.

Lemma reserve_cases ag e id :
  (_reserve_exec_slot ag e id =
     (false, _send_cmd_error ag e id (str "Trop de commandes en cours d'exécution sur l'agent"))) \/
  (exec_active_count ag < LEO_EXEC_MAX_CONCURRENT /\
   _reserve_exec_slot ag e id = (true, set_exec ag (exec_active_count ag + 1) (running ag))).
Proof. unfold _reserve_exec_slot. destruct (Z.leb_spec LEO_EXEC_MAX_CONCURRENT (exec_active_count ag)); auto. Qed.

Lemma spawn_dispatched ag env id t :
  thread_id t = id -> thread_safe t -> exec_active_count ag < LEO_EXEC_MAX_CONCURRENT ->
  dispatched (d_ser env) ag id (_spawn_detached (set_exec ag (exec_active_count ag + 1) (running ag)) env id t).2.
Proof.
  intros Ht Hs Hc. unfold _spawn_detached. destruct (create_ok env); simpl.
  - exact (dispatched_launch (d_ser env) ag id t Ht Hs Hc).
  - rewrite release_reserved. by apply dispatched_refuse.
Qed.

Lemma alloc_failed_dispatched ag env id :
  dispatched (d_ser env) ag id (alloc_failed (set_exec ag (exec_active_count ag + 1) (running ag)) env id).
Proof. unfold alloc_failed. rewrite release_reserved. by apply dispatched_refuse. Qed.

Lemma ctx_new_id id k t : strlen id < LEO_UUID_STR_LEN -> cmd_id (ctx_new id k t) = id.
Proof. apply fit_id. Qed.

(** The end shared by the dispatchers: reserve, allocate, spawn. *)
Ltac slot ag env id :=
  destruct (reserve_cases ag (d_ser env) id) as [-> |[? ->]]; [by apply dispatched_refuse|];
  destruct (calloc_ok env); cbn [negb orb]; [|by apply alloc_failed_dispatched];
  try (apply spawn_dispatched; [by apply ctx_new_id| |done]).

(** The same below [Ret]; what is left is the safety of the context. *)
Ltac launch ag env id :=
  destruct (reserve_cases ag (d_ser env) id) as [-> |[? ->]]; [eexists; split; [done|by apply dispatched_refuse]|];
  destruct (calloc_ok env); cbn [negb]; eexists; (split; [done|]); [|by apply alloc_failed_dispatched];
  apply spawn_dispatched; [by apply ctx_new_id| |done].

Lemma exec_script_dispatched ag id body env : strlen id < LEO_UUID_STR_LEN ->
  exists ag', _dispatch_exec_script ag id body env = Ret ag' /\ dispatched (d_ser env) ag id ag'.
Proof.
  intros Hid. unfold _dispatch_exec_script.
  destruct (positive_number_spec (field body "timeout_sec") 1 LEO_EXEC_MAX_TIMEOUT_SEC LEO_EXEC_DEFAULT_TIMEOUT_SEC)
    as (t & -> & _); [done..|]. cbn [mbind outcome_bind].
  destruct (cJSON_IsString _) as [interp|]; [|eexists; split; [done|by apply dispatched_refuse]].
  destruct (cJSON_IsString _) as [scr|]; eexists; (split; [done|]); [|by apply dispatched_refuse].
  unfold _launch_exec. slot ag env id.
  destruct (strdup_ok env); cbn [negb]; [|by apply alloc_failed_dispatched].
  apply spawn_dispatched; [by apply ctx_new_id| |done].
  split; [apply clamp_timeout_range|]. by apply fit_length.
Qed.

Lemma install_pkg_dispatched ag id body env : strlen id < LEO_UUID_STR_LEN ->
  exists ag', _dispatch_install_pkg ag id body env = Ret ag' /\ dispatched (d_ser env) ag id ag'.
Proof.
  intros Hid. unfold _dispatch_install_pkg.
  destruct (positive_number_spec (field body "timeout_sec") 1 LEO_EXEC_MAX_TIMEOUT_SEC LEO_EXEC_DEFAULT_TIMEOUT_SEC)
    as (t & -> & _); [done..|]. cbn [mbind outcome_bind].
  destruct (bool_decide _) eqn:Hn; breflect; [eexists; split; [done|by apply dispatched_refuse]|].
  destruct (forallb _ _) eqn:Hv; [|eexists; split; [done|by apply dispatched_refuse]]. cbn [negb].
  assert (map (fit (LEO_PKG_NAME_MAX_LEN + 1)) (pkg_names_of body) = pkg_names_of body) as Hm
    by exact (map_fit_id _ pkg_name_valid_fit Hv).
  assert (ctx_safe (ctx_pkgs (ctx_new id _EXEC_KIND_INSTALL_PKG (_clamp_timeout t))
    (map (fit (LEO_PKG_NAME_MAX_LEN + 1)) (pkg_names_of body)))) as Hs.
  { cbn. rewrite Hm. split_and!; auto using pkg_names_length; apply clamp_timeout_range. }
  launch ag env id; exact Hs.
Qed.

Lemma install_patches_dispatched ag id body env : strlen id < LEO_UUID_STR_LEN ->
  exists ag', _dispatch_install_patches ag id body env = Ret ag' /\ dispatched (d_ser env) ag id ag'.
Proof.
  intros Hid. unfold _dispatch_install_patches.
  destruct (positive_number_spec (field body "timeout_sec") 1 LEO_EXEC_MAX_TIMEOUT_SEC LEO_EXEC_DEFAULT_TIMEOUT_SEC)
    as (t & -> & _); [done..|]. cbn [mbind outcome_bind].
  destruct (bool_decide _) eqn:Hn; breflect; [eexists; split; [done|by apply dispatched_refuse]|].
  destruct (forallb _ _) eqn:Hv; [|eexists; split; [done|by apply dispatched_refuse]]. cbn [negb].
  assert (map (fit LEO_PATCH_ID_MAX_LEN) (patch_ids_of body) = patch_ids_of body) as Hm
    by exact (map_fit_id _ patch_id_valid_fit Hv).
  assert (forall rb, ctx_safe (ctx_patches (ctx_new id _EXEC_KIND_INSTALL_PATCHES (_clamp_timeout t))
    (map (fit LEO_PATCH_ID_MAX_LEN) (patch_ids_of body)) rb)) as Hs.
  { intros rb. cbn. rewrite Hm. split_and!; auto using patch_ids_length; apply clamp_timeout_range. }
  launch ag env id; apply Hs.
Qed.

Lemma reboot_dispatched ag id body env : strlen id < LEO_UUID_STR_LEN ->
  exists ag', _dispatch_reboot ag id body env = Ret ag' /\ dispatched (d_ser env) ag id ag'.
Proof.
  intros Hid. unfold _dispatch_reboot.
  assert (exists d, match cJSON_IsNumber (field body "delay_sec") with
    | Some v => if dge v (d_of_Z 0) then _json_number_clamped v 0 LEO_REBOOT_MAX_DELAY_SEC
                else Ret LEO_REBOOT_DEFAULT_DELAY_SEC
    | None => Ret LEO_REBOOT_DEFAULT_DELAY_SEC end = Ret d /\ 0 <= d <= LEO_REBOOT_MAX_DELAY_SEC) as (d & -> & Hd).
  { destruct (cJSON_IsNumber _) as [v|]; [|by eexists]. destruct (dge v _); [|by eexists]. by apply clamped_spec. }
  cbn [mbind outcome_bind].
  launch ag env id; by split.
Qed.

Lemma collect_inventory_dispatched ag id env : strlen id < LEO_UUID_STR_LEN ->
  dispatched (d_ser env) ag id (_dispatch_collect_inventory ag id env).
Proof.
  intros Hid. unfold _dispatch_collect_inventory. slot ag env id.
  apply spawn_dispatched; [by apply fit_id|done|done].
Qed.

Lemma file_transfer_dispatched ag id body env ag' : strlen id < LEO_UUID_STR_LEN ->
  _dispatch_file_transfer ag id body env = Ret ag' -> dispatched (d_ser env) ag id ag'.
Proof.
  intros Hid. unfold _dispatch_file_transfer. destruct body as [b|]; [|intros [= <-]; by apply dispatched_refuse].
  destruct (nonempty_string _) as [url|]; [|intros [= <-]; by apply dispatched_refuse].
  destruct (nonempty_string _) as [name|]; [|intros [= <-]; by apply dispatched_refuse].
  destruct (positive_number_spec (field (Some b) "timeout_sec") 1 LEO_FILE_TRANSFER_MAX_TIMEOUT_SEC
    LEO_FILE_TRANSFER_DEFAULT_TIMEOUT_SEC) as (t & -> & Ht); [done..|]. cbn [mbind outcome_bind].
  destruct (reserve_cases ag (d_ser env) id) as [-> |[? ->]]; [intros [= <-]; by apply dispatched_refuse|].
  destruct (calloc_ok env); cbn [negb]; [|intros [= <-]; by apply alloc_failed_dispatched].
  set (sz := match cJSON_IsNumber _ with Some _ => _ | None => _ end).
  assert (forall z, sz = Ret z -> 0 <= z < 2 ^ 64) as Hz.
  { intros z. unfold sz. destruct (cJSON_IsNumber _) as [v|]; [|intros [= <-]; lia].
    destruct (dgt v _); [|intros [= <-]; lia]. unfold cast_u64. destruct (d_trunc v); [|done].
    destruct (_ && _) eqn:B; [|done]. intros [= <-]. breflect. lia. }
  destruct sz as [z|]; [|done]. cbn [mbind outcome_bind].
  match goal with |- context [Working ?c] => set (ctx := c) end.
  assert (ctx_safe ctx) as Hs.
  { cbn. unfold LEO_FILE_TRANSFER_MAX_TIMEOUT_SEC, LEO_FILE_TRANSFER_DEFAULT_TIMEOUT_SEC in *.
    split_and!; try (apply Hz; done); try (by apply fit_length); lia. }
  pose proof (spawn_dispatched ag env id (Working ctx) (ctx_new_id id _ t Hid) Hs) as Hd.
  destruct (_spawn_detached _ env id _) as [ok ag1]. cbn [snd] in Hd.
  destruct ok; [destruct (ctx_freed env); [done|]|]; intros [= <-]; auto.
Qed.

End dispatch_lemmas.
