(* ===== verification/Agent.v ===== *)
(** The running agent: the periodic threads of [src/agent.c] and the
    interleaving of all its threads.

    One step of the system is a callback of the connection's service thread,
    with the handling of the message it delivers, a step of that thread's own
    loops, one iteration of a periodic thread, the work or the report of a
    command thread, a status sent by a remote desktop session, or a request to
    stop.  The work of a command, which other threads interrupt, is one step:
    it acts on the files and processes and sends progress messages only. *)
From S2P Require Import Prelude CString Double Types Json JsonParse Protocol Config Url.
From S2P Require Import Crypto Ring Connection Executor Platform Patches FileTransfer RemoteDesktop Exec.
From S2P Require Import Dispatch.

(** ** Periodic threads *)

(** Whether the wait of [_interruptible_sleep] is over. *)
Definition _interruptible_sleep (ag : agent) (timed_out wake_on_force : bool) : bool :=
  threads_stop ag || (wake_on_force && force_heartbeat_pending ag) || timed_out.

Section periodic.
Context `{CLib}.

(** Hand a message that was built to the connection. *)
Definition send_built (ag : agent) (m : option (list ascii)) : agent :=
  match m with
  | Some buf => if 0 <? strlen buf then set_conn ag (leo_conn_send (ag_conn ag) buf).2 else ag
  | None => ag
  end.

(** One turn of [_heartbeat_thread] after its wait, with its counter;
    [None] when the thread ends. *)
Definition _heartbeat_thread (ag : agent) (seq : Z) (e : ser_env) : option (agent * Z) :=
  if threads_stop ag then None
  else
    let ag := set_flags ag (threads_stop ag) false in
    if negb (leo_conn_is_connected (Some (ag_conn ag))) then Some (ag, seq)
    else Some (send_built ag (leo_proto_build_heartbeat e seq 512), wrap_u64 (seq + 1)).

(** The same for [_metrics_thread]; [collected] is what the platform
    measured. *)
Definition _metrics_thread (ag : agent) (collected : leo_error_t * leo_metrics_t) (e : ser_env) : option agent :=
  if threads_stop ag then None
  else if negb (leo_conn_is_connected (Some (ag_conn ag))) then Some ag
  else if negb (bool_decide (collected.1 = LEO_OK)) then Some ag
  else Some (send_built ag (leo_proto_build_metrics e collected.2 LEO_MAX_MSG_SIZE)).

(** What a turn of [_patch_thread] does once it lists the updates, over the
    update service of the platform. *)
Definition patch_turn {W} `{PatchManager W} (ag : agent) (pm : patch_env W) (e : ser_env) : outcome agent :=
  o ← collect_patches pm LEO_INVENTORY_MAX_PATCHES;
  match o with
  | None => Ret ag
  | Some patches =>
      Ret (send_built ag (leo_proto_build_patch_inventory e patches (Z.of_nat (length patches)) LEO_MAX_MSG_SIZE))
  end.

(** The same for [_patch_thread]. *)
Definition _patch_thread {W} `{PatchManager W} (ag : agent) (pm : patch_env W) (e : ser_env) : outcome (option agent) :=
  if threads_stop ag then Ret None
  else if negb (leo_conn_is_connected (Some (ag_conn ag))) then Ret (Some ag)
  else ag ← patch_turn ag pm e; Ret (Some ag).

End periodic.

(** The cases of a step of the system below, with one set of names. *)
Ltac act_cases Hact :=
  destruct Hact as [ag w n data c json env ag' _ Er E|ag w n r c rc Ha E|ag w n p p' c E|ag w n p l1 ctx l2 e r c w' E1 E2
    |ag w n p l1 ctx l2 e w' E1 E2|ag w n p l1 ctx r l2 se sent sm E1 E2 E3|ag w n p l1 id l2 e E
    |ag w n p e t ag' n' _ E|ag w n p e m ag' E|ag w n p e pm ag' E|ag w n p e pm ag' E|ag w n p k' E|ag w n p k' E|ag w n p k' s0 e status err E E'|ag w n p|ag w n p|ag w n p].

(** ** The system *)

(** The thread that takes a step: the service thread of the connection, with
    the message it was given if it handles one, and whether there was memory for a
    reply; a command thread, with its command and the CMD_RESULT it built, if any,
    when it reports; a periodic thread, the patch thread when the list it asked for earlier arrives, the
    thread of a remote desktop session, or the one that calls [leo_agent_stop]. *)
Inductive party : Type :=
| TReceive (json : list ascii) (memory : bool) | TService | TCommand
| TReply (id : list ascii) (m : option (list ascii)) | THeartbeat | TMetrics | TPatch | TListed | TSession | TStopper.

#[export] Instance party_eq_dec : EqDecision party.
Proof. solve_decision. Defined.

Section system.
Context {W : Type} `{Executor W} `{!FileSystem W} `{!PatchManager W} `{CLib} `{OpenSSL}.

Record machine : Type := mk_machine {
  m_agent : agent;
  m_world : W;
  m_seq : Z;        (* the counter of the heartbeat thread *)
  m_phase : phase;  (* where the connection's thread is *)
}.

(** The end of a command thread: the report was sent, the slot is free. *)
Definition thread_finish (ag : agent) (sent : leo_conn * option (list ascii)) (id : list ascii)
    (rest : list thread) : agent :=
  _release_exec_slot (answer (set_conn (set_exec ag (exec_active_count ag) rest) sent.1) id sent.2).

(** What [leo_agent_stop] writes first, and what [leo_conn_destroy] does up to
    its wait. *)
Definition stopping (ag : agent) : agent :=
  set_flags (set_config ag (ag_config ag) LEO_STATE_STOPPING) true (force_heartbeat_pending ag).

Definition disconnecting (ag : agent) : agent :=
  set_conn ag (wake (set_exit (ag_conn ag) true (thread_exited (ag_conn ag)))).

Inductive act : party -> machine -> machine -> Prop :=
| step_message ag w n data c json env ag' :
    callback_allowed (ag_conn ag) (LWS_CALLBACK_CLIENT_RECEIVE (Some data)) = true ->
    _lws_callback (ag_conn ag) (LWS_CALLBACK_CLIENT_RECEIVE (Some data)) = (c, 0, Some json) ->
    _on_message (set_conn ag c) json env = Ret ag' ->
    act (TReceive json (serialisable (d_ser env))) (mk_machine ag w n Servicing) (mk_machine ag' w n Servicing)
| step_event ag w n r c rc :
    callback_allowed (ag_conn ag) r = true ->
    _lws_callback (consume (ag_conn ag) r) r = (c, rc, None) ->
    act TService (mk_machine ag w n Servicing) (mk_machine (set_conn ag c) w n Servicing)
| step_service ag w n p p' c :
    loop_step (p, ag_conn ag) (p', c) ->
    act TService (mk_machine ag w n p) (mk_machine (set_conn ag c) w n p')
| step_work ag w n p l1 ctx l2 e r c w' :
    running ag = l1 ++ Working ctx :: l2 ->
    exec_switch ctx (ag_conn ag) e w = (Some (Ret (r, c)), w') ->
    act TCommand (mk_machine ag w n p)
         (mk_machine (set_conn (set_exec ag (exec_active_count ag) (l1 ++ Reporting ctx r :: l2)) c) w' n p)
| step_hang ag w n p l1 ctx l2 e w' :
    running ag = l1 ++ Working ctx :: l2 ->
    exec_switch ctx (ag_conn ag) e w = (None, w') ->
    act TCommand (mk_machine ag w n p)
         (mk_machine (set_exec ag (exec_active_count ag) (l1 ++ Hung ctx :: l2)) w' n p)
| step_report ag w n p l1 ctx r l2 se sent m :
    running ag = l1 ++ Reporting ctx r :: l2 ->
    exec_report ctx (ag_conn ag) r se = Ret sent -> exec_reply ctx r se = Ret m ->
    act (TReply (cmd_id ctx) m) (mk_machine ag w n p) (mk_machine (thread_finish ag sent (cmd_id ctx) (l1 ++ l2)) w n p)
| step_inventory ag w n p l1 id l2 e :
    running ag = l1 ++ Collecting id :: l2 ->
    act (TReply id (inventory_reply id (ag_conn ag) e)) (mk_machine ag w n p)
         (mk_machine (thread_finish ag (_inventory_thread id (ag_conn ag) e) id (l1 ++ l2)) w n p)
| step_heartbeat ag w n p e timed_out ag' n' :
    _interruptible_sleep ag timed_out true = true ->
    _heartbeat_thread ag n e = Some (ag', n') ->
    act THeartbeat (mk_machine ag w n p) (mk_machine ag' w n' p)
| step_metrics ag w n p e m ag' :
    _metrics_thread ag m e = Some ag' -> act TMetrics (mk_machine ag w n p) (mk_machine ag' w n p)
| step_patch ag w n p e pm ag' :
    _patch_thread (W := W) ag pm e = Ret (Some ag') -> act TPatch (mk_machine ag w n p) (mk_machine ag' w n p)
| step_listed ag w n p e pm ag' :   (* the flags were read before the list was asked for *)
    patch_turn (W := W) ag pm e = Ret ag' -> act TListed (mk_machine ag w n p) (mk_machine ag' w n p)
| step_clear ag w n p k :   (* the two critical sections that end a session *)
    rd_threads (rd ag) !! k = Some InSession ->
    act TSession (mk_machine ag w n p) (mk_machine (set_rd ag (rd_clear (rd ag) k)) w n p)
| step_exit ag w n p k :
    rd_threads (rd ag) !! k = Some Cleared ->
    act TSession (mk_machine ag w n p) (mk_machine (set_rd ag (rd_exit (rd ag) k)) w n p)
| step_status ag w n p k s e status err :
    rd_threads (rd ag) !! k = Some InSession -> contexts (rd ag) !! k = Some s ->
    act TSession (mk_machine ag w n p) (mk_machine (set_conn ag (_report_status s e (ag_conn ag) status err)) w n p)
| step_stopping ag w n p :
    act TStopper (mk_machine ag w n p) (mk_machine (stopping ag) w n p)
| step_flag ag w n p :
    act TStopper (mk_machine ag w n p) (mk_machine (set_rd ag (rd_flag (rd ag))) w n p)
| step_disconnect ag w n p :
    act TStopper (mk_machine ag w n p) (mk_machine (disconnecting ag) w n p).

Definition step (s s' : machine) : Prop := exists p, act p s s'.

(** ** The invariant *)

(** A reply that was accepted is a CMD_RESULT for its command. *)
Definition is_result (a : list ascii * option (list ascii)) : Prop :=
  forall txt, a.2 = Some txt -> exists e code out err,
    leo_proto_build_cmd_result e a.1 code out err LEO_MAX_MSG_SIZE = Some txt.

(** The slots in use are the threads that run; every command received is
    answered or runs; the replies are among the messages the connection
    accepted, in order; and each thread was given a context that is safe. *)
Record agent_inv (ag : agent) : Prop := {
  inv_count : exec_active_count ag = Z.of_nat (length (running ag));
  inv_bound : exec_active_count ag <= LEO_EXEC_MAX_CONCURRENT;
  inv_answers : asked ag ≡ₚ map fst (answered ag) ++ map thread_id (running ag);
  inv_results : omap snd (answered ag) `sublist_of` accepted (ag_conn ag);
  inv_built : Forall is_result (answered ag);
  inv_safe : Forall thread_safe (running ag);
}.

(** The part of the agent the invariant is about, the connection apart. *)
Definition exec_part (ag : agent) := (exec_active_count ag, running ag, asked ag, answered ag).

(** A change that leaves the commands alone and sends no reply. *)
Definition frame (ag ag' : agent) : Prop :=
  exec_part ag' = exec_part ag /\ notes (ag_conn ag) (ag_conn ag').

Lemma frame_refl ag ag' : exec_part ag' = exec_part ag -> ag_conn ag' = ag_conn ag -> frame ag ag'.
Proof. intros E1 E2. split; [done|]. rewrite E2. apply rtc_refl. Qed.

Lemma sends_accepted c c' : sends c c' -> accepted c `prefix_of` accepted c'.
Proof. intros Hs%(sends_steps _ _ Starting 0). by apply steps_accepted in Hs. Qed.

Lemma inv_grow ag ag' :
  exec_part ag' = exec_part ag -> accepted (ag_conn ag) `prefix_of` accepted (ag_conn ag') ->
  agent_inv ag -> agent_inv ag'.
Proof.
  unfold exec_part. intros [= E1 E2 E3 E4] Hp []. split; rewrite ?E1, ?E2, ?E3, ?E4; auto.
  etrans; [done|]. by apply prefix_sublist.
Qed.

Lemma inv_frame ag ag' : frame ag ag' -> agent_inv ag -> agent_inv ag'.
Proof. intros [E Hs%notes_sends]. by apply inv_grow, sends_accepted. Qed.

(** A reply goes to the end of both histories. *)
Lemma results_snoc (l : list (list ascii * option (list ascii))) id m (acc : list (list ascii)) :
  omap snd l `sublist_of` acc -> omap snd (l ++ [(id, m)]) `sublist_of` acc ++ option_list m.
Proof. intros Hs. rewrite omap_app. apply sublist_app; [done|]. by destruct m. Qed.

Lemma dispatched_inv e ag id ag' : agent_inv ag -> dispatched e (ask ag id) id ag' -> agent_inv ag'.
Proof.
  intros [Hc Hb Ha Hr Hu Hs]. destruct 1 as [t Ht Hts Hlt|msg _].
  - simpl in *. split; simpl; auto.
    + rewrite length_app. simpl. lia.
    + lia.
    + rewrite Ha, map_app. simpl. rewrite Ht. by rewrite (assoc_L (++)).
    + apply Forall_app. auto.
  - unfold _send_cmd_error. pose proof (cmd_result_sent (ag_conn (ask ag id)) e id (-1) [] msg) as Hm.
    destruct (send_cmd_result _ _ _ _ _ _) as [c m]. destruct Hm as (_ & Hm & Hx). simpl in *.
    split; simpl; auto.
    + rewrite Ha, map_app. simpl. solve_Permutation.
    + rewrite Hm. by apply results_snoc.
    + apply Forall_app. split; [done|]. repeat constructor. intros txt E. eauto 10.
Qed.

Lemma finish_inv ag c0 c e code out err l1 t l2 :
  agent_inv ag -> running ag = l1 ++ t :: l2 -> sends (ag_conn ag) c0 ->
  send_cmd_result c0 e (thread_id t) code out err = c -> agent_inv (thread_finish ag c (thread_id t) (l1 ++ l2)).
Proof.
  intros [Hc Hb Ha Hr Hu Hs] E Hs0 Em. rewrite E in *.
  pose proof (cmd_result_sent c0 e (thread_id t) code out err) as Hm. rewrite Em in Hm.
  destruct c as [c m]. destruct Hm as (_ & Hm & Hx). apply sends_accepted in Hs0.
  unfold thread_finish. split; simpl.
  - rewrite Hc, !length_app. simpl. lia.
  - lia.
  - rewrite Ha, !map_app. simpl. solve_Permutation.
  - rewrite Hm. apply results_snoc. etrans; [done|]. by apply prefix_sublist.
  - apply Forall_app. split; [done|]. repeat constructor. intros txt Et. eauto 10.
  - apply Forall_app in Hs as [H1' H2']. inversion H2'. by apply Forall_app.
Qed.

Lemma replace_inv ag c l1 t t' l2 :
  agent_inv ag -> running ag = l1 ++ t :: l2 -> thread_id t' = thread_id t -> (thread_safe t -> thread_safe t') ->
  sends (ag_conn ag) c ->
  agent_inv (set_conn (set_exec ag (exec_active_count ag) (l1 ++ t' :: l2)) c).
Proof.
  intros [Hc Hb Ha Hr Hu Hs] E Hid Ht Hc'. rewrite E in *. split; simpl; auto.
  - rewrite Hc, !length_app. done.
  - rewrite Ha, !map_app. simpl. by rewrite Hid.
  - etrans; [done|]. by apply prefix_sublist, sends_accepted.
  - apply Forall_app in Hs as [? Hs2]. inversion Hs2. apply Forall_app. auto.
Qed.

(** *** Messages *)

Definition is_command (t : leo_msg_type_t) : bool :=
  bool_decide (t ∈ [LEO_MSG_EXEC_SCRIPT; LEO_MSG_INSTALL_PKG; LEO_MSG_REBOOT; LEO_MSG_COLLECT_INVENTORY;
                    LEO_MSG_INSTALL_PATCHES; LEO_MSG_FILE_TRANSFER]).

Lemma ret_bind {A B} (m : outcome A) (f : A -> outcome B) b :
  m ≫= f = Ret b -> exists a, m = Ret a /\ f a = Ret b.
Proof. destruct m; [|done]. eauto. Qed.

Lemma command_dispatched ag t id body env ag' :
  is_command t = true -> strlen id < LEO_UUID_STR_LEN ->
  on_type ag t id body env = Ret ag' -> dispatched (d_ser env) (ask ag id) id ag'.
Proof.
  intros Hc Hid. destruct t; try discriminate Hc; simpl; intros E.
  - destruct (exec_script_dispatched (ask ag id) id body env Hid) as (a & ? & ?). congruence.
  - destruct (install_pkg_dispatched (ask ag id) id body env Hid) as (a & ? & ?). congruence.
  - destruct (reboot_dispatched (ask ag id) id body env Hid) as (a & ? & ?). congruence.
  - injection E as <-. by apply collect_inventory_dispatched.
  - destruct (install_patches_dispatched (ask ag id) id body env Hid) as (a & ? & ?). congruence.
  - by apply (file_transfer_dispatched _ _ body env).
Qed.

Lemma send_built_frame ag m : (forall txt, m = Some txt -> note_text txt) -> frame ag (send_built ag m).
Proof.
  intros Hm. unfold send_built. destruct m as [b|]; [|by apply frame_refl].
  destruct (0 <? strlen b); [|by apply frame_refl]. split; [done|]. apply notes_one. auto.
Qed.

Lemma other_message_frame ag t id body env ag' :
  is_command t = false -> on_type ag t id body env = Ret ag' -> frame ag ag'.
Proof.
  intros Hc. destruct t; try discriminate Hc; simpl; try (by intros [= <-]; apply frame_refl).
  - intros (a & _ & (b & _ & [= <-])%ret_bind)%ret_bind. by apply frame_refl.
  - intros [= <-]. apply send_built_frame. intros txt B. unfold leo_proto_build_pong in B. built_note B.
  - intros (a & _ & [= <-])%ret_bind. by apply frame_refl.
  - unfold _dispatch_remote_desktop_start. repeat case_goal; try (by intros [= <-]; apply frame_refl);
    intros (f1 & _ & (q1 & _ & (w1 & _ & (h1 & _ & ([g b] & _ & [= <-])%ret_bind)%ret_bind)%ret_bind)%ret_bind)%ret_bind;
    by apply frame_refl.
  - intros ([g b] & _ & [= <-])%ret_bind. by apply frame_refl.
Qed.

(** The command a message carries, by its identifier. *)
Definition command_in (json : list ascii) : option (list ascii) :=
  match leo_proto_parse json with
  | Ret (LEO_OK, m) =>
      match msg_of_code (m_type m) with
      | Some t => if is_command t then Some (m_id m) else None
      | None => None
      end
  | _ => None
  end.

(** A message is ignored, handled without a command, or a command that is
    dispatched. *)
Lemma on_message_cases ag json env ag' :
  _on_message ag json env = Ret ag' ->
  command_in json = None /\ frame ag ag' \/
  exists id, command_in json = Some id /\ strlen id < LEO_UUID_STR_LEN /\ dispatched (d_ser env) (ask ag id) id ag'.
Proof.
  unfold _on_message, command_in. intros ([err m] & Hp & E)%ret_bind. rewrite Hp.
  destruct (bool_decide (err = LEO_OK)) eqn:Ok; simpl in E; breflect;
    [|left; injection E as <-; split; [by destruct err|by apply frame_refl]].
  subst err. apply parse_bounds in Hp as [(_ & _ & Hid)|[? _]]; [|done].
  destruct (msg_of_code _) as [t|]; [|left; injection E as <-; split; [done|by apply frame_refl]].
  destruct (is_command t) eqn:Hc; [right|left; split; [done|by eapply other_message_frame]].
  exists (m_id m). split_and!; [done|done|]. by eapply command_dispatched.
Qed.

Lemma message_sends ag json env ag' : _on_message ag json env = Ret ag' -> sends (ag_conn ag) (ag_conn ag').
Proof.
  intros [(_ & _ & Hs%notes_sends)|(id & _ & _ & Hd)]%on_message_cases; [done|]. destruct Hd as [|msg _]; [apply rtc_refl|].
  unfold _send_cmd_error. pose proof (cmd_result_sent (ag_conn (ask ag id)) (d_ser env) id (-1) [] msg) as Hm.
  destruct (send_cmd_result _ _ _ _ _ _) as [c m]. by destruct Hm.
Qed.

Lemma heartbeat_frame ag n e ag' n' : _heartbeat_thread ag n e = Some (ag', n') -> frame ag ag'.
Proof.
  unfold _heartbeat_thread. destruct (threads_stop ag); [done|].
  destruct (negb _); intros [= <- <-]; [by apply frame_refl|].
  refine (send_built_frame (set_flags ag false false) _ _). intros txt B. unfold leo_proto_build_heartbeat in B. built_note B.
Qed.

Lemma metrics_frame ag m e ag' : _metrics_thread ag m e = Some ag' -> frame ag ag'.
Proof.
  unfold _metrics_thread. repeat case_goal; intros [= <-]; try (by apply frame_refl). apply send_built_frame.
  intros txt B. unfold leo_proto_build_metrics in B. built_note B.
Qed.

Lemma listed_frame ag pm e ag' : patch_turn (W := W) ag pm e = Ret ag' -> frame ag ag'.
Proof.
  unfold patch_turn. destruct (collect_patches _ _) as [[ps|]|]; cbn; intros [= <-]; [|by apply frame_refl].
  apply send_built_frame. intros txt B. unfold leo_proto_build_patch_inventory in B. built_note B.
Qed.

Lemma patch_frame ag pm e ag' : _patch_thread (W := W) ag pm e = Ret (Some ag') -> frame ag ag'.
Proof.
  unfold _patch_thread. destruct (threads_stop ag); [done|]. destruct (negb _); [intros [= <-]; by apply frame_refl|].
  intros (ag1 & E & [= <-])%ret_bind. by eapply listed_frame.
Qed.

Lemma report_sent ctx c r se sent m :
  exec_report ctx c r se = Ret sent -> exec_reply ctx r se = Ret m ->
  exists code out err, send_cmd_result c se (cmd_id ctx) code out err = sent /\
    leo_proto_build_cmd_result se (cmd_id ctx) code out err LEO_MAX_MSG_SIZE = m.
Proof.
  unfold exec_report, exec_reply. destruct (deref (rep_stdout r)); [|done]. destruct (deref (rep_stderr r)); [|done].
  intros [= <-] [= <-]. eauto.
Qed.

(** *** The connection of the agent is the one verified in [Connection] *)

(** The machine as its connection sees it, with [k] other senders. *)
Definition net (s : machine) (k : nat) : sys := mk_sys (ag_conn (m_agent s)) (m_phase s) k false.

Lemma received_conn c data c' json :
  _lws_callback c (LWS_CALLBACK_CLIENT_RECEIVE (Some data)) = (c', 0, Some json) -> c' = c.
Proof. destruct data; simpl; [done|]. by intros [= <- _]. Qed.

Lemma step_sim s s' k : step s s' -> rtc conn_step (net s k) (net s' k).
Proof.
  unfold net. intros [a Hact].
  act_cases Hact; simpl.
  - apply sends_steps. apply received_conn in Er as ->. by apply message_sends in E.
  - apply rtc_once. exact (step_callback (mk_sys (ag_conn ag) Servicing k false) r c rc None eq_refl eq_refl Ha E).
  - apply rtc_once. exact (step_loop (mk_sys (ag_conn ag) p k false) p' c eq_refl E).
  - apply sends_steps, notes_sends. by apply (exec_switch_notes ctx (ag_conn ag) e w (Ret (r, c)) w' E2 (r, c)).
  - apply rtc_refl.
  - apply sends_steps. destruct (report_sent _ _ _ _ _ _ E2 E3) as (code & out & err & <- & _).
    pose proof (cmd_result_sent (ag_conn ag) se (cmd_id ctx) code out err) as Hm.
    destruct (send_cmd_result _ _ _ _ _ _) as [c m]. by destruct Hm.
  - apply sends_steps. pose proof (notes_sends _ _ (inventory_notes (ag_conn ag) e)) as Hs. unfold _inventory_thread.
    destruct (inventory_result (ag_conn ag) e) as [[[c1 code] out] err]. cbn [fst] in Hs.
    pose proof (cmd_result_sent c1 (inv_result_ser e) id code out err) as Hm.
    destruct (send_cmd_result _ _ _ _ _ _) as [c m]. destruct Hm as [Hm _]. etrans; [exact Hs|exact Hm].
  - apply sends_steps, notes_sends. by apply heartbeat_frame in E as [_ E].
  - apply sends_steps, notes_sends. by apply metrics_frame in E as [_ E].
  - apply sends_steps, notes_sends. by apply patch_frame in E as [_ E].
  - apply sends_steps, notes_sends. by apply listed_frame in E as [_ E].
  - apply rtc_refl.
  - apply rtc_refl.
  - apply sends_steps, notes_sends, report_status_notes.
  - apply rtc_refl.
  - apply rtc_refl.
  - apply rtc_once. exact (step_stop (mk_sys (ag_conn ag) p k false) eq_refl).
Qed.

Lemma step_inv s s' : agent_inv (m_agent s) -> step s s' -> agent_inv (m_agent s').
Proof.
  intros Hi Hstep. pose proof (steps_accepted _ _ (step_sim s s' 0 Hstep)) as Hg. unfold net in Hg. revert Hi Hg.
  destruct Hstep as [a Hact]. act_cases Hact;
    simpl; intros Hi Hg; try (by apply (inv_grow ag)).
  - assert (set_conn ag c = ag) as Ec by (apply received_conn in Er as ->; by destruct ag). rewrite Ec in E.
    apply on_message_cases in E as [[_ E]|(id & _ & _ & E)]; [by eapply inv_frame|by eapply dispatched_inv].
  - apply (replace_inv ag c l1 (Working ctx) (Reporting ctx r) l2); try done.
    apply notes_sends. by apply (exec_switch_notes ctx (ag_conn ag) e w (Ret (r, c)) w' E2 (r, c)).
  - apply (replace_inv ag (ag_conn ag) l1 (Working ctx) (Hung ctx) l2); done.
  - destruct (report_sent _ _ _ _ _ _ E2 E3) as (code & out & err & E4 & _).
    eapply (finish_inv ag (ag_conn ag) sent se code out err l1 (Reporting ctx r) l2); done.
  - pose proof (notes_sends _ _ (inventory_notes (ag_conn ag) e)) as Hs. unfold _inventory_thread in *.
    destruct (inventory_result (ag_conn ag) e) as [[[c1 code] out] err]. cbn [fst] in Hs.
    by eapply (finish_inv ag c1 _ (inv_result_ser e) code out err l1 (Collecting id) l2).
  - apply heartbeat_frame in E. by eapply inv_frame.
  - apply metrics_frame in E. by eapply inv_frame.
  - apply patch_frame in E. by eapply inv_frame.
  - apply listed_frame in E. by eapply inv_frame.
Qed.

(** The agent as [leo_agent_start] leaves it. *)
Definition initial (cfg : leo_config_t) (c : leo_conn) : agent :=
  mk_agent cfg c LEO_STATE_CONNECTING false false 0 [] rd_idle [] [].

Lemma initial_inv cfg c : agent_inv (initial cfg c).
Proof. split; simpl; try done. apply sublist_nil_l. Qed.

(** A state the agent can reach, from any configuration that names a server. *)
Definition reachable (w : W) (s : machine) : Prop :=
  exists cfg c, leo_conn_create cfg true true = Some c /\
  rtc step (mk_machine (initial cfg c) w 0 Starting) s.

Lemma agent_reachable_inv w s : reachable w s -> agent_inv (m_agent s).
Proof.
  intros (cfg & c & _ & Hr). apply (rtc_invariant step (fun s => agent_inv (m_agent s)) step_inv) in Hr; [done|].
  apply initial_inv.
Qed.

(** What is proved of the connection alone holds of it in the agent. *)
Lemma agent_reachable_net w s : reachable w s -> exists cfg, Connection.reachable cfg (net s 0).
Proof.
  intros (cfg & c & Hc & Hr). exists cfg, c. split; [done|].
  change (sys_init c) with (net (mk_machine (initial cfg c) w 0 Starting) 0).
  induction Hr as [|s1 s2 s3 S _ IH]; [apply rtc_refl|]. etrans; [by apply step_sim|done].
Qed.

(** C2: in every reachable state, the slot counter is the number of command
    threads and never exceeds its maximum; the commands received are, as a
    multiset, those already answered and those whose thread still runs, so that
    no command is forgotten and none is answered twice; the answers the
    connection accepted are CMD_RESULT messages of their commands; and these
    have been handed to libwebsockets or wait in the queue, once each and in the
    order of the answers. *)
Theorem every_command_answered_once w s :
  reachable w s ->
  0 <= exec_active_count (m_agent s) <= LEO_EXEC_MAX_CONCURRENT /\
  exec_active_count (m_agent s) = Z.of_nat (length (running (m_agent s))) /\
  asked (m_agent s) ≡ₚ map fst (answered (m_agent s)) ++ map thread_id (running (m_agent s)) /\
  Forall is_result (answered (m_agent s)) /\
  omap snd (answered (m_agent s)) `sublist_of` wire (ag_conn (m_agent s)) ++ queue_list (ag_conn (m_agent s)).
Proof.
  intros Hr. destruct (agent_reachable_net w s Hr) as (cfg & [Hn _ _ _ _ _]%reachable_inv).
  apply agent_reachable_inv in Hr as [Hc Hb Ha Hres Hu _].
  split_and!; [lia|lia|done|done|done|]. by rewrite <- (inv_history _ Hn).
Qed.

End system.

(** ** What the agent runs *)

(** The command lines a backend can make the agent run: a script through a
    whitelisted interpreter, or the package manager, a restart, with names
    that hold no other character than those of package names. *)
Inductive allowed W `{Executor W} : argv_t -> Prop :=
| allowed_script i tmp : i ∈ interpreters W -> allowed W (script_argv W i tmp)
| allowed_update : allowed W apt_update_argv
| allowed_install names :
    names <> [] -> Z.of_nat (length names) <= LEO_PKG_MAX_COUNT -> forallb _pkg_name_valid names = true ->
    allowed W (install_argv names)
| allowed_upgrade ids : forallb _patch_id_valid ids = true -> allowed W (apt_upgrade_argv ids)
| allowed_dnf ids : forallb _patch_id_valid ids = true -> allowed W (dnf_update_argv ids)
| allowed_shutdown d : 0 <= d <= LEO_REBOOT_MAX_DELAY_SEC -> allowed W (shutdown_argv d)
| allowed_systemctl : allowed W systemctl_argv.

Lemma command_allowed W `{Executor W} ctx argv : ctx_safe ctx -> command_of W ctx argv -> allowed W argv.
Proof.
  unfold ctx_safe, command_of. destruct (kind ctx); [| | | |done].
  - intros _ (Hi & tmp & ->). by constructor.
  - intros (_ & Hn & Hl & Hv) [-> | ->]; by constructor.
  - intros (_ & Hd) [-> | ->]; by constructor.
  - intros (_ & _ & _ & Hv) [-> |[-> |[-> |(_ & [-> | ->])]]]; try by constructor.
    by apply (allowed_shutdown W 60).
Qed.

Section commands.
Context {W : Type} `{ExecutorLaws W} `{!FileSystem W} `{!PatchManager W} `{!PatchManagerLaws W} `{CLib} `{OpenSSL}.

(** Only allowed command lines have been added since [w]. *)
Definition ran_allowed (w w' : W) : Prop := exists l, exec_log w' = exec_log w ++ l /\ Forall (allowed W) l.

Lemma ran_allowed_refl w : ran_allowed w w.
Proof. exists []. by rewrite app_nil_r. Qed.

Lemma ran_allowed_trans w1 w2 w3 : ran_allowed w1 w2 -> ran_allowed w2 w3 -> ran_allowed w1 w3.
Proof.
  intros (l1 & E1 & F1) (l2 & E2 & F2). exists (l1 ++ l2). rewrite E2, E1, (assoc_L (++)).
  split; [done|]. by apply Forall_app.
Qed.

Lemma switch_ran_allowed ctx conn e w : ctx_safe ctx -> ran_allowed w (exec_switch ctx conn e w).2.
Proof.
  intros Hs. destruct (exec_switch_runs ctx conn e w) as (l & El & Fl). exists l. split; [done|].
  eapply Forall_impl; [exact Fl|]. intros argv. by apply command_allowed.
Qed.

Lemma running_safe ag l1 ctx l2 : agent_inv ag -> running ag = l1 ++ Working ctx :: l2 -> ctx_safe ctx.
Proof. intros Hs%inv_safe E. rewrite E in Hs. apply Forall_app in Hs as [_ Hs]. by inversion Hs. Qed.

Lemma step_ran_allowed s s' :
  agent_inv (m_agent s) -> step (W := W) s s' -> ran_allowed (m_world s) (m_world s').
Proof.
  intros Hi [a Hact].
  destruct Hact as [| | |ag w n p l1 ctx l2 e r c' w' E1 E2|ag w n p l1 ctx l2 e w' E1 E2| | | | | | | | | | | |];
    try apply ran_allowed_refl; simpl in *.
  - pose proof (switch_ran_allowed ctx (ag_conn ag) e w (running_safe _ _ _ _ Hi E1)) as Hr. by rewrite E2 in Hr.
  - pose proof (switch_ran_allowed ctx (ag_conn ag) e w (running_safe _ _ _ _ Hi E1)) as Hr. by rewrite E2 in Hr.
Qed.

(** C1: whatever messages the agent receives and however its threads
    interleave, every command line it ever starts a child with is one of the
    allowed forms, with validated names only. *)
Theorem only_allowed_commands w s :
  reachable w s -> exists l, exec_log (m_world s) = exec_log w ++ l /\ Forall (allowed W) l.
Proof.
  intros (cfg & c & _ & Hr).
  apply (rtc_invariant step (fun s => agent_inv (m_agent s) /\ ran_allowed w (m_world s))) in Hr.
  - by destruct Hr.
  - intros s1 s2 [Hi Ha] Hs. split; [by eapply step_inv|].
    eapply ran_allowed_trans; [exact Ha|]. by apply step_ran_allowed.
  - split; [apply initial_inv|apply ran_allowed_refl].
Qed.

End commands.


(** ** Messages *)

Section messages.
Context `{CLib}.

(** The announced size of a file converts to [uint64_t]. *)
Definition size_fits (body : option cJSON) : Prop :=
  match cJSON_IsNumber (field body "size_bytes") with
  | Some v => dgt v (d_of_Z 0) = true -> defined (cast_u64 v) = true
  | None => True
  end.

Lemma file_transfer_defined ag id body env :
  size_fits body -> ctx_freed env = false -> exists ag', _dispatch_file_transfer ag id body env = Ret ag'.
Proof.
  intros Hs Hf. unfold _dispatch_file_transfer, size_fits in *. destruct body as [b|]; [|eauto].
  destruct (nonempty_string _) as [url|]; [|eauto]. destruct (nonempty_string _) as [name|]; [|eauto].
  destruct (positive_number_spec (field (Some b) "timeout_sec") 1 LEO_FILE_TRANSFER_MAX_TIMEOUT_SEC
    LEO_FILE_TRANSFER_DEFAULT_TIMEOUT_SEC) as (t & -> & Ht); [done..|]. cbn [mbind outcome_bind].
  destruct (_reserve_exec_slot _ _ _) as [[] ag1]; [|eauto]. destruct (calloc_ok env); cbn [negb]; [|eauto].
  assert (exists z, match cJSON_IsNumber (field (Some b) "size_bytes") with
    | Some v => if dgt v (d_of_Z 0) then cast_u64 v else Ret 0 | None => Ret 0 end = Ret z) as (z & Ez).
  { destruct (cJSON_IsNumber _) as [v|]; [|eauto]. destruct (dgt v _); [|eauto].
    destruct (cast_u64 v); [eauto|]. by specialize (Hs eq_refl). }
  rewrite Ez. cbn [mbind outcome_bind]. rewrite Hf. destruct (_spawn_detached _ _ _ _) as [[] ag2]; eauto.
Qed.

Lemma hello_ack_spec ag body : exists mi hi,
  on_hello_ack ag body = Ret (set_config ag (set_intervals (ag_config ag) mi hi) LEO_STATE_CONNECTED) /\
  (1 <= hi <= 86400 \/ hi = heartbeat_interval_sec (ag_config ag)) /\
  (1 <= mi <= 86400 \/ mi = metrics_interval_sec (ag_config ag)).
Proof.
  unfold on_hello_ack.
  destruct (positive_number_spec (field body "heartbeat_interval_sec") 1 86400 (heartbeat_interval_sec (ag_config ag)))
    as (hi & -> & Hh); [done..|].
  destruct (positive_number_spec (field body "metrics_interval_sec") 1 86400 (metrics_interval_sec (ag_config ag)))
    as (mi & -> & Hm); [done..|].
  exists mi, hi. done.
Qed.

Lemma config_update_spec ag body : exists mi,
  on_config_update ag body =
    Ret (set_config ag (set_intervals (ag_config ag) mi (heartbeat_interval_sec (ag_config ag))) (ag_state ag)) /\
  (1 <= mi <= 86400 \/ mi = metrics_interval_sec (ag_config ag)).
Proof.
  unfold on_config_update.
  destruct (positive_number_spec (field body "metrics_interval_sec") 1 86400 (metrics_interval_sec (ag_config ag)))
    as (mi & -> & Hm); [done..|].
  exists mi. done.
Qed.

(** The session requests change the remote desktop only; each has one way to
    read memory that is gone. *)
Lemma remote_desktop_start_spec ag body env :
  (exists g, _dispatch_remote_desktop_start ag body env = Ret (set_rd ag g)) \/
  ctx_freed env = true /\ _dispatch_remote_desktop_start ag body env = Undef.
Proof.
  unfold _dispatch_remote_desktop_start.
  assert (exists g, Ret ag = Ret (set_rd ag g)) as Eag by (exists (rd ag); by destruct ag).
  destruct body as [b|]; [|by left].
  destruct (nonempty_string _) as [sid|]; [|by left].
  destruct (nonempty_string _) as [url|]; [|by left].
  destruct (number_or_spec (field (Some b) "fps") LEO_RD_FPS_MIN LEO_RD_FPS_MAX 8) as (z1 & -> & _); [done..|].
  destruct (number_or_spec (field (Some b) "quality") LEO_RD_QUALITY_MIN LEO_RD_QUALITY_MAX 60) as (z2 & -> & _); [done..|].
  destruct (number_or_spec (field (Some b) "max_width") LEO_RD_DIM_MIN LEO_RD_DIM_MAX 1920) as (z3 & -> & _); [done..|].
  destruct (number_or_spec (field (Some b) "max_height") LEO_RD_DIM_MIN LEO_RD_DIM_MAX 1080) as (z4 & -> & _); [done..|].
  cbn [mbind outcome_bind]. unfold leo_rd_start. repeat case_goal; eauto.
Qed.

Lemma remote_desktop_stop_spec ag body env :
  (exists g, _dispatch_remote_desktop_stop ag body env = Ret (set_rd ag g)) \/
  session_gone env = true /\ _dispatch_remote_desktop_stop ag body env = Undef.
Proof. unfold _dispatch_remote_desktop_stop, leo_rd_stop. repeat case_goal; cbn; eauto. Qed.

(** The threads that run beside the handler leave it what it still reads. *)
Definition undisturbed_handler (t : leo_msg_type_t) (env : dispatch_env) : Prop :=
  match t with
  | LEO_MSG_FILE_TRANSFER | LEO_MSG_REMOTE_DESKTOP_START => ctx_freed env = false
  | LEO_MSG_REMOTE_DESKTOP_STOP => session_gone env = false
  | _ => True
  end.


(** *** Configuration *)

Definition intervals_ok (cfg : leo_config_t) : Prop :=
  1 <= metrics_interval_sec cfg <= 86400 /\ 1 <= heartbeat_interval_sec cfg <= 86400.

Lemma dispatched_config e ag id ag' : dispatched e ag id ag' -> ag_config ag' = ag_config ag.
Proof. destruct 1; [done|]. unfold _send_cmd_error. by destruct (send_cmd_result _ _ _ _ _ _). Qed.

Lemma set_intervals_id cfg : set_intervals cfg (metrics_interval_sec cfg) (heartbeat_interval_sec cfg) = cfg.
Proof. by destruct cfg. Qed.

(** C30: no message changes the identity of the agent, its server or the
    pinned certificate: at most the two intervals change, and they stay
    between one second and one day. *)
Theorem only_intervals_change ag json env ag' :
  _on_message ag json env = Ret ag' -> intervals_ok (ag_config ag) ->
  exists mi hi, ag_config ag' = set_intervals (ag_config ag) mi hi /\ intervals_ok (ag_config ag').
Proof.
  intros E [Hm Hh].
  assert (ag_config ag' = ag_config ag -> exists mi hi,
    ag_config ag' = set_intervals (ag_config ag) mi hi /\ intervals_ok (ag_config ag')) as Hsame.
  { intros ->. eexists _, _. split; [symmetry; apply set_intervals_id|by split]. }
  unfold _on_message in E. apply ret_bind in E as ([err m] & Hp & E).
  destruct (bool_decide (err = LEO_OK)) eqn:Ok; simpl in E; [|injection E as <-; auto]. breflect. subst err.
  apply parse_bounds in Hp as [(_ & _ & Hid)|[? _]]; [|done].
  destruct (msg_of_code _) as [t|]; [|injection E as <-; auto].
  destruct (is_command t) eqn:Hc.
  { apply Hsame. apply command_dispatched in E; [|done..]. by apply dispatched_config in E. }
  destruct t; try discriminate Hc; simpl in E; try (injection E as <-; auto; fail).
  - destruct (hello_ack_spec ag (m_body m)) as (mi & hi & E' & B1 & B2). rewrite E in E'. injection E' as ->.
    exists mi, hi. split; [done|]. unfold intervals_ok. cbn. destruct B1 as [? | ->], B2 as [? | ->]; done.
  - injection E as <-. apply Hsame. unfold on_ping. by repeat case_goal.
  - destruct (config_update_spec ag (m_body m)) as (mi & E' & B). rewrite E in E'. injection E' as ->.
    eexists mi, _. split; [done|]. unfold intervals_ok. cbn. destruct B as [? | ->]; done.
  - destruct (remote_desktop_start_spec ag (m_body m) env) as [(g & E')|[_ E']]; rewrite E in E'; [|done].
    injection E' as ->. auto.
  - destruct (remote_desktop_stop_spec ag (m_body m) env) as [(g & E')|[_ E']]; rewrite E in E'; [|done].
    injection E' as ->. auto.
Qed.

(** *** Forced heartbeats *)

(** Once FORCE_HEARTBEAT is handled, the heartbeat thread wakes without
    waiting for its interval, hands a heartbeat with the next number to the
    connection if it is up, and clears the request. *)
Theorem forced_heartbeat ag id body env ag1 seq e txt :
  on_type ag LEO_MSG_FORCE_HEARTBEAT id body env = Ret ag1 ->
  threads_stop ag = false -> connected (ag_conn ag) = true ->
  leo_proto_build_heartbeat e seq 512 = Some txt -> txt <> [] ->
  _interruptible_sleep ag1 false true = true /\
  exists ag2, _heartbeat_thread ag1 seq e = Some (ag2, wrap_u64 (seq + 1)) /\
    ag_conn ag2 = (leo_conn_send (ag_conn ag) txt).2 /\ force_heartbeat_pending ag2 = false /\
    _interruptible_sleep ag2 false true = false.
Proof.
  intros [= <-] Hs Hc Hb Ht. unfold _interruptible_sleep, _heartbeat_thread. simpl. rewrite Hs, Hc, Hb. simpl.
  assert (0 <? strlen txt = true) as Hl by (apply Z.ltb_lt; destruct txt; [done|unfold strlen; simpl; lia]).
  split; [done|]. eexists. split; [done|]. simpl. rewrite Hl. done.
Qed.

End messages.

(** ** Evaluations *)

Definition sample_dispatch_env : dispatch_env := mk_dispatch_env sample_env true true true false false.

(** A message of a type and an identifier, with a body. *)
Definition message_text (type : Z) (id body : list ascii) : list ascii :=
  str "{" ++ print_string_ptr (str "type") ++ str ":" ++ fmt_d type ++ str "," ++
  print_string_ptr (str "id") ++ str ":" ++ print_string_ptr id ++ str "," ++
  print_string_ptr (str "body") ++ str ":" ++ body ++ str "}".

Definition reboot_text : list ascii :=
  message_text 103 (str "42") (str "{" ++ print_string_ptr (str "delay_sec") ++ str ":90}").

Definition get {A} (d : A) (m : outcome A) : A := match m with Ret a => a | Undef => d end.

(** An agent whose connection has just been established. *)
Definition agent0 : agent := initial sample_config (conn greeted).
Definition agent1 : agent := get agent0 (@_on_message decimal_lib agent0 reboot_text sample_dispatch_env).
Definition reboot_ctx : _exec_ctx_t := ctx_reboot (ctx_new (str "42") _EXEC_KIND_REBOOT 15) 90.

Example agent1_runs : running agent1 = [Working reboot_ctx].
Proof. vm_compute. reflexivity. Qed.

Definition work1 := @exec_switch linux_world _ _ _ decimal_lib toy_openssl reboot_ctx (ag_conn agent1) sample_exec_env quiet_world.
Definition world1 : linux_world := work1.2.
Definition report1 : report := mk_report 0 (Live []) (Live []).
Definition agent2 : agent := set_conn (set_exec agent1 (exec_active_count agent1) [Reporting reboot_ctx report1]) (ag_conn agent1).
Definition sent2 : leo_conn * option (list ascii) :=
  get (ag_conn agent2, None) (@exec_report decimal_lib reboot_ctx (ag_conn agent2) report1 sample_env).
Definition agent3 : agent := thread_finish agent2 sent2 (str "42") [].

(** A restart is asked for, planned and reported. *)
Section restart_run.
Local Existing Instances decimal_lib toy_openssl.

Definition dialing : machine :=
  mk_machine (initial sample_config
    (set_status (set_lws idle_conn true (wsi idle_conn) false false) (connected idle_conn) false (reconnect_delay_ms idle_conn)))
    quiet_world 0 Servicing.
Definition machine0 : machine := mk_machine agent0 quiet_world 0 Servicing.
Definition machine1 : machine := mk_machine agent1 quiet_world 0 Servicing.
Definition machine2 : machine := mk_machine agent2 world1 0 Servicing.
Definition machine3 : machine := mk_machine agent3 world1 0 Servicing.

Lemma restart_connects : act TService (mk_machine (initial sample_config idle_conn) quiet_world 0 Starting) dialing.
Proof. apply step_service, loop_connect; reflexivity. Qed.

Lemma restart_greets : act TService dialing machine0.
Proof.
  apply (step_event (m_agent dialing) quiet_world 0 (LWS_CALLBACK_CLIENT_ESTABLISHED sample_env)
    (conn greeted) 0); reflexivity.
Qed.

Lemma restart_asked : act (TReceive reboot_text true) machine0 machine1.
Proof.
  apply (step_message agent0 quiet_world 0 reboot_text (conn greeted) reboot_text sample_dispatch_env agent1);
    vm_compute; reflexivity.
Qed.

Lemma restart_works : act TCommand machine1 machine2.
Proof.
  apply (step_work agent1 quiet_world 0 Servicing [] reboot_ctx [] sample_exec_env report1 (ag_conn agent1) world1);
    vm_compute; reflexivity.
Qed.

Lemma restart_reports : act (TReply (str "42") sent2.2) machine2 machine3.
Proof.
  apply (step_report agent2 world1 0 Servicing [] reboot_ctx report1 [] sample_env sent2 sent2.2); vm_compute; reflexivity.
Qed.

Lemma agent3_reachable : reachable quiet_world machine3.
Proof.
  exists sample_config, idle_conn. split; [exact idle_conn_created|].
  eapply rtc_l; [eexists; exact restart_connects|]. eapply rtc_l; [eexists; exact restart_greets|].
  eapply rtc_l; [eexists; exact restart_asked|]. eapply rtc_l; [eexists; exact restart_works|].
  apply rtc_once. eexists. exact restart_reports.
Qed.

End restart_run.

Example restart_reported : is_Some sent2.2.
Proof. vm_compute. eauto. Qed.

Lemma every_command_answered_once_witness :
  0 <= exec_active_count agent3 <= LEO_EXEC_MAX_CONCURRENT /\
  exec_active_count agent3 = Z.of_nat (length (running agent3)) /\
  asked agent3 ≡ₚ map fst (answered agent3) ++ map thread_id (running agent3) /\
  Forall (@is_result decimal_lib) (answered agent3) /\
  omap snd (answered agent3) `sublist_of` wire (ag_conn agent3) ++ queue_list (ag_conn agent3).
Proof.
  apply (@every_command_answered_once linux_world _ _ _ decimal_lib toy_openssl quiet_world
    machine3).
  exact agent3_reachable.
Defined.

Lemma only_allowed_commands_witness :
  exec_log world1 = [shutdown_argv 90] /\
  exists l, exec_log world1 = exec_log quiet_world ++ l /\ Forall (allowed linux_world) l.
Proof.
  split; [vm_compute; reflexivity|].
  apply (@only_allowed_commands linux_world _ _ _ _ _ decimal_lib toy_openssl quiet_world
    machine3).
  exact agent3_reachable.
Defined.

(** A request for a session, and to stop one. *)
Definition desktop_text (sid : list ascii) : list ascii :=
  message_text 110 (str "8") (str "{" ++ print_string_ptr (str "session_id") ++ str ":" ++ print_string_ptr sid ++
    str "," ++ print_string_ptr (str "ws_url") ++ str ":" ++ print_string_ptr (str "wss://h/rd") ++ str "}").
Definition desktop_stop_text (sid : list ascii) : list ascii :=
  message_text 111 (str "9") (str "{" ++ print_string_ptr (str "session_id") ++ str ":" ++ print_string_ptr sid ++ str "}").


Definition hello_ack_text : list ascii :=
  message_text 100 (str "7") (str "{" ++ print_string_ptr (str "metrics_interval_sec") ++ str ":100000}").

Definition paced_agent : agent := initial (set_intervals sample_config 300 10800) idle_conn.

Lemma only_intervals_change_witness :
  exists ag', @_on_message decimal_lib paced_agent hello_ack_text sample_dispatch_env = Ret ag' /\
  metrics_interval_sec (ag_config ag') = 86400 /\
  exists mi hi, ag_config ag' = set_intervals (ag_config paced_agent) mi hi /\ intervals_ok (ag_config ag').
Proof.
  eexists. split; [vm_compute; reflexivity|]. split; [vm_compute; reflexivity|].
  apply (@only_intervals_change decimal_lib paced_agent hello_ack_text sample_dispatch_env).
  - vm_compute. reflexivity.
  - unfold intervals_ok. cbn. lia.
Defined.

Definition connected_agent : agent := initial sample_config (set_status idle_conn true false 5000).
Definition forced_agent : agent := set_flags connected_agent false true.

Lemma forced_heartbeat_witness :
  exists txt, @leo_proto_build_heartbeat decimal_lib sample_env 5 512 = Some txt /\
  _interruptible_sleep forced_agent false true = true /\
  exists ag2, @_heartbeat_thread decimal_lib forced_agent 5 sample_env = Some (ag2, wrap_u64 6) /\
    ag_conn ag2 = (leo_conn_send (ag_conn connected_agent) txt).2 /\ force_heartbeat_pending ag2 = false /\
    _interruptible_sleep ag2 false true = false.
Proof.
  eexists. split; [vm_compute; reflexivity|].
  apply (@forced_heartbeat decimal_lib connected_agent [] None sample_dispatch_env forced_agent 5 sample_env);
    try reflexivity.
  discriminate.
Defined.

(** A patch identifier may start with a dash, and on a system with
    [dnf] it follows the options of the command line directly, without a
    separator: an accepted identifier can be an option, here one that turns
    the verification of signatures off. *)
Theorem patch_id_as_option :
  _patch_id_valid (str "--nogpgcheck") = true /\
  dnf_update_argv [str "--nogpgcheck"] = [str "dnf"; str "update"; str "-y"; str "--nogpgcheck"].
Proof. split; vm_compute; reflexivity. Qed.

Definition transfer_text (size : list ascii) : list ascii :=
  message_text 109 (str "9") (str "{" ++
    print_string_ptr (str "download_url") ++ str ":" ++ print_string_ptr (str "https://h/f") ++ str "," ++
    print_string_ptr (str "filename") ++ str ":" ++ print_string_ptr (str "f") ++ str "," ++
    print_string_ptr (str "size_bytes") ++ str ":" ++ size ++ str "}").

(** The exceptions are real: a file transfer announced with a size
    of 10^20 bytes converts it out of the range of [uint64_t], and any file
    transfer reads freed memory when its thread ends before the handler logs
    its name. *)
Theorem file_transfer_undefined :
  @_on_message decimal_lib agent0 (transfer_text (str "100000000000000000000")) sample_dispatch_env = Undef /\
  @_on_message decimal_lib agent0 (transfer_text (str "10")) (mk_dispatch_env sample_env true true true true false) = Undef.
Proof. split; vm_compute; reflexivity. Qed.

Definition in_session : agent := get agent0 (@_on_message decimal_lib agent0 (desktop_text (str "s1")) sample_dispatch_env).

(** So it is for remote desktops: the log line that ends the start of a session
    reads the context its thread may have freed, and the warning about an unknown
    session reads the one that is ending without holding the mutex. *)
Theorem remote_desktop_undefined :
  @_on_message decimal_lib agent0 (desktop_text (str "s1")) (mk_dispatch_env sample_env true true true true false) = Undef /\
  @_on_message decimal_lib in_session (desktop_stop_text (str "s2")) (mk_dispatch_env sample_env true true true false true)
    = Undef.
Proof. split; vm_compute; reflexivity. Qed.
