(* ===== verification/CommandSpec.v ===== *)
(** What the server may rely on, as an abstract machine: the commands in
    progress, the messages that wait to be sent, and whether the connection is
    up.  It is observed through what it receives and what it writes on the
    socket, and through what decides of the replies: the connection going up and
    down, the end of a command with the CMD_RESULT that could be built for it, and
    whether there was memory to refuse one.  The agent of [Agent] refines it: every
    run of the agent has the same events as some run of this machine. *)
From S2P Require Import Prelude CString Double Types Json JsonParse Protocol Config Crypto Ring Connection Executor Platform.
From S2P Require Import Patches RemoteDesktop Exec Dispatch Agent.

(** ** The specification *)

Inductive event : Type :=
| In (json : list ascii) (memory : bool)               (* a message is received *)
| Done (id : list ascii) (m : option (list ascii))     (* a command ends, with its CMD_RESULT *)
| Link (up : bool)                                     (* the connection goes up or down *)
| Out (txt : list ascii).                              (* a message is handed to the socket *)

Record spec : Type := mk_spec {
  sp_up : bool;
  sp_pending : list (list ascii);   (* the commands in progress *)
  sp_queue : list (list ascii);     (* what waits to be sent *)
  sp_lost : list (list ascii);      (* the commands whose reply was given up *)
}.

Definition spec_init : spec := mk_spec false [] [] [].

(** There is room for a message, and the connection is up. *)
Definition open (up : bool) (q : list (list ascii)) : bool :=
  up && (Z.of_nat (length q) <? LEO_SEND_QUEUE_DEPTH).

(** A message joins the queue, or is dropped. *)
Definition post (up : bool) (q : list (list ascii)) (txt : list ascii) : list (list ascii) :=
  if open up q then q ++ [txt] else q.

(** The reply to [id] joins the queue when it could be built and the queue is
    open; otherwise it is given up. *)
Definition reply (up : bool) (p q lost : list (list ascii)) (id : list ascii) (m : option (list ascii)) : spec :=
  match m with
  | Some txt => if open up q then mk_spec up p (q ++ [txt]) lost else mk_spec up p q (lost ++ [id])
  | None => mk_spec up p q (lost ++ [id])
  end.

(** A run of a labelled relation, with the labels of its steps in order. *)
Inductive run {S E} (R : list E -> S -> S -> Prop) : list E -> S -> S -> Prop :=
| run_nil s : run R [] s s
| run_cons l1 l2 s1 s2 s3 : R l1 s1 s2 -> run R l2 s2 s3 -> run R (l1 ++ l2) s1 s3.

Lemma run_once {S E} (R : list E -> S -> S -> Prop) l s s' : R l s s' -> run R l s s'.
Proof. intros Hr. rewrite <- (app_nil_r l). by apply (run_cons R l [] s s' s'), run_nil. Qed.

Lemma run_trans {S E} (R : list E -> S -> S -> Prop) l1 l2 s1 s2 s3 :
  run R l1 s1 s2 -> run R l2 s2 s3 -> run R (l1 ++ l2) s1 s3.
Proof.
  induction 1 as [|a b s1 s2' s2 Hs _ IH]; intros Hr; [done|].
  rewrite <- (assoc_L (++)). eapply run_cons; [done|by apply IH].
Qed.

(** Two labelled relations, an invariant of the first and a function that maps
    each step of the first to a run of the second with the same labels. *)
Lemma run_simulation {S T E} (R : list E -> S -> S -> Prop) (Q : list E -> T -> T -> Prop)
    (inv : S -> Prop) (f : S -> T) :
  (forall l s s', inv s -> R l s s' -> inv s' /\ run Q l (f s) (f s')) ->
  forall l s s', run R l s s' -> inv s -> inv s' /\ run Q l (f s) (f s').
Proof.
  intros Hstep. induction 1 as [s|l1 l2 s1 s2 s3 Hs _ IH]; intros Hi; [split; [done|apply run_nil]|].
  destruct (Hstep _ _ _ Hi Hs) as [H2 Hq]. destruct (IH H2) as [H3 Hq']. split; [done|]. by eapply run_trans.
Qed.

Section spec.
Context `{CLib}.

(** [txt] is a CMD_RESULT of the command [id], and one that refuses it. *)
Definition result_for (id txt : list ascii) : Prop :=
  exists e code out err, leo_proto_build_cmd_result e id code out err LEO_MAX_MSG_SIZE = Some txt.

Definition refusal_of (id txt : list ascii) : Prop :=
  exists e msg, msg <> [] /\ leo_proto_build_cmd_result e id (-1) [] msg LEO_MAX_MSG_SIZE = Some txt.

(** A command that is received is taken, when there is room, or refused: its
    reply has the exit code -1, and is built when there is memory.  One in progress
    leaves with its reply.  Other messages may be received and sent, but none that
    is a CMD_RESULT.  The messages are written in the order of the queue. *)
Inductive spec_step : list event -> spec -> spec -> Prop :=
| spec_hear json memory s :
    command_in json = None -> spec_step [In json memory] s s
| spec_take json memory id up p q lost :
    command_in json = Some id -> Z.of_nat (length p) < LEO_EXEC_MAX_CONCURRENT ->
    spec_step [In json memory] (mk_spec up p q lost) (mk_spec up (p ++ [id]) q lost)
| spec_refuse json memory id m up p q lost :
    command_in json = Some id -> (memory = true -> is_Some m) -> (forall txt, m = Some txt -> refusal_of id txt) ->
    spec_step [In json memory] (mk_spec up p q lost) (reply up p q lost id m)
| spec_finish id m up p1 p2 q lost :
    (forall txt, m = Some txt -> result_for id txt) ->
    spec_step [Done id m] (mk_spec up (p1 ++ id :: p2) q lost) (reply up (p1 ++ p2) q lost id m)
| spec_note txt up p q lost :
    note_text txt -> spec_step [] (mk_spec up p q lost) (mk_spec up p (post up q txt) lost)
| spec_write txt up p q lost :
    spec_step [Out txt] (mk_spec up p (txt :: q) lost) (mk_spec up p q lost)
| spec_link up p q lost :
    spec_step [Link (negb up)] (mk_spec up p q lost) (mk_spec (negb up) p q lost).

(** *** What it implies for a server *)

Definition received (evs : list event) : list (list ascii) :=
  omap (fun ev => match ev with In json _ => command_in json | _ => None end) evs.

Definition written (evs : list event) : list (list ascii) :=
  omap (fun ev => match ev with Out txt => Some txt | _ => None end) evs.

Definition results (l : list (list ascii)) : list (list ascii) := filter (fun t => is_cmd_result t = true) l.

(** From some messages already written, the CMD_RESULTs written and queued
    answer [ids]; these, the commands whose reply was given up and those in
    progress are the commands received. *)
Definition accounted (rcv wr : list (list ascii)) (s : spec) : Prop :=
  exists ids, Forall2 result_for ids (results (wr ++ sp_queue s)) /\ rcv ≡ₚ ids ++ sp_lost s ++ sp_pending s.

Lemma results_app l1 l2 : results (l1 ++ l2) = results l1 ++ results l2.
Proof. apply filter_app. Qed.

Lemma result_type id txt : result_for id txt -> is_cmd_result txt = true.
Proof.
  intros (e & code & out & err & B). unfold leo_proto_build_cmd_result in B. destruct (body_ok e); [|done].
  cbn [negb] in B. by rewrite (serialize_type _ _ _ _ _ B).
Qed.

Lemma refusal_result id txt : refusal_of id txt -> result_for id txt.
Proof. intros (e & msg & _ & B). by exists e, (-1), [], msg. Qed.

(** A reply is queued, or given up. *)
Lemma accounted_reply rcv rcv' wr up p p' q lost id m :
  accounted rcv wr (mk_spec up p q lost) -> (forall txt, m = Some txt -> result_for id txt) ->
  (forall ids, rcv ≡ₚ ids ++ lost ++ p -> rcv' ≡ₚ id :: ids ++ lost ++ p') ->
  accounted rcv' wr (reply up p' q lost id m).
Proof.
  intros (ids & Hf & Hp) Hm Hr. apply Hr in Hp. unfold accounted, reply in *. cbn [sp_queue sp_lost sp_pending] in *.
  destruct m as [txt|]; [destruct (open up q)|]; cbn [sp_queue sp_lost sp_pending].
  - specialize (Hm txt eq_refl). exists (ids ++ [id]). split; [|rewrite Hp; solve_Permutation].
    rewrite (assoc_L (++)), results_app. apply Forall2_app; [done|].
    unfold results. rewrite filter_cons_True by by eapply result_type.
    rewrite filter_nil. by repeat constructor.
  - exists ids. split; [done|]. rewrite Hp. solve_Permutation.
  - exists ids. split; [done|]. rewrite Hp. solve_Permutation.
Qed.

Lemma spec_step_accounted l s s' rcv wr :
  spec_step l s s' -> accounted rcv wr s -> accounted (rcv ++ received l) (wr ++ written l) s'.
Proof.
  destruct 1 as [json b s E|json b id up p q lost E _|json b id m up p q lost E _ Hm|id m up p1 p2 q lost Hm
    |txt up p q lost (Hn & _)|txt up p q lost|up p q lost]; intros Ha; cbn; rewrite ?E, ?app_nil_r.
  - done.
  - destruct Ha as (ids & Hf & Hp). exists ids. split; [done|]. cbn in *. rewrite Hp. solve_Permutation.
  - eapply accounted_reply; [exact Ha|by intros txt ?%Hm%refusal_result|]. intros ids ->. solve_Permutation.
  - eapply accounted_reply; [exact Ha|exact Hm|]. intros ids ->. solve_Permutation.
  - destruct Ha as (ids & Hf & Hp). exists ids. split; [|done]. cbn in *. unfold post.
    destruct (open up q); [|done]. rewrite (assoc_L (++)), results_app. unfold results at 2.
    rewrite filter_cons_False, filter_nil, app_nil_r by (by rewrite Hn). done.
  - destruct Ha as (ids & Hf & Hp). exists ids. split; [|done]. cbn in *.
    by rewrite <- (assoc_L (++)).
  - done.
Qed.

Definition within (s : spec) : Prop := Z.of_nat (length (sp_pending s)) <= LEO_EXEC_MAX_CONCURRENT.

Lemma reply_pending up p q lost id m : sp_pending (reply up p q lost id m) = p.
Proof. unfold reply. destruct m; [|done]. by destruct (open up q). Qed.

Lemma spec_step_within l s s' : spec_step l s s' -> within s -> within s'.
Proof.
  unfold within. destruct 1; rewrite ?reply_pending; cbn [sp_pending]; rewrite ?length_app; simpl; lia.
Qed.

Lemma spec_run_accounted l s s' rcv wr : run spec_step l s s' -> within s -> accounted rcv wr s ->
  within s' /\ accounted (rcv ++ received l) (wr ++ written l) s'.
Proof.
  intros Hr. revert rcv wr. induction Hr as [s|l1 l2 s1 s2 s3 Hs _ IH]; intros rcv wr Hw Ha.
  - by rewrite !app_nil_r.
  - unfold received, written. rewrite !omap_app, !(assoc_L (++)). apply IH; [by eapply spec_step_within|].
    by eapply spec_step_accounted.
Qed.

End spec.

(** ** The agent *)

(** *** Sends *)

Lemma send_posts c txt : ring_ok c -> txt <> [] -> strlen txt < LEO_MAX_MSG_SIZE ->
  let c' := (leo_conn_send c txt).2 in
  ring_ok c' /\ connected c' = connected c /\ wire c' = wire c /\
  queue_list c' = post (connected c) (queue_list c) txt /\
  (open (connected c) (queue_list c) = true <-> (leo_conn_send c txt).1 = LEO_OK).
Proof.
  intros Hr Hn Hl. pose proof (queue_list_length c Hr) as Hq. unfold leo_conn_send, post, open. rewrite Hq.
  rewrite bool_decide_false by done. destruct (connected c) eqn:Ec; [|by cbn]. cbn [negb andb].
  destruct (enqueue c txt) as [err c'] eqn:E.
  pose proof (enqueue_rest _ _ _ _ E) as (_ & _ & E1 & _ & _ & _ & _ & _ & E2 & _).
  apply enqueue_spec in E as [Hr' He]; [|done].
  rewrite take_Z_all in He by (unfold strlen in Hl; lia).
  destruct err; try (destruct He as (? & Hf & ->); rewrite Hf, Z.ltb_irrefl; done).
  destruct He as [Hlt Hq']. apply Z.ltb_lt in Hlt as ->. cbn. unfold wake.
  destruct (lws_ctx c'); cbn; split_and!; try done; congruence.
Qed.

Section refinement.
Context {W : Type} `{Executor W} `{!FileSystem W} `{!PatchManager W} `{CLibLaws} `{OpenSSL}.

Local Notation machine := (Agent.machine (W := W)).

(** The connection as the specification sees it, with the commands [p] in
    progress and the replies [lost]. *)
Definition seen (p lost : list (list ascii)) (c : leo_conn) : spec := mk_spec (connected c) p (queue_list c) lost.

Lemma notes_sim p lost c c' : notes c c' -> ring_ok c ->
  ring_ok c' /\ wire c' = wire c /\ connected c' = connected c /\ run spec_step [] (seen p lost c) (seen p lost c').
Proof.
  induction 1 as [c|c c1 c' (txt & Ht & ->) _ IH]; intros Hr; [split_and!; [done..|apply run_nil]|].
  destruct Ht as (Hc & Hn & Hl). destruct (send_posts c txt Hr Hn Hl) as (Hr1 & E1 & E2 & E3 & _).
  destruct (IH Hr1) as (Hr' & E4 & E5 & Hs). split_and!; [done|congruence..|].
  apply (run_cons _ [] [] _ (seen p lost (leo_conn_send c txt).2)); [|done].
  unfold seen. rewrite E1, E3. by apply spec_note.
Qed.

(** The replies given up, of those recorded. *)
Definition given_up (l : list (list ascii * option (list ascii))) : list (list ascii) :=
  omap (fun a => match a.2 with Some _ => None | None => Some a.1 end) l.

Lemma cmd_result_replies c e id code out err p l : ring_ok c ->
  let sent := send_cmd_result c e id code out err in
  wire sent.1 = wire c /\ connected sent.1 = connected c /\
  seen p (given_up (l ++ [(id, sent.2)])) sent.1 =
    reply (connected c) p (queue_list c) (given_up l) id (leo_proto_build_cmd_result e id code out err LEO_MAX_MSG_SIZE).
Proof.
  intros Hr. unfold send_cmd_result, given_up. rewrite omap_app.
  destruct (leo_proto_build_cmd_result _ _ _ _ _ _) as [txt|] eqn:B; [|done].
  unfold leo_proto_build_cmd_result in B. destruct (body_ok e); [|done]. cbn [negb] in B.
  rewrite (serialize_nonempty _ _ _ _ _ B). pose proof (serialize_fits _ _ _ _ _ B) as Hl.
  assert (txt <> []) as Hn by (intros ->; by apply serialize_nonempty in B).
  destruct (send_posts c txt Hr Hn Hl) as (_ & E1 & E2 & E3 & E4). unfold post, seen, reply in *.
  destruct (open _ _); [rewrite (surjective_pairing (leo_conn_send c txt)), (proj1 E4 eq_refl); cbn|].
  - rewrite app_nil_r. by rewrite E1, E3.
  - assert ((leo_conn_send c txt).1 <> LEO_OK) as Hne by (by intros ?%E4).
    destruct (leo_conn_send c txt) as [[] c']; cbn in *; by rewrite E1, E3.
Qed.

(** *** Steps *)

Definition abs_agent (ag : agent) : spec := seen (map thread_id (running ag)) (given_up (answered ag)) (ag_conn ag).

Definition abs (s : machine) : spec := abs_agent (m_agent s).

(** The events of a step: what it receives or completes, the connection going up
    or down, and what it writes on the socket. *)
Definition heard (p : party) : list event :=
  match p with TReceive json memory => [In json memory] | TReply id m => [Done id m] | _ => [] end.

Definition linked (c c' : leo_conn) : list event :=
  if bool_decide (connected c' = connected c) then [] else [Link (connected c')].

Definition wrote (c c' : leo_conn) : list event := map Out (drop (length (wire c)) (wire c')).

Definition shown (c c' : leo_conn) : list event := linked c c' ++ wrote c c'.

Definition observed_step (l : list event) (s s' : machine) : Prop :=
  exists p, act p s s' /\ l = heard p ++ shown (ag_conn (m_agent s)) (ag_conn (m_agent s')).

Lemma shown_nothing c c' : wire c' = wire c -> connected c' = connected c -> shown c c' = [].
Proof. unfold shown, linked, wrote. intros -> ->. by rewrite drop_all, bool_decide_true. Qed.

(** The states the simulation is about. *)
Definition sound (s : machine) : Prop :=
  agent_inv (m_agent s) /\ exists cfg, Connection.reachable cfg (net s 0).

Lemma sound_ring s : sound s -> ring_ok (ag_conn (m_agent s)).
Proof. intros [_ [cfg [[Hr _ _ _] _ _ _ _ _]%reachable_inv]]. exact Hr. Qed.

Lemma sound_step s s' : sound s -> step s s' -> sound s'.
Proof.
  intros [Hi (cfg & c & Hc & Hr)] Hs. split; [by eapply step_inv|].
  exists cfg, c. split; [done|]. etrans; [exact Hr|by apply step_sim].
Qed.

(** A step that changes only whether the connection is up. *)
Lemma link_sim p lost c c' : wire c' = wire c -> queue_list c' = queue_list c ->
  run spec_step (shown c c') (seen p lost c) (seen p lost c').
Proof.
  intros E2 E3. unfold shown, linked, wrote, seen. rewrite E2, E3, drop_all, app_nil_r.
  destruct (connected c) eqn:E, (connected c') eqn:E'; cbn; try apply run_nil; apply run_once;
    [exact (spec_link true _ _ _)|exact (spec_link false _ _ _)].
Qed.

Lemma sim_link ag ag' w w' n n' p p' :
  map thread_id (running ag') = map thread_id (running ag) -> answered ag' = answered ag ->
  wire (ag_conn ag') = wire (ag_conn ag) -> queue_list (ag_conn ag') = queue_list (ag_conn ag) ->
  run spec_step ([] ++ shown (ag_conn ag) (ag_conn ag')) (abs (mk_machine ag w n p)) (abs (mk_machine ag' w' n' p')).
Proof.
  intros E1 E E2 E3. unfold abs, abs_agent. cbn. rewrite E1, E. by apply link_sim.
Qed.

(** A step that only sends messages that are not replies. *)
Lemma sim_notes ag ag' w w' n n' p p' :
  ring_ok (ag_conn ag) -> map thread_id (running ag') = map thread_id (running ag) -> answered ag' = answered ag ->
  notes (ag_conn ag) (ag_conn ag') ->
  run spec_step ([] ++ shown (ag_conn ag) (ag_conn ag')) (abs (mk_machine ag w n p)) (abs (mk_machine ag' w' n' p')).
Proof.
  intros Hr E1 E Hn. destruct (notes_sim (map thread_id (running ag)) (given_up (answered ag)) _ _ Hn Hr) as (_ & E2 & E3 & Hs).
  rewrite shown_nothing by done. unfold abs, abs_agent. cbn. by rewrite E1, E.
Qed.

Lemma sim_frame ag ag' w w' n n' p p' : ring_ok (ag_conn ag) -> frame ag ag' ->
  run spec_step ([] ++ shown (ag_conn ag) (ag_conn ag')) (abs (mk_machine ag w n p)) (abs (mk_machine ag' w' n' p')).
Proof.
  unfold frame, exec_part. intros Hr [[= _ E2 _ E4] Hn]. by apply sim_notes; rewrite ?E2.
Qed.

Lemma refusal_built e id msg :
  serialisable e = true -> strlen id < LEO_UUID_STR_LEN -> refusal msg = true ->
  is_Some (leo_proto_build_cmd_result e id (-1) [] msg LEO_MAX_MSG_SIZE).
Proof.
  unfold refusal. intros He Hid [[_ Hl%Z.ltb_lt]%andb_true_iff Ht]%andb_true_iff.
  destruct (cmd_result_built e id (-1) [] msg He Hid) as (txt & _ & B); [done|done|done|done| |by exists txt].
  unfold LEO_EXEC_STDERR_MAX. lia.
Qed.

Lemma sim_dispatched ag json id e ag' w n p :
  agent_inv ag -> ring_ok (ag_conn ag) -> command_in json = Some id -> strlen id < LEO_UUID_STR_LEN ->
  dispatched e (ask ag id) id ag' ->
  run spec_step ([In json (serialisable e)] ++ shown (ag_conn ag) (ag_conn ag'))
    (abs (mk_machine ag w n p)) (abs (mk_machine ag' w n p)).
Proof.
  intros [Hc _ _ _ _ _] Hr Hj Hid Hd. destruct Hd as [t <- _ Hlt|msg Hm].
  - rewrite shown_nothing by done. apply run_once. unfold abs, abs_agent, seen. cbn in *. rewrite map_app.
    apply spec_take; [done|]. rewrite length_map. lia.
  - unfold _send_cmd_error. change (ag_conn (ask ag id)) with (ag_conn ag).
    destruct (cmd_result_replies (ag_conn ag) e id (-1) [] msg (map thread_id (running ag)) (answered ag) Hr) as (E1 & E2 & E3).
    destruct (send_cmd_result _ _ _ _ _ _) as [c m]. cbn in E1, E2. cbn [fst snd] in E3.
    rewrite shown_nothing by done. apply run_once.
    change (spec_step [In json (serialisable e)] (abs_agent ag)
      (seen (map thread_id (running ag)) (given_up (answered ag ++ [(id, m)])) c)).
    rewrite E3. apply spec_refuse; [done|by intros; apply refusal_built|].
    intros txt B. exists e, msg. split; [|done]. intros ->. done.
Qed.

Lemma sim_finish ag c0 c e code out err m l1 t l2 w n p :
  ring_ok (ag_conn ag) -> running ag = l1 ++ t :: l2 -> notes (ag_conn ag) c0 ->
  send_cmd_result c0 e (thread_id t) code out err = c ->
  leo_proto_build_cmd_result e (thread_id t) code out err LEO_MAX_MSG_SIZE = m ->
  run spec_step ([Done (thread_id t) m] ++ shown (ag_conn ag) c.1)
    (abs (mk_machine ag w n p)) (abs (mk_machine (thread_finish ag c (thread_id t) (l1 ++ l2)) w n p)).
Proof.
  intros Hr E Hn <- Hm.
  destruct (notes_sim (map thread_id (running ag)) (given_up (answered ag)) _ _ Hn Hr) as (Hr0 & E0 & E0' & Hs).
  destruct (cmd_result_replies c0 e (thread_id t) code out err (map thread_id (l1 ++ l2)) (answered ag) Hr0) as (E1 & E1' & E2).
  rewrite shown_nothing by congruence. apply (run_trans _ [] [Done (thread_id t) m] _ _ _ Hs). apply run_once.
  set (sent := send_cmd_result _ _ _ _ _ _) in *.
  change (abs _) with (seen (map thread_id (l1 ++ l2)) (given_up (answered ag ++ [(thread_id t, sent.2)])) sent.1).
  rewrite E2, Hm. unfold seen. rewrite E, !map_app. apply spec_finish. intros txt ->. unfold result_for. eauto.
Qed.

(** The callbacks of libwebsockets. *)
Lemma sim_callback ag r c rc w n p :
  ring_ok (ag_conn ag) -> _lws_callback (consume (ag_conn ag) r) r = (c, rc, None) ->
  run spec_step ([] ++ shown (ag_conn ag) c) (abs (mk_machine ag w n p)) (abs (mk_machine (set_conn ag c) w n p)).
Proof.
  intros Hr E. destruct r as [e|[[|a d]|]| | | | | |]; cbn [_lws_callback consume] in E; simplify_eq;
    try (by apply (sim_link ag (set_conn ag _))).
  - unfold on_established. set (c1 := set_status _ _ _ _).
    assert (ring_ok c1) as Hr1 by exact Hr.
    assert (forall c2, notes c1 c2 -> run spec_step ([] ++ shown (ag_conn ag) (lws_callback_on_writable c2))
      (abs (mk_machine ag w n p)) (abs (mk_machine (set_conn ag (lws_callback_on_writable c2)) w n p))) as Hgen.
    { intros c2 Hn. destruct (notes_sim (map thread_id (running ag)) (given_up (answered ag)) _ _ Hn Hr1) as (_ & E2 & E3 & Hs).
      assert (shown (ag_conn ag) (lws_callback_on_writable c2) = shown (ag_conn ag) c1) as ->
        by (unfold shown, linked, wrote; cbn; rewrite E2, E3; done).
      rewrite <- (app_nil_r (shown _ _)).
      eapply (run_trans _ ([] ++ shown _ _) [] _ (seen (map thread_id (running ag)) (given_up (answered ag)) c1)); [|exact Hs].
      by apply link_sim. }
    destruct (leo_proto_build_hello _ _ _) as [b|] eqn:B; [|apply Hgen, rtc_refl].
    destruct (0 <? strlen b); [|apply Hgen, rtc_refl].
    apply Hgen, notes_one. unfold leo_proto_build_hello in B. built_note B.
  - set (c0 := set_lws _ _ _ _ _). assert (ring_ok c0) as Hr0 by exact Hr.
    destruct (Z.ltb_spec 0 (queue_count c0)) as [Hc|Hc].
    + destruct (writeable_spec c0 Hr0 Hc) as (m & Hq & Hw & _ & _).
      assert (connected (on_writeable c0) = connected (ag_conn ag)) as Ec by (unfold on_writeable; by repeat case_goal).
      unfold shown, linked, wrote. rewrite Hw, Ec, bool_decide_true by done. change (wire c0) with (wire (ag_conn ag)).
      rewrite drop_app_length. apply run_once. unfold abs, abs_agent, seen. cbn [m_agent running set_conn ag_conn answered].
      change (queue_list (ag_conn ag)) with (queue_list c0). rewrite Hq.
      rewrite Ec. apply spec_write.
    + unfold on_writeable. destruct (Z.ltb_spec 0 (queue_count c0)); [lia|].
      by apply (sim_link ag (set_conn ag c0)).
  - apply (sim_link ag (set_conn ag _)); [done|done|..]; unfold on_wait_cancelled; by destruct (_ && _).
Qed.

Lemma sim_loop ag w n p p' c :
  loop_step (p, ag_conn ag) (p', c) ->
  run spec_step ([] ++ shown (ag_conn ag) c) (abs (mk_machine ag w n p)) (abs (mk_machine (set_conn ag c) w n p')).
Proof.
  intros Hl. apply (sim_link ag (set_conn ag c)); [done|done|..];
    inversion Hl; subst; cbn; unfold after_service, context_destroy; by destruct (wsi (ag_conn ag)).
Qed.

Lemma step_refines l s s' : sound s -> observed_step l s s' -> sound s' /\ run spec_step l (abs s) (abs s').
Proof.
  intros Hs (a & Hact & ->). split; [eapply sound_step; [done|by exists a]|].
  pose proof (sound_ring s Hs) as Hr. destruct Hs as [Hi _]. revert Hi Hr.
  act_cases Hact; cbn [m_agent heard]; intros Hi Hr; try (by apply sim_link).
  - assert (set_conn ag c = ag) as Ec by (apply received_conn in Er as ->; by destruct ag). rewrite Ec in E.
    apply on_message_cases in E as [(Hj & E)|(id & Hj & Hid & E)]; [|by eapply sim_dispatched].
    apply (run_trans _ [In json _] _ _ (abs (mk_machine ag w n Servicing))); [by apply run_once, spec_hear|].
    by apply sim_frame.
  - by eapply sim_callback.
  - by apply sim_loop.
  - apply sim_notes; [done|cbn; by rewrite E1, !map_app|done|].
    by apply (exec_switch_notes ctx (ag_conn ag) e w (Ret (r, c)) w' E2 (r, c)).
  - apply sim_link; [cbn; by rewrite E1, !map_app|done|done|done].
  - destruct (report_sent _ _ _ _ _ _ E2 E3) as (code & out & err & E4 & E5).
    by apply (sim_finish ag (ag_conn ag) sent se code out err sm l1 (Reporting ctx r) l2).
  - pose proof (inventory_notes (ag_conn ag) e) as Hn. unfold _inventory_thread, inventory_reply.
    destruct (inventory_result (ag_conn ag) e) as [[[c1 code] out] err]. cbn [fst] in Hn.
    by apply (sim_finish ag c1 _ (inv_result_ser e) code out err _ l1 (Collecting id) l2).
  - apply heartbeat_frame in E. by apply sim_frame.
  - apply metrics_frame in E. by apply sim_frame.
  - apply patch_frame in E. by apply sim_frame.
  - apply listed_frame in E. by apply sim_frame.
  - apply sim_notes; [done|done|done|apply report_status_notes].
  - apply sim_link; [done|done|..]; unfold disconnecting, wake; cbn; by destruct (lws_ctx _).
Qed.

Definition booted (cfg : leo_config_t) (c : leo_conn) (w : W) : machine := mk_machine (initial cfg c) w 0 Starting.

Lemma booted_sound cfg c w : leo_conn_create cfg true true = Some c -> sound (booted cfg c w) /\ abs (booted cfg c w) = spec_init.
Proof.
  intros Hc. split; [split; [apply initial_inv|exists cfg, c; split; [done|apply rtc_refl]]|].
  unfold leo_conn_create in Hc. cbn in Hc. case_match; [|done]. case_match. case_match.
  by injection Hc as <-.
Qed.

Lemma agent_run_refines cfg c w evs s :
  leo_conn_create cfg true true = Some c -> run observed_step evs (booted cfg c w) s ->
  run spec_step evs spec_init (abs s).
Proof.
  intros Hc Hr. destruct (booted_sound cfg c w Hc) as [Hs <-].
  eapply (run_simulation _ _ _ abs step_refines) in Hr as [_ Hr]; done.
Qed.

(** C3: the agent is the command server of the specification.  Whatever the
    interleaving of its threads, each run of the agent is matched by a run of the
    abstract machine with the same events in the same order (the messages received
    and those written on the socket, the ups and downs of the connection, the
    results of the commands) that ends with the same commands in progress, the same
    messages waiting and the same replies given up: a command is taken only when
    fewer than four are in progress, or refused with exit code -1, a reply that is
    built if there is memory; each one taken or refused makes one CMD_RESULT and
    nothing else does; and that one joins the queue, in the order it is later
    written, unless it could not be built, the connection is down at that moment or
    the queue is full. *)
Theorem agent_refines_spec cfg c w evs s :
  leo_conn_create cfg true true = Some c -> run observed_step evs (booted cfg c w) s ->
  run spec_step evs spec_init (abs s).
Proof. apply agent_run_refines. Qed.

(** C4: at any moment of a run, the commands received are, as a multiset, those
    answered by the CMD_RESULT messages written on the socket or in the queue, one
    message each, those in progress, at most four, and those whose reply was given
    up.  So no command is answered twice and none that was not received, also when
    an identifier is used again; and by the matching run of the specification, which
    ends with the same messages waiting and the same commands given up, a reply is
    given up only when it could not be built, the connection was down or the queue
    was full at that moment. *)
Theorem server_contract cfg c w evs s :
  leo_conn_create cfg true true = Some c -> run observed_step evs (booted cfg c w) s ->
  exists ids lost,
    run spec_step evs spec_init
      (mk_spec (connected (ag_conn (m_agent s))) (map thread_id (running (m_agent s))) (queue_list (ag_conn (m_agent s))) lost) /\
    Forall2 result_for ids (results (written evs ++ queue_list (ag_conn (m_agent s)))) /\
    received evs ≡ₚ ids ++ lost ++ map thread_id (running (m_agent s)) /\
    Z.of_nat (length (running (m_agent s))) <= LEO_EXEC_MAX_CONCURRENT.
Proof.
  intros Hc Hr. apply (agent_run_refines _ _ _ _ _ Hc) in Hr. pose proof Hr as Hrun.
  eapply (spec_run_accounted _ _ _ [] []) in Hr as [Hw (ids & Hf & Hp)]; [|done|exists []; split; [constructor|done]].
  exists ids, (given_up (answered (m_agent s))). split_and!; [done|done|done|].
  unfold within in Hw. cbn in Hw. by rewrite length_map in Hw.
Qed.

End refinement.

(** ** Evaluations *)

(** The restart of [Agent]: the command is received, and its reply written
    after HELLO. *)
Section restart_run.
Local Existing Instances decimal_lib decimal_lib_laws toy_openssl.

Definition hello_text : list ascii := default [] (leo_proto_build_hello sample_env sample_config LEO_MAX_MSG_SIZE).

(** The callback that writes the oldest message. *)
Definition write_next (ag : agent) : agent :=
  set_conn ag (on_writeable (consume (ag_conn ag) (LWS_CALLBACK_CLIENT_WRITEABLE 0))).

Definition restarted : machine := mk_machine (write_next (write_next agent3)) world1 0 Servicing.

Definition restart_events : list event :=
  [Link true; In reboot_text true; Done (str "42") sent2.2; Out hello_text; Out (default [] sent2.2)].

Lemma restart_writes ag :
  wsi (ag_conn ag) && armed (ag_conn ag) = true ->
  act TService (mk_machine ag world1 0 Servicing) (mk_machine (write_next ag) world1 0 Servicing).
Proof. intros Ha. by apply (step_event ag world1 0 (LWS_CALLBACK_CLIENT_WRITEABLE 0) _ 0 Ha). Qed.

Lemma run_act (p : party) (l l' : list event) (s1 s2 s3 : machine) :
  act p s1 s2 -> heard p ++ shown (ag_conn (m_agent s1)) (ag_conn (m_agent s2)) = l ->
  run observed_step l' s2 s3 -> run observed_step (l ++ l') s1 s3.
Proof. intros Ha <- Hr. eapply run_cons; [|done]. by exists p. Qed.

Lemma restart_run : run observed_step restart_events (booted sample_config idle_conn quiet_world) restarted.
Proof.
  unfold restart_events.
  apply (run_act TService [] _ _ dialing); [exact restart_connects|vm_compute; reflexivity|].
  apply (run_act TService [Link true] _ _ machine0); [exact restart_greets|vm_compute; reflexivity|].
  apply (run_act (TReceive reboot_text true) [In reboot_text true] _ _ machine1); [exact restart_asked|vm_compute; reflexivity|].
  apply (run_act TCommand [] _ _ machine2); [exact restart_works|vm_compute; reflexivity|].
  apply (run_act (TReply (str "42") sent2.2) [Done (str "42") sent2.2] _ _ machine3); [exact restart_reports|vm_compute; reflexivity|].
  apply (run_act TService [Out hello_text] _ _ (mk_machine (write_next agent3) world1 0 Servicing));
    [apply restart_writes; vm_compute; reflexivity|vm_compute; reflexivity|].
  apply (run_act TService [Out _] [] _ restarted);
    [apply restart_writes; vm_compute; reflexivity|vm_compute; reflexivity|apply run_nil].
Qed.

Lemma agent_refines_spec_witness :
  received restart_events = [str "42"] /\ length (results (written restart_events)) = 1%nat /\
  run spec_step restart_events spec_init (abs restarted).
Proof.
  split; [vm_compute; reflexivity|]. split; [vm_compute; reflexivity|].
  apply (agent_refines_spec sample_config idle_conn quiet_world restart_events restarted).
  - exact idle_conn_created.
  - exact restart_run.
Defined.

Lemma server_contract_witness :
  running (m_agent restarted) = [] /\ queue_list (ag_conn (m_agent restarted)) = [] /\
  exists ids lost,
    run spec_step restart_events spec_init
      (mk_spec (connected (ag_conn (m_agent restarted))) (map thread_id (running (m_agent restarted)))
         (queue_list (ag_conn (m_agent restarted))) lost) /\
    Forall2 result_for ids (results (written restart_events ++ queue_list (ag_conn (m_agent restarted)))) /\
    received restart_events ≡ₚ ids ++ lost ++ map thread_id (running (m_agent restarted)) /\
    Z.of_nat (length (running (m_agent restarted))) <= LEO_EXEC_MAX_CONCURRENT.
Proof.
  split; [vm_compute; reflexivity|]. split; [vm_compute; reflexivity|].
  apply (server_contract sample_config idle_conn quiet_world restart_events restarted).
  - exact idle_conn_created.
  - exact restart_run.
Defined.

End restart_run.
