(* ===== verification/Budget.v ===== *)
(** How long a command may take, and how long [leo_agent_stop] of
    [src/agent.c] waits for it.

    Every child is run with a time limit, which the executor enforces (see
    [Executor]).  A metered executor adds these limits up, over any executor;
    running the command threads of [Exec] on it gives a bound of the time a
    command spends in its children.  Updates are those of [Patches]; the update
    service of Windows runs no child and ignores its limit. *)
From S2P Require Import Prelude CString Double Types Json JsonParse Protocol Config Crypto Connection Executor Platform.
From S2P Require Import Patches FileTransfer Exec Dispatch Agent.

(** ** The metered executor *)

(** A world with the sum of the limits of the children started in it, in
    seconds, [None] once one was started without limit. *)
Record metered (W : Type) : Type := mk_metered {
  m_inner : W;
  meter : option Z;
}.

Arguments mk_metered {W} _ _.
Arguments m_inner {W} _.
Arguments meter {W} _.

(** A limit that is not positive is no limit. *)
Definition charge (timeout_secs : Z) (m : option Z) : option Z :=
  s ← m; if 0 <? timeout_secs then Some (s + timeout_secs) else None.

Definition metered_run {W A} (timeout_secs : Z) (p : prog W A) : prog (metered W) A := fun w =>
  let '(r, w') := p (m_inner w) in (r, mk_metered w' (charge timeout_secs (meter w))).

Section metered.
Context {W : Type} `{Executor W} `{!FileSystem W}.

#[export] Instance metered_executor : Executor (metered W) := {|
  exec_script i s t old := metered_run t (exec_script i s t old);
  exec_argv argv env t old := metered_run t (exec_argv argv env t old);
  exec_log w := exec_log (m_inner w);
  interpreters := interpreters W;
  script_argv := script_argv W;
|}.

#[export] Program Instance metered_file_system : FileSystem (metered W) := {|
  fs_workdir := fs_workdir;
  get_files w := get_files (W := W) (m_inner w);
  put_files fs w := mk_metered (put_files (W := W) fs (m_inner w)) (meter w);
|}.
Next Obligation. intros fs w. exact (put_files_log (W := W) fs (m_inner w)). Qed.

#[export] Instance metered_patches : PatchManager (metered W) := package_manager (metered W).

(** The meter does not disturb the executor. *)
#[export] Instance metered_laws : ExecutorLaws W -> ExecutorLaws (metered W).
Proof.
  intros HL. split; cbn; unfold metered_run.
  - intros argv env t old w. pose proof (exec_argv_log argv env t old (m_inner w)) as Hl.
    by destruct (exec_argv argv env t old (m_inner w)).
  - intros argv env t old w err r w' Ha E.
    destruct (exec_argv argv env t old (m_inner w)) as [o w1] eqn:E1. injection E as -> _.
    by apply exec_argv_result in E1.
  - intros i s t old w. pose proof (exec_script_log i s t old (m_inner w)) as Hl.
    by destruct (exec_script i s t old (m_inner w)).
  - intros i s t old w r w' E.
    destruct (exec_script i s t old (m_inner w)) as [o w1] eqn:E1. injection E as -> _.
    by apply exec_script_result in E1.
Qed.

(** ** Costs *)

(** From any world, [m] gives its children at most [n] seconds in all. *)
Definition costs {A} (n : Z) (m : prog (metered W) A) : Prop :=
  forall w s, meter w = Some s -> exists s', meter (m w).2 = Some s' /\ s <= s' <= s + n.

Lemma costs_ret {A} (a : A) n : 0 <= n -> costs n (mret a).
Proof. intros Hn w s E. exists s. split; [done|lia]. Qed.

Lemma costs_bind {A B} (m : prog (metered W) A) (f : A -> prog (metered W) B) n1 n2 n :
  n1 + n2 <= n -> 0 <= n2 -> costs n1 m -> (forall a, costs n2 (f a)) -> costs n (m ≫= f).
Proof.
  intros Hn H2 Hm Hf w s E. destruct (Hm w s E) as (s1 & E1 & B1). unfold mbind, prog_bind.
  destruct (m w) as [[a|] w']; cbn in *; [|exists s1; split; [done|lia]].
  destruct (Hf a w' s1 E1) as (s2 & E2 & B2). exists s2. split; [done|lia].
Qed.

Lemma costs_run {A} (p : prog W A) t n : 0 < t <= n -> costs n (metered_run t p).
Proof.
  intros Ht w s E. unfold metered_run. destruct (p (m_inner w)) as [r w']. cbn. rewrite E. cbn.
  destruct (Z.ltb_spec 0 t); [|lia]. eexists. split; [done|lia].
Qed.

Lemma costs_argv argv env t old n : 0 < t <= n -> costs n (exec_argv argv env t old).
Proof. apply costs_run. Qed.

Lemma costs_script i s t old n : 0 < t <= n -> costs n (exec_script i s t old).
Proof. apply costs_run. Qed.

End metered.

#[export] Hint Resolve costs_ret costs_argv costs_script : budget.
#[export] Hint Extern 3 (_ <= _) => lia : budget.
#[export] Hint Extern 3 (_ < _ <= _) => lia : budget.

(** Split off the first call, which may cost [n1], from the rest. *)
Ltac spend n1 n2 := apply (costs_bind _ _ n1 n2); [try lia|try lia|auto with budget|].

(** ** The commands *)

(** The wait of [leo_agent_stop] for the command threads. *)
Definition stop_wait_sec : Z := LEO_EXEC_MAX_TIMEOUT_SEC + 5.

Section commands.
Context {W : Type} `{Executor W} `{!FileSystem W} `{CLib} `{OpenSSL}.

Lemma schedule_reboot_costs : costs (W := W) 30 _schedule_reboot.
Proof.
  unfold _schedule_reboot. spend 15 15. intros [rc r]. destruct (_ && _); [auto with budget|].
  spend 15 0. auto with budget.
Qed.

Lemma patches_install_costs e ids reboot t old :
  0 < t -> costs (W := W) (2 * t + 30) (leo_patches_install e ids reboot t old).
Proof.
  intros Ht. unfold leo_patches_install. destruct (bool_decide _); [auto with budget|]. cbv zeta.
  destruct (_detect_pkgmgr e); [auto with budget| |];
    (apply (costs_bind _ _ (2 * t) 30); [lia|lia| |]);
    try (intros r; destruct (_ && _); [|auto with budget]; apply (costs_bind _ _ 30 0);
         [lia|lia|exact schedule_reboot_costs|auto with budget]).
  - unfold _install_apt. spend t t. intros [rc r]. destruct (_ || _); auto with budget.
  - unfold _install_dnf. auto with budget.
Qed.

(** The limits a command may give to its children, one after the other. *)
Definition budget (ctx : _exec_ctx_t) : Z :=
  match kind ctx with
  | _EXEC_KIND_SCRIPT => timeout_secs ctx
  | _EXEC_KIND_INSTALL_PKG | _EXEC_KIND_REBOOT => 2 * timeout_secs ctx
  | _EXEC_KIND_INSTALL_PATCHES => 2 * timeout_secs ctx + 30
  | _EXEC_KIND_FILE_TRANSFER => 0
  end.

Lemma exec_switch_costs ctx conn (e : exec_env (metered W)) :
  0 < timeout_secs ctx -> costs (budget ctx) (exec_switch ctx conn e).
Proof.
  intros Ht. unfold exec_switch, budget. destruct (kind ctx).
  - apply (costs_bind _ _ (timeout_secs ctx) 0); [lia..| |auto with budget].
    unfold run_script. spend (timeout_secs ctx) 0. intros [rc r]. auto with budget.
  - apply (costs_bind _ _ (2 * timeout_secs ctx) 0); [lia..| |auto with budget].
    unfold run_install_pkg. spend (timeout_secs ctx) (timeout_secs ctx). intros [rc r].
    destruct (_ || _); [auto with budget|]. spend (timeout_secs ctx) 0. intros [rc' r']. auto with budget.
  - apply (costs_bind _ _ (2 * timeout_secs ctx) 0); [lia..| |auto with budget].
    unfold run_reboot. spend (timeout_secs ctx) (timeout_secs ctx). intros [rc r].
    destruct (_ && _); [auto with budget|]. spend (timeout_secs ctx) 0. intros [rc' r']. auto with budget.
  - apply (costs_bind _ _ (2 * timeout_secs ctx + 30) 0); [lia..| |auto with budget].
    unfold run_install_patches. apply (costs_bind _ _ (2 * timeout_secs ctx + 30) 0); [lia..| |auto with budget].
    apply (costs_bind _ _ (2 * timeout_secs ctx + 30) 0); [lia..| |auto with budget].
    by apply patches_install_costs.
  - intros w s E. exists s. split; [|lia]. unfold run_file_transfer.
    by destruct (leo_file_transfer_run _ _ _ _ _ _ _ _ _ _ _ _) as [[[[[? ?] ?] ?] ?]|].
Qed.

(** The longest a command may take: its children, or the download. *)
Definition time_limit (ctx : _exec_ctx_t) : Z :=
  if bool_decide (kind ctx = _EXEC_KIND_FILE_TRANSFER) then effective_timeout (timeout_secs ctx) else budget ctx.

Definition longest (k : _exec_kind_t) : Z :=
  match k with
  | _EXEC_KIND_SCRIPT => 300
  | _EXEC_KIND_INSTALL_PKG => 600
  | _EXEC_KIND_REBOOT => 30
  | _EXEC_KIND_INSTALL_PATCHES => 630
  | _EXEC_KIND_FILE_TRANSFER => 7200
  end.

Lemma safe_timeout ctx : ctx_safe ctx -> 0 < timeout_secs ctx.
Proof. unfold ctx_safe. destruct (kind ctx); unfold LEO_REBOOT_SCHEDULE_TIMEOUT_SEC; lia. Qed.

Lemma safe_time_limit ctx : ctx_safe ctx -> time_limit ctx <= longest (kind ctx).
Proof.
  unfold ctx_safe, time_limit, budget, longest, effective_timeout. destruct (kind ctx); case_bool_decide; try done;
    unfold LEO_EXEC_MAX_TIMEOUT_SEC, LEO_REBOOT_SCHEDULE_TIMEOUT_SEC, LEO_FILE_TRANSFER_MAX_TIMEOUT_SEC,
      _DL_WRITE_TIMEOUT_SEC_MIN; intros Hs; try lia.
  destruct (Z.ltb_spec 30 (timeout_secs ctx)); lia.
Qed.

(** C15: every command the agent has accepted is bounded in time, whatever the
    server asked for: the limits given to the children it runs one after the
    other add up to no more than its budget, which is at most 300 seconds for a
    script, 30 for a restart, 600 for packages and 630 for the updates of a Linux
    package manager, and a download is given 7200 seconds at most.  [leo_agent_stop] waits long enough
    for a script and for a restart, with five seconds to spare. *)
Theorem command_time_bounded `{!PatchManager W} w s ctx conn (e : exec_env (metered W)) mw spent :
  reachable w s -> Working ctx ∈ running (m_agent s) -> meter mw = Some spent ->
  (exists spent', meter (exec_switch ctx conn e mw).2 = Some spent' /\ spent <= spent' <= spent + budget ctx) /\
  time_limit ctx <= longest (kind ctx) /\
  (kind ctx ∈ [_EXEC_KIND_SCRIPT; _EXEC_KIND_REBOOT] -> time_limit ctx = budget ctx /\ budget ctx + 5 <= stop_wait_sec).
Proof.
  intros Hr Hin Hm. apply agent_reachable_inv in Hr as [_ _ _ _ _ Hs]. rewrite Forall_forall in Hs.
  specialize (Hs _ Hin). cbn in Hs. pose proof (safe_time_limit ctx Hs) as Hl.
  split_and!; [by apply exec_switch_costs; [apply safe_timeout|]|done|].
  intros Hk. assert (time_limit ctx = budget ctx) as E
    by (unfold time_limit; rewrite bool_decide_false; [done|intros E; rewrite E in Hk; set_solver]).
  split; [done|]. rewrite E in Hl. unfold stop_wait_sec, LEO_EXEC_MAX_TIMEOUT_SEC.
  assert (longest (kind ctx) <= 300); [|lia].
  apply elem_of_cons in Hk as [-> |Hk]; [done|]. by apply list_elem_of_singleton in Hk as ->.
Qed.

End commands.

(** ** Evaluations *)

Section evaluation.
Local Existing Instances decimal_lib toy_openssl.

Definition metered_env : exec_env (metered linux_world) :=
  mk_exec_env (W := metered linux_world) result_zero (mk_pkgmgr true false None)
    (mk_transfer open_io true true true 0 [] true []) (fun _ => sample_env).

Definition metered_world : metered linux_world := mk_metered quiet_world (Some 0).

Lemma machine1_reachable : reachable quiet_world machine1.
Proof.
  exists sample_config, idle_conn. split; [exact idle_conn_created|].
  eapply rtc_l; [eexists; exact restart_connects|]. eapply rtc_l; [eexists; exact restart_greets|]. apply rtc_once. eexists. exact restart_asked.
Qed.

Lemma command_time_bounded_witness :
  (exists spent', meter (exec_switch reboot_ctx idle_conn metered_env metered_world).2 = Some spent' /\
     0 <= spent' <= 0 + budget reboot_ctx) /\
  time_limit reboot_ctx <= 30 /\
  (_EXEC_KIND_REBOOT ∈ [_EXEC_KIND_SCRIPT; _EXEC_KIND_REBOOT] ->
   time_limit reboot_ctx = budget reboot_ctx /\ budget reboot_ctx + 5 <= stop_wait_sec).
Proof.
  apply (command_time_bounded quiet_world machine1 reboot_ctx idle_conn metered_env metered_world 0).
  - exact machine1_reachable.
  - cbn [m_agent machine1]. rewrite agent1_runs. apply list_elem_of_here.
  - reflexivity.
Defined.

(** A package installation with the default limit, as the server asks for it. *)
Definition install_text : list ascii :=
  message_text 102 (str "43") (str "{" ++ print_string_ptr (str "packages") ++ str ":[" ++
    print_string_ptr (str "htop") ++ str "]}").
Definition install_ctx : _exec_ctx_t :=
  ctx_pkgs (ctx_new (str "43") _EXEC_KIND_INSTALL_PKG 300) [str "htop"].
Definition installing : agent := get agent0 (_on_message agent0 install_text sample_dispatch_env).

(** The wait of [leo_agent_stop] does not cover every command it waits for: an
    accepted installation, whose two steps both succeed, may take 600 seconds. *)
Theorem install_outlasts_wait :
  exists s, reachable quiet_world s /\ running (m_agent s) = [Working install_ctx] /\
  meter (exec_switch install_ctx idle_conn metered_env metered_world).2 = Some 600 /\ stop_wait_sec < 600.
Proof.
  exists (mk_machine installing quiet_world 0 Servicing). split_and!; [|vm_compute; reflexivity..].
  exists sample_config, idle_conn. split; [exact idle_conn_created|].
  eapply rtc_l; [eexists; exact restart_connects|]. eapply rtc_l; [eexists; exact restart_greets|]. apply rtc_once. eexists.
  apply (step_message agent0 quiet_world 0 install_text (conn greeted) install_text sample_dispatch_env installing);
    vm_compute; reflexivity.
Qed.

End evaluation.
