(* ===== verification/Lifecycle.v ===== *)
(** Start and stop: [leo_agent_start], [leo_agent_stop] and
    [leo_agent_get_state] of [src/agent.c].

    Both are sequences of acquisitions and releases: the memory of the agent,
    its mutexes and conditions, the metrics subsystem, the connection with
    its service thread, and the three periodic threads.  The definitions
    return the sequence they perform; [perform] replays it on the set of
    resources held and stops at a double acquisition or release, or at a
    release of something that is still in use. *)
From S2P Require Import Prelude CString Double Types Json JsonParse Protocol Config Url.
From S2P Require Import Crypto Ring Connection Executor Platform Patches FileTransfer RemoteDesktop Exec.
From S2P Require Import Dispatch Agent Enroll.

Inductive resource : Type :=
| Memory | Sync | Metrics | Conn | HeartbeatThread | MetricsThread | PatchThread.

#[export] Instance resource_eq_dec : EqDecision resource.
Proof. solve_decision. Defined.

Inductive event : Type :=
| Acquire (r : resource)
| Release (r : resource)
| Wake.                  (* threads_stop, and a broadcast on wake_cond *)

#[export] Instance event_eq_dec : EqDecision event.
Proof. solve_decision. Defined.

(** Who uses what: the periodic threads use the agent, its mutexes and its
    connection, and the metrics thread the metrics subsystem; the service
    thread of the connection reads the configuration and, in its message
    handler, takes the mutexes. *)
Definition uses (r : resource) : list resource :=
  match r with
  | HeartbeatThread | PatchThread => [Memory; Sync; Conn]
  | MetricsThread => [Memory; Sync; Conn; Metrics]
  | Conn => [Memory; Sync]
  | Sync => [Memory]
  | _ => []
  end.

Definition in_use (uses : resource -> list resource) (held : list resource) (r : resource) : bool :=
  existsb (fun h => bool_decide (r ∈ uses h)) held.

Definition perform1 (uses : resource -> list resource) (held : list resource) (e : event) : option (list resource) :=
  match e with
  | Acquire r => if bool_decide (r ∈ held) then None else Some (r :: held)
  | Release r =>
      if negb (bool_decide (r ∈ held)) || in_use uses held r then None
      else Some (filter (fun h => h <> r) held)
  | Wake => if bool_decide (Sync ∈ held) then Some held else None
  end.

Fixpoint perform (uses : resource -> list resource) (held : list resource) (es : list event) :
    option (list resource) :=
  match es with
  | [] => Some held
  | e :: es' => held ← perform1 uses held e; perform uses held es'
  end.

(** ** Start *)

Record start_env `{Host} : Type := mk_start_env {
  agent_calloc_ok : bool;
  enrolment : enroll_env;                (* what leo_enroll meets, when it is called *)
  metrics_init_ok : bool;
  conn_calloc_ok : bool;
  conn_create_ok : bool;
  heartbeat_ok : bool;                   (* the three pthread_create *)
  metrics_ok : bool;
  patch_ok : bool;
  destroy_ok : bool;                     (* leo_conn_destroy on an error path *)
}.

Arguments mk_start_env {_} _ _ _ _ _ _ _ _ _.

(** The end of the error paths that follow the creation of the connection. *)
Definition abandon `{Host} (env : start_env) : list event :=
  [Release Metrics; Release Sync] ++ (if destroy_ok env then [Release Conn; Release Memory] else []).

Section start.
Context `{CLib} `{Host}.

(** The configuration of the file, or of an enrolment when it does not load;
    [None] while the request of the enrolment runs. *)
Definition configure (config_path : list ascii) (fs : files) (env : enroll_env) :
    option (option leo_config_t * files) :=
  match leo_config_load (file_bytes fs config_path) config_zero with
  | (LEO_OK, cfg) => Some (Some cfg, fs)
  | _ =>
      match leo_enroll bootstrap_file config_path fs env with
      | Some (LEO_OK, cfg, fs) => Some (cfg, fs)
      | Some (_, _, fs) => Some (None, fs)
      | None => None
      end
  end.

(** The agent that was started, what was acquired and released, and the
    files. *)
Definition leo_agent_start (config_path : list ascii) (fs : files) (env : start_env) :
    option (option agent * list event * files) :=
  if negb (agent_calloc_ok env) then Some (None, [], fs)
  else
    let opened := [Acquire Memory; Acquire Sync] in
    match configure config_path fs (enrolment env) with
    | None => None
    | Some (None, fs) => Some (None, opened ++ [Release Sync; Release Memory], fs)
    | Some (Some cfg, fs) =>
        if negb (metrics_init_ok env) then Some (None, opened ++ [Release Sync; Release Memory], fs)
        else
          let opened := opened ++ [Acquire Metrics] in
          match leo_conn_create cfg (conn_calloc_ok env) (conn_create_ok env) with
          | None => Some (None, opened ++ [Release Metrics; Release Sync; Release Memory], fs)
          | Some c =>
              let opened := opened ++ [Acquire Conn] in
              if negb (heartbeat_ok env) then Some (None, opened ++ abandon env, fs)
              else
                let opened := opened ++ [Acquire HeartbeatThread] in
                if negb (metrics_ok env)
                then Some (None, opened ++ [Wake; Release HeartbeatThread] ++ abandon env, fs)
                else
                  let opened := opened ++ [Acquire MetricsThread] in
                  if negb (patch_ok env)
                  then Some (None, opened ++ [Wake; Release HeartbeatThread; Release MetricsThread] ++ abandon env, fs)
                  else Some (Some (initial cfg c), opened ++ [Acquire PatchThread], fs)
          end
    end.

End start.

(** ** Stop *)

(** Each wait is bounded; the flags say whether it ended in time. *)
Record stop_env : Type := mk_stop_env {
  listing_ends : bool;        (* the patch thread is not kept by the list of updates *)
  exec_in_time : bool;        (* the command threads ended *)
  desktop_in_time : bool;     (* the session thread signalled its end *)
  conn_in_time : bool;        (* the service thread signalled its end *)
}.

(** The agent it leaves, when it is not freed, and what it did; [None] when it
    never returns.  After [threads_stop] is set the three threads end, the patch
    thread once the list it may have asked for arrived ([Shutdown]), so joining
    them returns. *)
Definition leo_agent_stop (ag : agent) (env : stop_env) : option (option agent * list event) :=
  let ag := set_config ag (ag_config ag) LEO_STATE_STOPPING in
  let ag := set_flags ag true (force_heartbeat_pending ag) in
  if negb (listing_ends env) then None
  else
    let joined := [Wake; Release HeartbeatThread; Release MetricsThread; Release PatchThread] in
    if (0 <? exec_active_count ag) && negb (exec_in_time env) then Some (Some ag, joined)
    else
      let ag := set_exec ag 0 [] in
      let '(g, stopped) := leo_rd_stop_all (rd ag) (desktop_in_time env) in
      let ag := set_rd ag g in
      if negb stopped then Some (Some ag, joined)
      else
        let '(destroyed, c, _) := leo_conn_destroy (ag_conn ag) (conn_in_time env) in
        let ag := set_conn ag c in
        if negb destroyed then Some (Some ag, joined)
        else Some (None, joined ++ [Release Conn; Release Metrics; Release Sync; Release Memory]).

Definition leo_agent_get_state (ag : option agent) : leo_agent_state_t :=
  match ag with Some ag => ag_state ag | None => LEO_STATE_INIT end.

(** ** Theorems *)

(** The same uses without those of the connection's message handler. *)
Definition uses_without_handler (r : resource) : list resource :=
  match r with Conn => [Memory] | _ => uses r end.

Definition all_resources : list resource :=
  [PatchThread; MetricsThread; HeartbeatThread; Conn; Metrics; Sync; Memory].

Section start_theorems.
Context `{CLib} `{Host}.

(** The enrolment's request is given up: a pass of its loop sees the clock
    past the deadline. *)
Definition enrolment_limited (env : start_env) : Prop :=
  exists p, p ∈ p_passes (en_post (enrolment env)) /\
            p_start (en_post (enrolment env)) + _ENROLL_HTTP_TIMEOUT_SEC < e_now p.

Lemma configure_ends config_path fs env :
  enrolment_limited env -> is_Some (configure config_path fs (enrolment env)).
Proof.
  intros Hl. unfold configure. destruct (enroll_ends bootstrap_file config_path fs (enrolment env) Hl) as [r ->].
  repeat case_match; eauto.
Qed.

Lemma start_resources config_path fs env :
  enrolment_limited env ->
  exists o es fs', leo_agent_start config_path fs env = Some (o, es, fs') /\
  match o with
  | Some ag =>
      perform uses [] es = Some all_resources /\
      leo_agent_get_state (Some ag) = LEO_STATE_CONNECTING /\
      agent_inv ag /\ leo_conn_create (ag_config ag) true true = Some (ag_conn ag)
  | None =>
      perform uses_without_handler [] es = Some (if bool_decide (Acquire Conn ∈ es) && negb (destroy_ok env)
                                                  then [Conn; Memory] else [])
  end.
Proof.
  intros Hl. unfold leo_agent_start. destruct (agent_calloc_ok env); [|by eexists _, _, _]. cbn [negb].
  destruct (configure_ends config_path fs env Hl) as [[[cfg|] fs1] ->]; [|by eexists _, _, _].
  destruct (metrics_init_ok env); [|by eexists _, _, _]. cbn [negb].
  destruct (leo_conn_create cfg (conn_calloc_ok env) (conn_create_ok env)) as [c|] eqn:Ec; [|by eexists _, _, _].
  assert (leo_conn_create cfg true true = Some c) as Ec'.
  { unfold leo_conn_create in *. destruct (conn_calloc_ok env); [|done]. cbn [negb] in *.
    destruct (_parse_endpoint _ _ _) as [[[??]?]|]; [|done]. by destruct (conn_create_ok env). }
  unfold abandon.
  destruct (heartbeat_ok env), (metrics_ok env), (patch_ok env), (destroy_ok env); cbn [negb app];
    eexists _, _, _; (split; [done|]); try done; (split_and!; [done|done|apply initial_inv|done]).
Qed.


End start_theorems.

Section start_evaluation.
Local Existing Instance linux_host.

Definition open_start (hb : bool) : start_env :=
  mk_start_env true (sample_enroll_env good_fp) true true true hb true true true.


(** When a periodic thread cannot be created, the error path destroys
    the mutexes before the connection whose service thread may still be
    handling a message that takes them. *)
Theorem error_path_destroys_mutexes_in_use :
  (fun r => (r.1.1, perform uses [] r.1.2)) <$>
    @leo_agent_start decimal_lib linux_host LEO_CONFIG_FILE sample_bootstrap (open_start false) = Some (None, None).
Proof. vm_compute. reflexivity. Qed.

End start_evaluation.

(** Stopping returns unless the list of updates never arrives.  It frees the
    agent only when the waits for the command threads, the desktop session and the
    service thread all ended in time, after its periodic threads were joined,
    releasing each resource once and nothing a thread still uses; when a wait does
    not end in time, the agent is kept, with everything a remaining thread may use.
    [Shutdown] has the same function interleaved with the threads. *)
Lemma stop_resources ag env :
  listing_ends env = true ->
  exists o es, leo_agent_stop ag env = Some (o, es) /\
  match o with
  | None =>
      perform uses all_resources es = Some [] /\
      (exec_active_count ag <= 0 \/ exec_in_time env = true) /\
      (g_rd_thread_running (rd ag) = false \/ desktop_in_time env = true) /\
      (thread_exited (ag_conn ag) = true \/ conn_in_time env = true)
  | Some ag' =>
      perform uses all_resources es = Some [Conn; Metrics; Sync; Memory] /\
      leo_agent_get_state (Some ag') = LEO_STATE_STOPPING /\ threads_stop ag' = true
  end.
Proof.
  intros Hj. unfold leo_agent_stop. rewrite Hj. cbn [exec_active_count set_flags set_config negb].
  destruct ((0 <? exec_active_count ag) && negb (exec_in_time env)) eqn:Ex; [by eexists _, _|].
  unfold leo_rd_stop_all, _rd_wait_thread_exit, leo_conn_destroy.
  assert (exec_active_count ag <= 0 \/ exec_in_time env = true) as He.
  { apply andb_false_iff in Ex as [Ex|Ex]; breflect; auto. }
  assert (forall g, g_rd_thread_running (rd_flag g) = g_rd_thread_running g) as Hf
    by (intros g; unfold rd_flag; by destruct (g_rd_ctx g)).
  rewrite Hf. cbn [rd set_exec set_flags set_config].
  assert (forall c b, thread_exited (wake (set_exit c b (thread_exited c))) = thread_exited c) as Hw
    by (intros c b; unfold wake; simpl; by destruct (lws_ctx c)).
  destruct (g_rd_thread_running (rd ag)) eqn:Er; [destruct (desktop_in_time env) eqn:Ed; [|by eexists _, _]|];
    cbn [negb]; cbn [ag_conn set_rd set_exec set_flags set_config]; rewrite Hw;
    (destruct (thread_exited (ag_conn ag) || conn_in_time env) eqn:Et; cbn [negb]; [|by eexists _, _]);
    (eexists _, _; split; [reflexivity|]; split_and!; [done|done|by auto|by apply orb_true_iff in Et]).
Qed.

Lemma perform_app u held es es' : perform u held (es ++ es') = held' ← perform u held es; perform u held' es'.
Proof.
  revert held. induction es as [|e es IH]; intros held; [done|]. cbn [app perform].
  destruct (perform1 u held e) as [h|]; cbn [mbind option_bind]; [apply IH|done].
Qed.

(** What a stop that returns leaves, after a complete start. *)
Lemma stop_releases ag env o es acquired :
  leo_agent_stop ag env = Some (o, es) -> perform uses [] acquired = Some all_resources ->
  perform uses [] (acquired ++ es) = Some [] \/ perform uses [] (acquired ++ es) = Some [Conn; Metrics; Sync; Memory].
Proof.
  intros Es Hp. destruct (listing_ends env) eqn:Hj; [|unfold leo_agent_stop in Es; by rewrite Hj in Es].
  destruct (stop_resources ag env Hj) as (o' & es' & E & Hs). rewrite E in Es. injection Es as -> ->.
  rewrite perform_app, Hp. cbn [mbind option_bind]. destruct o; destruct Hs as [Hs _]; auto.
Qed.
