(* ===== verification/Shutdown.v ===== *)
(** Stopping the running agent: [leo_agent_stop] of [src/agent.c] interleaved
    with the threads it stops.

    [Lifecycle] has the function as one piece, with the outcome of its waits
    as an input.  Here the thread that calls it takes one step at a time,
    between any two of which the service thread, the command threads, the
    periodic threads and the remote desktop session of [Agent] take theirs.
    A wait with a deadline ends when what it waits for holds, or gives up; time
    itself is not measured.  A periodic thread returns when its own code does,
    which the patch thread cannot while it waits for the list of updates.  Once the agent is freed, a
    thread that can still take a step uses freed memory. *)
From S2P Require Import Prelude CString Double Types Json JsonParse Protocol Config Url.
From S2P Require Import Crypto Ring Connection Executor Platform Patches FileTransfer RemoteDesktop Exec.
From S2P Require Import Dispatch Agent.

(** Where the thread is in [leo_agent_stop]. *)
Inductive stop_pc : Type :=
| NotCalled
| Joining (l : list party)   (* pthread_join of these, in order *)
| ExecWait                   (* the first test of exec_active_count *)
| ExecBlocked                (* its loop of pthread_cond_timedwait *)
| DesktopFlag                (* leo_rd_stop_all: should_stop *)
| DesktopWait                (* _rd_wait_thread_exit: the first test *)
| DesktopBlocked             (* its loop of pthread_cond_timedwait *)
| ConnFlag                   (* leo_conn_destroy: should_stop *)
| ConnWait                   (* leo_conn_destroy: the wait *)
| Freed
| Abandoned.                 (* returned without freeing anything *)

Definition periodic : list party := [THeartbeat; TMetrics; TPatch].

(** Past the wait for the command threads, and past the one for the session. *)
Definition past_exec (pc : stop_pc) : bool :=
  match pc with
  | DesktopFlag | DesktopWait | DesktopBlocked | ConnFlag | ConnWait | Freed => true
  | _ => false
  end.
Definition past_desktop (pc : stop_pc) : bool :=
  match pc with ConnFlag | ConnWait | Freed => true | _ => false end.
Definition in_progress (pc : stop_pc) : bool :=
  match pc with NotCalled | Freed | Abandoned => false | _ => true end.

Section shutdown.
Context {W : Type} `{Executor W} `{!FileSystem W} `{!PatchManager W} `{CLib} `{OpenSSL}.

Record shutdown : Type := mk_shutdown {
  sd_machine : @machine W;
  sd_pc : stop_pc;
  sd_ended : list party;      (* the periodic threads that have returned *)
  sd_listing : bool;          (* the patch thread is in leo_patches_collect *)
}.

Definition sd_agent (s : shutdown) : agent := m_agent (sd_machine s).

(** The patch thread is at one place. *)
Definition may_act (p : party) (listing : bool) : bool :=
  match p with TListed => listing | TPatch => negb listing | TStopper => false | _ => true end.

(** A thread of the agent other than the one that stops it. *)
Definition thread_act (s : shutdown) (p : party) (m' : machine) : Prop :=
  p ∉ sd_ended s /\ may_act p (sd_listing s) = true /\ act p (sd_machine s) m'.

(** A periodic thread returns: its wait is over, and its turn ends it whatever
    the platform would have given it. *)
Definition returns (p : party) (m : @machine W) : Prop :=
  match p with
  | THeartbeat =>
      _interruptible_sleep (m_agent m) false true = true /\
      forall e, _heartbeat_thread (m_agent m) (m_seq m) e = None
  | TMetrics =>
      _interruptible_sleep (m_agent m) false false = true /\ forall x e, _metrics_thread (m_agent m) x e = None
  | TPatch =>
      _interruptible_sleep (m_agent m) false false = true /\
      forall pm e, _patch_thread (W := W) (m_agent m) pm e = Ret None
  | _ => False
  end.

(** The machine after the stopping thread changed the agent. *)
Definition with_agent (m : machine) (ag : agent) : @machine W :=
  mk_machine ag (m_world m) (m_seq m) (m_phase m).

(** The steps of [leo_agent_stop] and, for the threads it joins, their end.
    A wait that is woken for nothing waits again; the first two give up when
    the time is over, whatever they wait for, and the last looks once more. *)
Inductive stop_step : shutdown -> shutdown -> Prop :=
| stop_call m ended l :
    stop_step (mk_shutdown m NotCalled ended l)
              (mk_shutdown (with_agent m (stopping (m_agent m))) (Joining periodic) ended l)
| stop_thread_end m pc ended l p :
    p ∈ periodic -> p ∉ ended -> may_act p l = true -> returns p m ->
    stop_step (mk_shutdown m pc ended l) (mk_shutdown m pc (p :: ended) l)
| stop_join m p ps ended l :
    p ∈ ended -> stop_step (mk_shutdown m (Joining (p :: ps)) ended l) (mk_shutdown m (Joining ps) ended l)
| stop_joined m ended l :
    stop_step (mk_shutdown m (Joining []) ended l) (mk_shutdown m ExecWait ended l)
| stop_exec_skip m ended l :
    exec_active_count (m_agent m) <= 0 ->
    stop_step (mk_shutdown m ExecWait ended l) (mk_shutdown m DesktopFlag ended l)
| stop_exec_block m ended l :
    0 < exec_active_count (m_agent m) ->
    stop_step (mk_shutdown m ExecWait ended l) (mk_shutdown m ExecBlocked ended l)
| stop_exec_done m ended l :
    exec_active_count (m_agent m) <= 0 ->
    stop_step (mk_shutdown m ExecBlocked ended l) (mk_shutdown m DesktopFlag ended l)
| stop_exec_late m ended l :
    stop_step (mk_shutdown m ExecBlocked ended l) (mk_shutdown m Abandoned ended l)
| stop_desktop_flag m ended l :
    stop_step (mk_shutdown m DesktopFlag ended l)
              (mk_shutdown (with_agent m (set_rd (m_agent m) (rd_flag (rd (m_agent m))))) DesktopWait ended l)
| stop_desktop_skip m ended l :
    g_rd_thread_running (rd (m_agent m)) = false ->
    stop_step (mk_shutdown m DesktopWait ended l) (mk_shutdown m ConnFlag ended l)
| stop_desktop_block m ended l :
    g_rd_thread_running (rd (m_agent m)) = true ->
    stop_step (mk_shutdown m DesktopWait ended l) (mk_shutdown m DesktopBlocked ended l)
| stop_desktop_done m ended l :
    g_rd_thread_running (rd (m_agent m)) = false ->
    stop_step (mk_shutdown m DesktopBlocked ended l) (mk_shutdown m ConnFlag ended l)
| stop_desktop_late m ended l :
    stop_step (mk_shutdown m DesktopBlocked ended l) (mk_shutdown m Abandoned ended l)
| stop_conn_flag m ended l :
    stop_step (mk_shutdown m ConnFlag ended l)
              (mk_shutdown (with_agent m (disconnecting (m_agent m))) ConnWait ended l)
| stop_conn_done m ended l :
    thread_exited (ag_conn (m_agent m)) = true ->
    stop_step (mk_shutdown m ConnWait ended l) (mk_shutdown m Freed ended l)
| stop_conn_late m ended l :
    thread_exited (ag_conn (m_agent m)) = false ->
    stop_step (mk_shutdown m ConnWait ended l) (mk_shutdown m Abandoned ended l).

(** The whole: the agent's threads run until it is freed. *)
Inductive sd_step : shutdown -> shutdown -> Prop :=
| sd_thread s p m' :
    sd_pc s <> Freed -> thread_act s p m' ->
    sd_step s (mk_shutdown m' (sd_pc s) (sd_ended s) (sd_listing s && negb (bool_decide (p = TListed))))
| sd_list s :   (* the patch thread, past its tests, asks for the list *)
    sd_pc s <> Freed -> TPatch ∉ sd_ended s ->
    threads_stop (sd_agent s) = false -> leo_conn_is_connected (Some (ag_conn (sd_agent s))) = true ->
    sd_step s (mk_shutdown (sd_machine s) (sd_pc s) (sd_ended s) true)
| sd_stop s s' : stop_step s s' -> sd_step s s'.

Definition sd_init (cfg : leo_config_t) (c : leo_conn) (w : W) : shutdown :=
  mk_shutdown (mk_machine (initial cfg c) w 0 Starting) NotCalled [] false.

(** [R] holds of every step of the way. *)
Definition sd_reachable (R : shutdown -> shutdown -> Prop) (w : W) (s : shutdown) : Prop :=
  exists cfg c, leo_conn_create cfg true true = Some c /\
  rtc (fun s s' => sd_step s s' /\ R s s') (sd_init cfg c w) s.

Definition any_order (s s' : shutdown) : Prop := True.

(** The steps during which nothing new starts behind the back of the
    stopping thread: no command is received once the command threads have been
    waited for; no session starts once the session has been waited for, nor
    while the thread of an earlier session has not signalled its end. *)
Definition orderly (s s' : shutdown) : Prop :=
  (past_exec (sd_pc s) = true -> asked (sd_agent s') = asked (sd_agent s)) /\
  (next_ctx (rd (sd_agent s')) <> next_ctx (rd (sd_agent s)) ->
   past_desktop (sd_pc s) = false /\ rd_threads (rd (sd_agent s)) = ∅).

(** A thread can touch the agent that was freed. *)
Definition uses_freed (s : shutdown) : Prop :=
  sd_pc s = Freed /\ exists p m', thread_act s p m'.

(** ** What a step leaves alone *)

(** What a message does to the remote desktop. *)
Inductive rd_change (g : rd_global) : rd_global -> Prop :=
| rd_same : rd_change g g
| rd_flagged : rd_change g (rd_flag g)
| rd_started config sid url mode f q w h c k freed g' ok :
    leo_rd_start g config sid url mode f q w h c k freed = Ret (g', ok) -> rd_change g g'.

Lemma dispatched_effect e ag id ag' :
  dispatched e ag id ag' -> threads_stop ag' = threads_stop ag /\ rd ag' = rd ag /\ asked ag' = asked ag.
Proof. destruct 1; [done|]. unfold _send_cmd_error. by destruct (send_cmd_result _ _ _ _ _ _). Qed.

Lemma desktop_start_effect ag body env ag' :
  _dispatch_remote_desktop_start ag body env = Ret ag' ->
  threads_stop ag' = threads_stop ag /\ rd_change (rd ag) (rd ag').
Proof.
  unfold _dispatch_remote_desktop_start. repeat case_goal; try (intros [= <-]; by split; [|constructor]);
    intros (f1 & _ & (q1 & _ & (w1 & _ & (h1 & _ & ([g b] & E & [= <-])%ret_bind)%ret_bind)%ret_bind)%ret_bind)%ret_bind;
    (split; [done|]); by eapply rd_started.
Qed.

Lemma other_message_effect ag t id body env ag' :
  is_command t = false -> on_type ag t id body env = Ret ag' ->
  threads_stop ag' = threads_stop ag /\ rd_change (rd ag) (rd ag').
Proof.
  intros Hc. destruct t; try discriminate Hc; simpl; try (intros [= <-]; by split; [|constructor]).
  - intros (a & _ & (b & _ & [= <-])%ret_bind)%ret_bind. by split; [|constructor].
  - intros [= <-]. unfold on_ping. repeat case_goal; by split; [|constructor].
  - intros (a & _ & [= <-])%ret_bind. by split; [|constructor].
  - apply desktop_start_effect.
  - intros ([g b] & E & [= <-])%ret_bind. split; [done|]. unfold leo_rd_stop in E. cbn.
    repeat case_match; simplify_eq; constructor.
Qed.

Lemma message_effect ag json env ag' :
  _on_message ag json env = Ret ag' -> threads_stop ag' = threads_stop ag /\ rd_change (rd ag) (rd ag').
Proof.
  unfold _on_message. intros ([err m] & Hp & E)%ret_bind.
  destruct (bool_decide (err = LEO_OK)) eqn:Ok; simpl in E; [|injection E as <-; by split; [|constructor]].
  breflect. subst err. apply parse_bounds in Hp as [(_ & _ & Hid)|[? _]]; [|done].
  destruct (msg_of_code _) as [t|]; [|injection E as <-; by split; [|constructor]].
  destruct (is_command t) eqn:Hc; [|by eapply other_message_effect].
  apply command_dispatched, dispatched_effect in E as (E1 & E2 & _); [|done..].
  rewrite E1, E2. by split; [|constructor].
Qed.

(** What the agent's own threads do to the remote desktop. *)
Inductive rd_moves (g : rd_global) : rd_global -> Prop :=
| rd_moves_change g' : rd_change g g' -> rd_moves g g'
| rd_moves_clear k : rd_threads g !! k = Some InSession -> rd_moves g (rd_clear g k)
| rd_moves_exit k : rd_threads g !! k = Some Cleared -> rd_moves g (rd_exit g k).

(** A step that leaves the stop flag, and that starts no command unless one is
    received. *)
Definition undisturbed (ag ag' : agent) : Prop :=
  threads_stop ag' = threads_stop ag /\
  (running ag = [] -> asked ag' = asked ag -> running ag' = []) /\
  rd_moves (rd ag) (rd ag').

Lemma undisturbed_frame ag ag' :
  threads_stop ag' = threads_stop ag -> exec_part ag' = exec_part ag -> rd_change (rd ag) (rd ag') -> undisturbed ag ag'.
Proof. unfold exec_part. intros E [= _ Hr _ _] Hd. split_and!; [done|by rewrite Hr|by constructor]. Qed.

Lemma undisturbed_send ag c : undisturbed ag (set_conn ag c).
Proof. by apply undisturbed_frame; [| |constructor]. Qed.

Lemma undisturbed_built ag m : undisturbed ag (send_built ag m).
Proof.
  unfold send_built. destruct m as [b|]; [destruct (_ <? _)|];
    first [apply undisturbed_send | by apply undisturbed_frame; [| |constructor]].
Qed.

Lemma undisturbed_message ag json env ag' : _on_message ag json env = Ret ag' -> undisturbed ag ag'.
Proof.
  intros E. destruct (message_effect _ _ _ _ E) as [Ht Hd].
  destruct (on_message_cases _ _ _ _ E) as [(_ & Hx & _)|(id & _ & _ & (_ & _ & Ha)%dispatched_effect)];
    [by apply undisturbed_frame|]. split_and!; [done| |by constructor].
  intros _ Hn. rewrite Hn in Ha. cbn in Ha. apply (f_equal length) in Ha. rewrite length_app in Ha. simpl in Ha. lia.
Qed.

Lemma undisturbed_busy ag ag' l1 t l2 :
  running ag = l1 ++ t :: l2 -> threads_stop ag' = threads_stop ag -> rd ag' = rd ag -> undisturbed ag ag'.
Proof.
  intros Hr Ht Hd. split_and!; [done| |rewrite Hd; by do 2 constructor].
  intros E. rewrite E in Hr. by destruct l1.
Qed.

Lemma undisturbed_listed ag pm e ag' : patch_turn (W := W) ag pm e = Ret ag' -> undisturbed ag ag'.
Proof.
  unfold patch_turn. destruct (collect_patches _ _) as [[ps|]|]; cbn; intros [= <-]; [apply undisturbed_built|].
  by apply undisturbed_frame; [| |constructor].
Qed.

Lemma act_undisturbed q l m m' : may_act q l = true -> act q m m' -> undisturbed (m_agent m) (m_agent m').
Proof.
  intros Hp Hact. act_cases Hact; simpl; try done;
    try (by apply undisturbed_send); try (by eapply undisturbed_busy).
  - apply received_conn in Er as ->. by apply undisturbed_message in E.
  - unfold _heartbeat_thread in E. destruct (threads_stop ag) eqn:Es; [done|].
    destruct (negb _); injection E as <- <-; [by apply undisturbed_frame; [| |constructor]|].
    unfold undisturbed. rewrite Es. exact (undisturbed_built (set_flags ag false false) _).
  - unfold _metrics_thread in E. repeat case_match; simplify_eq; try apply undisturbed_built;
      by apply undisturbed_frame; [| |constructor].
  - unfold _patch_thread in E. destruct (threads_stop ag); [done|].
    destruct (negb _); [injection E as <-; by apply undisturbed_frame; [| |constructor]|].
    apply ret_bind in E as (ag1 & E & [= <-]). by eapply undisturbed_listed.
  - by eapply undisturbed_listed.
  - split_and!; [done|done|by constructor].
  - split_and!; [done|done|by constructor].
Qed.

(** At most one session thread, which the flag announces. *)
Definition single (g : rd_global) : Prop :=
  rd_threads g = ∅ \/ exists k t, rd_threads g = {[k := t]} /\ g_rd_thread_running g = true.

Lemma rd_flag_same g :
  rd_threads (rd_flag g) = rd_threads g /\ g_rd_thread_running (rd_flag g) = g_rd_thread_running g /\
  next_ctx (rd_flag g) = next_ctx g.
Proof. unfold rd_flag. by destruct (g_rd_ctx g). Qed.

(** A session that starts has a new context, and is announced. *)
Lemma rd_start_cases g config sid url mode f q w h c k freed g' ok :
  leo_rd_start g config sid url mode f q w h c k freed = Ret (g', ok) ->
  g' = g \/ next_ctx g' = S (next_ctx g) /\
    (rd_threads g' = rd_threads g \/
     rd_threads g' = <[next_ctx g := InSession]> (rd_threads g) /\ g_rd_thread_running g' = true).
Proof.
  unfold leo_rd_start. repeat case_goal; intros [= <- <-]; auto; by right; split; [|auto].
Qed.

Lemma single_moves g g' :
  rd_moves g g' -> (next_ctx g' <> next_ctx g -> rd_threads g = ∅) -> single g ->
  single g' /\ (next_ctx g' = next_ctx g -> rd_threads g = ∅ -> rd_threads g' = ∅).
Proof.
  unfold single. intros Hm Hn Hs. destruct Hm as [g' Hc|k Hk|k Hk].
  - destruct Hc as [| |config sid url mode f q w h c k freed g' ok E]; [done| |].
    + destruct (rd_flag_same g) as (E1 & E2 & _). by rewrite E1, E2.
    + apply rd_start_cases in E as [-> |(E & Hc)]; [done|].
      assert (rd_threads g = ∅) as E0 by (apply Hn; lia). split; [|lia].
      destruct Hc as [Hc|[Hc Hr]]; rewrite Hc, E0; [by left|]. right. eexists _, _. by rewrite insert_empty.
  - destruct Hs as [E|(j & t & E & Hr)]; rewrite E in Hk; [done|]. apply lookup_singleton_Some in Hk as [-> ->].
    cbn. rewrite E, insert_singleton_eq. split; [eauto|]. intros _ ?%(f_equal (lookup k)). by simplify_map_eq.
  - destruct Hs as [E|(j & t & E & Hr)]; rewrite E in Hk; [done|]. apply lookup_singleton_Some in Hk as [-> ->].
    cbn. rewrite E, delete_singleton_eq. auto.
Qed.

(** ** Safety *)

(** Every step is one of the agent's, or leaves it alone. *)
Lemma sd_step_machine s s' : sd_step s s' -> rtc step (sd_machine s) (sd_machine s').
Proof.
  destruct 1 as [s p m' _ (_ & _ & Ha)|s|s s' Hs]; [apply rtc_once; by exists p|apply rtc_refl|].
  destruct Hs as [m| | | | | | | |m| | | | |m| |]; try apply rtc_refl; apply rtc_once; exists TStopper;
    destruct m; constructor.
Qed.

Lemma sd_reachable_machine R w s : sd_reachable R w s -> reachable w (sd_machine s).
Proof.
  intros (cfg & c & Hc & Hr). exists cfg, c. split; [done|].
  change (mk_machine _ w 0 Starting) with (sd_machine (sd_init cfg c w)).
  induction Hr as [|s1 s2 s3 [S _] _ IH]; [apply rtc_refl|]. etrans; [by apply sd_step_machine|done].
Qed.

Lemma exited_phase w m : reachable w m -> thread_exited (ag_conn (m_agent m)) = true -> m_phase m = Exited.
Proof. intros (cfg & Hn%reachable_inv)%agent_reachable_net. apply (sinv_exit _ Hn). Qed.

Definition left_to_join (pc : stop_pc) : list party :=
  match pc with NotCalled => periodic | Joining l => l | _ => [] end.

Record sd_inv (s : shutdown) : Prop := mk_sd_inv {
  si_stop : sd_pc s <> NotCalled -> threads_stop (sd_agent s) = true;
  si_joined p : p ∈ periodic -> p ∈ left_to_join (sd_pc s) \/ p ∈ sd_ended s;
  si_listing : TPatch ∈ sd_ended s -> sd_listing s = false;
  si_single : single (rd (sd_agent s));
  si_exec : past_exec (sd_pc s) = true -> running (sd_agent s) = [];
  si_desktop : past_desktop (sd_pc s) = true -> rd_threads (rd (sd_agent s)) = ∅;
  si_exited : sd_pc s = Freed -> thread_exited (ag_conn (sd_agent s)) = true;
}.

Lemma idle_running ag : agent_inv ag -> exec_active_count ag <= 0 -> running ag = [].
Proof. intros Ha%inv_count Hc. rewrite Ha in Hc. by destruct (running ag). Qed.

Lemma single_idle g : single g -> g_rd_thread_running g = false -> rd_threads g = ∅.
Proof. intros [|(k & t & _ & E)] Hr; [done|congruence]. Qed.

Lemma stop_step_inv s s' : agent_inv (sd_agent s) -> stop_step s s' -> sd_inv s -> sd_inv s'.
Proof.
  intros Ha Hs [Ht Hj Hl Hg He Hd Hx].
  destruct Hs as [m ended l|m pc ended l p Hp Hn Hm Hst|m p ps ended l Hp|m ended l|m ended l Hc|m ended l Hc|m ended l Hc
    |m ended l|m ended l|m ended l Hr|m ended l Hr|m ended l Hr|m ended l|m ended l|m ended l Hr|m ended l Hr];
    unfold sd_agent in *; cbn in *; split;
    unfold sd_agent; cbn; try done; auto.
  - intros q Hq. destruct (Hj q Hq); [by left|]. right. by apply list_elem_of_further.
  - intros [<- |]%elem_of_cons; [|auto]. by apply negb_true_iff.
  - intros q Hq. destruct (Hj q Hq) as [Hq'|]; [|auto]. apply elem_of_cons in Hq' as [-> |]; auto.
  - intros _. by apply idle_running.
  - intros _. by apply idle_running.
  - unfold single in *. destruct (rd_flag_same (rd (m_agent m))) as (E1 & E2 & _). by rewrite E1, E2.
  - intros _. by apply single_idle.
  - intros _. by apply single_idle.
Qed.

Lemma orderly_inv s s' : agent_inv (sd_agent s) -> sd_step s s' -> orderly s s' -> sd_inv s -> sd_inv s'.
Proof.
  intros Ha Hs. destruct Hs as [s p m' Hf (_ & Hp & Hact)|s Hf Hn Ht _|s s' Hs]; [| |intros _; by apply stop_step_inv];
    [|intros _ [Hs Hj Hl Hg He Hd Hx]; by split].
  intros [Ho1 Ho2] [Ht Hj Hl Hg He Hd Hx]. apply (act_undisturbed _ _ _ _ Hp) in Hact as (E1 & E2 & E3).
  unfold sd_agent in *. cbn in *.
  destruct (single_moves _ _ E3) as [Hg' Hd']; [by intros [_ ?]%Ho2|done|].
  split; unfold sd_agent; cbn; auto.
  - rewrite E1. auto.
  - intros Hn. by rewrite (Hl Hn).
  - intros Hpd. apply Hd'; [|auto]. destruct (decide (next_ctx (rd (m_agent m')) = next_ctx (rd (m_agent (sd_machine s)))))
      as [|Hne]; [done|]. destruct (Ho2 Hne). congruence.
Qed.

Lemma sd_init_inv cfg c w : sd_inv (sd_init cfg c w).
Proof. split; cbn; try done; auto. by left. Qed.

Lemma orderly_reachable_inv w s : sd_reachable orderly w s -> agent_inv (sd_agent s) /\ sd_inv s.
Proof.
  intros (cfg & c & _ & Hr).
  apply (rtc_invariant _ (fun s => agent_inv (sd_agent s) /\ sd_inv s)) in Hr; [done| |].
  - intros s1 s2 [Ha Hi] [Hs Ho]. split; [|by eapply orderly_inv].
    apply (rtc_invariant step (fun m => agent_inv (m_agent m)) step_inv _ _ (sd_step_machine _ _ Hs) Ha).
  - split; [apply initial_inv|apply sd_init_inv].
Qed.

(** Whose threads can act. *)
Lemma act_alive p m m' :
  act p m m' ->
  match p with
  | TReceive _ _ | TService => m_phase m <> Exited
  | TCommand | TReply _ _ => running (m_agent m) <> []
  | TSession => rd_threads (rd (m_agent m)) <> ∅
  | _ => True
  end.
Proof.
  destruct 1 as [| |ag w n p p' c Hl|ag w n p l1 ? l2 ? ? ? ? E|ag w n p l1 ? l2 ? ? E|ag w n p l1 ? ? l2 ? ? ? E
    |ag w n p l1 ? l2 ? E| | | | |ag w n p k E|ag w n p k E|ag w n p k ? ? ? ? E| | |]; cbn; try done.
  - intros ->. inversion Hl.
  - rewrite E. by destruct l1.
  - rewrite E. by destruct l1.
  - rewrite E. by destruct l1.
  - rewrite E. by destruct l1.
  - intros E'. by rewrite E' in E.
  - intros E'. by rewrite E' in E.
  - intros E'. by rewrite E' in E.
Qed.

Lemma ended_all (ended : list party) p :
  (forall p, p ∈ periodic -> p ∈ left_to_join Freed \/ p ∈ ended) -> p ∈ periodic -> p ∈ ended.
Proof. intros Hj Hp. by destruct (Hj p Hp) as [?%elem_of_nil|]. Qed.

(** C17: however [leo_agent_stop] interleaves with the threads of the agent,
    once it has freed the agent no thread can take a step that would use it,
    and every command that was received has been answered, as long as nothing
    new starts behind its back: no command is received after the wait for
    the command threads, no remote desktop session starts after the wait for
    the session nor while an earlier one is ending. *)
Theorem freed_agent_unused w s :
  sd_reachable orderly w s ->
  ~ uses_freed s /\
  (sd_pc s = Freed -> asked (sd_agent s) ≡ₚ map fst (answered (sd_agent s))).
Proof.
  intros Hr. pose proof (sd_reachable_machine _ _ _ Hr) as Hm.
  apply orderly_reachable_inv in Hr as [Ha [_ Hj Hl _ He Hd Hx]]. split.
  - intros (Ef & p & m' & Hn & Hp & Hact). rewrite Ef in *. pose proof (act_alive _ _ _ Hact) as Hal.
    destruct p; try done; [apply Hal; apply (exited_phase w); auto|apply Hal; apply (exited_phase w); auto
      |by apply Hal, He|by apply Hal, He| | | | |by apply Hal, Hd].
    1-3: apply Hn, ended_all; (exact Hj || (apply list_elem_of_In; cbn; tauto)).
    cbn in Hp. rewrite Hl in Hp; [done|]. apply ended_all; [exact Hj|apply list_elem_of_In; cbn; tauto].
  - intros Ef. rewrite Ef in *. rewrite (inv_answers _ Ha), (He eq_refl). simpl. by rewrite app_nil_r.
Qed.

(** ** Progress *)

(** What is left to do: the periodic threads that have not returned, and the
    steps of [leo_agent_stop]. *)
Definition pc_rank (pc : stop_pc) : nat :=
  match pc with
  | NotCalled => 13
  | Joining l => 9 + length l
  | ExecWait => 8
  | ExecBlocked => 7
  | DesktopFlag => 6
  | DesktopWait => 5
  | DesktopBlocked => 4
  | ConnFlag => 3
  | ConnWait => 2
  | Freed | Abandoned => 0
  end.

Definition remaining (s : shutdown) : nat :=
  length (filter (fun p => p ∉ sd_ended s) periodic) + pc_rank (sd_pc s).

Definition going (s : shutdown) : Prop :=
  (sd_pc s <> NotCalled -> threads_stop (sd_agent s) = true) /\ left_to_join (sd_pc s) `suffix_of` periodic.

Lemma going_step s s' : sd_step s s' -> going s -> going s'.
Proof.
  unfold going, sd_agent. destruct 1 as [s p m' _ (_ & Hp & Hact)|s|s s' Hs].
  - apply (act_undisturbed _ _ _ _ Hp) in Hact as (E & _). cbn. rewrite E. done.
  - done.
  - destruct Hs; cbn; intros [Ht Hj]; split; auto using suffix_nil; by eapply suffix_cons_l.
Qed.

Lemma going_reachable R w s : sd_reachable R w s -> going s.
Proof.
  intros (cfg & c & _ & Hr). apply (rtc_invariant _ going) in Hr; [done| |].
  - intros s1 s2 Hg [Hs _]. by apply (going_step s1).
  - by split.
Qed.

Lemma ended_fewer (ended l : list party) p :
  p ∈ l -> p ∉ ended ->
  (length (filter (fun q => q ∉ p :: ended) l) < length (filter (fun q => q ∉ ended) l))%nat.
Proof.
  assert (forall l, (length (filter (fun q => q ∉ p :: ended) l) <= length (filter (fun q => q ∉ ended) l))%nat) as Hle.
  { clear l. intros l. induction l as [|q l IH]; [done|]. rewrite !filter_cons.
    destruct (decide (q ∉ p :: ended)), (decide (q ∉ ended)); simpl; try lia. set_solver. }
  intros Hp Hn. induction l as [|q l IH]; [by apply elem_of_nil in Hp|]. rewrite !filter_cons.
  apply elem_of_cons in Hp as [<- |Hp].
  - rewrite decide_False by set_solver. rewrite decide_True by done. simpl. specialize (Hle l). lia.
  - specialize (IH Hp). destruct (decide (q ∉ p :: ended)), (decide (q ∉ ended)); simpl; try lia. set_solver.
Qed.

Lemma stop_step_less s s' : stop_step s s' -> (remaining s' < remaining s)%nat.
Proof.
  destruct 1 as [|m pc ended l p Hp Hn _ _| | | | | | | | | | | | | |]; unfold remaining; cbn [sd_ended sd_pc pc_rank length periodic]; try lia.
  pose proof (ended_fewer ended periodic p Hp Hn). unfold periodic in *. lia.
Qed.

(** The stopping thread joins the patch thread, which waits for the list of
    updates. *)
Definition waits_for_list (s : shutdown) : Prop :=
  (exists ps, sd_pc s = Joining (TPatch :: ps)) /\ TPatch ∉ sd_ended s /\ sd_listing s = true.

(** Once the flag is set, a periodic thread returns. *)
Lemma flag_returns p m : p ∈ periodic -> threads_stop (m_agent m) = true -> returns p m.
Proof.
  intros Hp Ht. unfold periodic in Hp. rewrite !elem_of_cons, elem_of_nil in Hp.
  destruct Hp as [-> |[-> |[-> |[]]]]; cbn; unfold _interruptible_sleep, _heartbeat_thread, _metrics_thread, _patch_thread;
    by rewrite Ht.
Qed.

Lemma join_progress m p ps ended l :
  p ∈ periodic -> threads_stop (m_agent m) = true ->
  (exists s', stop_step (mk_shutdown m (Joining (p :: ps)) ended l) s') \/
  waits_for_list (mk_shutdown m (Joining (p :: ps)) ended l).
Proof.
  intros Hp Ht. destruct (decide (p ∈ ended)); [left; eexists; by apply stop_join|].
  destruct (may_act p l) eqn:Hm; [left; eexists; apply stop_thread_end; [done|done|done|by apply flag_returns]|].
  right. unfold periodic in Hp. rewrite !elem_of_cons, elem_of_nil in Hp.
  destruct Hp as [-> |[-> |[-> |[]]]]; try done. split_and!; cbn; [by eexists|done|by apply negb_false_iff].
Qed.

(** C18: until a stop under way has freed or abandoned the agent, the stopping
    thread can take a step, or a thread it joins returns, since the code of each
    periodic thread does once the flag is set; the one exception is that it joins
    the patch thread while this one waits for the list of updates.  Each such step
    leaves fewer to take, of which there never are more than fifteen, and the
    steps of the other threads add none and start no list. *)
Theorem shutdown_ends R w s :
  sd_reachable R w s -> in_progress (sd_pc s) = true ->
  ((exists s', stop_step s s') \/ waits_for_list s) /\ (remaining s <= 15)%nat /\
  forall s', sd_step s s' ->
    stop_step s s' /\ (remaining s' < remaining s)%nat \/
    (exists p, thread_act s p (sd_machine s')) /\ sd_pc s' = sd_pc s /\ remaining s' = remaining s /\
    (sd_listing s' = true -> sd_listing s = true).
Proof.
  intros [Ht Hj]%going_reachable Hp. split_and!.
  - destruct s as [m pc ended l]. cbn in *. destruct pc as [|[|p ps]| | | | | | | | |]; try done; try (left; eexists; by constructor).
    + apply join_progress; [|auto]. destruct Hj as [k ->]. set_solver.
    + left. destruct (Z.leb_spec (exec_active_count (m_agent m)) 0); eexists; by constructor.
    + left. destruct (g_rd_thread_running (rd (m_agent m))) eqn:E; eexists; by constructor.
    + left. destruct (thread_exited (ag_conn (m_agent m))) eqn:E; eexists; by constructor.
  - unfold remaining. pose proof (length_filter (fun p => p ∉ sd_ended s) periodic) as Hl. apply suffix_length in Hj.
    destruct (sd_pc s); cbn in *; lia.
  - intros s' Hst. inversion Hst as [s0 p m' _ Hact|s0 _ _ Hf _|s0 s'0 Hs]; subst;
      [right|exfalso|left; auto using stop_step_less].
    + cbn. split_and!; [by exists p|done|done|]. by intros [? _]%andb_true_iff.
    + rewrite Ht in Hf; [done|]. by intros E; rewrite E in Hp.
Qed.

End shutdown.

Arguments shutdown W : clear implicits.

(** ** Evaluations *)

Section evaluation.
Local Existing Instances decimal_lib toy_openssl.

Notation lmachine := (@machine linux_world).

(** The same world, counter and a phase, around an agent. *)
Definition around (ag : agent) (p : phase) : lmachine := mk_machine ag quiet_world 0 p.

(** A thread of the agent takes a step. *)
Lemma thread_step (m m' : lmachine) pc ended l p :
  pc <> Freed -> p ∉ ended -> may_act p l = true -> p <> TListed -> act p m m' ->
  sd_step (mk_shutdown m pc ended l) (mk_shutdown m' pc ended l).
Proof.
  intros Hf Hn Hm Hp Ha. pose proof (sd_thread (mk_shutdown m pc ended l) p m' Hf) as Hs. cbn in Hs.
  rewrite bool_decide_false, andb_true_r in Hs by done. by apply Hs.
Qed.

Ltac periodic_party := apply list_elem_of_In; cbn; tauto.

(** From the call to the wait for the command threads. *)
Lemma joined_run (R : shutdown linux_world -> shutdown linux_world -> Prop) ag p :
  (forall s s', stop_step s s' -> R s s') ->
  rtc (fun s s' => sd_step s s' /\ R s s') (mk_shutdown (around ag p) NotCalled [] false)
    (mk_shutdown (around (stopping ag) p) ExecWait [TPatch; TMetrics; THeartbeat] false).
Proof.
  intros HR. assert (forall s s', stop_step s s' -> sd_step s s' /\ R s s') as Hs by (split; [by apply sd_stop|auto]).
  eapply rtc_l; [apply Hs, stop_call|].
  eapply rtc_l; [apply Hs, (stop_thread_end _ _ _ _ THeartbeat); [periodic_party|apply not_elem_of_nil|done|by apply flag_returns; [periodic_party|]]|].
  eapply rtc_l; [apply Hs, stop_join, list_elem_of_here|].
  eapply rtc_l; [apply Hs, (stop_thread_end _ _ _ _ TMetrics); [periodic_party|set_solver|done|by apply flag_returns; [periodic_party|]]|].
  eapply rtc_l; [apply Hs, stop_join, list_elem_of_here|].
  eapply rtc_l; [apply Hs, (stop_thread_end _ _ _ _ TPatch); [periodic_party|set_solver|done|by apply flag_returns; [periodic_party|]]|].
  eapply rtc_l; [apply Hs, stop_join, list_elem_of_here|].
  apply rtc_once, Hs, stop_joined.
Qed.

Lemma stop_step_orderly (s s' : shutdown linux_world) : stop_step s s' -> orderly s s'.
Proof.
  destruct 1; (split; [done|]); cbn; try done. unfold sd_agent. cbn.
  intros Hne. exfalso. apply Hne. apply rd_flag_same.
Qed.

Definition desktop_flagged (ag : agent) : agent := set_rd ag (rd_flag (rd ag)).
Definition all_ended : list party := [TPatch; TMetrics; THeartbeat].

(** An agent that has not connected is stopped and freed. *)
Definition idle_agent : agent := initial sample_config idle_conn.
Definition idle_out : agent := disconnecting (desktop_flagged (stopping idle_agent)).
Definition idle_freed : shutdown linux_world :=
  mk_shutdown (around (set_conn idle_out (thread_end (ag_conn idle_out))) Exited) Freed all_ended false.

Lemma idle_freed_reachable : sd_reachable orderly quiet_world idle_freed.
Proof.
  assert (forall s s' : shutdown linux_world, stop_step s s' -> sd_step s s' /\ orderly s s') as Hs
    by (split; [by apply sd_stop|by apply stop_step_orderly]).
  exists sample_config, idle_conn. split; [exact idle_conn_created|].
  etrans; [apply (joined_run orderly idle_agent Starting), stop_step_orderly|].
  eapply rtc_l; [by apply Hs, stop_exec_skip|].
  eapply rtc_l; [apply Hs, stop_desktop_flag|].
  eapply rtc_l; [by apply Hs, stop_desktop_skip|].
  eapply rtc_l; [apply Hs, stop_conn_flag|].
  eapply rtc_l; [split; [apply (thread_step _ (sd_machine idle_freed) _ _ _ TService)|]|].
  - done.
  - set_solver.
  - done.
  - done.
  - apply step_service. by apply loop_stop.
  - by split.
  - by apply rtc_once, Hs, stop_conn_done.
Qed.

Lemma freed_agent_unused_witness :
  sd_pc idle_freed = Freed /\ ~ uses_freed idle_freed /\
  (sd_pc idle_freed = Freed -> asked (sd_agent idle_freed) ≡ₚ map fst (answered (sd_agent idle_freed))).
Proof. split; [reflexivity|]. apply (freed_agent_unused quiet_world idle_freed). exact idle_freed_reachable. Defined.

(** The agent of [Agent.agent0], connected, when the wait for the command
    threads is over. *)
Definition joined_state : shutdown linux_world := mk_shutdown (around (stopping agent0) Servicing) ExecWait all_ended false.

(** It has connected, and nothing has stopped it yet. *)
Lemma connected_reachable :
  sd_reachable any_order quiet_world (mk_shutdown (around agent0 Servicing) NotCalled [] false).
Proof.
  exists sample_config, idle_conn. split; [exact idle_conn_created|].
  eapply rtc_l; [split; [|exact I]; apply (thread_step _ dialing _ _ _ TService); [done|set_solver|done|done|exact restart_connects]|].
  apply rtc_once. split; [|exact I]. apply (thread_step _ _ _ _ _ TService); [done|set_solver|done|done|exact restart_greets].
Qed.

Lemma joined_state_reachable : sd_reachable any_order quiet_world joined_state.
Proof.
  destruct connected_reachable as (cfg & c & Hc & Hr). exists cfg, c. split; [exact Hc|]. etrans; [exact Hr|].
  by apply (joined_run any_order agent0 Servicing).
Qed.

Lemma shutdown_ends_witness :
  ((exists s', stop_step joined_state s') \/ waits_for_list joined_state) /\ (remaining joined_state <= 15)%nat /\
  forall s', sd_step joined_state s' ->
    stop_step joined_state s' /\ (remaining s' < remaining joined_state)%nat \/
    (exists p, thread_act joined_state p (sd_machine s')) /\ sd_pc s' = sd_pc joined_state /\
    remaining s' = remaining joined_state /\ (sd_listing s' = true -> sd_listing joined_state = true).
Proof. apply (shutdown_ends any_order quiet_world joined_state); [exact joined_state_reachable|reflexivity]. Defined.

(** The agent of [Agent.agent0] is stopped while its patch thread waits for the
    list of updates. *)
Definition listing_state : shutdown linux_world :=
  mk_shutdown (around (stopping agent0) Servicing) (Joining [TPatch]) [TMetrics; THeartbeat] true.

(** The exception is real: [popen] sets no limit to the listing command, and
    while it runs no step of the stop is possible: [leo_agent_stop] waits as
    long as it does. *)
Theorem join_waits_for_listing :
  exists s, sd_reachable any_order quiet_world s /\ in_progress (sd_pc s) = true /\ forall s', ~ stop_step s s'.
Proof.
  assert (forall s s' : shutdown linux_world, stop_step s s' -> sd_step s s' /\ any_order s s') as Hs
    by (split; [by apply sd_stop|done]).
  exists listing_state. split_and!; [|done|].
  - destruct connected_reachable as (cfg & c & Hc & Hr). exists cfg, c. split; [exact Hc|]. etrans; [exact Hr|].
    eapply rtc_l; [split; [|exact I]; apply sd_list; [done|set_solver|reflexivity|reflexivity]|].
    eapply rtc_l; [apply Hs, stop_call|].
    eapply rtc_l; [apply Hs, (stop_thread_end _ _ _ _ THeartbeat); [periodic_party|apply not_elem_of_nil|done|by apply flag_returns; [periodic_party|]]|].
    eapply rtc_l; [apply Hs, stop_join, list_elem_of_here|].
    eapply rtc_l; [apply Hs, (stop_thread_end _ _ _ _ TMetrics); [periodic_party|set_solver|done|by apply flag_returns; [periodic_party|]]|].
    apply rtc_once, Hs, stop_join, list_elem_of_here.
  - intros s' Hst. inversion Hst as [|m pc ended l p Hp Hn Hm Hret|m p ps ended l Hp| | | | | | | | | | | | |]; subst.
    + destruct p; try done; by apply Hn; set_solver.
    + set_solver.
Qed.

(** A restart is asked for after the wait for the command threads. *)
Definition late_agent : agent := get agent0 (_on_message (stopping agent0) reboot_text sample_dispatch_env).
Definition late_out : agent := disconnecting (desktop_flagged late_agent).
Definition late_freed : shutdown linux_world :=
  mk_shutdown (around (set_conn late_out (thread_end (after_service (ag_conn late_out)))) Exited) Freed all_ended false.

(** The condition on commands is needed: a command received between the
    wait for the command threads and the end of the service thread has its
    thread run on an agent that has been freed. *)
Theorem late_command_uses_freed_agent : exists s, sd_reachable any_order quiet_world s /\ uses_freed s.
Proof.
  assert (forall s s' : shutdown linux_world, stop_step s s' -> sd_step s s' /\ any_order s s') as Hs
    by (split; [by apply sd_stop|done]).
  exists late_freed. split.
  - destruct joined_state_reachable as (cfg & c & Hc & Hr). exists cfg, c. split; [exact Hc|]. etrans; [exact Hr|].
    eapply rtc_l; [by apply Hs, stop_exec_skip|].
    eapply rtc_l; [split; [|exact I]; apply (thread_step _ (around late_agent Servicing) _ _ _ (TReceive reboot_text true)); [done|set_solver|done|done|apply (@step_message linux_world _ _ _ decimal_lib toy_openssl (stopping agent0) quiet_world 0 reboot_text
        (conn greeted) reboot_text sample_dispatch_env late_agent); vm_compute; reflexivity]|].
    eapply rtc_l; [apply Hs, stop_desktop_flag|].
    eapply rtc_l; [by apply Hs, stop_desktop_skip|].
    eapply rtc_l; [apply Hs, stop_conn_flag|].
    eapply rtc_l; [split; [|exact I]; apply (thread_step _ (sd_machine late_freed) _ _ _ TService); [done|set_solver|done|done|apply step_service; by apply loop_leave_stop]|].
    by apply rtc_once, Hs, stop_conn_done.
  - split; [done|]. exists TCommand. eexists. split_and!; [set_solver|done|].
    apply (step_work _ quiet_world 0 Exited [] reboot_ctx [] sample_exec_env report1 (ag_conn (sd_agent late_freed)) world1);
      vm_compute; reflexivity.
Qed.

(** A session is asked for after the wait for the sessions. *)
Definition session_text : list ascii :=
  message_text 110 (str "8") (str "{" ++
    print_string_ptr (str "session_id") ++ str ":" ++ print_string_ptr (str "s1") ++ str "," ++
    print_string_ptr (str "ws_url") ++ str ":" ++ print_string_ptr (str "wss://h/rd") ++ str "}").

Definition viewed_agent : agent :=
  get agent0 (_on_message (desktop_flagged (stopping agent0)) session_text sample_dispatch_env).
Definition viewed_out : agent := disconnecting viewed_agent.
Definition viewed_freed : shutdown linux_world :=
  mk_shutdown (around (set_conn viewed_out (thread_end (after_service (ag_conn viewed_out)))) Exited) Freed all_ended false.

(** So is the condition on sessions: one that starts between the wait of
    [leo_rd_stop_all] and the end of the service thread runs on. *)
Theorem late_session_uses_freed_agent : exists s, sd_reachable any_order quiet_world s /\ uses_freed s.
Proof.
  assert (forall s s' : shutdown linux_world, stop_step s s' -> sd_step s s' /\ any_order s s') as Hs
    by (split; [by apply sd_stop|done]).
  exists viewed_freed. split.
  - destruct joined_state_reachable as (cfg & c & Hc & Hr). exists cfg, c. split; [exact Hc|]. etrans; [exact Hr|].
    eapply rtc_l; [by apply Hs, stop_exec_skip|].
    eapply rtc_l; [apply Hs, stop_desktop_flag|].
    eapply rtc_l; [by apply Hs, stop_desktop_skip|].
    eapply rtc_l; [split; [|exact I]; apply (thread_step _ (around viewed_agent Servicing) _ _ _ (TReceive session_text true)); [done|set_solver|done|done|apply (@step_message linux_world _ _ _ decimal_lib toy_openssl (desktop_flagged (stopping agent0))
        quiet_world 0 session_text (conn greeted) session_text sample_dispatch_env viewed_agent); vm_compute; reflexivity]|].
    eapply rtc_l; [apply Hs, stop_conn_flag|].
    eapply rtc_l; [split; [|exact I]; apply (thread_step _ (sd_machine viewed_freed) _ _ _ TService); [done|set_solver|done|done|apply step_service; by apply loop_leave_stop]|].
    by apply rtc_once, Hs, stop_conn_done.
  - split; [done|]. exists TSession. eexists. split_and!; [set_solver|done|].
    apply (step_clear _ quiet_world 0 Exited 0). vm_compute. reflexivity.
Qed.

End evaluation.
