(* ===== verification/Metrics.v ===== *)
(** Collection of metrics: [platform/linux/metrics_linux.c] and the helpers of
    [src/metrics.c].

    The files of /proc are inputs ([proc_env]), [None] when [fopen] fails; the
    text of the file is what [fgets] or [fscanf] read from it.  The static
    [g_prev_cpu] is the state [leo_metrics_collect] takes and leaves.  Counters
    are 64-bit unsigned integers with their wrap-around; percentages are the
    rounded operations of [Double].  A variable that [sscanf] did not assign
    keeps an unspecified value, an input too ([indet], by line and variable). *)
From S2P Require Import Prelude CString Scan Double Types Json JsonParse Protocol Connection Dispatch Agent.

Definition MAX_CPUS : Z := 256.

Record cpu_stats_t : Type := mk_cpu {
  user : Z; nice : Z; system : Z; idle : Z; iowait : Z; irq : Z; softirq : Z; steal : Z;
}.

#[export] Instance cpu_stats_t_eq_dec : EqDecision cpu_stats_t.
Proof. solve_decision. Defined.

Record cpu_snapshot_t : Type := mk_snapshot {
  total : cpu_stats_t;
  per_core : list cpu_stats_t;
  core_count : Z;
  valid : bool;
}.

Definition cpu_zero : cpu_stats_t := mk_cpu 0 0 0 0 0 0 0 0.

(** A snapshot cleared by [memset]; also the initial [g_prev_cpu]. *)
Definition snapshot_zero : cpu_snapshot_t :=
  mk_snapshot cpu_zero (replicate (Z.to_nat MAX_CPUS) cpu_zero) 0 false.

(** What [statvfs] tells of a mounted file system. *)
Record statvfs_t : Type := mk_statvfs { f_frsize : Z; f_blocks : Z; f_bfree : Z }.

Record proc_env : Type := {
  clock : Z * Z;
  proc_stat : option (list ascii);
  indet : nat -> nat -> Z;
  proc_meminfo : option (list ascii);
  proc_mounts : option (list ascii);
  statvfs : list ascii -> option statvfs_t;
  proc_net_dev : option (list ascii);
  proc_loadavg : option (list ascii);
}.

Definition _now_ms (ts : Z * Z) : Z :=
  wrap_u64 (wrap_u64 (wrap_u64 ts.1 * 1000) + wrap_u64 ts.2 `div` 1000000).

(** ** /proc/stat *)

Definition set_total (snap : cpu_snapshot_t) (st : cpu_stats_t) : cpu_snapshot_t :=
  mk_snapshot st (per_core snap) (core_count snap) (valid snap).

(** A write at an index of the array, which has [MAX_CPUS] entries. *)
Definition set_core (snap : cpu_snapshot_t) (i : Z) (st : cpu_stats_t) : outcome cpu_snapshot_t :=
  if (0 <=? i) && (i <? Z.of_nat (length (per_core snap)))
  then Ret (mk_snapshot (total snap) (<[Z.to_nat i := st]> (per_core snap)) (core_count snap) (valid snap))
  else Undef.

(** The eight numbers stored, [nums] being those the line had. *)
Definition stats_of (junk : nat -> Z) (nums : list Z) : cpu_stats_t :=
  let v i := default (junk i) (nums !! i) in
  mk_cpu (v 0%nat) (v 1%nat) (v 2%nat) (v 3%nat) (v 4%nat) (v 5%nat) (v 6%nat) (v 7%nat).

(** The loop over the lines; [k] is the number of lines read. *)
Fixpoint stat_lines (junk : nat -> nat -> Z) (k : nat) (lines : list (list ascii))
    (snap : cpu_snapshot_t) (core_idx : Z) : outcome (cpu_snapshot_t * Z) :=
  match lines with
  | [] => Ret (snap, core_idx)
  | l :: lines' =>
      let line := c_str l in
      if negb (starts_with (str "cpu") line) then Ret (snap, core_idx)
      else
        match scan_word 15 line with
        | None => stat_lines junk (S k) lines' snap core_idx
        | Some (label, r) =>
            let nums := scan_llus 10 r in
            let fields := 1 + Z.of_nat (length nums) in
            if fields <? 5 then stat_lines junk (S k) lines' snap core_idx
            else
              let st := stats_of (junk k) nums in
              if streq label (str "cpu")
              then stat_lines junk (S k) lines' (set_total snap st) core_idx
              else
                let core_idx := core_idx + 1 in
                if MAX_CPUS <=? core_idx then stat_lines junk (S k) lines' snap core_idx
                else snap ← set_core snap core_idx st; stat_lines junk (S k) lines' snap core_idx
        end
  end.

(** [None] when the result is false; the snapshot is untouched then. *)
Definition _read_cpu_stats (file : option (list ascii)) (junk : nat -> nat -> Z) : outcome (option cpu_snapshot_t) :=
  match file with
  | None => Ret None
  | Some text =>
      '(snap, core_idx) ← stat_lines junk 0 (fgets_all 256 text) snapshot_zero (-1);
      Ret (Some (mk_snapshot (total snap) (per_core snap) (if 0 <=? core_idx then core_idx + 1 else 0) true))
  end.

Definition sum_idle (s : cpu_stats_t) : Z := wrap_u64 (idle s + iowait s).
Definition sum_total (s : cpu_stats_t) : Z :=
  wrap_u64 (user s + nice s + system s + idle s + iowait s + irq s + softirq s + steal s).

Definition _cpu_usage (prev curr : cpu_stats_t) : double :=
  let total_delta := wrap_u64 (sum_total curr - sum_total prev) in
  let idle_delta := wrap_u64 (sum_idle curr - sum_idle prev) in
  if total_delta =? 0 then DFin 0 0
  else d_mul (d_div (d_of_Z (wrap_u64 (total_delta - idle_delta))) (d_of_Z total_delta)) (d_of_Z 100).

(** ** /proc/meminfo *)

(** [sscanf (line, "<name>: %llu kB", &kb) == 1]. *)
Definition scan_kb (name line : list ascii) : option Z :=
  r ← scan_lit (name ++ str ":") line; '(kb, _) ← scan_llu r; Some kb.

Fixpoint meminfo_lines (lines : list (list ascii)) (tot avail : Z) : Z * Z :=
  match lines with
  | [] => (tot, avail)
  | l :: lines' =>
      let line := c_str l in
      let '(tot, avail) :=
        match scan_kb (str "MemTotal") line with
        | Some kb => (wrap_u64 (kb * 1024), avail)
        | None => match scan_kb (str "MemAvailable") line with
                  | Some kb => (tot, wrap_u64 (kb * 1024))
                  | None => (tot, avail)
                  end
        end in
      if negb (tot =? 0) && negb (avail =? 0) then (tot, avail) else meminfo_lines lines' tot avail
  end.

(** The result, then [total], [available] and [used], [None] when they are
    not written. *)
Definition _read_meminfo (file : option (list ascii)) : bool * option (Z * Z * Z) :=
  match file with
  | None => (false, None)
  | Some text =>
      let '(tot, avail) := meminfo_lines (fgets_all 128 text) 0 0 in
      (0 <? tot, Some (tot, avail, if avail <? tot then tot - avail else 0))
  end.

(** ** /proc/mounts *)

Definition IGNORE_FS : list (list ascii) :=
  [str "proc"; str "sysfs"; str "devtmpfs"; str "tmpfs"; str "devpts"; str "securityfs";
   str "cgroup"; str "cgroup2"; str "pstore"; str "bpf"; str "tracefs"; str "debugfs";
   str "fusectl"; str "hugetlbfs"; str "mqueue"; str "overlay"; str "squashfs"].

(** One [fscanf] of the loop: the mount point and the type it stored. *)
Definition scan_mount (s : list ascii) : option (list ascii * list ascii * list ascii) :=
  '(_, s) ← scan_word 255 s;
  '(mount, s) ← scan_word 255 s;
  '(fstype, s) ← scan_word 63 s;
  '(_, s) ← scan_word 511 s;
  '(_, s) ← scan_d s;
  '(_, s) ← scan_d s;
  Some (c_str mount, c_str fstype, s).

(** The body of the loop. *)
Definition add_mount (vfs : list ascii -> option statvfs_t) (mount fstype : list ascii) (acc : Z * Z) : Z * Z :=
  if bool_decide (fstype ∈ IGNORE_FS) then acc
  else
    match vfs mount with
    | None => acc
    | Some st =>
        (wrap_u64 (acc.1 + wrap_u64 (f_frsize st * f_blocks st)),
         wrap_u64 (acc.2 + wrap_u64 (f_frsize st * wrap_u64 (f_blocks st - f_bfree st))))
    end.

(** Each pass consumes input, so as many passes as characters are enough. *)
Fixpoint mounts_loop (fuel : nat) (vfs : list ascii -> option statvfs_t) (s : list ascii) (acc : Z * Z) : Z * Z :=
  match fuel with
  | O => acc
  | S fuel' =>
      match scan_mount s with
      | Some (mount, fstype, s') => mounts_loop fuel' vfs s' (add_mount vfs mount fstype acc)
      | None => acc
      end
  end.

Definition _read_disk_usage (file : option (list ascii)) (vfs : list ascii -> option statvfs_t) : option (Z * Z) :=
  text ← file; Some (mounts_loop (S (length text)) vfs text (0, 0)).

(** ** /proc/net/dev *)

(** The interface and its numbers, [None] when fewer than ten items match. *)
Definition scan_net (line : list ascii) : option (list ascii * list Z) :=
  '(iface, r) ← scan_until 31 ":"%char (skip_space line);
  r ← scan_lit (str ":") r;
  let nums := scan_llus 9 r in
  if 1 + Z.of_nat (length nums) <? 10 then None else Some (iface, nums).

Definition add_net (acc : Z * Z) (l : list ascii) : Z * Z :=
  match scan_net (c_str l) with
  | None => acc
  | Some (iface, nums) =>
      if streq iface (str "lo") then acc
      else (wrap_u64 (acc.1 + default 0 (nums !! 0%nat)), wrap_u64 (acc.2 + default 0 (nums !! 8%nat)))
  end.

Definition _read_net_stats (file : option (list ascii)) : option (Z * Z) :=
  text ← file; Some (fold_left add_net (drop 2 (fgets_all 512 text)) (0, 0)).

(** ** /proc/loadavg *)

(** [%f]: the number has the form [strtod] expects. *)
Definition scan_f `{CLib} (s : list ascii) : option (list ascii) :=
  let t := skip_space s in
  let '(_, n) := strtod t in
  if bool_decide (n = 0%nat) then None else Some (drop n t).

(** The last conversion, [%d], does not matter to the result. *)
Definition _read_process_count `{CLib} (file : option (list ascii)) : Z :=
  default 0 (
    text ← file;
    r ← scan_f text; r ← scan_f r; r ← scan_f r;
    '(_, r) ← scan_u r;
    r ← scan_lit (str "/") r;
    '(tot, _) ← scan_u r;
    Some tot).

(** ** API *)

Definition leo_metrics_init (prev : cpu_snapshot_t) (e : proc_env) : outcome (cpu_snapshot_t * leo_error_t) :=
  curr ← _read_cpu_stats (proc_stat e) (indet e);
  Ret (default prev curr, LEO_OK).

(** The percentage of the core [i], read in the two arrays. *)
Definition core_usage (prev curr : cpu_snapshot_t) (i : nat) : outcome double :=
  match per_core prev !! i, per_core curr !! i with
  | Some p, Some c => Ret (_cpu_usage p c)
  | _, _ => Undef
  end.

(** The CPU part of a collection: the new state, the percentage, those of the
    cores and their number. *)
Definition collect_cpu (prev : cpu_snapshot_t) (e : proc_env) :
    outcome (cpu_snapshot_t * (double * list double * Z)) :=
  o ← _read_cpu_stats (proc_stat e) (indet e);
  match o with
  | Some curr =>
      if valid prev then
        let cores := if core_count curr <? LEO_MAX_CPU_CORES then core_count curr else LEO_MAX_CPU_CORES in
        usages ← mapM (core_usage prev curr) (seq 0 (Z.to_nat cores));
        Ret (curr, (_cpu_usage (total prev) (total curr), usages, cores))
      else Ret (prev, (DFin 0 0, [], 0))
  | None => Ret (prev, (DFin 0 0, [], 0))
  end.

Definition leo_metrics_collect `{CLib} (prev : cpu_snapshot_t) (e : proc_env) :
    outcome (cpu_snapshot_t * (leo_error_t * leo_metrics_t)) :=
  '(next, (cpu, cores, n)) ← collect_cpu prev e;
  let '(tot, avail, used) := default (0, 0, 0) (_read_meminfo (proc_meminfo e)).2 in
  let '(dtot, dused) := default (0, 0) (_read_disk_usage (proc_mounts e) (statvfs e)) in
  let '(rx, tx) := default (0, 0) (_read_net_stats (proc_net_dev e)) in
  Ret (next, (LEO_OK, mk_metrics cpu cores n tot used avail dtot dused rx tx
                        (_read_process_count (proc_loadavg e)) (_now_ms (clock e)))).

Definition leo_metrics_destroy (prev : cpu_snapshot_t) : cpu_snapshot_t := snapshot_zero.

Definition leo_metrics_is_valid (m : option leo_metrics_t) : bool :=
  match m with Some m => 0 <? timestamp_ms m | None => false end.

(** ** CPU percentages *)

(** Counters that only grew, by component. *)
Definition grows (prev curr : cpu_stats_t) : Prop :=
  user prev <= user curr /\ nice prev <= nice curr /\ system prev <= system curr /\
  idle prev <= idle curr /\ iowait prev <= iowait curr /\ irq prev <= irq curr /\
  softirq prev <= softirq curr /\ steal prev <= steal curr.

(** Time spent in all states, and outside the idle ones, between two readings. *)
Definition elapsed (prev curr : cpu_stats_t) : Z :=
  (user curr - user prev) + (nice curr - nice prev) + (system curr - system prev) +
  (idle curr - idle prev) + (iowait curr - iowait prev) + (irq curr - irq prev) +
  (softirq curr - softirq prev) + (steal curr - steal prev).
Definition busy (prev curr : cpu_stats_t) : Z :=
  elapsed prev curr - (idle curr - idle prev) - (iowait curr - iowait prev).

(** Differences modulo [2 ^ 64] of sums modulo [2 ^ 64]. *)
Lemma wrap_sub a b d : a - b = d -> 0 <= d < 2 ^ 64 -> wrap_u64 (wrap_u64 a - wrap_u64 b) = d.
Proof.
  intros E Hd. unfold wrap_u64. rewrite <- Zminus_mod, E. apply Z.mod_small. lia.
Qed.

(** The division of two differences that fit a double. *)
Lemma share_of_deltas b t : 0 <= b <= t -> t < 2 ^ 53 ->
  d_mul (d_div (d_of_Z b) (d_of_Z t)) (d_of_Z 100) = d_mul (round_q b t) (DFin 100 0).
Proof.
  intros Hb Ht. rewrite !d_of_Z_exact by lia. f_equal. unfold d_div, fnum, fden. change (- 0) with 0.
  rewrite Z.max_id, Z.pow_0_r. f_equal; lia.
Qed.

(** The unsigned computation is the division of the true differences. *)
Lemma cpu_usage_exact prev curr : grows prev curr -> 0 < elapsed prev curr < 2 ^ 53 ->
  _cpu_usage prev curr =
  d_mul (round_q (busy prev curr) (elapsed prev curr)) (DFin 100 0).
Proof.
  intros G He. unfold _cpu_usage. unfold grows, busy, elapsed in *.
  unfold sum_total, sum_idle. rewrite (wrap_sub _ _ (elapsed prev curr)) by (unfold elapsed; lia).
  rewrite (wrap_sub _ _ (elapsed prev curr - busy prev curr)) by (unfold busy, elapsed; lia).
  fold (elapsed prev curr) in *. set (t := elapsed prev curr) in *.
  change (t - (idle curr - idle prev) - (iowait curr - iowait prev)) with (busy prev curr) in *.
  assert (0 <= busy prev curr <= t) as Hb by (unfold busy, t, elapsed in *; lia).
  assert ((t =? 0) = false) as -> by lia.
  replace (t - (t - busy prev curr)) with (busy prev curr) by lia. rewrite wrap_u64_id by lia.
  apply share_of_deltas; lia.
Qed.

Lemma cpu_usage_idle prev curr : elapsed prev curr = 0 -> _cpu_usage prev curr = DFin 0 0.
Proof.
  intros E. unfold _cpu_usage. assert (wrap_u64 (sum_total curr - sum_total prev) = 0) as ->; [|done].
  unfold sum_total. apply wrap_sub; [|lia]. unfold elapsed in E. lia.
Qed.

(** Two roundings in a row. *)
Lemma error_compose b t u f U F : 0 <= b -> 0 < t -> 0 <= u -> 0 < f -> 0 <= U -> 0 < F ->
  (2 ^ 52 - 1) * b * f <= 2 ^ 52 * u * t <= (2 ^ 52 + 1) * b * f ->
  (2 ^ 52 - 1) * (u * 100) * F <= 2 ^ 52 * U * f <= (2 ^ 52 + 1) * (u * 100) * F ->
  (2 ^ 50 - 1) * (100 * b) * F <= 2 ^ 50 * U * t <= (2 ^ 50 + 1) * (100 * b) * F.
Proof.
  intros Hb Ht Hu Hf HU HF [A1 A2] [B1 B2].
  assert (H1 : (2 ^ 52 - 1) * ((2^52-1) * b * f) * 100 * F <= 2^52 * (2 ^ 52 * U * t) * f).
  { etrans; [|instantiate (1 := 2 ^ 52 * t * ((2 ^ 52 - 1) * (u * 100) * F)); nia]. nia. }
  assert (H2 : 2^52 * (2 ^ 52 * U * t) * f <= (2 ^ 52 + 1) * ((2^52+1) * b * f) * 100 * F).
  { etrans; [instantiate (1 := 2 ^ 52 * t * ((2 ^ 52 + 1) * (u * 100) * F)); nia|]. nia. }
  assert (0 <= b * F * f) by (apply Z.mul_nonneg_nonneg; nia).
  split; apply (Z.mul_le_mono_pos_r _ _ f Hf); nia.
Qed.

(** The percentage computed for a part [b] of [t]: two roundings. *)
Lemma share_percent b t : 0 <= b <= t -> 0 < t ->
  let d := d_mul (round_q b t) (DFin 100 0) in
  (exists m e, d = DFin m e) /\ 0 <= fnum d <= 100 * fden d /\
  (2 ^ 50 - 1) * (100 * b) * fden d <= 2 ^ 50 * fnum d * t <= (2 ^ 50 + 1) * (100 * b) * fden d.
Proof.
  intros Hb Ht. cbv zeta.
  pose proof (round_q_error b t ltac:(lia) ltac:(lia)) as E1.
  pose proof (round_q_le b t 1 0 ltac:(lia) ltac:(lia) ltac:(lia) ltac:(lia) ltac:(lia)) as L1.
  pose proof (round_q_nonneg b t ltac:(lia) ltac:(lia)) as N1. pose proof (fden_pos (round_q b t)) as D1.
  unfold d_mul. change (fnum (DFin 100 0)) with 100. change (fden (DFin 100 0)) with 1.
  set (u := fnum (round_q b t)) in *. set (f := fden (round_q b t)) in *. rewrite Z.mul_1_r.
  pose proof (round_q_error (u * 100) f ltac:(lia) ltac:(lia)) as E2.
  pose proof (round_q_le (u * 100) f 100 0 ltac:(lia) ltac:(lia) ltac:(lia) ltac:(lia) ltac:(lia)) as L2.
  pose proof (round_q_nonneg (u * 100) f ltac:(lia) ltac:(lia)) as N2.
  pose proof (fden_pos (round_q (u * 100) f)) as D2.
  destruct (round_q_fin (u * 100) f) as (m & e & Ef & _); [lia..|].
  split; [eauto|]. clear Ef. set (U := fnum (round_q (u * 100) f)) in *. set (F := fden _) in *.
  split; [lia|]. apply error_compose with (u := u) (f := f); try lia.
Qed.

(** C33: the CPU percentage of two readings of counters that only grew is a
    number between 0 and 100, and within one part in [2 ^ 50] of the exact
    share of the time spent outside the idle states; counters may wrap around
    64 bits in their sums. *)
Theorem cpu_usage_percent prev curr :
  grows prev curr -> elapsed prev curr < 2 ^ 53 ->
  let d := _cpu_usage prev curr in
  (exists m e, d = DFin m e) /\ 0 <= fnum d <= 100 * fden d /\
  (2 ^ 50 - 1) * (100 * busy prev curr) * fden d <= 2 ^ 50 * fnum d * elapsed prev curr <=
  (2 ^ 50 + 1) * (100 * busy prev curr) * fden d.
Proof.
  intros G He. cbv zeta.
  assert (0 <= busy prev curr <= elapsed prev curr) as Hb by (unfold grows, busy, elapsed in *; lia).
  destruct (Z.eq_dec (elapsed prev curr) 0) as [E0|]; [rewrite cpu_usage_idle by done; split; [eauto|simpl; lia]|].
  rewrite cpu_usage_exact by (done || lia).
  apply share_percent; lia.
Qed.

Lemma cpu_usage_percent_witness :
  let p := mk_cpu 100 0 50 1000 10 0 0 0 in
  let c := mk_cpu 130 0 60 1055 15 0 0 0 in
  grows p c /\ elapsed p c < 2 ^ 53 /\
  0 <= fnum (_cpu_usage p c) <= 100 * fden (_cpu_usage p c) /\ _cpu_usage p c = DFin (5 * 2 ^ 50) (-47).
Proof.
  cbv zeta. assert (grows (mk_cpu 100 0 50 1000 10 0 0 0) (mk_cpu 130 0 60 1055 15 0 0 0)) as G
    by (unfold grows; simpl; lia).
  assert (elapsed (mk_cpu 100 0 50 1000 10 0 0 0) (mk_cpu 130 0 60 1055 15 0 0 0) < 2 ^ 53) as E by done.
  split_and!; [done|done|apply (cpu_usage_percent _ _ G E)..|vm_compute; reflexivity].
Defined.

(** A CPU whose iowait counter went back (as proc(5) says it may) is reported
    at 200 %. *)
Theorem usage_above_100 :
  _cpu_usage (mk_cpu 0 0 0 0 100 0 0 0) (mk_cpu 200 0 0 0 0 0 0 0) = DFin (200 * 2 ^ 45) (-45).
Proof. vm_compute. reflexivity. Qed.

(** ** Snapshots *)

Definition u64 (n : Z) : Prop := 0 <= n < 2 ^ 64.

Definition stats_ok (s : cpu_stats_t) : Prop :=
  Forall u64 [user s; nice s; system s; idle s; iowait s; irq s; softirq s; steal s].

(** The array has its size and the count is that of the lines read. *)
Definition snapshot_ok (s : cpu_snapshot_t) : Prop :=
  Z.of_nat (length (per_core s)) = MAX_CPUS /\ 0 <= core_count s.

Lemma set_core_ok snap i st :
  0 <= i < Z.of_nat (length (per_core snap)) ->
  set_core snap i st = Ret (mk_snapshot (total snap) (<[Z.to_nat i := st]> (per_core snap)) (core_count snap) (valid snap)).
Proof.
  intros Hi. unfold set_core. destruct (Z.leb_spec 0 i); [|lia]. destruct (Z.ltb_spec i (Z.of_nat (length (per_core snap)))); [done|lia].
Qed.

(** However many lines there are, nothing is written outside the array. *)
Lemma stat_lines_ok junk k lines snap i :
  Z.of_nat (length (per_core snap)) = MAX_CPUS -> -1 <= i ->
  exists snap' i', stat_lines junk k lines snap i = Ret (snap', i') /\
    Z.of_nat (length (per_core snap')) = MAX_CPUS /\ -1 <= i'.
Proof.
  revert k snap i. induction lines as [|l lines IH]; intros k snap i Hs Hi; [by eexists _, _|]. cbn [stat_lines].
  destruct (negb _); [by eexists _, _|]. destruct (scan_word _ _) as [[label r]|]; [|by apply IH]. cbv zeta.
  destruct (_ <? _); [by apply IH|]. destruct (streq _ _); [by apply IH|].
  destruct (Z.leb_spec MAX_CPUS (i + 1)); [apply IH; [done|lia]|].
  rewrite set_core_ok by lia. apply IH; [|lia]. cbn [per_core]. by rewrite length_insert.
Qed.

Lemma read_cpu_stats_ok file junk :
  exists o, _read_cpu_stats file junk = Ret o /\ forall snap, o = Some snap -> snapshot_ok snap /\ valid snap = true.
Proof.
  unfold _read_cpu_stats. destruct file as [text|]; [|by exists None].
  destruct (stat_lines_ok junk 0 (fgets_all 256 text) snapshot_zero (-1) eq_refl ltac:(lia)) as (s & i & -> & Hs & Hi).
  eexists. split; [reflexivity|]. intros ? [= <-]. split; [|done]. split; [done|]. cbn. case_goal; breflect; lia.
Qed.

Lemma core_usages_ok prev curr l :
  (forall i, i ∈ l -> (i < length (per_core prev))%nat /\ (i < length (per_core curr))%nat) ->
  exists us, mapM (core_usage prev curr) l = Ret us /\ length us = length l.
Proof.
  induction l as [|i l IH]; intros Hl; [by exists []|].
  destruct (Hl i (list_elem_of_here _ _)) as [[p Hp]%lookup_lt_is_Some [c Hc]%lookup_lt_is_Some].
  destruct IH as (us & E & L); [intros j Hj; by apply Hl, list_elem_of_further|].
  exists (_cpu_usage p c :: us). split; [|by cbn; rewrite L].
  change (mapM (core_usage prev curr) (i :: l)) with
    (u ← core_usage prev curr i; us ← mapM (core_usage prev curr) l; Ret (u :: us)).
  rewrite E. unfold core_usage. by rewrite Hp, Hc.
Qed.

Lemma collect_cores prev e : snapshot_ok prev ->
  exists next cpu cores n, collect_cpu prev e = Ret (next, (cpu, cores, n)) /\
  0 <= n <= LEO_MAX_CPU_CORES /\ Z.of_nat (length cores) = n /\ snapshot_ok next /\
  (valid prev = false -> next = prev /\ cpu = DFin 0 0).
Proof.
  intros [Hp1 Hp2]. unfold collect_cpu. destruct (read_cpu_stats_ok (proc_stat e) (indet e)) as (o & -> & Ho). cbn [mbind outcome_bind].
  assert (exists next cpu cores n, Ret (prev, (DFin 0 0, [], 0)) = Ret (next, (cpu, cores, n)) /\
    0 <= n <= LEO_MAX_CPU_CORES /\ Z.of_nat (length (cores : list double)) = n /\ snapshot_ok next /\
    (valid prev = false -> next = prev /\ cpu = DFin 0 0)) as Hskip by (by eexists _, _, _, _).
  destruct o as [curr|]; [|exact Hskip]. destruct (valid prev) eqn:Hv; [|exact Hskip]. cbv zeta.
  destruct (Ho curr eq_refl) as [[Hc1 Hc2] _].
  set (cores := if core_count curr <? LEO_MAX_CPU_CORES then core_count curr else LEO_MAX_CPU_CORES).
  assert (0 <= cores <= LEO_MAX_CPU_CORES) as Hn
    by (unfold cores; destruct (Z.ltb_spec (core_count curr) LEO_MAX_CPU_CORES); unfold LEO_MAX_CPU_CORES in *; lia).
  destruct (core_usages_ok prev curr (seq 0 (Z.to_nat cores))) as (us & -> & Lu).
  { intros i Hi%elem_of_seq. unfold MAX_CPUS, LEO_MAX_CPU_CORES in *. lia. }
  rewrite length_seq in Lu. eexists _, _, _, _. split; [reflexivity|]. split_and!; [lia..|lia|done|done].
Qed.

(** The state after successive collections. *)
Fixpoint collect_all `{CLib} (prev : cpu_snapshot_t) (es : list proc_env) : outcome cpu_snapshot_t :=
  match es with
  | [] => Ret prev
  | e :: es' => '(next, _) ← leo_metrics_collect prev e; collect_all next es'
  end.

(** ** Reading what the kernel prints *)

(** The numbers of a line, each after a blank. *)
Definition num_text (nums : list Z) : list ascii := concat (map (fun n => " "%char :: dec n) nums).

(** A line of /proc/stat: a label, the eight counters, then the time of guests. *)
Definition cpu_line (label sep : list ascii) (s : cpu_stats_t) (guest guest_nice : Z) : list ascii :=
  str "cpu" ++ label ++ sep ++ num_text [user s; nice s; system s; idle s; iowait s; irq s; softirq s; steal s; guest; guest_nice].

Definition core_lines (first : nat) (cores : list (cpu_stats_t * (Z * Z))) : list (list ascii) :=
  imap (fun i c => cpu_line (dec (Z.of_nat (first + i))) [] c.1 c.2.1 c.2.2) cores.

(** The file: the total, the cores, then other lines. *)
Definition proc_stat_text (tot : cpu_stats_t * (Z * Z)) (cores : list (cpu_stats_t * (Z * Z))) (rest : list ascii) :
    list ascii :=
  concat (map (fun l => l ++ [LF]) (cpu_line [] (str " ") tot.1 tot.2.1 tot.2.2 :: core_lines 0 cores)) ++ rest.

Definition counters_ok (c : cpu_stats_t * (Z * Z)) : Prop := stats_ok c.1 /\ u64 c.2.1 /\ u64 c.2.2.

Lemma dec_no_lf n : 0 <= n -> (LF ∉ dec n) /\ (NUL ∉ dec n).
Proof.
  intros Hn. pose proof (dec_all_digits n Hn) as A. unfold all_digits in A. rewrite Forall_forall in A.
  split; intros E%A; done.
Qed.

Lemma num_text_spec nums : Forall u64 nums ->
  (LF ∉ num_text nums) /\ (NUL ∉ num_text nums) /\ (length (num_text nums) <= 21 * length nums)%nat.
Proof.
  unfold num_text. induction 1 as [|n nums Hn _ (A & B & C)]; simpl; [split_and!; [set_solver..|lia]|].
  unfold u64 in Hn. destruct (dec_no_lf n ltac:(lia)) as [L N].
  pose proof (dec_length n 20 ltac:(lia) ltac:(lia)).
  split_and!; [rewrite not_elem_of_cons, not_elem_of_app; done..|rewrite length_app; lia].
Qed.

Lemma scan_num_text k b nums t : blank b -> Forall u64 nums -> ends_number t -> length nums = k ->
  scan_llus k (b ++ num_text nums ++ t) = nums.
Proof.
  intros Hb Hn Ht <-. revert b Hb. unfold num_text.
  induction Hn as [|n nums Hn _ IH]; intros b Hb; [done|]. cbn [length scan_llus map concat].
  rewrite <- (assoc_L (++)).
  change ((" "%char :: dec n) ++ ?r) with ([" "%char] ++ dec n ++ r). rewrite (assoc_L (++) b).
  rewrite scan_llu_dec; [f_equal; apply (IH [] ltac:(constructor))|by apply Forall_app_2; repeat constructor|done|].
  destruct nums; [done|]. by intros c [= <-].
Qed.

Lemma no_nul_line l : NUL ∉ l -> c_str (l ++ [LF]) = l ++ [LF].
Proof. intros H. apply c_str_id. rewrite not_elem_of_app. split; [done|]. by intros ?%list_elem_of_singleton. Qed.

(** One line of the loop. *)
Lemma stat_line_read junk k label sep c lines snap i :
  counters_ok c -> all_digits label -> (length label <= 12)%nat -> blank sep -> NUL ∉ sep ->
  stat_lines junk k ((cpu_line label sep c.1 c.2.1 c.2.2 ++ [LF]) :: lines) snap i =
  if bool_decide (label = []) then stat_lines junk (S k) lines (set_total snap c.1) i
  else if MAX_CPUS <=? i + 1 then stat_lines junk (S k) lines snap (i + 1)
  else snap ← set_core snap (i + 1) c.1; stat_lines junk (S k) lines snap (i + 1).
Proof.
  intros (Hs & Hg & Hn) Hd Hl Hb Hz. cbn [stat_lines]. unfold cpu_line.
  set (nums := [_; _; _; _; _; _; _; _; _; _]).
  assert (Forall u64 nums) as Hu by (apply (Forall_app_2 _ [_; _; _; _; _; _; _; _]); [done|apply Forall_cons_2; [done|apply Forall_singleton; done]]).
  destruct (num_text_spec nums Hu) as (_ & Nn & _).
  assert (NUL ∉ label) as Nl.
  { unfold all_digits in Hd. rewrite Forall_forall in Hd. by intros E%Hd. }
  rewrite no_nul_line.
  2:{ rewrite !not_elem_of_app. split_and!; [|done..]. by apply (bool_decide_eq_true_1 _). }
  rewrite <- !(assoc_L (++)), starts_with_app. cbn [negb].
  rewrite (assoc_L (++) (str "cpu")).
  rewrite (scan_word_head 15 (str "cpu" ++ label)); [| | |rewrite length_app; simpl; lia].
  2:{ split; [done|]. apply Forall_app_2; [by repeat constructor|]. eapply Forall_impl; [exact Hd|].
      intros x Hx. destruct (isspace x) eqn:S; [|done]. apply space_not_digit in S. congruence. }
  2:{ destruct Hb; [by intros x [= <-]|]. by intros x' [= <-]. }
  rewrite scan_num_text; [|done|done|by intros x [= <-]|done]. cbv zeta.
  change (1 + Z.of_nat (length nums) <? 5) with false. cbv iota.
  replace (stats_of (junk k) nums) with c.1 by (destruct c as [[] []]; reflexivity).
  unfold streq. destruct label; [done|]. rewrite bool_decide_false by done. by rewrite bool_decide_false.
Qed.

(** The cores, once [done] of them are stored. *)
Lemma core_lines_read junk k first cores tail snap n v :
  (first + length cores <= 256)%nat ->
  Forall counters_ok cores ->
  length n = first -> (forall l, head tail = Some l -> starts_with (str "cpu") (c_str l) = false) ->
  stat_lines junk k (map (fun l => l ++ [LF]) (core_lines first cores) ++ tail)
    (mk_snapshot snap (n ++ replicate (256 - first) cpu_zero) 0 v) (Z.of_nat first - 1) =
  Ret (mk_snapshot snap (n ++ map fst cores ++ replicate (256 - first - length cores) cpu_zero) 0 v,
       Z.of_nat (first + length cores) - 1).
Proof.
  intros Hlen Hc Hn Ht. revert k first n Hlen Hn. induction Hc as [|c cores Hc _ IH]; intros k first n Hlen Hn.
  - cbn [core_lines imap map app length]. rewrite Nat.add_0_r, Nat.sub_0_r.
    destruct tail as [|l tail]; [done|]. cbn [stat_lines app]. by rewrite Ht.
  - unfold core_lines. cbn [imap map app]. cbn [length] in Hlen. rewrite Nat.add_0_r.
    assert (dec (Z.of_nat first) <> []) as Hne by (destruct (dec_nonempty (Z.of_nat first)) as (? & ? & -> & _); [lia|done]).
    rewrite stat_line_read; [|done|apply dec_all_digits; lia| |constructor|set_solver].
    2:{ etrans; [apply (dec_length _ 3); lia|lia]. }
    rewrite bool_decide_false by done. rewrite Z.sub_add.
    assert ((MAX_CPUS <=? Z.of_nat first) = false) as -> by (unfold MAX_CPUS; lia).
    rewrite set_core_ok by (cbn; rewrite length_app, length_replicate; lia).
    cbn [mbind outcome_bind total per_core core_count valid]. rewrite Nat2Z.id.
    replace (256 - first)%nat with (S (256 - S first)) by lia. cbn [replicate].
    rewrite insert_app_r_alt, Hn, Nat.sub_diag by lia.
    change (<[0%nat:=c.1]> (cpu_zero :: ?r)) with (c.1 :: r). rewrite cons_middle, (assoc_L (++)).
    replace (imap ((λ (i : nat) (c0 : cpu_stats_t * (Z * Z)), cpu_line (dec (Z.of_nat (first + i))) [] c0.1 c0.2.1 c0.2.2) ∘ S) cores)
      with (core_lines (S first) cores) by (unfold core_lines; apply imap_ext; intros; simpl; do 3 f_equal; lia).
    replace (Z.of_nat first) with (Z.of_nat (S first) - 1) by lia.
    rewrite IH; [|lia|rewrite length_app; simpl; lia].
    do 2 f_equal; [|simpl; lia]. f_equal. cbn [map app length]. rewrite <- (assoc_L (++)). simpl. f_equal.
Qed.

Lemma cpu_line_short label sep c : counters_ok c -> all_digits label -> (length label <= 12)%nat ->
  (length sep <= 1)%nat -> LF ∉ sep ->
  (LF ∉ cpu_line label sep c.1 c.2.1 c.2.2) /\ strlen (cpu_line label sep c.1 c.2.1 c.2.2) < 256 - 1.
Proof.
  intros (Hs & Hg & Hn) Hd Hl Hb Hz. unfold cpu_line.
  set (nums := [_; _; _; _; _; _; _; _; _; _]).
  assert (Forall u64 nums) as Hu
    by (apply (Forall_app_2 _ [_; _; _; _; _; _; _; _]); [done|apply Forall_cons_2; [done|by apply Forall_singleton]]).
  destruct (num_text_spec nums Hu) as (Nn & _ & L). change (length nums) with 10%nat in L.
  assert (LF ∉ label) as Nl by (unfold all_digits in Hd; rewrite Forall_forall in Hd; by intros E%Hd).
  split; [rewrite !not_elem_of_app; split_and!; [|done..]; by apply (bool_decide_eq_true_1 _)|].
  unfold strlen. rewrite !length_app. change (length (str "cpu")) with 3%nat. lia.
Qed.

(** What the kernel prints in /proc/stat is read back exactly: the total,
    each of up to 256 cores in its place, and their number; whatever follows
    the lines of the CPUs is not looked at. *)
Theorem proc_stat_roundtrip junk tot cores rest :
  counters_ok tot -> Forall counters_ok cores -> (length cores <= 256)%nat ->
  starts_with (str "cpu") rest = false ->
  _read_cpu_stats (Some (proc_stat_text tot cores rest)) junk =
  Ret (Some (mk_snapshot tot.1 (map fst cores ++ replicate (256 - length cores) cpu_zero)
               (Z.of_nat (length cores)) true)).
Proof.
  intros Ht Hc Hn Hr. unfold _read_cpu_stats, proc_stat_text.
  rewrite fgets_all_app.
  2:{ apply Forall_cons_2; [apply cpu_line_short; [done|constructor|simpl; lia..|by apply (bool_decide_eq_true_1 _)]|].
      unfold core_lines. apply Forall_lookup_2. intros i l Hl. rewrite list_lookup_imap in Hl.
      destruct (cores !! i) as [c|] eqn:E; [|done]. injection Hl as <-. pose proof (lookup_lt_Some _ _ _ E).
      apply cpu_line_short; [by eapply Forall_lookup_1|apply dec_all_digits; lia| |simpl; lia|set_solver].
      etrans; [apply (dec_length _ 3); lia|lia]. }
  cbn [map app]. rewrite stat_line_read; [|done|constructor|simpl; lia|by repeat constructor|by apply (bool_decide_eq_true_1 _)].
  rewrite bool_decide_true by done.
  pose proof (core_lines_read junk 1 0 cores (fgets_all 256 rest) tot.1 [] false ltac:(lia) Hc eq_refl) as E.
  cbn [app] in E. change (Z.of_nat 0 - 1) with (-1) in E. unfold set_total, snapshot_zero.
  cbn [total per_core core_count valid]. change (Z.to_nat MAX_CPUS) with (256 - 0)%nat. rewrite E.
  - cbn [mbind outcome_bind total per_core]. rewrite Nat.sub_0_r, Nat.add_0_l. do 3 f_equal. case_goal; breflect; lia.
  - intros l Hl. destruct (fgets_all 256 rest) as [|l' ls] eqn:F; [done|]. injection Hl as ->.
    apply fgets_head_prefix in F. apply not_true_iff_false. intros S. apply not_true_iff_false in Hr. apply Hr.
    apply (starts_with_prefix _ (c_str l)); [done|]. etrans; [apply c_str_prefix|done].
Qed.

Lemma proc_stat_roundtrip_witness :
  let s := mk_cpu 1 2 3 4 5 6 7 18446744073709551615 in
  counters_ok (s, (0, 9)) /\
  proc_stat_text (s, (0, 9)) [(s, (0, 0))] (str "intr 5") =
    str "cpu  1 2 3 4 5 6 7 18446744073709551615 0 9" ++ [LF] ++
    str "cpu0 1 2 3 4 5 6 7 18446744073709551615 0 0" ++ [LF] ++ str "intr 5" /\
  _read_cpu_stats (Some (proc_stat_text (s, (0, 9)) [(s, (0, 0))] (str "intr 5"))) (fun _ _ => 0) =
  Ret (Some (mk_snapshot s (s :: replicate 255 cpu_zero) 1 true)).
Proof.
  cbv zeta. set (s := mk_cpu 1 2 3 4 5 6 7 18446744073709551615).
  assert (forall a b, u64 a -> u64 b -> counters_ok (s, (a, b))) as C.
  { intros a b Ha Hb. split; [|done]. unfold stats_ok, u64. repeat apply Forall_cons_2; try (simpl; lia). constructor. }
  split_and!; [apply C; unfold u64; lia|vm_compute; reflexivity|].
  apply (proc_stat_roundtrip (fun _ _ => 0) (s, (0, 9)) [(s, (0, 0))] (str "intr 5"));
    [apply C; unfold u64; lia|apply Forall_singleton, C; unfold u64; lia|simpl; lia|reflexivity].
Defined.

(** ** Memory *)

(** A line of /proc/meminfo. *)
Definition mem_line (name pad : list ascii) (kb : Z) : list ascii :=
  name ++ str ":" ++ pad ++ dec kb ++ str " kB".

(** A line of another field, that fits the buffer. *)
Definition other_line (l : list ascii) : Prop :=
  starts_with (str "MemTotal:") l = false /\ starts_with (str "MemAvailable:") l = false /\
  (LF ∉ l) /\ (NUL ∉ l) /\ strlen l < 127.

Lemma scan_kb_line name pad kb t : blank pad -> 0 <= kb < 2 ^ 64 ->
  scan_kb name (mem_line name pad kb ++ t) = Some kb.
Proof.
  intros Hp Hk. unfold scan_kb, mem_line. rewrite !(assoc_L (++)), <- !(assoc_L (++)).
  rewrite (assoc_L (++) name), scan_lit_app. cbn [mbind option_bind].
  rewrite scan_llu_dec; [done..|by intros c [= <-]].
Qed.

Lemma scan_kb_other name l t : starts_with (name ++ str ":") l = false -> LF ∉ name ++ str ":" -> 
  scan_kb name (l ++ LF :: t) = None.
Proof.
  intros H N. unfold scan_kb, scan_lit. assert (starts_with (name ++ str ":") (l ++ LF :: t) = false) as ->; [|done].
  revert l H N. generalize (name ++ str ":"). intros p. induction p as [|c p IH]; [done|]. intros l H [Nc Np]%not_elem_of_cons.
  destruct l as [|d l].
  - change (bool_decide (c = LF) && starts_with p t = false). by rewrite bool_decide_false by congruence.
  - change (bool_decide (c = d) && starts_with p (l ++ LF :: t) = false).
    change (bool_decide (c = d) && starts_with p l = false) in H.
    destruct (bool_decide (c = d)); [|done]. by apply IH.
Qed.

(** Lines of other fields change nothing. *)
Lemma meminfo_skip pre lines tot avail : Forall other_line pre -> tot = 0 \/ avail = 0 ->
  meminfo_lines (map (fun l => l ++ [LF]) pre ++ lines) tot avail = meminfo_lines lines tot avail.
Proof.
  intros Hp Hz. induction Hp as [|l pre (A & B & C & D & E) _ IH]; [done|]. cbn [map app meminfo_lines].
  rewrite no_nul_line by done. rewrite !scan_kb_other by (done || by apply (bool_decide_eq_true_1 _)).
  replace (negb (tot =? 0) && negb (avail =? 0)) with false; [done|].
  symmetry. destruct Hz as [-> | ->]; [done|]. by rewrite andb_false_r.
Qed.

Definition meminfo_text (pre mid : list (list ascii)) (pad1 pad2 : list ascii) (tot avail : Z) (rest : list ascii) :
    list ascii :=
  concat (map (fun l => l ++ [LF])
    (pre ++ [mem_line (str "MemTotal") pad1 tot] ++ mid ++ [mem_line (str "MemAvailable") pad2 avail])) ++ rest.

(** The name of a field, blanks and the number of a line that fits. *)
Lemma mem_line_short name pad kb : (length name <= 20)%nat -> (length pad <= 40)%nat -> 0 <= kb < 2 ^ 64 ->
  LF ∉ name ++ pad -> NUL ∉ name ++ pad ->
  (LF ∉ mem_line name pad kb) /\ (NUL ∉ mem_line name pad kb) /\ strlen (mem_line name pad kb) < 128 - 1.
Proof.
  intros Hn Hp Hk NL NN. unfold mem_line. rewrite !not_elem_of_app in *.
  destruct NL as [L1 L2], NN as [N1 N2]. destruct (dec_no_lf kb ltac:(lia)) as [L3 N3].
  pose proof (dec_length kb 20 ltac:(lia) ltac:(lia)).
  split_and!; try done; try (by apply (bool_decide_eq_true_1 _)).
  unfold strlen. rewrite !length_app. change (length (str ":")) with 1%nat. change (length (str " kB")) with 3%nat. lia.
Qed.

Definition pad_ok (pad : list ascii) : Prop := blank pad /\ (LF ∉ pad) /\ (length pad <= 40)%nat.

(** The memory of /proc/meminfo is read for what it is, wherever the two
    fields are among the others, and the memory in use is their difference
    (zero when the kernel announces more available than there is). *)
Theorem meminfo_read pre mid pad1 pad2 tot avail rest :
  Forall other_line pre -> Forall other_line mid -> pad_ok pad1 -> pad_ok pad2 ->
  0 < tot < 2 ^ 54 -> 0 < avail < 2 ^ 54 ->
  _read_meminfo (Some (meminfo_text pre mid pad1 pad2 tot avail rest)) =
  (true, Some (tot * 1024, avail * 1024, Z.max 0 (tot - avail) * 1024)).
Proof.
  intros Hp Hm (B1 & L1 & P1) (B2 & L2 & P2) Ht Ha.
  assert (forall pad, blank pad -> NUL ∉ pad) as NB.
  { intros pad Hb H. unfold blank in Hb. rewrite Forall_forall in Hb. by apply Hb in H. }
  destruct (mem_line_short (str "MemTotal") pad1 tot) as (E1 & E2 & E3);
    [simpl; lia|done|lia|rewrite not_elem_of_app; split; [by apply (bool_decide_eq_true_1 _)|by auto]..|].
  destruct (mem_line_short (str "MemAvailable") pad2 avail) as (F1 & F2 & F3);
    [simpl; lia|done|lia|rewrite not_elem_of_app; split; [by apply (bool_decide_eq_true_1 _)|by auto]..|].
  assert (forall ls, Forall other_line ls -> Forall (fun l => (LF ∉ l) /\ strlen l < 128 - 1) ls) as W.
  { intros ls H. eapply Forall_impl; [exact H|]. intros l (_ & _ & ? & _ & ?). by split. }
  unfold _read_meminfo, meminfo_text. rewrite fgets_all_app
    by (apply Forall_app_2; [by auto|]; apply Forall_cons_2; [done|]; apply Forall_app_2; [by auto|];
        by apply Forall_singleton).
  rewrite !map_app, <- !(assoc_L (++)). rewrite meminfo_skip by auto. cbn [map app meminfo_lines].
  rewrite no_nul_line, scan_kb_line, wrap_u64_id by (done || lia). rewrite andb_false_r.
  rewrite meminfo_skip by auto. cbn [map app meminfo_lines].
  assert (scan_kb (str "MemTotal") (c_str (mem_line (str "MemAvailable") pad2 avail ++ [LF])) = None) as ->.
  { rewrite no_nul_line by done. done. }
  rewrite no_nul_line, scan_kb_line, (wrap_u64_id (avail * 1024)) by (done || lia).
  assert ((tot * 1024 =? 0) = false) as -> by lia. assert ((avail * 1024 =? 0) = false) as -> by lia. cbn [negb andb].
  assert ((0 <? tot * 1024) = true) as -> by lia. do 3 f_equal. case_goal; breflect; lia.
Qed.

Lemma meminfo_read_witness :
  pad_ok (str "       ") /\ other_line (str "MemFree:          100 kB") /\
  _read_meminfo (Some (meminfo_text [] [str "MemFree:          100 kB"] (str "       ") (str "    ") 16000 12000 []))
  = (true, Some (16000 * 1024, 12000 * 1024, Z.max 0 (16000 - 12000) * 1024)).
Proof.
  assert (pad_ok (str "       ")) as P1 by (split_and!; [by repeat constructor|by apply (bool_decide_eq_true_1 _)|simpl; lia]).
  assert (pad_ok (str "    ")) as P2 by (split_and!; [by repeat constructor|by apply (bool_decide_eq_true_1 _)|simpl; lia]).
  assert (other_line (str "MemFree:          100 kB")) as O
    by (split_and!; try reflexivity; by apply (bool_decide_eq_true_1 _)).
  split_and!; [exact P1|exact O|].
  apply (meminfo_read [] [str "MemFree:          100 kB"] (str "       ") (str "    ") 16000 12000 []);
    [constructor|by apply Forall_singleton|exact P1|exact P2|lia..].
Defined.

(** ** Disks *)

(** Each [fscanf] that succeeds consumes input. *)
Lemma scan_mount_consumes s m t r : scan_mount s = Some (m, t, r) -> (length r < length s)%nat.
Proof.
  unfold scan_mount. intros ([] & A%scan_word_spec & H)%bind_Some. apply bind_Some in H as ([] & B%scan_word_spec & H).
  apply bind_Some in H as ([] & C%scan_word_spec & H). apply bind_Some in H as ([] & D%scan_word_spec & H).
  apply bind_Some in H as ([] & E%scan_d_length & H). apply bind_Some in H as ([] & F%scan_d_length & H).
  injection H as <- <- <-. lia.
Qed.

(** So the loop ends within one pass per character: more fuel changes nothing. *)
Lemma mounts_fuel n n' vfs s acc : (length s < n)%nat -> (length s < n')%nat ->
  mounts_loop n vfs s acc = mounts_loop n' vfs s acc.
Proof.
  revert n' s acc. induction n as [|n IH]; intros n' s acc Hn Hn'; [lia|]. destruct n' as [|n']; [lia|]. cbn [mounts_loop].
  destruct (scan_mount s) as [[[m t] r]|] eqn:E; [|done]. apply scan_mount_consumes in E. apply IH; lia.
Qed.

Lemma mounts_unfold vfs s acc :
  mounts_loop (S (length s)) vfs s acc =
  match scan_mount s with
  | Some (m, t, r) => mounts_loop (S (length r)) vfs r (add_mount vfs m t acc)
  | None => acc
  end.
Proof.
  destruct (scan_mount s) as [[[m t] r]|] eqn:E; cbn [mounts_loop]; rewrite E; [|done].
  apply scan_mount_consumes in E. apply (mounts_fuel _ (S (length r))); lia.
Qed.

(** An entry of /proc/mounts. *)
Record mount_entry : Type := mk_mount { mnt_device : list ascii; mnt_dir : list ascii; mnt_type : list ascii; mnt_opts : list ascii }.

Definition mount_line (m : mount_entry) : list ascii :=
  mnt_device m ++ str " " ++ mnt_dir m ++ str " " ++ mnt_type m ++ str " " ++ mnt_opts m ++ str " 0 0" ++ [LF].

Definition mounts_text (ms : list mount_entry) : list ascii := concat (map mount_line ms).

Definition field_ok (n : nat) (w : list ascii) : Prop := is_word w /\ (NUL ∉ w) /\ (length w <= n)%nat.

(** An entry whose fields fit the buffers. *)
Definition mount_ok (m : mount_entry) : Prop :=
  field_ok 255 (mnt_device m) /\ field_ok 255 (mnt_dir m) /\ field_ok 63 (mnt_type m) /\ field_ok 511 (mnt_opts m).

Lemma scan_mount_line m b t : blank b -> mount_ok m -> scan_mount (b ++ mount_line m ++ t) = Some (mnt_dir m, mnt_type m, LF :: t).
Proof.
  intros Hb ((Wd & Nd & Ld) & (Wm & Nm & Lm) & (Wt & Nt & Lt) & (Wo & No & Lo)).
  unfold scan_mount, mount_line. rewrite <- !(assoc_L (++)).
  assert (blank (str " ")) as Sp by by repeat constructor.
  assert (forall u, ends_word (str " " ++ u)) as Es by (intros u c [= <-]; reflexivity).
  assert (forall u, ends_word (str " 0 0" ++ u)) as Ez by (intros u c [= <-]; reflexivity).
  rewrite scan_word_app by done. cbn [mbind option_bind]. do 3 (rewrite scan_word_app by done; cbn [mbind option_bind]).
  rewrite !c_str_id by done. reflexivity.
Qed.

(** The file systems counted, with their block size and numbers of blocks. *)
Definition counted (vfs : list ascii -> option statvfs_t) (ms : list mount_entry) : list statvfs_t :=
  omap (fun m => if bool_decide (mnt_type m ∈ IGNORE_FS) then None else vfs (mnt_dir m)) ms.

Definition capacity (l : list statvfs_t) : Z := fold_right (fun st a => f_frsize st * f_blocks st + a) 0 l.
Definition occupied (l : list statvfs_t) : Z := fold_right (fun st a => f_frsize st * (f_blocks st - f_bfree st) + a) 0 l.

Definition vfs_ok (st : statvfs_t) : Prop := 0 <= f_frsize st /\ 0 <= f_bfree st <= f_blocks st /\ f_blocks st < 2 ^ 64.

Lemma capacity_bounds l : Forall vfs_ok l -> 0 <= occupied l <= capacity l.
Proof.
  unfold vfs_ok. induction 1 as [|st l (A & B & C) _ IH]; simpl; [lia|]. nia.
Qed.

Lemma wrap_add a b : wrap_u64 (wrap_u64 a + wrap_u64 b) = wrap_u64 (a + b).
Proof. unfold wrap_u64. by rewrite <- Zplus_mod. Qed.

Lemma wrap_mul_r a b : wrap_u64 (a * wrap_u64 b) = wrap_u64 (a * b).
Proof. unfold wrap_u64. by rewrite Zmult_mod_idemp_r. Qed.

(** The loop over well-formed entries, modulo [2 ^ 64]. *)
Lemma mounts_sum vfs ms : Forall mount_ok ms -> forall b t u, blank b ->
  mounts_loop (S (length (b ++ mounts_text ms))) vfs (b ++ mounts_text ms) (wrap_u64 t, wrap_u64 u) =
  (wrap_u64 (t + capacity (counted vfs ms)), wrap_u64 (u + occupied (counted vfs ms))).
Proof.
  induction 1 as [|m ms Hm _ IH]; intros b t u Hb; rewrite mounts_unfold.
  - unfold scan_mount, scan_word, mounts_text. cbn [map concat]. rewrite skip_space_blank by done. cbn.
    by rewrite !Z.add_0_r.
  - unfold mounts_text. cbn [map concat]. fold (mounts_text ms). rewrite scan_mount_line by done.
    assert (blank [LF]) as Hl by by repeat constructor.
    change (LF :: mounts_text ms) with ([LF] ++ mounts_text ms). unfold counted, add_mount. cbn [omap list_omap].
    destruct (bool_decide (mnt_type m ∈ IGNORE_FS)); [by apply IH|].
    destruct (vfs (mnt_dir m)) as [st|]; [|by apply IH]. cbn [fst snd].
    rewrite wrap_mul_r, !wrap_add, IH by done. cbn [capacity occupied fold_right]. by rewrite !Z.add_assoc.
Qed.

(** The disk usage is that of a reference sum over the mounted file
    systems of a real type that [statvfs] answers for, and never more than the
    capacity, as long as the sum fits 64 bits. *)
Theorem disk_usage_sum vfs ms :
  Forall mount_ok ms -> Forall vfs_ok (counted vfs ms) -> capacity (counted vfs ms) < 2 ^ 64 ->
  _read_disk_usage (Some (mounts_text ms)) vfs = Some (capacity (counted vfs ms), occupied (counted vfs ms)) /\
  0 <= occupied (counted vfs ms) <= capacity (counted vfs ms).
Proof.
  intros Hm Hv Hc. pose proof (capacity_bounds _ Hv) as Hb. split; [|done].
  unfold _read_disk_usage. cbn [mbind option_bind].
  pose proof (mounts_sum vfs ms Hm [] 0 0 ltac:(constructor)) as E. cbn [app] in E.
  change (wrap_u64 0) with 0 in E. by rewrite E, !Z.add_0_l, !wrap_u64_id by lia.
Qed.

Definition sample_mounts : list mount_entry :=
  [mk_mount (str "sysfs") (str "/sys") (str "sysfs") (str "rw");
   mk_mount (str "/dev/sda1") (str "/") (str "ext4") (str "rw,relatime");
   mk_mount (str "/dev/sdb1") (str "/data") (str "xfs") (str "rw")].

Definition sample_vfs (dir : list ascii) : option statvfs_t :=
  if streq dir (str "/") then Some (mk_statvfs 4096 1000 400)
  else if streq dir (str "/data") then Some (mk_statvfs 512 10 10) else None.

Lemma disk_usage_sum_witness :
  Forall mount_ok sample_mounts /\
  _read_disk_usage (Some (mounts_text sample_mounts)) sample_vfs = Some (4096 * 1000 + 512 * 10, 4096 * 600).
Proof.
  assert (Forall mount_ok sample_mounts) as Hm.
  { unfold sample_mounts, mount_ok, field_ok, is_word. repeat apply Forall_cons_2; try constructor.
    all: split_and!; try done; try (simpl; lia); try (by repeat constructor); by apply (bool_decide_eq_true_1 _). }
  split; [exact Hm|].
  apply (disk_usage_sum sample_vfs sample_mounts Hm); [|reflexivity].
  vm_compute counted. repeat apply Forall_cons_2; try constructor; unfold vfs_ok; simpl; lia.
Defined.

(** An entry whose options are longer than the buffer (as those of container
    file systems are) ends the scan: what is mounted after it is not counted. *)
Theorem long_options_end_scan :
  let long := mk_mount (str "overlay") (str "/merged") (str "overlay") (str "lowerdir=" ++ replicate 600 "a"%char) in
  _read_disk_usage (Some (mounts_text (long :: sample_mounts))) sample_vfs = Some (0, 0).
Proof. vm_compute. reflexivity. Qed.

(** ** Collections *)

Definition metrics_ok (m : leo_metrics_t) : Prop :=
  Forall u64 [ram_total_bytes m; ram_used_bytes m; ram_available_bytes m; disk_total_bytes m; disk_used_bytes m;
              net_bytes_in m; net_bytes_out m; timestamp_ms m] /\
  0 <= process_count m < 2 ^ 32 /\ ram_used_bytes m <= ram_total_bytes m /\
  0 <= cpu_core_count m <= LEO_MAX_CPU_CORES /\ Z.of_nat (length (cpu_per_core m)) = cpu_core_count m.

Lemma meminfo_lines_range lines t a : u64 t -> u64 a ->
  u64 (meminfo_lines lines t a).1 /\ u64 (meminfo_lines lines t a).2.
Proof.
  revert t a. induction lines as [|l lines IH]; intros t a Ht Ha; [done|]. cbn [meminfo_lines].
  destruct (scan_kb (str "MemTotal") _); [|destruct (scan_kb _ _)]; destruct (_ && _);
    solve [split; done || apply wrap_u64_range | apply IH; done || apply wrap_u64_range].
Qed.

Lemma read_meminfo_range file t a u : (_read_meminfo file).2 = Some (t, a, u) -> u64 t /\ u64 a /\ u64 u /\ u <= t.
Proof.
  unfold _read_meminfo. destruct file as [text|]; [|done].
  destruct (meminfo_lines_range (fgets_all 128 text) 0 0) as [A B]; [unfold u64; lia..|].
  destruct (meminfo_lines _ _ _) as [t' a']. cbn [fst snd] in *. intros [= -> -> <-]. unfold u64 in *.
  destruct (Z.ltb_spec a t); split_and!; lia.
Qed.

Lemma mounts_loop_range n vfs s acc : u64 acc.1 -> u64 acc.2 ->
  u64 (mounts_loop n vfs s acc).1 /\ u64 (mounts_loop n vfs s acc).2.
Proof.
  revert s acc. induction n as [|n IH]; intros s acc A B; [done|]. cbn [mounts_loop].
  destruct (scan_mount s) as [[[m t] r]|]; [|done]. unfold add_mount.
  apply IH; destruct (bool_decide _); try done; destruct (vfs m); try done; apply wrap_u64_range.
Qed.

Lemma add_net_range acc l : u64 acc.1 -> u64 acc.2 -> u64 (add_net acc l).1 /\ u64 (add_net acc l).2.
Proof.
  intros A B. unfold add_net. destruct (scan_net _) as [[i ns]|]; [|done]. destruct (streq _ _); [done|].
  split; apply wrap_u64_range.
Qed.

Lemma net_stats_range ls : forall acc, u64 acc.1 -> u64 acc.2 ->
  u64 (fold_left add_net ls acc).1 /\ u64 (fold_left add_net ls acc).2.
Proof.
  induction ls as [|l ls IH]; intros acc A B; [done|]. apply IH; by apply add_net_range.
Qed.

Lemma process_count_range `{CLib} file : 0 <= _read_process_count file < 2 ^ 32.
Proof.
  unfold _read_process_count. destruct (_ ≫= _) as [n|] eqn:E; [|simpl; lia]. cbn [default].
  apply bind_Some in E as (text & _ & E). do 3 (apply bind_Some in E as (? & _ & E)).
  apply bind_Some in E as ([] & _ & E). apply bind_Some in E as (? & _ & E).
  apply bind_Some in E as ([] & R%scan_u_range & E). by injection E as <-.
Qed.

Lemma collect_total `{CLib} prev e :
  snapshot_ok prev ->
  exists next m, leo_metrics_collect prev e = Ret (next, (LEO_OK, m)) /\ metrics_ok m /\ snapshot_ok next.
Proof.
  intros Hp. destruct (collect_cores prev e Hp) as (next & cpu & cores & n & C0 & C1 & C2 & C3 & _).
  unfold leo_metrics_collect. rewrite C0. cbn [mbind outcome_bind].
  assert (u64 0) as Z0 by (unfold u64; lia).
  assert (exists t a u, default (0, 0, 0) (_read_meminfo (proc_meminfo e)).2 = (t, a, u) /\
    u64 t /\ u64 a /\ u64 u /\ u <= t) as (t & a & u & -> & Ht & Ha & Hu & Hle).
  { destruct ((_read_meminfo _).2) as [[[t a] u]|] eqn:E; [apply read_meminfo_range in E; by eexists _, _, _|].
    by exists 0, 0, 0. }
  assert (exists dt du, default (0, 0) (_read_disk_usage (proc_mounts e) (statvfs e)) = (dt, du) /\ u64 dt /\ u64 du)
    as (dt & du & -> & Hdt & Hdu).
  { unfold _read_disk_usage. destruct (proc_mounts e) as [text|]; [|by exists 0, 0]. cbn [mbind option_bind default].
    destruct (mounts_loop_range (S (length text)) (statvfs e) text (0, 0) Z0 Z0). by destruct (mounts_loop _ _ _ _); eexists _, _. }
  assert (exists rx tx, default (0, 0) (_read_net_stats (proc_net_dev e)) = (rx, tx) /\ u64 rx /\ u64 tx)
    as (rx & tx & -> & Hrx & Htx).
  { unfold _read_net_stats. destruct (proc_net_dev e) as [text|]; [|by exists 0, 0]. cbn [mbind option_bind default].
    destruct (net_stats_range (drop 2 (fgets_all 512 text)) (0, 0) Z0 Z0). by destruct (fold_left _ _ _); eexists _, _. }
  eexists _, _. split; [reflexivity|]. split; [|done]. unfold metrics_ok. cbn.
  pose proof (process_count_range (proc_loadavg e)). pose proof (wrap_u64_range (wrap_u64 (wrap_u64 (clock e).1 * 1000) + wrap_u64 (clock e).2 `div` 1000000)).
  split_and!; try lia. repeat apply Forall_cons_2; try done.
Qed.


Definition sample_proc : proc_env := {|
  clock := (1700000000, 5000000);
  proc_stat := Some (str "cpu  10 0 5 80 5 0 0 0 0 0" ++ [LF] ++ str "cpu0 10 0 5 80 5 0 0 0 0 0" ++ [LF] ++ str "intr 1");
  indet _ _ := 0;
  proc_meminfo := Some (str "MemTotal:       2000 kB" ++ [LF] ++ str "MemAvailable:   1500 kB" ++ [LF]);
  proc_mounts := Some (mounts_text sample_mounts);
  statvfs := sample_vfs;
  proc_net_dev := Some (str "Inter" ++ [LF] ++ str " face" ++ [LF] ++ str "    lo: 7 1 0 0 0 0 0 0 7 1" ++ [LF] ++
                        str "  eth0: 500 4 0 0 0 0 0 0 300 2" ++ [LF]);
  proc_loadavg := Some (str "0 0 0 2/137 4242" ++ [LF]);
|}.

Lemma snapshot_zero_ok : snapshot_ok snapshot_zero.
Proof. split; [reflexivity|simpl; lia]. Qed.

(** The second of two collections, on a machine whose /proc/stat has more cores
    than the arrays. *)
Definition many_cores : list (cpu_stats_t * (Z * Z)) := replicate 300 (mk_cpu 30 0 5 160 5 0 0 0, (0, 0)).

Definition crowded_proc : proc_env := {|
  clock := clock sample_proc;
  proc_stat := Some (proc_stat_text (mk_cpu 30 0 5 160 5 0 0 0, (0, 0)) many_cores (str "intr 1"));
  indet := indet sample_proc;
  proc_meminfo := proc_meminfo sample_proc;
  proc_mounts := proc_mounts sample_proc;
  statvfs := sample_vfs;
  proc_net_dev := proc_net_dev sample_proc;
  proc_loadavg := proc_loadavg sample_proc;
|}.

Definition sample_snapshot : cpu_snapshot_t :=
  mk_snapshot (mk_cpu 10 0 5 80 5 0 0 0) (mk_cpu 10 0 5 80 5 0 0 0 :: replicate 255 cpu_zero) 1 true.

Definition crowded_metrics : outcome (Z * Z * Z) :=
  '(_, (_, m)) ← @leo_metrics_collect decimal_lib sample_snapshot crowded_proc;
  Ret (cpu_core_count m, net_bytes_in m, process_count m).


(** When /proc/stat could not be read at [leo_metrics_init], no later
    collection measures the CPU, whatever it reads: the snapshot that would
    start the measures is only kept when the previous one was valid. *)
Theorem cpu_never_measured `{CLib} e0 es e :
  proc_stat e0 = None ->
  exists s0 s next m, leo_metrics_init snapshot_zero e0 = Ret (s0, LEO_OK) /\ collect_all s0 es = Ret s /\
    leo_metrics_collect s e = Ret (next, (LEO_OK, m)) /\ valid s = false /\ cpu_total_percent m = DFin 0 0.
Proof.
  intros H0. exists snapshot_zero.
  assert (forall e, exists m, leo_metrics_collect snapshot_zero e = Ret (snapshot_zero, (LEO_OK, m)) /\
    cpu_total_percent m = DFin 0 0) as Hc.
  { intros e'. destruct (collect_cores snapshot_zero e' snapshot_zero_ok) as (next & cpu & cores & n & E & _ & _ & _ & Hv).
    destruct (Hv eq_refl) as [-> ->]. unfold leo_metrics_collect. rewrite E. cbn [mbind outcome_bind].
    repeat case_goal. by eexists. }
  assert (collect_all snapshot_zero es = Ret snapshot_zero) as Ha.
  { induction es as [|e' es IH]; [done|]. cbn. destruct (Hc e') as (m & -> & _). exact IH. }
  destruct (Hc e) as (m & E & Hm). exists snapshot_zero, snapshot_zero, m. unfold leo_metrics_init, _read_cpu_stats. rewrite H0.
  by split_and!.
Qed.

(** ** Sending them *)

Section sending.
Context `{CLibLaws}.

(** [%1.17g] of any number fits the 25 characters cJSON keeps for it. *)
Hypothesis fmt_g_short : forall d, strlen (fmt_g d) <= 25.

Lemma print_number_total d : exists u, print_number d = Some u /\ strlen u <= 25.
Proof.
  unfold print_number.
  assert (forall t, strlen t <= 25 -> exists u, (if strlen t <=? 25 then Some t else None) = Some u /\ strlen u <= 25) as K.
  { intros t Ht. exists t. by apply Z.leb_le in Ht as E; rewrite E. }
  apply K. destruct d as [|?|m e]; [done|done|]. destruct (deq_int _ _); [|by apply fmt_g_short].
  pose proof (fmt_d_length (valueint (DFin m e))). lia.
Qed.

(** Elements that print within [n] characters. *)
Lemma print_elements_total n l : Forall (fun v => exists u, print_value v = Some u /\ strlen u <= n) l ->
  exists u, print_elements print_value l = Some u /\ strlen u <= (n + 1) * Z.of_nat (length l).
Proof.
  induction 1 as [|v l (u & Eu & Lu) _ (r & Er & Lr)]; [exists []; split; [done|change (strlen []) with 0; cbn [length]; lia]|]. destruct l as [|w l].
  - exists u. split; [done|cbn [length]; lia].
  - exists (u ++ str "," ++ r). change (print_elements print_value (v :: w :: l)) with
      (t ← print_value v; r ← print_elements print_value (w :: l); Some (t ++ str "," ++ r)).
    rewrite Eu, Er. split; [done|]. rewrite !strlen_app. change (strlen (str ",")) with 1. cbn [length] in *. lia.
Qed.

Lemma add_numbers l l' : fold_left cJSON_AddItemToArray l (JArray l') = JArray (l' ++ l).
Proof.
  revert l'. induction l as [|x l IH]; intros l'; [by rewrite app_nil_r|]. cbn. rewrite IH, <- (assoc_L (++)). done.
Qed.

(** Members that print within given lengths. *)
Lemma print_members_total l bs :
  Forall2 (fun kv b => exists u, print_value kv.2 = Some u /\ strlen u <= b) l bs ->
  exists u, print_members print_value l = Some u /\
  strlen u <= fold_right Z.add 0 bs + fold_right (fun kv a => strlen (print_string_ptr kv.1) + 2 + a) 0 l.
Proof.
  induction 1 as [|[k v] b l bs (u & Eu & Lu) _ (r & Er & Lr)]; [by exists []|]. cbn [fst snd] in Eu.
  destruct l as [|kv l].
  - exists (print_string_ptr k ++ str ":" ++ u). cbn -[print_string_ptr str strlen]. rewrite Eu. split; [done|].
    rewrite !strlen_app. change (strlen (str ":")) with 1. destruct bs; cbn in *; [lia|].
    pose proof (strlen_nonneg r). lia.
  - exists (print_string_ptr k ++ str ":" ++ u ++ str "," ++ r).
    change (print_members print_value ((k, v) :: kv :: l)) with
      (t ← print_value v; r ← print_members print_value (kv :: l); Some (print_string_ptr k ++ str ":" ++ t ++ str "," ++ r)).
    rewrite Eu, Er. split; [done|]. rewrite !strlen_app. change (strlen (str ":")) with 1. change (strlen (str ",")) with 1.
    cbn [fold_right fst] in *. lia.
Qed.

Definition metrics_body (m : leo_metrics_t) : cJSON :=
  JObject [(str "cpu_percent", JNumber (cpu_total_percent m));
    (str "ram_total_bytes", JNumber (d_of_Z (ram_total_bytes m)));
    (str "ram_used_bytes", JNumber (d_of_Z (ram_used_bytes m)));
    (str "ram_available_bytes", JNumber (d_of_Z (ram_available_bytes m)));
    (str "disk_total_bytes", JNumber (d_of_Z (disk_total_bytes m)));
    (str "disk_used_bytes", JNumber (d_of_Z (disk_used_bytes m)));
    (str "net_bytes_in", JNumber (d_of_Z (net_bytes_in m)));
    (str "net_bytes_out", JNumber (d_of_Z (net_bytes_out m)));
    (str "process_count", JNumber (d_of_Z (process_count m)));
    (str "cpu_per_core", JArray (map JNumber (take (Z.to_nat (Z.min (cpu_core_count m) LEO_MAX_CPU_CORES)) (cpu_per_core m))))].

(** The message of any collection fits its buffer. *)
Lemma metrics_fit e m : env_sane e = true -> body_ok e = true -> root_ok e = true ->
  exists txt, leo_proto_build_metrics e m LEO_MAX_MSG_SIZE = Some txt /\ 0 < strlen txt < LEO_MAX_MSG_SIZE.
Proof.
  intros He Hb Hr.
  set (cores := take (Z.to_nat (Z.min (cpu_core_count m) LEO_MAX_CPU_CORES)) (cpu_per_core m)).
  assert (Z.of_nat (length cores) <= 256) as Lc by (unfold cores, LEO_MAX_CPU_CORES; rewrite length_take; lia).
  assert (forall d, exists u, print_value (JNumber d) = Some u /\ strlen u <= 25) as P by apply print_number_total.
  destruct (print_members_total (match metrics_body m with JObject l => l | _ => [] end)
    [25; 25; 25; 25; 25; 25; 25; 25; 25; 6660]) as (u & Eu & Lu).
  { cbn [metrics_body]. repeat apply Forall2_cons_2; [apply P..| |constructor]. fold cores.
    destruct (print_elements_total 25 (map JNumber cores)) as (u & Eu & Lu);
      [apply Forall_map, Forall_true; intros; apply P|]. rewrite length_map in Lu. exists (str "[" ++ u ++ str "]"). cbn [snd print_value].
    rewrite Eu. split; [done|]. rewrite !strlen_app. change (strlen (str "[")) with 1. change (strlen (str "]")) with 1. lia. }
  assert (print_value (metrics_body m) = Some (str "{" ++ u ++ str "}")) as Ev by (unfold metrics_body in *; cbn [print_value]; by rewrite Eu).
  destruct (envelope_length e LEO_MSG_METRICS _ _ He Ev) as (txt & Et & Lt). exists txt.
  rewrite !strlen_app in Lt. change (strlen (str "{")) with 1 in Lt. change (strlen (str "}")) with 1 in Lt.
  assert (strlen u <= 7200) as Lu' by (etrans; [exact Lu|]; apply Z.leb_le; vm_compute; reflexivity).
  unfold leo_proto_build_metrics. rewrite Hb. cbn [negb]. rewrite add_numbers. fold cores.
  change (cJSON_AddItemToObject _ _ _) with (metrics_body m).
  unfold _serialize. rewrite Hr. cbn [negb]. rewrite Et. unfold LEO_MAX_MSG_SIZE.
  destruct (Z.leb_spec 65536 (strlen txt)); [lia|]. split; [done|]. split; [|done].
  unfold cJSON_PrintUnformatted, envelope in Et. destruct txt; [|unfold strlen; simpl; lia].
  exfalso. apply bind_Some in Et as (? & _ & [=]).
Qed.

(** A connected agent sends the metrics of every collection: whatever was
    measured, the message fits the buffer and is handed to the connection. *)
Theorem metrics_sent ag m e :
  threads_stop ag = false -> leo_conn_is_connected (Some (ag_conn ag)) = true ->
  env_sane e = true -> body_ok e = true -> root_ok e = true ->
  exists txt, leo_proto_build_metrics e m LEO_MAX_MSG_SIZE = Some txt /\
  _metrics_thread ag (LEO_OK, m) e = Some (set_conn ag (leo_conn_send (ag_conn ag) txt).2).
Proof.
  intros Hs Hc He Hb Hr. destruct (metrics_fit e m He Hb Hr) as (txt & Et & Lt).
  exists txt. split; [done|]. unfold _metrics_thread. rewrite Hs, Hc. cbn [negb fst snd]. rewrite bool_decide_true by done.
  cbn [negb]. rewrite Et. unfold send_built. assert ((0 <? strlen txt) = true) as -> by lia. done.
Qed.

End sending.

Lemma decimal_short d : strlen (@fmt_g decimal_lib d) <= 25.
Proof. destruct d as [|?|m e]; [done|done|]. cbn [fmt_g decimal_lib].
  pose proof (fmt_d_length (m * 2 ^ e)). pose proof (fmt_d_length (Z.quot m 2)).
  destruct (_ && _); [|lia]. rewrite strlen_app. change (strlen (str ".5")) with 2. lia.
Qed.

Lemma metrics_sent_witness :
  leo_conn_is_connected (Some (ag_conn connected_agent)) = true /\
  exists next m txt,
    @leo_metrics_collect decimal_lib snapshot_zero sample_proc = Ret (next, (LEO_OK, m)) /\
    @leo_proto_build_metrics decimal_lib sample_env m LEO_MAX_MSG_SIZE = Some txt /\
    @_metrics_thread decimal_lib connected_agent (LEO_OK, m) sample_env =
    Some (set_conn connected_agent (leo_conn_send (ag_conn connected_agent) txt).2).
Proof.
  split; [reflexivity|].
  destruct (@collect_total decimal_lib snapshot_zero sample_proc snapshot_zero_ok) as (next & m & E & _).
  destruct (@metrics_sent decimal_lib decimal_lib_laws decimal_short connected_agent m sample_env) as (txt & E1 & E2);
    try reflexivity. by exists next, m, txt.
Defined.
