(* ===== verification/Inventory.v ===== *)
(** Hardware and software inventories: [platform/linux/inventory_linux.c], and
    what becomes of them in [_inventory_thread].

    The files of /proc and /sys, the names [readdir] lists and the output of
    [dpkg-query] are inputs, [None] when they cannot be opened.  The structure
    [leo_inventory_collect_hw] fills starts cleared, so that a source that is
    missing leaves its field empty or zero. *)
From S2P Require Import Prelude CString Scan Double Types Json JsonParse Protocol Connection Exec Metrics.

Definition LEO_INVENTORY_MAX_SOCKETS : Z := 16.

Record hw_env : Type := {
  nprocessors : Z;                      (* sysconf (_SC_NPROCESSORS_ONLN) *)
  cpuinfo : option (list ascii);
  meminfo : option (list ascii);
  sys_block : option (list (list ascii));
  dmi : list ascii -> option (list ascii);
}.

(** The blanks after the colon. *)
Fixpoint skip_blanks (s : list ascii) : list ascii :=
  match s with
  | c :: s' => if (code c =? 32) || (code c =? 9) then skip_blanks s' else s
  | [] => []
  end.

(** What the loop over /proc/cpuinfo keeps. *)
Record cpu_scan : Type := mk_scan {
  scan_model : option (list ascii);
  seen_physical_ids : list Z;
  cores_per_socket : Z;
}.

Definition cpuinfo_line (st : cpu_scan) (l : list ascii) : cpu_scan :=
  let line := c_str l in
  match strchr line ":"%char with
  | None => st
  | Some colon =>
      let value := strip_eol (skip_blanks (drop (S colon) line)) in
      if bool_decide (scan_model st = None) && starts_with (str "model name") line
      then mk_scan (Some (fit 128 value)) (seen_physical_ids st) (cores_per_socket st)
      else if starts_with (str "physical id") line
      then
        let pid := atoi value in
        let known := bool_decide (pid ∈ seen_physical_ids st) in
        if negb known && (Z.of_nat (length (seen_physical_ids st)) <? LEO_INVENTORY_MAX_SOCKETS)
        then mk_scan (scan_model st) (seen_physical_ids st ++ [pid]) (cores_per_socket st)
        else st
      else if starts_with (str "cpu cores") line
      then mk_scan (scan_model st) (seen_physical_ids st) (atoi value)
      else st
  end.

(** [cpu_model], [cpu_cores] and [cpu_threads]; the product of the numbers of
    sockets and cores is a signed multiplication. *)
Definition _read_cpuinfo (e : hw_env) : outcome (list ascii * Z * Z) :=
  let threads := wrap_s32 (nprocessors e) in
  let threads := if threads <? 0 then 0 else threads in
  match cpuinfo e with
  | None => Ret ([], 0, threads)
  | Some text =>
      let st := fold_left cpuinfo_line (fgets_all 256 text) (mk_scan None [] 0) in
      let model := default [] (scan_model st) in
      let socket_count := Z.of_nat (length (seen_physical_ids st)) in
      if (0 <? socket_count) && (0 <? cores_per_socket st) then
        let cores := socket_count * cores_per_socket st in
        if cores <=? INT_MAX then Ret (model, cores, threads) else Undef
      else Ret (model, 0, threads)
  end.

Fixpoint ram_lines (lines : list (list ascii)) : Z :=
  match lines with
  | [] => 0
  | l :: lines' =>
      match scan_kb (str "MemTotal") (c_str l) with
      | Some kb => wrap_u64 (kb * 1024)
      | None => ram_lines lines'
      end
  end.

Definition _read_ram_total (file : option (list ascii)) : Z :=
  match file with Some text => ram_lines (fgets_all 128 text) | None => 0 end.

(** The entries that count as disks. *)
Definition is_disk (name : list ascii) : bool :=
  negb (starts_with (str ".") name) && negb (starts_with (str "loop") name) &&
  negb (starts_with (str "ram") name) && negb (starts_with (str "sr") name).

Definition _read_disk_count (dir : option (list (list ascii))) : Z :=
  match dir with
  | Some names => Z.of_nat (length (List.filter is_disk names))
  | None => 0
  end.

Definition _read_dmi_field (file : option (list ascii)) (out_sz : Z) : list ascii :=
  match file with
  | None => []
  | Some text =>
      match fgets_all out_sz text with
      | l :: _ => strip_eol (c_str l)
      | [] => []
      end
  end.

Definition leo_inventory_collect_hw (e : hw_env) : outcome (leo_error_t * leo_hw_inventory_t) :=
  '(model, cores, threads) ← _read_cpuinfo e;
  Ret (LEO_OK, mk_hw model cores threads (_read_ram_total (meminfo e)) (_read_disk_count (sys_block e))
    (_read_dmi_field (dmi e (str "/sys/class/dmi/id/bios_version")) 64)
    (_read_dmi_field (dmi e (str "/sys/class/dmi/id/bios_vendor")) 64)
    (_read_dmi_field (dmi e (str "/sys/class/dmi/id/board_name")) 128)
    (_read_dmi_field (dmi e (str "/sys/class/dmi/id/product_serial")) 128)).

(** One line of [dpkg-query], [None] when it has no tabulation. *)
Definition sw_line (l : list ascii) : option leo_sw_item_t :=
  let line := strip_eol (c_str l) in
  pkg_end ← strchr line TAB;
  let rest := drop (S pkg_end) line in
  let '(ver, pub) := match strchr rest TAB with
                     | Some ver_end => (take ver_end rest, drop (S ver_end) rest)
                     | None => (rest, [])
                     end in
  Some (mk_sw (fit 128 (take pkg_end line)) (fit 64 ver) (fit 128 pub) []).

Fixpoint sw_lines (room : nat) (lines : list (list ascii)) : list leo_sw_item_t :=
  match room, lines with
  | S room', l :: lines' =>
      match sw_line l with
      | Some item => item :: sw_lines room' lines'
      | None => sw_lines room lines'
      end
  | _, _ => []
  end.

(** The items stored; [None] stands for the result -1. *)
Definition leo_inventory_collect_sw (output : option (list ascii)) (max_items : Z) : option (list leo_sw_item_t) :=
  if max_items <=? 0 then None
  else match output with
       | None => Some []
       | Some text => Some (sw_lines (Z.to_nat max_items) (fgets_all 512 text))
       end.

(** ** Fields *)

(** A string that a buffer of [sz] bytes holds. *)
Definition held (sz : Z) (s : list ascii) : Prop := strlen s < sz /\ NUL ∉ s.

Lemma held_fit sz s : 1 <= sz -> NUL ∉ s -> held sz (fit sz s).
Proof. intros Hz Hs. split; [by apply fit_length|]. intros H%elem_of_take_in. done. Qed.

Lemma held_nil sz : 1 <= sz -> held sz [].
Proof. intros ?. split; [unfold strlen; simpl; lia|set_solver]. Qed.

Lemma drop_eol_suffix r : exists p, r = p ++ drop_eol r.
Proof.
  induction r as [|c r [p IH]]; simpl; [by exists []|].
  destruct (_ || _); [exists (c :: p); simpl; congruence|by exists []].
Qed.

Lemma strip_eol_prefix s : strip_eol s `prefix_of` s.
Proof.
  unfold strip_eol. destruct (drop_eol_suffix (reverse s)) as [p E]. exists (reverse p).
  rewrite <- reverse_app, <- E. symmetry. apply reverse_involutive.
Qed.

Lemma prefix_held sz s t : s `prefix_of` t -> held sz t -> held sz s.
Proof.
  intros [k ->] [L N]. unfold held, strlen in *. rewrite length_app in L. rewrite not_elem_of_app in N. split; [lia|tauto].
Qed.

Lemma skip_blanks_suffix s : exists p, s = p ++ skip_blanks s.
Proof.
  induction s as [|c s [p IH]]; simpl; [by exists []|].
  destruct (_ || _); [exists (c :: p); simpl; congruence|by exists []].
Qed.

(** [fgets] never reads more than its buffer holds. *)
Lemma fgets_line_held sz s l : 2 <= sz -> l ∈ fgets_all sz s -> held sz (c_str l).
Proof.
  intros Hz Hl. split; [|apply c_str_no_nul]. pose proof (c_str_length l).
  enough (strlen l < sz) by lia. revert Hl. unfold fgets_all.
  assert (forall s room acc, (1 <= room <= Z.to_nat (sz - 1))%nat -> (length acc + room <= Z.to_nat (sz - 1))%nat ->
    l ∈ fgets_lines (Z.to_nat (sz - 1)) room acc s -> strlen l < sz) as G; [|intros Hl; apply (G s (Z.to_nat (sz - 1)) []); simpl; auto; lia].
  clear s. induction s as [|c s IH]; intros room acc Hr Ha; simpl.
  - destruct acc; [by intros ?%elem_of_nil|]. intros ->%list_elem_of_singleton. unfold strlen. rewrite length_reverse. lia.
  - destruct (bool_decide (c = LF) || bool_decide (room = 1%nat)) eqn:E.
    + intros [->|Hl]%elem_of_cons; [unfold strlen; rewrite length_reverse; simpl; lia|].
      apply IH in Hl; [done|simpl; lia..].
    + breflect. apply IH; simpl; lia.
Qed.

Lemma dmi_held file sz : 2 <= sz -> held sz (_read_dmi_field file sz).
Proof.
  intros Hz. unfold _read_dmi_field. destruct file as [text|]; [|apply held_nil; lia].
  destruct (fgets_all sz text) as [|l ls] eqn:E; [apply held_nil; lia|].
  eapply prefix_held; [apply strip_eol_prefix|]. eapply fgets_line_held; [done|]. rewrite E. set_solver.
Qed.

(** *** /proc/cpuinfo *)

Definition scan_ok (st : cpu_scan) : Prop :=
  held 128 (default [] (scan_model st)) /\ NoDup (seen_physical_ids st) /\
  Z.of_nat (length (seen_physical_ids st)) <= LEO_INVENTORY_MAX_SOCKETS /\
  INT_MIN <= cores_per_socket st <= INT_MAX.

Lemma cpuinfo_line_ok st l : scan_ok st -> scan_ok (cpuinfo_line st l).
Proof.
  intros (A & B & C & D). unfold cpuinfo_line. destruct (strchr _ _) as [colon|]; [|done].
  set (value := strip_eol _).
  assert (NUL ∉ value) as Nv.
  { intros H. destruct (strip_eol_prefix (skip_blanks (drop (S colon) (c_str l)))) as [k Ek]. fold value in Ek.
    destruct (skip_blanks_suffix (drop (S colon) (c_str l))) as [p Ep].
    apply (c_str_no_nul l). apply (elem_of_drop_in _ (S colon)). rewrite Ep, Ek. set_solver. }
  destruct (_ && _); [by split; [apply held_fit; [lia|done]|]|].
  destruct (starts_with (str "physical id") _).
  - destruct (negb _ && _) eqn:E; [|done]. breflect. split_and!; cbn [scan_model seen_physical_ids cores_per_socket]; try done.
    + apply NoDup_app. split_and!; [done| |apply NoDup_singleton]. intros x Hx ->%list_elem_of_singleton. done.
    + rewrite length_app. simpl. lia.
    + lia.
    + lia.
  - destruct (starts_with _ _); [|done]. split_and!; try done; apply atoi_range.
Qed.

Lemma cpuinfo_scan_ok ls : scan_ok (fold_left cpuinfo_line ls (mk_scan None [] 0)).
Proof.
  assert (forall st, scan_ok st -> scan_ok (fold_left cpuinfo_line ls st)) as H.
  { induction ls as [|l ls IH]; intros st Hs; [done|]. apply IH, cpuinfo_line_ok, Hs. }
  apply H. split_and!; cbn; try done; [apply held_nil; lia|constructor].
Qed.

Definition hw_typed (h : leo_hw_inventory_t) : Prop :=
  held 128 (cpu_model h) /\ 0 <= cpu_cores h <= INT_MAX /\ 0 <= cpu_threads h <= INT_MAX /\
  0 <= hw_ram_total_bytes h < 2 ^ 64 /\ 0 <= disk_count h /\
  held 64 (bios_version h) /\ held 64 (bios_vendor h) /\ held 128 (motherboard h) /\ held 128 (serial_number h).

(** The number of cores per socket of a file. *)
Definition announced_cores (text : list ascii) : Z :=
  cores_per_socket (fold_left cpuinfo_line (fgets_all 256 text) (mk_scan None [] 0)).

Lemma ram_lines_range ls : 0 <= ram_lines ls < 2 ^ 64.
Proof. induction ls as [|l ls IH]; simpl; [lia|]. destruct (scan_kb _ _); [apply wrap_u64_range|done]. Qed.

(** Whatever the machine's files hold, the hardware inventory is well
    typed: every string fits its buffer with its terminator, every number is in
    the range of its type; and the collection is defined as long as
    /proc/cpuinfo announces fewer than [2 ^ 27] cores per socket, because at
    most 16 distinct sockets are counted. *)
Theorem collect_hw_typed e :
  (forall text, cpuinfo e = Some text -> announced_cores text < 2 ^ 27) ->
  exists h, leo_inventory_collect_hw e = Ret (LEO_OK, h) /\ hw_typed h.
Proof.
  intros Hc. unfold leo_inventory_collect_hw, _read_cpuinfo.
  set (threads := if _ <? 0 then 0 else _).
  assert (0 <= threads <= INT_MAX) as Ht
    by (pose proof (wrap_s32_range (nprocessors e)); unfold threads, INT_MAX; case_goal; breflect; unfold INT_MAX in *; lia).
  assert (forall model cores, held 128 model -> 0 <= cores <= INT_MAX -> exists h,
    ('(model, cores, threads) ← Ret (model, cores, threads);
     Ret (LEO_OK, mk_hw model cores threads (_read_ram_total (meminfo e)) (_read_disk_count (sys_block e))
       (_read_dmi_field (dmi e (str "/sys/class/dmi/id/bios_version")) 64)
       (_read_dmi_field (dmi e (str "/sys/class/dmi/id/bios_vendor")) 64)
       (_read_dmi_field (dmi e (str "/sys/class/dmi/id/board_name")) 128)
       (_read_dmi_field (dmi e (str "/sys/class/dmi/id/product_serial")) 128))) = Ret (LEO_OK, h) /\ hw_typed h) as G.
  { intros model cores Hm Hr. eexists. split; [reflexivity|]. unfold hw_typed.
    cbn [cpu_model cpu_cores cpu_threads hw_ram_total_bytes disk_count bios_version bios_vendor motherboard serial_number].
    split_and!; try done; try lia; try (by apply dmi_held; lia).
    - unfold _read_ram_total. destruct (meminfo e); [apply ram_lines_range|lia].
    - unfold _read_ram_total. destruct (meminfo e); [apply ram_lines_range|lia].
    - unfold _read_disk_count. destruct (sys_block e); lia. }
  destruct (cpuinfo e) as [text|]; [|apply G; [apply held_nil|unfold INT_MAX]; lia].
  specialize (Hc text eq_refl). unfold announced_cores in Hc.
  destruct (cpuinfo_scan_ok (fgets_all 256 text)) as (A & _ & C & D). set (st := fold_left _ _ _) in *.
  unfold LEO_INVENTORY_MAX_SOCKETS, INT_MAX in *.
  destruct (_ && _) eqn:E; [|apply G; [done|lia]]. breflect.
  destruct (Z.leb_spec (Z.of_nat (length (seen_physical_ids st)) * cores_per_socket st) 2147483647); [|nia].
  apply G; [done|nia].
Qed.

Definition sample_hw : hw_env := {|
  nprocessors := 8;
  cpuinfo := Some (str "processor" ++ [TAB] ++ str ": 0" ++ [LF] ++ str "model name" ++ [TAB] ++ str ": Xeon" ++ [LF] ++
    str "physical id" ++ [TAB] ++ str ": 0" ++ [LF] ++ str "cpu cores" ++ [TAB] ++ str ": 4" ++ [LF] ++
    str "physical id" ++ [TAB] ++ str ": 1" ++ [LF] ++ str "physical id" ++ [TAB] ++ str ": 0" ++ [LF]);
  meminfo := Some (str "MemTotal:  2048 kB" ++ [LF]);
  sys_block := Some [str "."; str ".."; str "sda"; str "loop0"; str "nvme0n1"; str "sr0"];
  dmi path := if streq path (str "/sys/class/dmi/id/bios_vendor") then Some (str "ACME" ++ [LF]) else None;
|}.

Lemma collect_hw_typed_witness :
  leo_inventory_collect_hw sample_hw =
    Ret (LEO_OK, mk_hw (str "Xeon") 8 8 2097152 2 [] (str "ACME") [] []) /\
  exists h, leo_inventory_collect_hw sample_hw = Ret (LEO_OK, h) /\ hw_typed h.
Proof.
  split; [vm_compute; reflexivity|]. apply (collect_hw_typed sample_hw).
  intros text [= <-]. vm_compute. reflexivity.
Defined.

(** ** Software *)

Definition sw_line_text (i : leo_sw_item_t) : list ascii :=
  sw_name i ++ [TAB] ++ sw_version i ++ [TAB] ++ sw_publisher i.

(** A package as dpkg keeps it, whose fields fit the buffers. *)
Definition clean (s : list ascii) : Prop := Forall (fun c => c ∉ [NUL; TAB; LF; CR]) s.
Definition sw_ok (i : leo_sw_item_t) : Prop :=
  clean (sw_name i) /\ strlen (sw_name i) < 128 /\ clean (sw_version i) /\ strlen (sw_version i) < 64 /\
  clean (sw_publisher i) /\ strlen (sw_publisher i) < 128 /\ sw_install_path i = [].

Lemma clean_notin s c : clean s -> c ∈ [NUL; TAB; LF; CR] -> c ∉ s.
Proof. unfold clean. rewrite Forall_forall. intros Hs Hc Hin. by apply (Hs c). Qed.

(** Lines that end with a character other than CR lose their newline only. *)
Lemma strip_eol_line l : LF ∉ l -> CR ∉ l -> strip_eol (l ++ [LF]) = l.
Proof.
  intros HL HC. unfold strip_eol. rewrite reverse_app. cbn [reverse app drop_eol].
  change (reverse [LF]) with [LF]. cbn [app drop_eol].
  rewrite bool_decide_true by done. cbn [orb].
  assert (forall r, (LF ∉ r) -> (CR ∉ r) -> drop_eol r = r) as D.
  { intros [|c r] ? ?; [done|]. cbn [drop_eol]. by rewrite !bool_decide_false by set_solver. }
  rewrite D by (rewrite elem_of_reverse; done). apply reverse_involutive.
Qed.

Lemma sw_line_read i : sw_ok i -> sw_line (sw_line_text i ++ [LF]) = Some i.
Proof.
  intros (Cn & Ln & Cv & Lv & Cp & Lp & Ep). unfold sw_line, sw_line_text.
  assert (forall c, c ∈ [NUL; LF; CR] -> c ∉ sw_name i ++ [TAB] ++ sw_version i ++ [TAB] ++ sw_publisher i) as N.
  { intros c Hc. assert (c ∈ [NUL; TAB; LF; CR]) as Hc' by set_solver.
    rewrite !not_elem_of_app. split_and!; try (by apply clean_notin).
    all: intros ->%list_elem_of_singleton; by apply (bool_decide_eq_true_2 _) in Hc. }
  rewrite no_nul_line, strip_eol_line by (apply N; set_solver).
  cbn [app].
  rewrite strchr_app by (by apply clean_notin; set_solver). cbn [mbind option_bind].
  rewrite take_app_length.
  assert (forall (a b : list ascii) c, drop (S (length a)) (a ++ c :: b) = b) as Dr.
  { intros a b c. rewrite cons_middle, (assoc_L (++)).
    replace (S (length a)) with (length (a ++ [c])) by (rewrite length_app; simpl; lia). apply drop_app_length. }
  rewrite Dr, strchr_app, take_app_length, Dr by (by apply clean_notin; set_solver).
  rewrite !fit_id by done. destruct i; simpl in *. by subst.
Qed.

Lemma sw_lines_read room items : Forall sw_ok items ->
  sw_lines room (map (fun l => l ++ [LF]) (map sw_line_text items)) = take room items.
Proof.
  intros H. revert room. induction H as [|i items Hi _ IH]; intros [|room]; [done..|]. cbn [map sw_lines].
  rewrite sw_line_read by done. cbn [take]. by rewrite IH.
Qed.

(** The packages [dpkg-query] prints are read back field by field, in
    their order, up to the number asked for. *)
Theorem dpkg_roundtrip items max_items :
  Forall sw_ok items -> 0 < max_items ->
  leo_inventory_collect_sw (Some (concat (map (fun l => l ++ [LF]) (map sw_line_text items)))) max_items =
  Some (take (Z.to_nat max_items) items).
Proof.
  intros Hi Hm. unfold leo_inventory_collect_sw. destruct (Z.leb_spec max_items 0); [lia|].
  rewrite fgets_all_lines; [by rewrite sw_lines_read|].
  apply Forall_map. eapply Forall_impl; [exact Hi|]. intros i (Cn & Ln & Cv & Lv & Cp & Lp & _). unfold sw_line_text. split.
  - rewrite !not_elem_of_app. split_and!; try (by apply clean_notin; [|set_solver]).
    all: by intros ?%list_elem_of_singleton.
  - rewrite !strlen_app. change (strlen [TAB]) with 1. lia.
Qed.

Lemma dpkg_roundtrip_witness :
  let bash := mk_sw (str "bash") (str "5.2-1") (str "Matthias <m@debian.org>") [] in
  let zsh := mk_sw (str "zsh") (str "5.9") [] [] in
  sw_ok bash /\
  leo_inventory_collect_sw (Some (concat (map (fun l => l ++ [LF]) (map sw_line_text [bash; zsh])))) 1 = Some [bash].
Proof.
  cbv zeta. set (bash := mk_sw _ _ (str "Matthias <m@debian.org>") _). set (zsh := mk_sw (str "zsh") _ _ _).
  assert (forall s, bool_decide (clean s) = true -> clean s) as C by (intros s H; by apply bool_decide_eq_true in H).
  assert (sw_ok bash) as O1 by (split_and!; try reflexivity; apply C; vm_compute; reflexivity).
  assert (sw_ok zsh) as O2 by (split_and!; try reflexivity; apply C; vm_compute; reflexivity).
  split; [exact O1|].
  apply (dpkg_roundtrip [bash; zsh] 1); [apply Forall_cons_2; [exact O1|by apply Forall_singleton]|lia].
Defined.

Lemma sw_line_held l i : sw_line l = Some i ->
  held 128 (sw_name i) /\ held 64 (sw_version i) /\ held 128 (sw_publisher i) /\ sw_install_path i = [].
Proof.
  unfold sw_line. intros (k & _ & H)%bind_Some.
  assert (NUL ∉ strip_eol (c_str l)) as N.
  { intros Hn. destruct (strip_eol_prefix (c_str l)) as [p E]. apply (c_str_no_nul l). rewrite E. set_solver. }
  set (line := strip_eol _) in *.
  assert (forall n m, NUL ∉ take n (drop m line)) as Nt by (intros n m H1%elem_of_take_in%elem_of_drop_in; done).
  assert (NUL ∉ drop (S k) line) as Nd by (intros H1%elem_of_drop_in; done).
  assert (NUL ∉ take k line) as Nk by (intros H1%elem_of_take_in; done).
  destruct (strchr (drop (S k) line) TAB) as [v|]; injection H as <-; cbn; split_and!; try apply held_fit; try done; try lia; try set_solver.
  by intros H1%elem_of_drop_in.
Qed.

Lemma sw_lines_held room lines :
  (length (sw_lines room lines) <= room)%nat /\
  Forall (fun i => held 128 (sw_name i) /\ held 64 (sw_version i) /\ held 128 (sw_publisher i) /\ sw_install_path i = [])
    (sw_lines room lines).
Proof.
  revert room. induction lines as [|l lines IH]; intros [|room]; cbn [sw_lines]; try (split; [simpl; lia|constructor]).
  destruct (sw_line l) as [i|] eqn:E; [|apply (IH (S room))]. destruct (IH room) as [A B]. split; [simpl; lia|].
  constructor; [by eapply sw_line_held|done].
Qed.

(** ** The message *)

Lemma omap_length {A B} (f : A -> option B) l : (length (omap f l) <= length l)%nat.
Proof. induction l as [|x l IH]; csimpl; [done|]. destruct (f x); simpl; lia. Qed.

Section sending.
Context `{CLibLaws}.
Hypothesis fmt_g_short : forall d, strlen (fmt_g d) <= 25.

(** Text that needs no escape: the strings of the inventory as they are. *)
Definition plain_hw (h : leo_hw_inventory_t) : bool :=
  forallb plain (cpu_model h) && forallb plain (bios_version h) && forallb plain (bios_vendor h) &&
  forallb plain (motherboard h) && forallb plain (serial_number h).
Definition plain_sw (i : leo_sw_item_t) : bool :=
  forallb plain (sw_name i) && forallb plain (sw_version i) && forallb plain (sw_publisher i).

Lemma print_plain sz s : held sz s -> forallb plain s = true ->
  exists u, print_value (JString s) = Some u /\ strlen u <= sz + 1.
Proof.
  intros [L _] P. eexists. split; [reflexivity|]. rewrite print_string_plain by done.
  unfold strlen in *. cbn [length]. rewrite length_app. simpl. lia.
Qed.

(** The text of an object from those of its members. *)
Lemma print_object l bs n :
  Forall2 (fun kv b => exists u, print_value kv.2 = Some u /\ strlen u <= b) l bs ->
  fold_right Z.add 0 bs + fold_right (fun kv a => strlen (print_string_ptr kv.1) + 2 + a) 0 l + 2 <= n ->
  exists u, print_value (JObject l) = Some u /\ strlen u <= n.
Proof.
  intros Hl Hn. destruct (print_members_total l bs Hl) as (u & Eu & Lu). exists (str "{" ++ u ++ str "}").
  cbn [print_value]. rewrite Eu. split; [done|]. rewrite !strlen_app. change (strlen (str "{")) with 1.
  change (strlen (str "}")) with 1. lia.
Qed.

Lemma sw_json_text i : held 128 (sw_name i) -> held 64 (sw_version i) -> held 128 (sw_publisher i) ->
  sw_install_path i = [] -> plain_sw i = true ->
  exists u, print_value (sw_json i) = Some u /\ strlen u <= 380.
Proof.
  intros Hn Hv Hp Hi [[Pn Pv]%andb_true_iff Pp]%andb_true_iff.
  apply (print_object [(str "name", JString (sw_name i)); (str "version", JString (sw_version i));
    (str "publisher", JString (sw_publisher i)); (str "install_path", JString (sw_install_path i))]
    [128 + 1; 64 + 1; 128 + 1; 1 + 1]); [|vm_compute; discriminate].
  repeat apply Forall2_cons_2; [by apply print_plain..| |constructor].
  cbn [snd]. rewrite Hi. apply print_plain; [apply held_nil; lia|done].
Qed.

Definition hw_json (h : leo_hw_inventory_t) : list (list ascii * cJSON) :=
  [(str "cpu_model", JString (cpu_model h)); (str "cpu_cores", JNumber (d_of_Z (cpu_cores h)));
   (str "cpu_threads", JNumber (d_of_Z (cpu_threads h))); (str "ram_total_bytes", JNumber (d_of_Z (hw_ram_total_bytes h)));
   (str "disk_count", JNumber (d_of_Z (disk_count h))); (str "bios_version", JString (bios_version h));
   (str "bios_vendor", JString (bios_vendor h)); (str "motherboard", JString (motherboard h));
   (str "serial_number", JString (serial_number h))].

Lemma hw_json_text h : hw_typed h -> plain_hw h = true ->
  exists u, print_value (JObject (hw_json h)) = Some u /\ strlen u <= 900.
Proof.
  intros (H1 & _ & _ & _ & _ & H2 & H3 & H4 & H5) P. unfold plain_hw in P. breflect.
  apply (print_object (hw_json h) [128 + 1; 25; 25; 25; 25; 64 + 1; 64 + 1; 128 + 1; 128 + 1]);
    [|vm_compute; discriminate].
  unfold hw_json. repeat apply Forall2_cons_2; try constructor; solve [by apply print_plain | by apply print_number_total].
Qed.

(** An inventory of at most 150 packages always fits the 64 KiB message
    when its strings need no escape, whatever their lengths: the bound
    [LEO_INVENTORY_MAX_SW_ITEMS] is small enough for the sizes of the buffers. *)
Theorem inventory_fits e h out sw :
  env_sane e = true -> body_ok e = true -> root_ok e = true -> hw_ok e = true -> array_ok e = true ->
  hw_typed h -> plain_hw h = true ->
  leo_inventory_collect_sw out LEO_INVENTORY_MAX_SW_ITEMS = Some sw -> forallb plain_sw sw = true ->
  exists txt, leo_proto_build_inventory e h sw (Z.of_nat (length sw)) LEO_MAX_MSG_SIZE = Some txt /\
  strlen txt < LEO_MAX_MSG_SIZE.
Proof.
  intros He Hb Hr Hh Ha Hw Hp Hs Hq.
  assert ((length sw <= 150)%nat /\ Forall (fun i => exists u, print_value (sw_json i) = Some u /\ strlen u <= 380) sw) as [Ls Fs].
  { unfold leo_inventory_collect_sw in Hs. cbn in Hs. destruct out as [text|]; [|injection Hs as <-; split; [simpl; lia|constructor]].
    injection Hs as <-. set (ls := fgets_all _ _) in *. destruct (sw_lines_held 150 ls) as [A B]. split; [done|].
    rewrite forallb_forall in Hq. rewrite Forall_forall in B |- *. intros i Hi.
    destruct (B i Hi) as (? & ? & ? & ?). apply sw_json_text; try done. apply Hq. by apply list_elem_of_In. }
  unfold leo_proto_build_inventory. rewrite Hb, Hh, Ha. cbn [negb]. rewrite Nat2Z.id, firstn_all, add_numbers, app_nil_l.
  set (items := built_items e sw_json sw).
  assert (Forall (fun v => exists u, print_value v = Some u /\ strlen u <= 380) items /\ (length items <= 150)%nat) as [Fi Li].
  { unfold items, built_items. rewrite Forall_forall in Fs. split.
    - apply Forall_forall. intros v ([k i] & Hi & Ev)%list_elem_of_omap. apply elem_of_lookup_imap in Hi as (n & x & [= -> ->] & Hx).
      destruct (item_ok e _); [|done]. injection Ev as <-. apply Fs. by eapply list_elem_of_lookup_2.
    - etrans; [apply omap_length|]. by rewrite length_imap. }
  change (cJSON_AddItemToObject (cJSON_AddItemToObject (JObject []) (str "hardware") _) _ _)
    with (JObject [(str "hardware", JObject (hw_json h)); (str "software", JArray items)]).
  destruct (print_object [(str "hardware", JObject (hw_json h)); (str "software", JArray items)]
    [900; 381 * 150 + 2] 58200) as (ub & Eb & Lb).
  { repeat apply Forall2_cons_2; [by apply hw_json_text| |constructor].
    destruct (print_elements_total 380 items Fi) as (u & Eu & Lu). exists (str "[" ++ u ++ str "]"). cbn [snd print_value].
    rewrite Eu. split; [done|]. rewrite !strlen_app. change (strlen (str "[")) with 1. change (strlen (str "]")) with 1. lia. }
  { vm_compute. discriminate. }
  destruct (envelope_length e LEO_MSG_INVENTORY _ ub He Eb) as (txt & Et & Lt). exists txt.
  unfold _serialize. rewrite Hr. cbn [negb]. rewrite Et. unfold LEO_MAX_MSG_SIZE.
  destruct (Z.leb_spec 65536 (strlen txt)); [lia|]. split; [done|lia].
Qed.

End sending.

Lemma inventory_fits_witness :
  let h := mk_hw (str "Xeon") 8 8 2097152 2 [] (str "ACME") [] [] in
  let out := Some (str "bash" ++ [TAB] ++ str "5.2-1" ++ [TAB] ++ str "Matthias" ++ [LF]) in
  hw_typed h /\
  exists txt, @leo_proto_build_inventory decimal_lib sample_env h [mk_sw (str "bash") (str "5.2-1") (str "Matthias") []] 1
    LEO_MAX_MSG_SIZE = Some txt /\ strlen txt < LEO_MAX_MSG_SIZE.
Proof.
  cbv zeta. set (h := mk_hw _ _ _ _ _ _ _ _ _).
  assert (hw_typed h) as Hh.
  { unfold hw_typed, held, h. cbn. split_and!; try done; try lia; by apply (bool_decide_eq_true_1 _). }
  split; [exact Hh|].
  apply (@inventory_fits decimal_lib decimal_lib_laws decimal_short sample_env h
    (Some (str "bash" ++ [TAB] ++ str "5.2-1" ++ [TAB] ++ str "Matthias" ++ [LF]))); try reflexivity. exact Hh.
Defined.
