(* ===== verification/ExecutorWin.v ===== *)
(** The executor of Windows: [platform/windows/executor_win.c], a second
    implementation of the interface of [Platform].

    A child gets one command line, which its C runtime splits again into
    arguments; [msvcrt_args] is the specification of that splitting, as
    Microsoft documents it for [CommandLineToArgvW] and the C runtime.  What
    the system calls answer is an input, [win_child].  The file of a script is
    a file of the machine, as in [Crypto]. *)
From S2P Require Import Prelude CString Types Json Crypto Executor Platform.

Definition MAX_PATH : Z := 260.
Definition LEO_EXEC_CMDLINE_MAX : Z := 32768.

Definition WIN_INTERPRETERS : list (list ascii) := [str "cmd"; str "powershell"].


Definition _interpreter_allowed (interp : list ascii) : bool := existsb (streq interp) WIN_INTERPRETERS.

(** ** Command lines *)

(** The buffer under construction and [*pos]. *)
Record cmdbuf : Type := mk_buf { cb_text : list ascii; cb_pos : Z }.

Definition put (dest_sz : Z) (c : ascii) (b : cmdbuf) : cmdbuf :=
  if cb_pos b <? dest_sz then mk_buf (cb_text b ++ [c]) (cb_pos b + 1) else b.

Fixpoint puts (dest_sz : Z) (n : nat) (c : ascii) (b : cmdbuf) : cmdbuf :=
  match n with O => b | S n' => puts dest_sz n' c (put dest_sz c b) end.

Definition needs_quotes (arg : list ascii) : bool :=
  bool_decide (arg = []) || existsb (fun c => bool_decide (c = " "%char) || bool_decide (c = TAB) || bool_decide (c = DQUOTE)) arg.

(** The loop over the characters, with the backslashes not yet written. *)
Fixpoint append_chars (dest_sz : Z) (backslashes : nat) (arg : list ascii) (b : cmdbuf) : cmdbuf :=
  match arg with
  | [] => put dest_sz DQUOTE (puts dest_sz (backslashes * 2) BACKSLASH b)
  | c :: arg' =>
      if bool_decide (c = BACKSLASH) then append_chars dest_sz (S backslashes) arg' b
      else if bool_decide (c = DQUOTE)
      then append_chars dest_sz 0 arg' (put dest_sz DQUOTE (puts dest_sz (backslashes * 2 + 1) BACKSLASH b))
      else append_chars dest_sz 0 arg' (put dest_sz c (puts dest_sz backslashes BACKSLASH b))
  end.

Definition _append_quoted_arg (dest_sz : Z) (b : cmdbuf) (arg : list ascii) : cmdbuf :=
  let b := if (0 <? cb_pos b) && (cb_pos b <? dest_sz) then put dest_sz " "%char b else b in
  if negb (needs_quotes arg) then
    let l := strlen arg in
    if cb_pos b + l <? dest_sz then mk_buf (cb_text b ++ arg) (cb_pos b + l) else mk_buf (cb_text b) dest_sz
  else append_chars dest_sz 0 arg (put dest_sz DQUOTE b).

Definition _build_cmdline (dest_sz : Z) (argv : argv_t) : option (list ascii) :=
  let b := fold_left (_append_quoted_arg dest_sz) argv (mk_buf [] 0) in
  if dest_sz <=? cb_pos b then None else Some (cb_text b).

(** ** The environment of a child *)

(** The index of the first of two consecutive NULs. *)
Fixpoint block_end (base : list ascii) : option nat :=
  match base with
  | c :: ((d :: _) as base') =>
      if bool_decide (c = NUL) && bool_decide (d = NUL) then Some O else S <$> block_end base'
  | _ => None
  end.

(** [None] stands for NULL, with which the environment is inherited; the
    block of the process always has its end. *)
Definition _build_env_block (base : option (list ascii)) (malloc_ok : bool) (extra_env : argv_t) : option (list ascii) :=
  match extra_env with
  | [] => None
  | _ =>
      match base with
      | None => None
      | Some base =>
          i ← block_end base;
          if negb malloc_ok then None
          else Some (take (S i) base ++ concat (map (fun v => v ++ [NUL]) extra_env) ++ [NUL])
      end
  end.

(** ** The child *)

(** What [ReadFile] answers on a pipe, in order, and whether it ends: all the
    handles that write to the pipe get closed. *)
Record win_pipe : Type := mk_wpipe { reads : list (list ascii); pipe_ends : bool }.

Record win_child : Type := mk_wchild {
  stdout_pipe_ok : bool;
  stderr_pipe_ok : bool;
  env_strings : option (list ascii);
  env_malloc_ok : bool;
  create_ok : bool;
  out_thread_ok : bool;
  err_thread_ok : bool;
  out_pipe : win_pipe;
  err_pipe : win_pipe;
  lifetime_ms : option Z;     (* when the process ends by itself, [None]: never *)
  child_exit : Z;             (* the DWORD of GetExitCodeProcess *)
}.

(** [_reader_thread]: the loop ends on an empty read. *)
Fixpoint reader_loop (buf_max : Z) (chunks : list (list ascii)) (buf : list ascii) : list ascii :=
  match chunks with
  | [] => buf
  | chunk :: chunks' =>
      if bool_decide (chunk = []) then buf
      else
        let buf := if strlen buf <? buf_max - 1
                   then buf ++ take (Z.to_nat (Z.min (strlen chunk) (buf_max - 1 - strlen buf))) chunk
                   else buf in
        reader_loop buf_max chunks' buf
  end.

Inductive wait_rc : Type := WAIT_OBJECT_0 | WAIT_TIMEOUT.

Definition INFINITE : Z := 2 ^ 32 - 1.

(** [WaitForSingleObject] on the process; [None] when it never returns. *)
Definition WaitForSingleObject (lifetime : option Z) (ms : Z) : option wait_rc :=
  match lifetime with
  | Some t => Some (if (ms =? INFINITE) || (t <=? ms) then WAIT_OBJECT_0 else WAIT_TIMEOUT)
  | None => if ms =? INFINITE then None else Some WAIT_TIMEOUT
  end.

Definition wait_ms (timeout_secs : Z) : Z :=
  if 0 <? timeout_secs then wrap_u32 (wrap_u32 timeout_secs * 1000) else INFINITE.

(** What a reader leaves once joined; [None] when the join blocks for ever. *)
Definition join_reader (thread_ok : bool) (p : win_pipe) (buf_max : Z) : option (list ascii) :=
  if thread_ok then if pipe_ends p then Some (reader_loop buf_max (reads p) []) else None
  else Some [].

(** The result, and the command line and environment block given to
    [CreateProcessA]. *)
Definition _run_child (cmdline : list ascii) (extra_env : argv_t) (timeout_secs : Z) (e : win_child) :
    option (leo_error_t * leo_exec_result_t) * option (list ascii * option (list ascii)) :=
  if negb (stdout_pipe_ok e) then (Some (LEO_ERR_SYSTEM, mk_result (-1) [] []), None)
  else if negb (stderr_pipe_ok e) then (Some (LEO_ERR_SYSTEM, mk_result (-1) [] []), None)
  else if negb (create_ok e) then (Some (LEO_ERR_SYSTEM, mk_result (-1) [] []), None)
  else
    let started := Some (cmdline, _build_env_block (env_strings e) (env_malloc_ok e) extra_env) in
    (rc ← WaitForSingleObject (lifetime_ms e) (wait_ms timeout_secs);
     out ← join_reader (out_thread_ok e) (out_pipe e) LEO_EXEC_STDOUT_MAX;
     err ← join_reader (err_thread_ok e) (err_pipe e) LEO_EXEC_STDERR_MAX;
     let ret := match rc with WAIT_TIMEOUT => LEO_ERR_TIMEOUT | WAIT_OBJECT_0 => LEO_OK end in
     Some (ret, mk_result (wrap_s32 (child_exit e)) out err),
     started).

(** ** Scripts *)

Record tmp_env : Type := mk_tmp {
  temp_dir : option (list ascii);   (* GetTempPathA, when it fits MAX_PATH *)
  pid : Z;
  counter : Z;
  tick_count : Z;
  fopen_ok : bool;
  fwrite_ok : bool;
  script_child_w : win_child;
}.

Definition tmp_path (dir ext : list ascii) (e : tmp_env) : list ascii :=
  fit MAX_PATH (dir ++ str "leo_exec_" ++ fmt_x 8 (wrap_u32 (pid e)) ++ str "_" ++ fmt_x 4 (wrap_u32 (counter e)) ++
                str "_" ++ fmt_x 8 (wrap_u32 (tick_count e)) ++ ext).

(** The path and the files when it succeeds, else the files it leaves. *)
Definition _write_script_tmp (fs : files) (script ext : list ascii) (e : tmp_env) : option (list ascii) * files :=
  match temp_dir e with
  | None => (None, fs)
  | Some dir =>
      let path := tmp_path dir ext e in
      if negb (fopen_ok e) then (None, fs)
      else if negb (fwrite_ok e) then (None, delete path fs)
      else (Some path, <[path := mk_file script 420]> fs)
  end.

Definition script_args (interpreter tmppath : list ascii) : argv_t :=
  if streq interpreter (str "powershell")
  then [str "powershell.exe"; str "-NoProfile"; str "-ExecutionPolicy"; str "Bypass"; str "-File"; tmppath]
  else [str "cmd.exe"; str "/c"; tmppath].

(** The result, the files after the call, and what was started on which
    files. *)
Definition leo_exec_script (fs : files) (interpreter script : list ascii) (timeout_secs : Z)
    (old : leo_exec_result_t) (e : tmp_env) :
    option (leo_error_t * leo_exec_result_t) * files * option (list ascii * files) :=
  if negb (_interpreter_allowed interpreter) then (Some (LEO_ERR_PROTOCOL, old), fs, None)
  else
    let ext := if streq interpreter (str "powershell") then str ".ps1" else str ".bat" in
    match _write_script_tmp fs script ext e with
    | (None, fs) => (Some (LEO_ERR_SYSTEM, old), fs, None)
    | (Some tmppath, fs1) =>
        match _build_cmdline LEO_EXEC_CMDLINE_MAX (script_args interpreter tmppath) with
        | None => (Some (LEO_ERR_SYSTEM, old), delete tmppath fs1, None)
        | Some cmdline =>
            let '(r, started) := _run_child cmdline [] timeout_secs (script_child_w e) in
            (r, delete tmppath fs1, (fun p => (p.1, fs1)) <$> started)
        end
    end.

Definition leo_exec_argv (argv extra_env : argv_t) (timeout_secs : Z) (old : leo_exec_result_t) (e : win_child) :
    option (leo_error_t * leo_exec_result_t) * option (list ascii * option (list ascii)) :=
  match argv with
  | [] => (Some (LEO_ERR_SYSTEM, old), None)
  | _ =>
      match _build_cmdline LEO_EXEC_CMDLINE_MAX argv with
      | None => (Some (LEO_ERR_SYSTEM, old), None)
      | Some cmdline => _run_child cmdline extra_env timeout_secs e
      end
  end.


(** ** Quoting *)

(** An argument as it should be written. *)
Fixpoint quote_body (backslashes : nat) (arg : list ascii) : list ascii :=
  match arg with
  | [] => replicate (backslashes * 2) BACKSLASH ++ [DQUOTE]
  | c :: arg' =>
      if bool_decide (c = BACKSLASH) then quote_body (S backslashes) arg'
      else if bool_decide (c = DQUOTE) then replicate (backslashes * 2 + 1) BACKSLASH ++ [DQUOTE] ++ quote_body 0 arg'
      else replicate backslashes BACKSLASH ++ [c] ++ quote_body 0 arg'
  end.

Definition quote_arg (arg : list ascii) : list ascii :=
  if needs_quotes arg then DQUOTE :: quote_body 0 arg else arg.

(** The arguments, separated by single blanks. *)
Definition cmdline_from (t : list ascii) (argv : argv_t) : list ascii :=
  fold_left (fun t arg => (if bool_decide (t = []) then [] else t ++ str " ") ++ quote_arg arg) argv t.
Definition cmdline (argv : argv_t) : list ascii := cmdline_from [] argv.

Section bounded.
Variable sz : Z.
Hypothesis sz_pos : 0 < sz.

(** The buffer holds [t], or [t] does not fit. *)
Definition buffers (b : cmdbuf) (t : list ascii) : Prop :=
  if strlen t <? sz then b = mk_buf t (strlen t) else cb_pos b = sz.

Lemma put_buffers c b t : buffers b t -> buffers (put sz c b) (t ++ [c]).
Proof.
  unfold buffers, put. rewrite strlen_app. change (strlen [c]) with 1.
  destruct (Z.ltb_spec (strlen t) sz).
  - intros ->. cbn [cb_pos cb_text]. destruct (Z.ltb_spec (strlen t) sz); [|lia].
    destruct (Z.ltb_spec (strlen t + 1) sz); [done|simpl; lia].
  - intros E. destruct (Z.ltb_spec (cb_pos b) sz); [lia|]. by destruct (Z.ltb_spec (strlen t + 1) sz); [lia|].
Qed.

Lemma puts_buffers n c b t : buffers b t -> buffers (puts sz n c b) (t ++ replicate n c).
Proof.
  revert b t. induction n as [|n IH]; intros b t Hb; cbn [puts replicate]; [by rewrite app_nil_r|].
  rewrite cons_middle, (assoc_L (++)). by apply IH, put_buffers.
Qed.

Lemma append_chars_buffers k arg b t : buffers b t -> buffers (append_chars sz k arg b) (t ++ quote_body k arg).
Proof.
  revert k b t. induction arg as [|c arg IH]; intros k b t Hb; cbn [append_chars quote_body].
  - rewrite (assoc_L (++)). by apply put_buffers, puts_buffers.
  - destruct (bool_decide (c = BACKSLASH)); [by apply IH|].
    destruct (bool_decide (c = DQUOTE)); rewrite !(assoc_L (++)); by apply IH, put_buffers, puts_buffers.
Qed.

Lemma buffers_pos b t : buffers b t -> (0 <? cb_pos b) = negb (bool_decide (t = [])).
Proof.
  unfold buffers. destruct (Z.ltb_spec (strlen t) sz).
  - intros ->. destruct t; [done|]. cbn [cb_pos]. unfold strlen. simpl length. by destruct (Z.ltb_spec 0 (Z.of_nat (S (length t)))); [|lia].
  - intros ->. destruct t; [unfold strlen in *; simpl in *; lia|]. by destruct (Z.ltb_spec 0 sz); [|lia].
Qed.

Lemma append_arg_buffers b t arg : buffers b t ->
  buffers (_append_quoted_arg sz b arg) ((if bool_decide (t = []) then [] else t ++ str " ") ++ quote_arg arg).
Proof.
  intros Hb. unfold _append_quoted_arg, quote_arg.
  set (b1 := if _ && _ then put sz _ b else b). set (t1 := if bool_decide (t = []) then [] else t ++ str " ").
  assert (buffers b1 t1) as H1.
  { unfold b1, t1. rewrite (buffers_pos b t Hb). destruct (bool_decide (t = [])) eqn:E; cbn [negb andb].
    - apply bool_decide_eq_true in E. by subst t.
    - destruct (Z.ltb_spec (cb_pos b) sz); [by apply (put_buffers " ")|].
      apply (put_buffers " "%char) in Hb. unfold put in Hb. by destruct (Z.ltb_spec (cb_pos b) sz); [lia|]. }
  clearbody b1 t1. destruct (needs_quotes arg); cbn [negb].
  - change (DQUOTE :: quote_body 0 arg) with ([DQUOTE] ++ quote_body 0 arg). rewrite (assoc_L (++)).
    by apply append_chars_buffers, put_buffers.
  - revert H1. unfold buffers. rewrite strlen_app. pose proof (strlen_nonneg arg).
    destruct (Z.ltb_spec (strlen t1) sz).
    + intros ->. cbn [cb_pos cb_text]. by destruct (Z.ltb_spec (strlen t1 + strlen arg) sz).
    + intros E. destruct (Z.ltb_spec (cb_pos b1 + strlen arg) sz); [lia|].
      by destruct (Z.ltb_spec (strlen t1 + strlen arg) sz); [lia|].
Qed.

Lemma build_buffers argv b t : buffers b t -> buffers (fold_left (_append_quoted_arg sz) argv b) (cmdline_from t argv).
Proof.
  revert b t. induction argv as [|a argv IH]; intros b t Hb; [done|]. cbn [fold_left cmdline_from].
  by apply IH, append_arg_buffers.
Qed.

(** Building a command line in a buffer of fixed size gives the command
    line of the unbounded definition when it fits with its terminator, and
    fails otherwise: no command is ever started on a truncated line. *)
Lemma build_cmdline_exact argv :
  _build_cmdline sz argv = if strlen (cmdline argv) <? sz then Some (cmdline argv) else None.
Proof.
  unfold _build_cmdline, cmdline. pose proof (build_buffers argv (mk_buf [] 0) []) as H.
  set (b := fold_left _ _ _) in *. set (t := cmdline_from [] argv) in *.
  assert (buffers b t) as Hb by (apply H; unfold buffers; by destruct (Z.ltb_spec (strlen []) sz); [|unfold strlen in *; simpl in *; lia]).
  revert Hb. unfold buffers. destruct (Z.ltb_spec (strlen t) sz).
  - intros ->. cbn [cb_pos cb_text]. by destruct (Z.leb_spec sz (strlen t)); [lia|].
  - intros ->. by destruct (Z.leb_spec sz sz); [|lia].
Qed.

End bounded.

(** ** What the child makes of its command line *)

(** Microsoft's rules: blanks separate arguments outside of quotes; [2n]
    backslashes before a quote are [n] backslashes and the quote opens or
    closes, [2n + 1] are [n] backslashes and a literal quote; other backslashes
    are literal.  [cur] is the argument being read, [bs] the backslashes read
    last. *)
Fixpoint split_args (bs : nat) (inq : bool) (cur : option (list ascii)) (s : list ascii) : argv_t :=
  match s with
  | [] => match cur with Some acc => [acc ++ replicate bs BACKSLASH] | None => [] end
  | c :: s' =>
      if bool_decide (c = BACKSLASH) then split_args (S bs) inq (Some (default [] cur)) s'
      else if bool_decide (c = DQUOTE) then
        let acc := default [] cur ++ replicate (bs / 2) BACKSLASH in
        if Nat.odd bs then split_args 0 inq (Some (acc ++ [DQUOTE])) s' else split_args 0 (negb inq) (Some acc) s'
      else if (bool_decide (c = " "%char) || bool_decide (c = TAB)) && negb inq then
        match cur with
        | Some acc => (acc ++ replicate bs BACKSLASH) :: split_args 0 false None s'
        | None => split_args 0 false None s'
        end
      else split_args 0 inq (Some (default [] cur ++ replicate bs BACKSLASH ++ [c])) s'
  end.

Definition msvcrt_args (s : list ascii) : argv_t := split_args 0 false None s.

Lemma split_backslashes n k inq acc s :
  split_args k inq (Some acc) (replicate n BACKSLASH ++ s) = split_args (k + n) inq (Some acc) s.
Proof.
  revert k. induction n as [|n IH]; intros k; cbn [replicate app]; [by rewrite Nat.add_0_r|].
  cbn [split_args]. rewrite bool_decide_true by done. cbn [default]. rewrite IH. f_equal. lia.
Qed.

(** A quoted argument, from its first quote to its last. *)
Lemma split_quoted k arg acc s :
  split_args 0 true (Some acc) (quote_body k arg ++ s) = split_args 0 false (Some (acc ++ replicate k BACKSLASH ++ arg)) s.
Proof.
  revert k acc. induction arg as [|c arg IH]; intros k acc; cbn [quote_body].
  - rewrite <- (assoc_L (++)), split_backslashes, Nat.add_0_l. cbn [app split_args].
    rewrite bool_decide_false, bool_decide_true by done. cbv zeta. cbn [default].
    replace (Nat.odd (k * 2)) with false by (symmetry; rewrite <- Nat.negb_even, Nat.even_mul; simpl; by rewrite orb_true_r).
    rewrite Nat.div_mul by lia. by rewrite app_nil_r.
  - destruct (decide (c = BACKSLASH)) as [->|Nb]; [rewrite bool_decide_true by done|rewrite (bool_decide_false (c = BACKSLASH)) by done].
    { rewrite IH. do 3 f_equal. rewrite replicate_S_end, <- (assoc_L (++)). done. }
    destruct (decide (c = DQUOTE)) as [->|Nq]; [rewrite bool_decide_true by done|rewrite bool_decide_false by done];
      rewrite <- !(assoc_L (++)), split_backslashes, Nat.add_0_l; cbn [app split_args].
    + rewrite bool_decide_false, bool_decide_true by done. cbv zeta. cbn [default].
      replace (Nat.odd (k * 2 + 1)) with true by (symmetry; apply Nat.odd_spec; exists k; lia).
      replace ((k * 2 + 1) / 2)%nat with k by (apply (Nat.div_unique _ 2 k 1); lia).
      rewrite IH. cbn [replicate app]. by rewrite <- !(assoc_L (++)).
    + rewrite !bool_decide_false by done. cbn [negb]. rewrite andb_false_r. cbn [default]. rewrite IH. cbn [replicate app].
      by rewrite <- !(assoc_L (++)).
Qed.

(** An argument that needs no quotes, up to the blank or the end after it. *)
Lemma split_word k w acc rest : needs_quotes w = false \/ w = [] ->
  rest = [] \/ (exists r, rest = " "%char :: r) ->
  split_args k false (Some acc) (w ++ rest) =
  (acc ++ replicate k BACKSLASH ++ w) ::
  match rest with [] => [] | _ :: r => split_args 0 false None r end.
Proof.
  intros Hw Hr. assert (existsb (fun c => bool_decide (c = " "%char) || bool_decide (c = TAB) || bool_decide (c = DQUOTE)) w = false) as Hn.
  { destruct Hw as [Hw| ->]; [|done]. by apply orb_false_iff in Hw as [_ ?]. }
  clear Hw. revert k acc. induction w as [|c w IH]; intros k acc.
  - rewrite app_nil_r. destruct Hr as [-> |[r ->]]; [done|]. cbn [app split_args]. by rewrite !bool_decide_false, bool_decide_true by done.
  - cbn [existsb] in Hn. apply orb_false_iff in Hn as [Hc Hn]. breflect. cbn [app split_args].
    destruct (decide (c = BACKSLASH)) as [->|Nb]; [rewrite bool_decide_true by done|rewrite (bool_decide_false (c = BACKSLASH)) by done].
    + cbn [default]. rewrite IH by done. do 2 f_equal. by rewrite replicate_S_end, <- (assoc_L (++)).
    + rewrite !bool_decide_false by done. cbn [orb andb default]. rewrite IH by done. f_equal. cbn [replicate app].
      by rewrite <- !(assoc_L (++)).
Qed.

Lemma split_quote_arg arg rest : rest = [] \/ (exists r, rest = " "%char :: r) ->
  split_args 0 false None (quote_arg arg ++ rest) =
  arg :: match rest with [] => [] | _ :: r => split_args 0 false None r end.
Proof.
  intros Hr. unfold quote_arg. destruct (needs_quotes arg) eqn:E.
  - cbn [app split_args]. rewrite bool_decide_false, bool_decide_true by done. cbn [Nat.odd Nat.div default replicate app negb].
    pose proof (split_quoted 0 arg [] rest) as H. cbn [replicate app] in H. etrans; [exact H|].
    pose proof (split_word 0 [] arg rest ltac:(by right) Hr) as W. cbn [replicate app] in W. by rewrite app_nil_r in W.
  - destruct arg as [|c w]; [done|]. apply orb_false_iff in E as [_ E]. cbn [existsb] in E. apply orb_false_iff in E as [Ec Ew].
    assert (needs_quotes w = false \/ w = []) as Hw.
    { destruct w; [by right|left]. unfold needs_quotes. by rewrite Ew. }
    breflect. cbn [app split_args]. destruct (decide (c = BACKSLASH)) as [->|Nb].
    + rewrite bool_decide_true by done. cbn [default]. by rewrite split_word.
    + rewrite !bool_decide_false by done. cbn [orb andb default app replicate]. by rewrite split_word.
Qed.

(** The separator, then the rest of the line. *)
Lemma cmdline_from_app t argv : t <> [] ->
  cmdline_from t argv = t ++ concat (map (fun a => str " " ++ quote_arg a) argv).
Proof.
  revert t. induction argv as [|a argv IH]; intros t Ht; cbn [cmdline_from fold_left map concat]; [by rewrite app_nil_r|].
  rewrite bool_decide_false by done. unfold cmdline_from in IH. rewrite IH; [by rewrite <- !(assoc_L (++))|].
  intros E. apply Ht. by destruct t.
Qed.

Lemma quote_arg_nonempty a : quote_arg a <> [].
Proof. unfold quote_arg. destruct (needs_quotes a) eqn:E; [done|]. by intros ->. Qed.

Lemma split_cmdline argv : msvcrt_args (cmdline argv) = argv.
Proof.
  unfold msvcrt_args, cmdline. destruct argv as [|a argv]; [done|]. cbn [cmdline_from fold_left]. rewrite bool_decide_true by done. cbn [app].
  fold (cmdline_from (quote_arg a) argv). rewrite cmdline_from_app by apply quote_arg_nonempty.
  revert a. induction argv as [|b argv IH]; intros a; cbn [map concat].
  - rewrite split_quote_arg; [done|by left].
  - change (str " ") with [" "%char]. rewrite <- (assoc_L (++)). cbn [app].
    rewrite split_quote_arg by (right; eauto). f_equal. apply IH.
Qed.

(** C31: no argument can change another one: a child that splits its command
    line by the documented rules gets exactly the arguments it was given,
    whatever blanks, quotes and backslashes they hold; a command line that does
    not fit the buffer is refused, never cut. *)
Theorem cmdline_roundtrip sz argv :
  0 < sz ->
  match _build_cmdline sz argv with
  | Some cmd => msvcrt_args cmd = argv /\ strlen cmd < sz
  | None => sz <= strlen (cmdline argv)
  end.
Proof.
  intros Hsz. rewrite build_cmdline_exact by done. destruct (Z.ltb_spec (strlen (cmdline argv)) sz); [|done].
  split; [apply split_cmdline|done].
Qed.

Lemma cmdline_roundtrip_witness :
  let argv := [str "a b"; str "c" ++ [DQUOTE]; []] in
  exists cmd, _build_cmdline 32768 argv = Some cmd /\ msvcrt_args cmd = argv.
Proof.
  intros argv. pose proof (cmdline_roundtrip 32768 argv ltac:(lia)) as H.
  destruct (_build_cmdline 32768 argv) as [cmd|] eqn:E; [|vm_compute in E; discriminate E].
  exists cmd. split; [reflexivity|exact (proj1 H)].
Defined.

(** ** The outputs *)

(** [ReadFile] gives no empty chunk before the end. *)
Definition live_reads (chunks : list (list ascii)) : Prop := Forall (fun c => c <> []) chunks.

Lemma reader_loop_spec max chunks buf w : 1 <= max -> live_reads chunks -> buf = take (Z.to_nat (max - 1)) w ->
  reader_loop max chunks buf = take (Z.to_nat (max - 1)) (w ++ concat chunks).
Proof.
  intros Hm Hc. revert buf w. induction Hc as [|c chunks Hc _ IH]; intros buf w ->; cbn [reader_loop concat].
  { by rewrite app_nil_r. }
  rewrite bool_decide_false by done. rewrite (assoc_L (++)). apply IH. unfold strlen.
  rewrite take_app. rewrite length_take.
  destruct (Z.ltb_spec (Z.of_nat (Z.to_nat (max - 1) `min` length w)) (max - 1)).
  - f_equal. destruct (Z.le_ge_cases (Z.of_nat (length c)) (max - 1 - Z.of_nat (length w))).
    + rewrite !take_ge by lia. done.
    + f_equal. lia.
  - replace (Z.to_nat (max - 1) - length w)%nat with O by lia. cbn [take]. by rewrite app_nil_r.
Qed.

Lemma reader_loop_length max chunks buf : 1 <= max -> strlen buf <= max - 1 -> strlen (reader_loop max chunks buf) <= max - 1.
Proof.
  intros Hm. revert buf. induction chunks as [|c chunks IH]; intros buf Hb; cbn [reader_loop]; [done|].
  destruct (bool_decide _); [done|]. apply IH. destruct (Z.ltb_spec (strlen buf) (max - 1)); [|done].
  unfold strlen in *. rewrite length_app, length_take. lia.
Qed.

(** What a command wrote before its pipes were closed is in the buffers,
    cut to 16383 and 4095 bytes, with its exit code as an [int]; it timed out
    exactly when it outlived the limit (any limit of 4294967 seconds or less). *)
Theorem win_output_captured cmd extra timeout e t :
  stdout_pipe_ok e = true -> stderr_pipe_ok e = true -> create_ok e = true ->
  out_thread_ok e = true -> err_thread_ok e = true ->
  live_reads (reads (out_pipe e)) -> live_reads (reads (err_pipe e)) ->
  pipe_ends (out_pipe e) = true -> pipe_ends (err_pipe e) = true ->
  0 < timeout <= 4294967 -> lifetime_ms e = Some t ->
  (_run_child cmd extra timeout e).1 =
  Some (if t <=? timeout * 1000 then LEO_OK else LEO_ERR_TIMEOUT,
        mk_result (wrap_s32 (child_exit e)) (take (Z.to_nat (LEO_EXEC_STDOUT_MAX - 1)) (concat (reads (out_pipe e))))
                  (take (Z.to_nat (LEO_EXEC_STDERR_MAX - 1)) (concat (reads (err_pipe e))))).
Proof.
  intros H1 H2 H3 H4 H5 Lo Le Eo Ee Ht Hl. unfold _run_child. rewrite H1, H2, H3. cbn [negb fst].
  unfold wait_ms. destruct (Z.ltb_spec 0 timeout); [|lia].
  unfold wrap_u32. rewrite (Z.mod_small timeout), Z.mod_small by lia.
  unfold WaitForSingleObject, INFINITE. rewrite Hl. destruct (Z.eqb_spec (timeout * 1000) (2 ^ 32 - 1)); [lia|].
  cbn [orb mbind option_bind]. unfold join_reader. rewrite H4, H5, Eo, Ee. cbn [mbind option_bind].
  rewrite (reader_loop_spec LEO_EXEC_STDOUT_MAX _ [] []), (reader_loop_spec LEO_EXEC_STDERR_MAX _ [] []) by done.
  cbn [app]. by destruct (t <=? timeout * 1000).
Qed.

Definition sample_wchild : win_child :=
  mk_wchild true true None true true true true (mk_wpipe [str "hello "; str "world"] true) (mk_wpipe [] true) (Some 250) 3.

Lemma win_output_captured_witness :
  (_run_child (str "cmd.exe /c x.bat") [] 5 sample_wchild).1 = Some (LEO_OK, mk_result 3 (str "hello world") []).
Proof.
  apply (win_output_captured (str "cmd.exe /c x.bat") [] 5 sample_wchild 250); try reflexivity.
  - repeat apply Forall_cons_2; try constructor; discriminate.
  - constructor.
  - lia.
Defined.

(** A process that keeps a pipe open after the command was terminated (a
    program the script started, which inherited the handle) blocks the agent's
    thread for ever, whatever the time limit. *)
Theorem win_timeout_not_enforced timeout :
  let e := mk_wchild true true None true true true true (mk_wpipe [str "x"] false) (mk_wpipe [] true) None 1 in
  0 < timeout <= 4294967 ->
  WaitForSingleObject (lifetime_ms e) (wait_ms timeout) = Some WAIT_TIMEOUT /\
  (_run_child (str "cmd.exe /c x.bat") [] timeout e).1 = None.
Proof.
  cbv zeta. intros Ht. unfold _run_child, wait_ms. cbn [negb stdout_pipe_ok stderr_pipe_ok create_ok lifetime_ms fst].
  destruct (Z.ltb_spec 0 timeout); [|lia]. unfold wrap_u32. rewrite (Z.mod_small timeout), Z.mod_small by lia.
  unfold WaitForSingleObject, INFINITE. destruct (Z.eqb_spec (timeout * 1000) (2 ^ 32 - 1)); [lia|]. done.
Qed.

(** ** Environments *)

(** A block of variables as Windows lays it out. *)
Definition env_block (vars : argv_t) : list ascii := concat (map (fun v => v ++ [NUL]) vars) ++ [NUL].

Definition is_var (v : list ascii) : Prop := v <> [] /\ NUL ∉ v.

Lemma block_end_var v s : is_var v -> block_end (v ++ NUL :: s) = (fun i => (length v + i)%nat) <$> block_end (NUL :: s).
Proof.
  intros [Hne Hn]. clear Hne. induction v as [|c v IH]; [cbn [app length]; by destruct (block_end (NUL :: s))|].
  rewrite not_elem_of_cons in Hn. destruct Hn as [Hc Hn]. specialize (IH Hn). cbn [app length].
  assert (exists d r, v ++ NUL :: s = d :: r) as (d & r & E) by (destruct v; simpl; eauto).
  rewrite E in *. set (b := block_end (NUL :: s)) in *. clearbody b.
  change (block_end (c :: d :: r)) with (if bool_decide (c = NUL) && bool_decide (d = NUL) then Some 0%nat else S <$> block_end (d :: r)).
  rewrite bool_decide_false by congruence. cbn [andb]. rewrite IH. by destruct b.
Qed.

Lemma block_end_vars vars : vars <> [] -> Forall is_var vars ->
  block_end (env_block vars) = Some (length (concat (map (fun v => v ++ [NUL]) vars)) - 1)%nat.
Proof.
  intros Hne Hv. unfold env_block. induction Hv as [|v vars Hv Hvs IH]; [done|]. cbn [map concat].
  rewrite <- !(assoc_L (++)). change ([NUL] ++ ?x) with (NUL :: x). rewrite block_end_var by done.
  rewrite length_app. destruct vars as [|w vars].
  - cbn [map concat app block_end]. rewrite !bool_decide_true by done. cbn. f_equal. len.
  - specialize (IH ltac:(done)).
    assert (block_end (NUL :: concat (map (fun v => v ++ [NUL]) (w :: vars)) ++ [NUL]) =
      S <$> block_end (concat (map (fun v => v ++ [NUL]) (w :: vars)) ++ [NUL])) as ->.
    { inversion_clear Hvs as [|? ? [Hw Hn] _]. destruct w as [|c w]; [done|]. cbn [map concat app].
      cbn [block_end]. rewrite (bool_decide_false (c = NUL)) by set_solver. by rewrite andb_false_r. }
    rewrite IH. cbn [fmap option_fmap option_map]. f_equal.
    assert (0 < length (concat (map (fun v => v ++ [NUL]) (w :: vars))))%nat by (cbn [map concat]; rewrite !length_app; simpl; lia).
    cbn [length]. set (n := length (concat _)) in *. lia.
Qed.

(** The environment of a child is that of the agent followed by the
    variables added, in the format of the system. *)
Theorem env_block_extended vars extra :
  vars <> [] -> Forall is_var vars -> extra <> [] ->
  _build_env_block (Some (env_block vars)) true extra = Some (env_block (vars ++ extra)).
Proof.
  intros Hne Hv He. unfold _build_env_block. destruct extra as [|x extra]; [done|]. rewrite block_end_vars by done.
  cbn [mbind option_bind negb]. unfold env_block. rewrite map_app, concat_app.
  set (s := concat (map (fun v => v ++ [NUL]) vars)).
  assert (0 < length s)%nat as Hs by (unfold s; destruct vars; [done|]; cbn [map concat]; rewrite !length_app; simpl; lia).
  replace (S (length s - 1)) with (length s) by lia. by rewrite take_app_length, <- (assoc_L (++)).
Qed.

Lemma env_block_extended_witness :
  is_var (str "PATH=C:\Windows") /\
  _build_env_block (Some (env_block [str "PATH=C:\Windows"])) true [str "A=1"] =
  Some (env_block [str "PATH=C:\Windows"; str "A=1"]).
Proof.
  assert (is_var (str "PATH=C:\Windows")) as V by (split; [done|by apply (bool_decide_eq_true_1 _)]).
  split; [exact V|].
  apply (env_block_extended [str "PATH=C:\Windows"] [str "A=1"]); [done|by apply Forall_singleton|done].
Defined.

(** ** The interface *)

Record win_world : Type := mk_win {
  ww_files : files;
  ww_log : list argv_t;
  ww_envs : nat -> tmp_env;
  ww_tick : nat;
}.

(** The arguments a child reads from its command line are logged. *)
Definition next_win (w : win_world) (fs : files) (started : option (list ascii)) : win_world :=
  mk_win fs (ww_log w ++ match started with Some cmd => [msvcrt_args cmd] | None => [] end) (ww_envs w) (S (ww_tick w)).

#[export] Instance win_executor : Executor win_world := {|
  exec_script interp script t old w :=
    let '(r, fs, started) := leo_exec_script (ww_files w) interp script t old (ww_envs w (ww_tick w)) in
    (r, next_win w fs (fst <$> started));
  exec_argv argv env t old w :=
    let '(r, started) := leo_exec_argv argv env t old (script_child_w (ww_envs w (ww_tick w))) in
    (r, next_win w (ww_files w) (fst <$> started));
  exec_log w := ww_log w;
  interpreters := WIN_INTERPRETERS;
  script_argv := script_args;
|}.

Lemma win_run_child_started cmd extra t e :
  (_run_child cmd extra t e).2 = None \/ exists env, (_run_child cmd extra t e).2 = Some (cmd, env).
Proof. unfold _run_child. destruct (stdout_pipe_ok e), (stderr_pipe_ok e), (create_ok e); simpl; eauto. Qed.

Lemma join_reader_length ok p max out : 1 <= max -> join_reader ok p max = Some out -> strlen out < max.
Proof.
  intros Hm. unfold join_reader. destruct ok; [|intros [= <-]; unfold strlen; simpl; lia].
  destruct (pipe_ends p); [|done]. intros [= <-]. pose proof (reader_loop_length max (reads p) [] Hm). unfold strlen in *. simpl in *. lia.
Qed.

Lemma win_run_child_result cmd extra t e err r :
  (_run_child cmd extra t e).1 = Some (err, r) ->
  err ∈ [LEO_OK; LEO_ERR_SYSTEM; LEO_ERR_TIMEOUT] /\
  strlen (stdout_buf r) < LEO_EXEC_STDOUT_MAX /\ strlen (stderr_buf r) < LEO_EXEC_STDERR_MAX.
Proof.
  unfold _run_child. destruct (stdout_pipe_ok e), (stderr_pipe_ok e), (create_ok e); cbn [negb fst];
    try (intros [= <- <-]; split; [set_solver|done]).
  intros (rc & _ & (out & Eo & (er & Ee & H)%bind_Some)%bind_Some)%bind_Some.
  apply join_reader_length in Eo; [|done]. apply join_reader_length in Ee; [|done].
  destruct rc; injection H as <- <-; (split; [set_solver|done]).
Qed.

(** Nothing but the command line of the arguments is started. *)
Lemma win_argv_started argv env t old e :
  (leo_exec_argv argv env t old e).2 = None \/
  exists blk, (leo_exec_argv argv env t old e).2 = Some (cmdline argv, blk).
Proof.
  unfold leo_exec_argv. destruct argv as [|a argv]; [by left|].
  rewrite build_cmdline_exact by done. destruct (_ <? _); [|by left]. apply win_run_child_started.
Qed.

#[export] Instance win_executor_laws : ExecutorLaws win_world.
Proof.
  split; cbn [exec_argv exec_script exec_log interpreters script_argv win_executor].
  - intros argv env t old w. destruct (win_argv_started argv env t old (script_child_w (ww_envs w (ww_tick w)))) as [E|[blk E]];
      destruct (leo_exec_argv _ _ _ _ _) as [r st]; cbn [snd] in E; subst st; cbn; [left; by rewrite app_nil_r|].
    right. by rewrite split_cmdline.
  - intros argv env t old w err r w' Ha. destruct (leo_exec_argv _ _ _ _ _) as [r' st] eqn:E. intros [= -> _].
    unfold leo_exec_argv in E. destruct argv as [|a argv]; [done|].
    destruct (_build_cmdline _ _) as [cmd|]; [|injection E as <- <- _; split; [set_solver|done]].
    apply (f_equal fst) in E. cbn [fst] in E. apply win_run_child_result in E as [? ?]. auto.
  - intros interp script t old w. unfold leo_exec_script.
    destruct (_interpreter_allowed interp) eqn:A; [|left; simpl; by rewrite app_nil_r].
    apply existsb_exists in A as (i & Hi%list_elem_of_In & ->%bool_decide_eq_true). cbn [negb].
    destruct (_write_script_tmp _ _ _ _) as [[tmp|] fs1]; [|left; simpl; by rewrite app_nil_r].
    rewrite build_cmdline_exact by done. destruct (_ <? _); [|left; simpl; by rewrite app_nil_r].
    pose proof (win_run_child_started (cmdline (script_args i tmp)) [] t (script_child_w (ww_envs w (ww_tick w)))) as Hs.
    destruct (_run_child _ _ _ _) as [r sp]. cbn [snd] in Hs.
    destruct Hs as [-> |[blk ->]]; [left; simpl; by rewrite app_nil_r|]. right. split; [done|].
    exists tmp. cbn. by rewrite split_cmdline.
  - intros interp script t old w r w'. destruct (leo_exec_script _ _ _ _ _ _) as [[r' fs] st] eqn:E. intros [= -> _].
    unfold leo_exec_script in E. destruct (_interpreter_allowed interp); [|done]. cbn [negb] in E.
    destruct (_write_script_tmp _ _ _ _) as [[tmp|] fs1]; [|done].
    destruct (_build_cmdline _ _) as [cmd|]; [|done].
    destruct (_run_child _ _ _ _) as [r'' sp] eqn:R. injection E as -> _ _.
    apply (f_equal fst) in R. cbn [fst] in R. by apply win_run_child_result in R as [_ ?].
Qed.
