(* ===== verification/Input.v ===== *)
(** Injection of input for remote desktop sessions:
    [platform/linux/input_linux.c] (X11, XTest) and
    [platform/windows/input_win.c] (SendInput), behind the interface of
    [src/remote_desktop.h].

    The functions give the events they hand to the system.  The constants of
    X11 and Windows are known by their names only: keysyms and virtual keys are
    inductive types, and [XKeysymToKeycode] is an input of the session. *)
From S2P Require Import Prelude CString Ledger Double Types RemoteDesktop.

Inductive leo_rd_key_t : Type :=
| LEO_KEY_UNKNOWN | LEO_KEY_A | LEO_KEY_B | LEO_KEY_C | LEO_KEY_D | LEO_KEY_E | LEO_KEY_F | LEO_KEY_G | LEO_KEY_H
| LEO_KEY_I | LEO_KEY_J | LEO_KEY_K | LEO_KEY_L | LEO_KEY_M | LEO_KEY_N | LEO_KEY_O | LEO_KEY_P | LEO_KEY_Q
| LEO_KEY_R | LEO_KEY_S | LEO_KEY_T | LEO_KEY_U | LEO_KEY_V | LEO_KEY_W | LEO_KEY_X | LEO_KEY_Y | LEO_KEY_Z
| LEO_KEY_0 | LEO_KEY_1 | LEO_KEY_2 | LEO_KEY_3 | LEO_KEY_4 | LEO_KEY_5 | LEO_KEY_6 | LEO_KEY_7 | LEO_KEY_8
| LEO_KEY_9 | LEO_KEY_ENTER | LEO_KEY_ESCAPE | LEO_KEY_BACKSPACE | LEO_KEY_TAB | LEO_KEY_SPACE | LEO_KEY_MINUS
| LEO_KEY_EQUAL | LEO_KEY_LEFTBRACKET | LEO_KEY_RIGHTBRACKET | LEO_KEY_BACKSLASH | LEO_KEY_SEMICOLON
| LEO_KEY_QUOTE | LEO_KEY_GRAVE | LEO_KEY_COMMA | LEO_KEY_PERIOD | LEO_KEY_SLASH | LEO_KEY_CAPSLOCK | LEO_KEY_F1
| LEO_KEY_F2 | LEO_KEY_F3 | LEO_KEY_F4 | LEO_KEY_F5 | LEO_KEY_F6 | LEO_KEY_F7 | LEO_KEY_F8 | LEO_KEY_F9
| LEO_KEY_F10 | LEO_KEY_F11 | LEO_KEY_F12 | LEO_KEY_PRINTSCREEN | LEO_KEY_SCROLLLOCK | LEO_KEY_PAUSE
| LEO_KEY_INSERT | LEO_KEY_HOME | LEO_KEY_PAGEUP | LEO_KEY_DELETE | LEO_KEY_END | LEO_KEY_PAGEDOWN | LEO_KEY_RIGHT
| LEO_KEY_LEFT | LEO_KEY_DOWN | LEO_KEY_UP | LEO_KEY_NUMLOCK | LEO_KEY_LCTRL | LEO_KEY_LSHIFT | LEO_KEY_LALT
| LEO_KEY_LMETA | LEO_KEY_RCTRL | LEO_KEY_RSHIFT | LEO_KEY_RALT | LEO_KEY_RMETA.

Definition all_keys : list leo_rd_key_t :=
  [LEO_KEY_UNKNOWN; LEO_KEY_A; LEO_KEY_B; LEO_KEY_C; LEO_KEY_D; LEO_KEY_E; LEO_KEY_F; LEO_KEY_G; LEO_KEY_H;
   LEO_KEY_I; LEO_KEY_J; LEO_KEY_K; LEO_KEY_L; LEO_KEY_M; LEO_KEY_N; LEO_KEY_O; LEO_KEY_P; LEO_KEY_Q; LEO_KEY_R;
   LEO_KEY_S; LEO_KEY_T; LEO_KEY_U; LEO_KEY_V; LEO_KEY_W; LEO_KEY_X; LEO_KEY_Y; LEO_KEY_Z; LEO_KEY_0; LEO_KEY_1;
   LEO_KEY_2; LEO_KEY_3; LEO_KEY_4; LEO_KEY_5; LEO_KEY_6; LEO_KEY_7; LEO_KEY_8; LEO_KEY_9; LEO_KEY_ENTER;
   LEO_KEY_ESCAPE; LEO_KEY_BACKSPACE; LEO_KEY_TAB; LEO_KEY_SPACE; LEO_KEY_MINUS; LEO_KEY_EQUAL;
   LEO_KEY_LEFTBRACKET; LEO_KEY_RIGHTBRACKET; LEO_KEY_BACKSLASH; LEO_KEY_SEMICOLON; LEO_KEY_QUOTE; LEO_KEY_GRAVE;
   LEO_KEY_COMMA; LEO_KEY_PERIOD; LEO_KEY_SLASH; LEO_KEY_CAPSLOCK; LEO_KEY_F1; LEO_KEY_F2; LEO_KEY_F3; LEO_KEY_F4;
   LEO_KEY_F5; LEO_KEY_F6; LEO_KEY_F7; LEO_KEY_F8; LEO_KEY_F9; LEO_KEY_F10; LEO_KEY_F11; LEO_KEY_F12;
   LEO_KEY_PRINTSCREEN; LEO_KEY_SCROLLLOCK; LEO_KEY_PAUSE; LEO_KEY_INSERT; LEO_KEY_HOME; LEO_KEY_PAGEUP;
   LEO_KEY_DELETE; LEO_KEY_END; LEO_KEY_PAGEDOWN; LEO_KEY_RIGHT; LEO_KEY_LEFT; LEO_KEY_DOWN; LEO_KEY_UP;
   LEO_KEY_NUMLOCK; LEO_KEY_LCTRL; LEO_KEY_LSHIFT; LEO_KEY_LALT; LEO_KEY_LMETA; LEO_KEY_RCTRL; LEO_KEY_RSHIFT;
   LEO_KEY_RALT; LEO_KEY_RMETA].

(** The X11 keysyms the agent names. *)
Inductive KeySym : Type :=
| XK_a | XK_b | XK_c | XK_d | XK_e | XK_f | XK_g | XK_h | XK_i | XK_j | XK_k | XK_l | XK_m | XK_n | XK_o | XK_p
| XK_q | XK_r | XK_s | XK_t | XK_u | XK_v | XK_w | XK_x | XK_y | XK_z | XK_0 | XK_1 | XK_2 | XK_3 | XK_4 | XK_5
| XK_6 | XK_7 | XK_8 | XK_9 | XK_Return | XK_Escape | XK_BackSpace | XK_Tab | XK_space | XK_minus | XK_equal
| XK_bracketleft | XK_bracketright | XK_backslash | XK_semicolon | XK_apostrophe | XK_grave | XK_comma | XK_period
| XK_slash | XK_Caps_Lock | XK_F1 | XK_F2 | XK_F3 | XK_F4 | XK_F5 | XK_F6 | XK_F7 | XK_F8 | XK_F9 | XK_F10 | XK_F11
| XK_F12 | XK_Print | XK_Scroll_Lock | XK_Pause | XK_Insert | XK_Home | XK_Page_Up | XK_Delete | XK_End
| XK_Page_Down | XK_Right | XK_Left | XK_Down | XK_Up | XK_Num_Lock | XK_Control_L | XK_Shift_L | XK_Alt_L
| XK_Super_L | XK_Control_R | XK_Shift_R | XK_Alt_R | XK_Super_R.

(** [None] is [NoSymbol]. *)
Definition _keysym_for (key : leo_rd_key_t) : option KeySym :=
  match key with
  | LEO_KEY_A => Some XK_a | LEO_KEY_B => Some XK_b | LEO_KEY_C => Some XK_c | LEO_KEY_D => Some XK_d
  | LEO_KEY_E => Some XK_e | LEO_KEY_F => Some XK_f | LEO_KEY_G => Some XK_g | LEO_KEY_H => Some XK_h
  | LEO_KEY_I => Some XK_i | LEO_KEY_J => Some XK_j | LEO_KEY_K => Some XK_k | LEO_KEY_L => Some XK_l
  | LEO_KEY_M => Some XK_m | LEO_KEY_N => Some XK_n | LEO_KEY_O => Some XK_o | LEO_KEY_P => Some XK_p
  | LEO_KEY_Q => Some XK_q | LEO_KEY_R => Some XK_r | LEO_KEY_S => Some XK_s | LEO_KEY_T => Some XK_t
  | LEO_KEY_U => Some XK_u | LEO_KEY_V => Some XK_v | LEO_KEY_W => Some XK_w | LEO_KEY_X => Some XK_x
  | LEO_KEY_Y => Some XK_y | LEO_KEY_Z => Some XK_z | LEO_KEY_0 => Some XK_0 | LEO_KEY_1 => Some XK_1
  | LEO_KEY_2 => Some XK_2 | LEO_KEY_3 => Some XK_3 | LEO_KEY_4 => Some XK_4 | LEO_KEY_5 => Some XK_5
  | LEO_KEY_6 => Some XK_6 | LEO_KEY_7 => Some XK_7 | LEO_KEY_8 => Some XK_8 | LEO_KEY_9 => Some XK_9
  | LEO_KEY_ENTER => Some XK_Return | LEO_KEY_ESCAPE => Some XK_Escape | LEO_KEY_BACKSPACE => Some XK_BackSpace
  | LEO_KEY_TAB => Some XK_Tab | LEO_KEY_SPACE => Some XK_space | LEO_KEY_MINUS => Some XK_minus
  | LEO_KEY_EQUAL => Some XK_equal | LEO_KEY_LEFTBRACKET => Some XK_bracketleft
  | LEO_KEY_RIGHTBRACKET => Some XK_bracketright | LEO_KEY_BACKSLASH => Some XK_backslash
  | LEO_KEY_SEMICOLON => Some XK_semicolon | LEO_KEY_QUOTE => Some XK_apostrophe | LEO_KEY_GRAVE => Some XK_grave
  | LEO_KEY_COMMA => Some XK_comma | LEO_KEY_PERIOD => Some XK_period | LEO_KEY_SLASH => Some XK_slash
  | LEO_KEY_CAPSLOCK => Some XK_Caps_Lock | LEO_KEY_F1 => Some XK_F1 | LEO_KEY_F2 => Some XK_F2
  | LEO_KEY_F3 => Some XK_F3 | LEO_KEY_F4 => Some XK_F4 | LEO_KEY_F5 => Some XK_F5 | LEO_KEY_F6 => Some XK_F6
  | LEO_KEY_F7 => Some XK_F7 | LEO_KEY_F8 => Some XK_F8 | LEO_KEY_F9 => Some XK_F9 | LEO_KEY_F10 => Some XK_F10
  | LEO_KEY_F11 => Some XK_F11 | LEO_KEY_F12 => Some XK_F12 | LEO_KEY_PRINTSCREEN => Some XK_Print
  | LEO_KEY_SCROLLLOCK => Some XK_Scroll_Lock | LEO_KEY_PAUSE => Some XK_Pause | LEO_KEY_INSERT => Some XK_Insert
  | LEO_KEY_HOME => Some XK_Home | LEO_KEY_PAGEUP => Some XK_Page_Up | LEO_KEY_DELETE => Some XK_Delete
  | LEO_KEY_END => Some XK_End | LEO_KEY_PAGEDOWN => Some XK_Page_Down | LEO_KEY_RIGHT => Some XK_Right
  | LEO_KEY_LEFT => Some XK_Left | LEO_KEY_DOWN => Some XK_Down | LEO_KEY_UP => Some XK_Up
  | LEO_KEY_NUMLOCK => Some XK_Num_Lock | LEO_KEY_LCTRL => Some XK_Control_L | LEO_KEY_LSHIFT => Some XK_Shift_L
  | LEO_KEY_LALT => Some XK_Alt_L | LEO_KEY_LMETA => Some XK_Super_L | LEO_KEY_RCTRL => Some XK_Control_R
  | LEO_KEY_RSHIFT => Some XK_Shift_R | LEO_KEY_RALT => Some XK_Alt_R | LEO_KEY_RMETA => Some XK_Super_R
  | LEO_KEY_UNKNOWN => None
  end.

(** A virtual key of Windows: a letter or digit is its character. *)
Inductive VK : Type :=
| VK_char (c : ascii)
| VK_RETURN | VK_ESCAPE | VK_BACK | VK_TAB | VK_SPACE | VK_OEM_MINUS | VK_OEM_PLUS | VK_OEM_4 | VK_OEM_6 | VK_OEM_5
| VK_OEM_1 | VK_OEM_7 | VK_OEM_3 | VK_OEM_COMMA | VK_OEM_PERIOD | VK_OEM_2 | VK_CAPITAL | VK_F1 | VK_F2 | VK_F3
| VK_F4 | VK_F5 | VK_F6 | VK_F7 | VK_F8 | VK_F9 | VK_F10 | VK_F11 | VK_F12 | VK_SNAPSHOT | VK_SCROLL | VK_PAUSE
| VK_INSERT | VK_HOME | VK_PRIOR | VK_DELETE | VK_END | VK_NEXT | VK_RIGHT | VK_LEFT | VK_DOWN | VK_UP | VK_NUMLOCK
| VK_LCONTROL | VK_LSHIFT | VK_LMENU | VK_LWIN | VK_RCONTROL | VK_RSHIFT | VK_RMENU | VK_RWIN.

(** [None] is 0. *)
Definition _vk_for_key (key : leo_rd_key_t) : option VK :=
  match key with
  | LEO_KEY_A => Some (VK_char "A") | LEO_KEY_B => Some (VK_char "B") | LEO_KEY_C => Some (VK_char "C")
  | LEO_KEY_D => Some (VK_char "D") | LEO_KEY_E => Some (VK_char "E") | LEO_KEY_F => Some (VK_char "F")
  | LEO_KEY_G => Some (VK_char "G") | LEO_KEY_H => Some (VK_char "H") | LEO_KEY_I => Some (VK_char "I")
  | LEO_KEY_J => Some (VK_char "J") | LEO_KEY_K => Some (VK_char "K") | LEO_KEY_L => Some (VK_char "L")
  | LEO_KEY_M => Some (VK_char "M") | LEO_KEY_N => Some (VK_char "N") | LEO_KEY_O => Some (VK_char "O")
  | LEO_KEY_P => Some (VK_char "P") | LEO_KEY_Q => Some (VK_char "Q") | LEO_KEY_R => Some (VK_char "R")
  | LEO_KEY_S => Some (VK_char "S") | LEO_KEY_T => Some (VK_char "T") | LEO_KEY_U => Some (VK_char "U")
  | LEO_KEY_V => Some (VK_char "V") | LEO_KEY_W => Some (VK_char "W") | LEO_KEY_X => Some (VK_char "X")
  | LEO_KEY_Y => Some (VK_char "Y") | LEO_KEY_Z => Some (VK_char "Z") | LEO_KEY_0 => Some (VK_char "0")
  | LEO_KEY_1 => Some (VK_char "1") | LEO_KEY_2 => Some (VK_char "2") | LEO_KEY_3 => Some (VK_char "3")
  | LEO_KEY_4 => Some (VK_char "4") | LEO_KEY_5 => Some (VK_char "5") | LEO_KEY_6 => Some (VK_char "6")
  | LEO_KEY_7 => Some (VK_char "7") | LEO_KEY_8 => Some (VK_char "8") | LEO_KEY_9 => Some (VK_char "9")
  | LEO_KEY_ENTER => Some VK_RETURN | LEO_KEY_ESCAPE => Some VK_ESCAPE | LEO_KEY_BACKSPACE => Some VK_BACK
  | LEO_KEY_TAB => Some VK_TAB | LEO_KEY_SPACE => Some VK_SPACE | LEO_KEY_MINUS => Some VK_OEM_MINUS
  | LEO_KEY_EQUAL => Some VK_OEM_PLUS | LEO_KEY_LEFTBRACKET => Some VK_OEM_4
  | LEO_KEY_RIGHTBRACKET => Some VK_OEM_6 | LEO_KEY_BACKSLASH => Some VK_OEM_5 | LEO_KEY_SEMICOLON => Some VK_OEM_1
  | LEO_KEY_QUOTE => Some VK_OEM_7 | LEO_KEY_GRAVE => Some VK_OEM_3 | LEO_KEY_COMMA => Some VK_OEM_COMMA
  | LEO_KEY_PERIOD => Some VK_OEM_PERIOD | LEO_KEY_SLASH => Some VK_OEM_2 | LEO_KEY_CAPSLOCK => Some VK_CAPITAL
  | LEO_KEY_F1 => Some VK_F1 | LEO_KEY_F2 => Some VK_F2 | LEO_KEY_F3 => Some VK_F3 | LEO_KEY_F4 => Some VK_F4
  | LEO_KEY_F5 => Some VK_F5 | LEO_KEY_F6 => Some VK_F6 | LEO_KEY_F7 => Some VK_F7 | LEO_KEY_F8 => Some VK_F8
  | LEO_KEY_F9 => Some VK_F9 | LEO_KEY_F10 => Some VK_F10 | LEO_KEY_F11 => Some VK_F11 | LEO_KEY_F12 => Some VK_F12
  | LEO_KEY_PRINTSCREEN => Some VK_SNAPSHOT | LEO_KEY_SCROLLLOCK => Some VK_SCROLL | LEO_KEY_PAUSE => Some VK_PAUSE
  | LEO_KEY_INSERT => Some VK_INSERT | LEO_KEY_HOME => Some VK_HOME | LEO_KEY_PAGEUP => Some VK_PRIOR
  | LEO_KEY_DELETE => Some VK_DELETE | LEO_KEY_END => Some VK_END | LEO_KEY_PAGEDOWN => Some VK_NEXT
  | LEO_KEY_RIGHT => Some VK_RIGHT | LEO_KEY_LEFT => Some VK_LEFT | LEO_KEY_DOWN => Some VK_DOWN
  | LEO_KEY_UP => Some VK_UP | LEO_KEY_NUMLOCK => Some VK_NUMLOCK | LEO_KEY_LCTRL => Some VK_LCONTROL
  | LEO_KEY_LSHIFT => Some VK_LSHIFT | LEO_KEY_LALT => Some VK_LMENU | LEO_KEY_LMETA => Some VK_LWIN
  | LEO_KEY_RCTRL => Some VK_RCONTROL | LEO_KEY_RSHIFT => Some VK_RSHIFT | LEO_KEY_RALT => Some VK_RMENU
  | LEO_KEY_RMETA => Some VK_RWIN
  | LEO_KEY_UNKNOWN => None
  end.

(** The key of a byte of the protocol; a value past the last one takes the
    default branch of the [switch]es, like [LEO_KEY_UNKNOWN]. *)
Definition key_of_byte (b : Z) : leo_rd_key_t := nth (Z.to_nat b) all_keys LEO_KEY_UNKNOWN.

(** ** X11 *)

Record x11_input : Type := mk_x11 {
  screen_w : Z;
  screen_h : Z;
  keycode : KeySym -> Z;     (* XKeysymToKeycode *)
}.

Inductive x_event : Type :=
| XTestFakeMotionEvent (px py : Z)
| XTestFakeButtonEvent (button : Z) (is_press : bool)
| XTestFakeKeyEvent (kc : Z) (is_press : bool).

(** What the machine offers to [leo_rd_input_open]. *)
Record x11_env : Type := mk_x11_env {
  in_calloc_ok : bool;
  in_display : option (Z * Z);   (* the size of the default screen *)
  xtest_ok : bool;
  in_keycode : KeySym -> Z;
}.

Inductive in_resource : Type := InMemory | InDisplay.

#[export] Instance in_resource_eq_dec : EqDecision in_resource.
Proof. solve_decision. Defined.

Definition in_needs (r : in_resource) : list in_resource :=
  match r with InMemory => [] | InDisplay => [InMemory] end.

(** The session, and what was acquired and released. *)
Definition x11_input_open (e : x11_env) : option x11_input * list (entry in_resource) :=
  if negb (in_calloc_ok e) then (None, [])
  else
    match in_display e with
    | None => (None, [Get InMemory; Put InMemory])
    | Some (w, h) =>
        if negb (xtest_ok e) then (None, [Get InMemory; Get InDisplay; Put InDisplay; Put InMemory])
        else (Some (mk_x11 w h (in_keycode e)), [Get InMemory; Get InDisplay])
    end.

Definition x11_input_close : list (entry in_resource) := [Put InDisplay; Put InMemory].

Definition x11_input_move (inp : x11_input) (x y : Z) : list x_event :=
  let px := wrap_s32 (Z.quot (x * (screen_w inp - 1)) 65535) in
  let py := wrap_s32 (Z.quot (y * (screen_h inp - 1)) 65535) in
  [XTestFakeMotionEvent px py].

Definition x11_input_button (button : Z) (down : bool) : list x_event :=
  if (button <? 1) || (3 <? button) then [] else [XTestFakeButtonEvent button down].

(** The opposite of the least [int] is undefined. *)
Definition x11_input_scroll (delta_units : Z) : outcome (list x_event) :=
  if delta_units =? 0 then Ret []
  else
    let btn := if 0 <? delta_units then 4 else 5 in
    if delta_units =? INT_MIN then Undef
    else
      let count := if 0 <? delta_units then delta_units else - delta_units in
      let count := if 10 <? count then 10 else count in
      Ret (concat (replicate (Z.to_nat count) [XTestFakeButtonEvent btn true; XTestFakeButtonEvent btn false])).

Definition x11_input_key (inp : x11_input) (key : leo_rd_key_t) (down : bool) : list x_event :=
  match _keysym_for key with
  | None => []
  | Some ks =>
      let kc := keycode inp ks in
      if kc =? 0 then [] else [XTestFakeKeyEvent kc down]
  end.

(** What a request of the session does. *)
Definition x11_inject (inp : x11_input) (i : rd_input) : outcome (list x_event) :=
  match i with
  | leo_rd_input_move x y => Ret (x11_input_move inp x y)
  | leo_rd_input_button b d => Ret (x11_input_button b d)
  | leo_rd_input_scroll d => x11_input_scroll d
  | leo_rd_input_key k d => Ret (x11_input_key inp (key_of_byte k) d)
  end.

(** ** Windows *)

Inductive win_event : Type :=
| MouseMove (dx dy : Z)                        (* MOVE, ABSOLUTE, VIRTUALDESK *)
| MouseButton (button : Z) (down : bool)       (* LEFT, MIDDLE or RIGHT, DOWN or UP *)
| MouseWheel (mouseData : Z)
| Keyboard (vk : VK) (keyup : bool).

Definition WHEEL_DELTA : Z := 120.

(** The size of the virtual screen, when it is usable. *)
Definition win_input_open (calloc_ok : bool) (virt_w virt_h : Z) : option (Z * Z) * list (entry in_resource) :=
  if negb calloc_ok then (None, [])
  else if (virt_w <=? 0) || (virt_h <=? 0) then (None, [Get InMemory; Put InMemory])
  else (Some (virt_w, virt_h), [Get InMemory]).

Definition win_input_close : list (entry in_resource) := [Put InMemory].

Definition win_input_move (x y : Z) : list win_event := [MouseMove x y].

Definition win_input_button (button : Z) (down : bool) : list win_event :=
  if (button =? 1) || (button =? 2) || (button =? 3) then [MouseButton button down] else [].

(** The product is a signed one. *)
Definition win_input_scroll (delta_units : Z) : outcome (list win_event) :=
  if delta_units =? 0 then Ret []
  else
    let d := delta_units * WHEEL_DELTA in
    if (INT_MIN <=? d) && (d <=? INT_MAX) then Ret [MouseWheel (wrap_u32 d)] else Undef.

Definition win_input_key (key : leo_rd_key_t) (down : bool) : list win_event :=
  match _vk_for_key key with
  | None => []
  | Some vk => [Keyboard vk (negb down)]
  end.

Definition win_inject (i : rd_input) : outcome (list win_event) :=
  match i with
  | leo_rd_input_move x y => Ret (win_input_move x y)
  | leo_rd_input_button b d => Ret (win_input_button b d)
  | leo_rd_input_scroll d => win_input_scroll d
  | leo_rd_input_key k d => Ret (win_input_key (key_of_byte k) d)
  end.

(** ** Keys *)

(** The key a keysym stands for. *)
Definition key_of_keysym (s : KeySym) : leo_rd_key_t :=
  match s with
  | XK_a => LEO_KEY_A | XK_b => LEO_KEY_B | XK_c => LEO_KEY_C | XK_d => LEO_KEY_D | XK_e => LEO_KEY_E
  | XK_f => LEO_KEY_F | XK_g => LEO_KEY_G | XK_h => LEO_KEY_H | XK_i => LEO_KEY_I | XK_j => LEO_KEY_J
  | XK_k => LEO_KEY_K | XK_l => LEO_KEY_L | XK_m => LEO_KEY_M | XK_n => LEO_KEY_N | XK_o => LEO_KEY_O
  | XK_p => LEO_KEY_P | XK_q => LEO_KEY_Q | XK_r => LEO_KEY_R | XK_s => LEO_KEY_S | XK_t => LEO_KEY_T
  | XK_u => LEO_KEY_U | XK_v => LEO_KEY_V | XK_w => LEO_KEY_W | XK_x => LEO_KEY_X | XK_y => LEO_KEY_Y
  | XK_z => LEO_KEY_Z | XK_0 => LEO_KEY_0 | XK_1 => LEO_KEY_1 | XK_2 => LEO_KEY_2 | XK_3 => LEO_KEY_3
  | XK_4 => LEO_KEY_4 | XK_5 => LEO_KEY_5 | XK_6 => LEO_KEY_6 | XK_7 => LEO_KEY_7 | XK_8 => LEO_KEY_8
  | XK_9 => LEO_KEY_9 | XK_Return => LEO_KEY_ENTER | XK_Escape => LEO_KEY_ESCAPE
  | XK_BackSpace => LEO_KEY_BACKSPACE | XK_Tab => LEO_KEY_TAB | XK_space => LEO_KEY_SPACE
  | XK_minus => LEO_KEY_MINUS | XK_equal => LEO_KEY_EQUAL | XK_bracketleft => LEO_KEY_LEFTBRACKET
  | XK_bracketright => LEO_KEY_RIGHTBRACKET | XK_backslash => LEO_KEY_BACKSLASH | XK_semicolon => LEO_KEY_SEMICOLON
  | XK_apostrophe => LEO_KEY_QUOTE | XK_grave => LEO_KEY_GRAVE | XK_comma => LEO_KEY_COMMA
  | XK_period => LEO_KEY_PERIOD | XK_slash => LEO_KEY_SLASH | XK_Caps_Lock => LEO_KEY_CAPSLOCK
  | XK_F1 => LEO_KEY_F1 | XK_F2 => LEO_KEY_F2 | XK_F3 => LEO_KEY_F3 | XK_F4 => LEO_KEY_F4 | XK_F5 => LEO_KEY_F5
  | XK_F6 => LEO_KEY_F6 | XK_F7 => LEO_KEY_F7 | XK_F8 => LEO_KEY_F8 | XK_F9 => LEO_KEY_F9 | XK_F10 => LEO_KEY_F10
  | XK_F11 => LEO_KEY_F11 | XK_F12 => LEO_KEY_F12 | XK_Print => LEO_KEY_PRINTSCREEN
  | XK_Scroll_Lock => LEO_KEY_SCROLLLOCK | XK_Pause => LEO_KEY_PAUSE | XK_Insert => LEO_KEY_INSERT
  | XK_Home => LEO_KEY_HOME | XK_Page_Up => LEO_KEY_PAGEUP | XK_Delete => LEO_KEY_DELETE | XK_End => LEO_KEY_END
  | XK_Page_Down => LEO_KEY_PAGEDOWN | XK_Right => LEO_KEY_RIGHT | XK_Left => LEO_KEY_LEFT
  | XK_Down => LEO_KEY_DOWN | XK_Up => LEO_KEY_UP | XK_Num_Lock => LEO_KEY_NUMLOCK | XK_Control_L => LEO_KEY_LCTRL
  | XK_Shift_L => LEO_KEY_LSHIFT | XK_Alt_L => LEO_KEY_LALT | XK_Super_L => LEO_KEY_LMETA
  | XK_Control_R => LEO_KEY_RCTRL | XK_Shift_R => LEO_KEY_RSHIFT | XK_Alt_R => LEO_KEY_RALT
  | XK_Super_R => LEO_KEY_RMETA
  end.

(** The key a virtual key stands for. *)
Definition key_of_vk (v : VK) : leo_rd_key_t :=
  match v with
  | VK_char "A" => LEO_KEY_A | VK_char "B" => LEO_KEY_B | VK_char "C" => LEO_KEY_C | VK_char "D" => LEO_KEY_D
  | VK_char "E" => LEO_KEY_E | VK_char "F" => LEO_KEY_F | VK_char "G" => LEO_KEY_G | VK_char "H" => LEO_KEY_H
  | VK_char "I" => LEO_KEY_I | VK_char "J" => LEO_KEY_J | VK_char "K" => LEO_KEY_K | VK_char "L" => LEO_KEY_L
  | VK_char "M" => LEO_KEY_M | VK_char "N" => LEO_KEY_N | VK_char "O" => LEO_KEY_O | VK_char "P" => LEO_KEY_P
  | VK_char "Q" => LEO_KEY_Q | VK_char "R" => LEO_KEY_R | VK_char "S" => LEO_KEY_S | VK_char "T" => LEO_KEY_T
  | VK_char "U" => LEO_KEY_U | VK_char "V" => LEO_KEY_V | VK_char "W" => LEO_KEY_W | VK_char "X" => LEO_KEY_X
  | VK_char "Y" => LEO_KEY_Y | VK_char "Z" => LEO_KEY_Z | VK_char "0" => LEO_KEY_0 | VK_char "1" => LEO_KEY_1
  | VK_char "2" => LEO_KEY_2 | VK_char "3" => LEO_KEY_3 | VK_char "4" => LEO_KEY_4 | VK_char "5" => LEO_KEY_5
  | VK_char "6" => LEO_KEY_6 | VK_char "7" => LEO_KEY_7 | VK_char "8" => LEO_KEY_8 | VK_char "9" => LEO_KEY_9
  | VK_char _ => LEO_KEY_UNKNOWN
  | VK_RETURN => LEO_KEY_ENTER | VK_ESCAPE => LEO_KEY_ESCAPE | VK_BACK => LEO_KEY_BACKSPACE | VK_TAB => LEO_KEY_TAB
  | VK_SPACE => LEO_KEY_SPACE | VK_OEM_MINUS => LEO_KEY_MINUS | VK_OEM_PLUS => LEO_KEY_EQUAL
  | VK_OEM_4 => LEO_KEY_LEFTBRACKET | VK_OEM_6 => LEO_KEY_RIGHTBRACKET | VK_OEM_5 => LEO_KEY_BACKSLASH
  | VK_OEM_1 => LEO_KEY_SEMICOLON | VK_OEM_7 => LEO_KEY_QUOTE | VK_OEM_3 => LEO_KEY_GRAVE
  | VK_OEM_COMMA => LEO_KEY_COMMA | VK_OEM_PERIOD => LEO_KEY_PERIOD | VK_OEM_2 => LEO_KEY_SLASH
  | VK_CAPITAL => LEO_KEY_CAPSLOCK | VK_F1 => LEO_KEY_F1 | VK_F2 => LEO_KEY_F2 | VK_F3 => LEO_KEY_F3
  | VK_F4 => LEO_KEY_F4 | VK_F5 => LEO_KEY_F5 | VK_F6 => LEO_KEY_F6 | VK_F7 => LEO_KEY_F7 | VK_F8 => LEO_KEY_F8
  | VK_F9 => LEO_KEY_F9 | VK_F10 => LEO_KEY_F10 | VK_F11 => LEO_KEY_F11 | VK_F12 => LEO_KEY_F12
  | VK_SNAPSHOT => LEO_KEY_PRINTSCREEN | VK_SCROLL => LEO_KEY_SCROLLLOCK | VK_PAUSE => LEO_KEY_PAUSE
  | VK_INSERT => LEO_KEY_INSERT | VK_HOME => LEO_KEY_HOME | VK_PRIOR => LEO_KEY_PAGEUP
  | VK_DELETE => LEO_KEY_DELETE | VK_END => LEO_KEY_END | VK_NEXT => LEO_KEY_PAGEDOWN | VK_RIGHT => LEO_KEY_RIGHT
  | VK_LEFT => LEO_KEY_LEFT | VK_DOWN => LEO_KEY_DOWN | VK_UP => LEO_KEY_UP | VK_NUMLOCK => LEO_KEY_NUMLOCK
  | VK_LCONTROL => LEO_KEY_LCTRL | VK_LSHIFT => LEO_KEY_LSHIFT | VK_LMENU => LEO_KEY_LALT
  | VK_LWIN => LEO_KEY_LMETA | VK_RCONTROL => LEO_KEY_RCTRL | VK_RSHIFT => LEO_KEY_RSHIFT
  | VK_RMENU => LEO_KEY_RALT | VK_RWIN => LEO_KEY_RMETA
  end.

Lemma key_of_keysym_for k s : _keysym_for k = Some s -> key_of_keysym s = k.
Proof. by destruct k; intros [= <-]. Qed.

Lemma key_of_vk_for k v : _vk_for_key k = Some v -> key_of_vk v = k.
Proof. by destruct k; intros [= <-]. Qed.

Lemma known_key k : (is_Some (_keysym_for k) <-> k <> LEO_KEY_UNKNOWN) /\ (is_Some (_vk_for_key k) <-> k <> LEO_KEY_UNKNOWN).
Proof.
  split; split.
  - intros [s H] ->. done.
  - destruct k; [done|..]; eauto.
  - intros [s H] ->. done.
  - destruct k; [done|..]; eauto.
Qed.

(** Both platforms know the same keys, all of the protocol's but the
    unknown one, and no two keys are confused on either of them. *)
Theorem same_keys k :
  (is_Some (_keysym_for k) <-> is_Some (_vk_for_key k)) /\
  (forall k', is_Some (_keysym_for k) -> _keysym_for k = _keysym_for k' -> k = k') /\
  (forall k', is_Some (_vk_for_key k) -> _vk_for_key k = _vk_for_key k' -> k = k').
Proof.
  destruct (known_key k) as [A B]. split_and!; [by rewrite A, B|..].
  - intros k' [s Hs] E. rewrite Hs in E. apply key_of_keysym_for in Hs. symmetry in E. apply key_of_keysym_for in E. congruence.
  - intros k' [v Hv] E. rewrite Hv in E. apply key_of_vk_for in Hv. symmetry in E. apply key_of_vk_for in E. congruence.
Qed.

(** ** What a session can inject *)

Definition is_bytes (data : list Z) : Prop := Forall (fun b => 0 <= b < 256) data.

Lemma be16_range hi lo : 0 <= hi < 256 -> 0 <= lo < 256 -> 0 <= be16 hi lo < 65536.
Proof. intros ??. rewrite be16_spec by lia. lia. Qed.

(** What the decoder can ask for. *)
Lemma decode_input_range data i : is_bytes data -> decode_input data = Some i ->
  match i with
  | leo_rd_input_move x y => 0 <= x < 65536 /\ 0 <= y < 65536
  | leo_rd_input_button b _ => 0 <= b < 256
  | leo_rd_input_scroll d => -32768 <= d <= 32767
  | leo_rd_input_key k _ => 0 <= k < 256
  end.
Proof.
  intros Hb E. unfold decode_input in E. cbv zeta in E. pose proof (fun i => at_byte data i Hb) as Ha.
  destruct (_ =? _RD_WIRE_INPUT_MOVE); [destruct (5 <=? _); [|done]; injection E as <-; auto using be16_range|].
  destruct (_ =? _RD_WIRE_INPUT_BUTTON); [destruct (3 <=? _); [|done]; injection E as <-; apply Ha|].
  destruct (_ =? _RD_WIRE_INPUT_SCROLL).
  - destruct (3 <=? _); [|done]. injection E as <-. unfold wrap_s16.
    pose proof (Z.mod_pos_bound (be16 (at_ data 1) (at_ data 2) + 2 ^ 15) (2 ^ 16) ltac:(lia)). lia.
  - destruct (_ =? _RD_WIRE_INPUT_KEY); [|done]. destruct (3 <=? _); [|done]. injection E as <-. apply Ha.
Qed.

(** An event that stays on the screen, with the buttons of a mouse. *)
Definition confined (inp : x11_input) (ev : x_event) : Prop :=
  match ev with
  | XTestFakeMotionEvent px py => 0 <= px < screen_w inp /\ 0 <= py < screen_h inp
  | XTestFakeButtonEvent b _ => 1 <= b <= 5
  | XTestFakeKeyEvent kc _ => exists k ks, _keysym_for k = Some ks /\ kc = keycode inp ks
  end.

Lemma scale_pixel x w : 0 <= x < 65536 -> 0 < w <= INT_MAX -> 0 <= wrap_s32 (Z.quot (x * (w - 1)) 65535) < w.
Proof.
  intros Hx Hw. assert (0 <= Z.quot (x * (w - 1)) 65535 < w) as H.
  { rewrite Z.quot_div_nonneg by nia. split; [apply Z.div_pos; nia|]. apply Z.div_lt_upper_bound; nia. }
  rewrite wrap_s32_id; [done|]. unfold INT_MIN, INT_MAX in *. lia.
Qed.

Lemma clicks_confined inp b n : 1 <= b <= 5 ->
  Forall (confined inp) (concat (replicate n [XTestFakeButtonEvent b true; XTestFakeButtonEvent b false])).
Proof. intros Hb. induction n as [|n IH]; simpl; [constructor|]. by repeat apply Forall_cons_2. Qed.

Lemma clicks_length b n :
  length (concat (replicate n [XTestFakeButtonEvent b true; XTestFakeButtonEvent b false])) = (2 * n)%nat.
Proof. induction n as [|n IH]; [done|]. cbn [replicate concat]. rewrite length_app, IH. simpl. lia. Qed.

(** Whatever bytes the browser sends, what is injected on X11 is defined
    and confined: the pointer stays on the screen, only buttons of the mouse
    and of its wheel and keys of the protocol are used, and one message makes
    at most twenty events. *)
Theorem x11_input_confined inp data i :
  0 < screen_w inp <= INT_MAX -> 0 < screen_h inp <= INT_MAX -> is_bytes data -> decode_input data = Some i ->
  exists evs, x11_inject inp i = Ret evs /\ Forall (confined inp) evs /\ (length evs <= 20)%nat.
Proof.
  intros Hw Hh Hb Hd. apply decode_input_range in Hd; [|done]. destruct i as [x y|b d|d|k d]; cbn [x11_inject].
  - eexists. split; [done|]. split; [|simpl; lia]. unfold x11_input_move. cbv zeta. apply Forall_singleton. destruct Hd. split; by apply scale_pixel.
  - eexists. split; [done|]. unfold x11_input_button. destruct (_ || _) eqn:E; [split; [constructor|simpl; lia]|].
    breflect. split; [|simpl; lia]. apply Forall_singleton. cbn [confined]. lia.
  - unfold x11_input_scroll. destruct (d =? 0); [eexists; split; [done|split; [constructor|simpl; lia]]|].
    destruct (Z.eqb_spec d INT_MIN) as [->|_]; [unfold INT_MIN in Hd; lia|]. eexists. split; [done|]. split.
    + apply clicks_confined. destruct (0 <? d); lia.
    + rewrite clicks_length. destruct (Z.ltb_spec 10 (if 0 <? d then d else - d)); lia.
  - eexists. split; [done|]. unfold x11_input_key. destruct (_keysym_for _) as [ks|] eqn:E; [|split; [constructor|simpl; lia]].
    destruct (_ =? 0); [split; [constructor|simpl; lia]|]. split; [|simpl; lia]. apply Forall_singleton. cbn [confined]. eauto.
Qed.

Definition sample_x11 : x11_input := mk_x11 1920 1080 (fun _ => 38).

Lemma x11_input_confined_witness :
  is_bytes [16; 255; 255; 255; 255] /\
  x11_inject sample_x11 (leo_rd_input_move 65535 65535) = Ret [XTestFakeMotionEvent 1919 1079] /\
  exists evs, x11_inject sample_x11 (leo_rd_input_move 65535 65535) = Ret evs /\
  Forall (confined sample_x11) evs /\ (length evs <= 20)%nat.
Proof.
  assert (is_bytes [16; 255; 255; 255; 255]) as B by (repeat apply Forall_cons_2; try lia; constructor).
  split_and!; [exact B|reflexivity|].
  apply (x11_input_confined sample_x11 [16; 255; 255; 255; 255]); [done|done|exact B|reflexivity].
Defined.

(** The same message of the wheel is bounded to ten notches on X11 and not on
    Windows. *)
Theorem win_scroll_unbounded :
  (evs ← x11_inject sample_x11 (leo_rd_input_scroll 32767); Ret (length evs)) = Ret 20%nat /\
  win_inject (leo_rd_input_scroll 32767) = Ret [MouseWheel (32767 * 120)].
Proof. split; vm_compute; reflexivity. Qed.

(** Opening a session gives one, which closing releases entirely, or leaves
    nothing acquired. *)
Theorem input_leaves_nothing xe ok w h :
  let '(o, es) := x11_input_open xe in
  let '(o', es') := win_input_open ok w h in
  replay in_needs [] (es ++ match o with Some _ => x11_input_close | None => [] end) = Some [] /\
  replay in_needs [] (es' ++ match o' with Some _ => win_input_close | None => [] end) = Some [].
Proof.
  unfold x11_input_open, win_input_open. destruct (in_calloc_ok xe), (in_display xe) as [[]|], (xtest_ok xe), ok; cbn [negb];
    try destruct (_ || _); done.
Qed.
