(* ===== verification/Capture.v ===== *)
(** Screen capture for remote desktop sessions:
    [platform/linux/capture_linux.c] (X11, shared memory or XGetImage) and
    [platform/windows/capture_win.c] (GDI), behind the interface of
    [src/remote_desktop.h].

    Opening and closing are sequences of acquisitions and releases, which the
    ledger of [Ledger] replays.
    A grab gives the pixels it writes to the output buffer, whose size was
    chosen when the capture was opened. *)
From S2P Require Import Prelude Double Types RemoteDesktop Ledger.

(** ** X11 *)

Inductive x_resource : Type := XCap | XDisplay | XOutBuf | XShmImage | XShmSegment | XShmMap | XShmServer.

#[export] Instance x_resource_eq_dec : EqDecision x_resource.
Proof. solve_decision. Defined.

(** Everything is reached through the structure; the server's attachment needs
    the display and the mapping. *)
Definition x_needs (r : x_resource) : list x_resource :=
  match r with
  | XCap => []
  | XShmServer => [XCap; XDisplay; XShmMap]
  | XShmImage => [XCap; XDisplay]
  | _ => [XCap]
  end.

Record x_display : Type := mk_display {
  lsb_first : bool;
  default_depth : Z;
  red_mask : Z;
  green_mask : Z;
  blue_mask : Z;
  display_w : Z;
  display_h : Z;
}.

Record x_env : Type := mk_xenv {
  cap_calloc_ok : bool;
  display : option x_display;
  out_malloc_ok : bool;
  shm_extension : bool;
  shm_image_ok : bool;
  shmget_ok : bool;
  shmat_ok : bool;
  shm_attach_ok : bool;
}.

Record leo_rd_capture : Type := mk_capture {
  screen_w : Z;
  screen_h : Z;
  out_w : Z;
  out_h : Z;
  use_shm : bool;
  out_buf_size : Z;
}.

Definition _visual_supported (d : x_display) : bool :=
  if negb (lsb_first d) then false
  else if negb (default_depth d =? 24) && negb (default_depth d =? 32) then false
  else (red_mask d =? 16711680) && (green_mask d =? 65280) && (blue_mask d =? 255).

(** The result, and what was acquired and released. *)
Definition _try_setup_shm (e : x_env) : bool * list (entry x_resource) :=
  if negb (shm_extension e) then (false, [])
  else if negb (shm_image_ok e) then (false, [])
  else
    let es := [Get XShmImage] in
    if negb (shmget_ok e) then (false, es ++ [Put XShmImage])
    else
      let es := es ++ [Get XShmSegment] in
      if negb (shmat_ok e) then (false, es ++ [Put XShmSegment; Put XShmImage])
      else
        let es := es ++ [Get XShmMap] in
        if negb (shm_attach_ok e) then (false, es ++ [Put XShmMap; Put XShmSegment; Put XShmImage])
        else (true, es ++ [Get XShmServer; Put XShmSegment]).

Definition x11_capture_open (max_width max_height : Z) (e : x_env) :
    outcome (option leo_rd_capture * list (entry x_resource)) :=
  if negb (cap_calloc_ok e) then Ret (None, [])
  else
    match display e with
    | None => Ret (None, [Get XCap; Put XCap])
    | Some d =>
        let es := [Get XCap; Get XDisplay] in
        if negb (_visual_supported d) then Ret (None, es ++ [Put XDisplay; Put XCap])
        else
          '(w, h) ← leo_rd_compute_output_size (display_w d) (display_h d) max_width max_height;
          if negb (out_malloc_ok e) then Ret (None, es ++ [Put XDisplay; Put XCap])
          else
            let '(shm, es') := _try_setup_shm e in
            Ret (Some (mk_capture (display_w d) (display_h d) w h shm (w * h * 4)), es ++ [Get XOutBuf] ++ es')
    end.

(** An image of the server: its bytes and the length of its lines; [None]
    when it cannot be taken.  Writing past [out_buf] is undefined. *)
Definition x11_capture_grab (cap : leo_rd_capture) (image : option (list Z * Z)) : outcome (option (Z * Z * list Z)) :=
  match image with
  | None => Ret None
  | Some (data, bytes_per_line) =>
      pixels ← leo_rd_repack_scale (out_w cap) (out_h cap) data (screen_w cap) (screen_h cap) bytes_per_line;
      if out_buf_size cap <? Z.of_nat (length pixels) then Undef
      else Ret (Some (out_w cap, out_h cap, pixels))
  end.

Definition x11_capture_close (cap : leo_rd_capture) : list (entry x_resource) :=
  (if use_shm cap then [Put XShmServer; Put XShmImage; Put XShmMap] else []) ++ [Put XOutBuf; Put XDisplay; Put XCap].

(** ** Windows *)

Inductive w_resource : Type := WCap | ScreenDC | MemDC | Bitmap | Selection | WOutBuf.

#[export] Instance w_resource_eq_dec : EqDecision w_resource.
Proof. solve_decision. Defined.

(** A bitmap is deleted once it is no longer selected, a device context after
    what was made from it. *)
Definition w_needs (r : w_resource) : list w_resource :=
  match r with
  | WCap => []
  | MemDC => [WCap; ScreenDC]
  | Bitmap => [WCap; MemDC]
  | Selection => [WCap; MemDC; Bitmap]
  | _ => [WCap]
  end.

Record w_env : Type := mk_wenv {
  w_calloc_ok : bool;
  virt_w : Z;
  virt_h : Z;
  getdc_ok : bool;
  memdc_ok : bool;
  dib_ok : bool;
  w_malloc_ok : bool;
}.

Definition win_capture_open (max_width max_height : Z) (e : w_env) :
    outcome (option leo_rd_capture * list (entry w_resource)) :=
  if negb (w_calloc_ok e) then Ret (None, [])
  else
    let es := [Get WCap] in
    if (virt_w e <=? 0) || (virt_h e <=? 0) then Ret (None, es ++ [Put WCap])
    else if negb (getdc_ok e) then Ret (None, es ++ [Put WCap])
    else
      let es := es ++ [Get ScreenDC] in
      if negb (memdc_ok e) then Ret (None, es ++ [Put ScreenDC; Put WCap])
      else
        let es := es ++ [Get MemDC] in
        if negb (dib_ok e) then Ret (None, es ++ [Put MemDC; Put ScreenDC; Put WCap])
        else
          let es := es ++ [Get Bitmap; Get Selection] in
          '(w, h) ← leo_rd_compute_output_size (virt_w e) (virt_h e) max_width max_height;
          if negb (w_malloc_ok e)
          then Ret (None, es ++ [Put Selection; Put Bitmap; Put MemDC; Put ScreenDC; Put WCap])
          else Ret (Some (mk_capture (virt_w e) (virt_h e) w h false (w * h * 4)), es ++ [Get WOutBuf]).

(** The pixels of the bitmap after [BitBlt], or [None] when it failed; the
    stride is a product of [int]s. *)
Definition win_capture_grab (cap : leo_rd_capture) (dib_bits : option (list Z)) : outcome (option (Z * Z * list Z)) :=
  match dib_bits with
  | None => Ret None
  | Some bits =>
      let stride := screen_w cap * 4 in
      if INT_MAX <? stride then Undef
      else
        pixels ← leo_rd_repack_scale (out_w cap) (out_h cap) bits (screen_w cap) (screen_h cap) stride;
        if out_buf_size cap <? Z.of_nat (length pixels) then Undef
        else Ret (Some (out_w cap, out_h cap, pixels))
  end.

Definition win_capture_close : list (entry w_resource) :=
  [Put Selection; Put Bitmap; Put MemDC; Put ScreenDC; Put WOutBuf; Put WCap].

(** ** Frames *)

(** A grab of an image of the size of the screen fills the output buffer. *)
Lemma grab_fills cap data stride :
  0 < out_w cap -> 0 < out_h cap -> 0 < screen_w cap -> 0 < screen_h cap -> screen_w cap * 4 <= stride ->
  stride * screen_h cap <= Z.of_nat (length data) -> out_buf_size cap = out_w cap * out_h cap * 4 ->
  exists pixels, leo_rd_repack_scale (out_w cap) (out_h cap) data (screen_w cap) (screen_h cap) stride = Ret pixels /\
  Z.of_nat (length pixels) = out_buf_size cap.
Proof.
  intros ? ? ? ? ? ? E. destruct (repack_filled (out_w cap) (out_h cap) data (screen_w cap) (screen_h cap) stride)
    as (p & -> & L); [done..|]. exists p. split; [done|lia].
Qed.

(** C34: on X11, a capture that was opened gives frames of at most the asked
    size that fill its buffer exactly and read nothing outside the image of the
    server, whatever the size of the screen, provided the server sends four bytes
    for a pixel. *)
Theorem x11_frames_fit max_w max_h e d cap es data bpl :
  x11_capture_open max_w max_h e = Ret (Some cap, es) -> display e = Some d ->
  0 < display_w d <= INT_MAX -> 0 < display_h d <= INT_MAX -> 0 < max_w <= INT_MAX -> 0 < max_h <= INT_MAX ->
  display_w d * 4 <= bpl -> bpl * display_h d <= Z.of_nat (length data) ->
  exists w h pixels, x11_capture_grab cap (Some (data, bpl)) = Ret (Some (w, h, pixels)) /\
  1 <= w <= max_w /\ 1 <= h <= max_h /\ Z.of_nat (length pixels) = w * h * 4 /\ out_buf_size cap = w * h * 4.
Proof.
  intros Ho Hd Hw Hh Hmw Hmh Hb Hl. unfold x11_capture_open in Ho. rewrite Hd in Ho.
  destruct (cap_calloc_ok e); [|done]. cbn [negb] in Ho. destruct (_visual_supported d); [|done]. cbn [negb] in Ho.
  destruct (output_size_bounds (display_w d) (display_h d) max_w max_h) as (w & h & E & Bw & Bh & _); [done..|].
  rewrite E in Ho. cbn [mbind outcome_bind] in Ho. destruct (out_malloc_ok e); [|done]. cbn [negb] in Ho.
  destruct (_try_setup_shm e) as [shm es']. injection Ho as <- _.
  set (cap := mk_capture _ _ _ _ _ _). destruct (grab_fills cap data bpl) as (p & Ep & Lp); [cbn; lia..|].
  exists w, h, p. unfold x11_capture_grab. rewrite Ep. cbn [mbind outcome_bind].
  destruct (Z.ltb_spec (out_buf_size cap) (Z.of_nat (length p))); [lia|]. cbn in Lp. split_and!; try done; lia.
Qed.

Definition sample_display : x_display := mk_display true 24 16711680 65280 255 4 2.
Definition sample_xenv : x_env := mk_xenv true (Some sample_display) true true true true true true.

Lemma x11_frames_fit_witness :
  let cap := mk_capture 4 2 2 1 true 8 in
  let es := [Get XCap; Get XDisplay; Get XOutBuf; Get XShmImage; Get XShmSegment; Get XShmMap; Get XShmServer; Put XShmSegment] in
  x11_capture_open 2 2 sample_xenv = Ret (Some cap, es) /\
  exists w h pixels, x11_capture_grab cap (Some (replicate 32 7, 16)) = Ret (Some (w, h, pixels)) /\
  1 <= w <= 2 /\ 1 <= h <= 2 /\ Z.of_nat (length pixels) = w * h * 4 /\ out_buf_size cap = w * h * 4.
Proof.
  cbv zeta. assert (x11_capture_open 2 2 sample_xenv = Ret (Some (mk_capture 4 2 2 1 true 8),
    [Get XCap; Get XDisplay; Get XOutBuf; Get XShmImage; Get XShmSegment; Get XShmMap; Get XShmServer; Put XShmSegment])) as E
    by (vm_compute; reflexivity).
  split; [exact E|].
  apply (x11_frames_fit 2 2 sample_xenv sample_display _ _ (replicate 32 7) 16 E eq_refl);
    [cbn; unfold INT_MAX; lia..|cbn; lia|vm_compute; discriminate].
Defined.

(** The condition is not one [_visual_supported] checks: it looks at the depth,
    and an image of depth 24 may have three bytes for a pixel, in which case a
    grab reads past its end. *)
Theorem packed_image_overread :
  _visual_supported sample_display = true /\
  (exists es, x11_capture_open 4 2 sample_xenv = Ret (Some (mk_capture 4 2 4 2 true 32), es)) /\
  x11_capture_grab (mk_capture 4 2 4 2 true 32) (Some (replicate 24 7, 12)) = Undef.
Proof. split_and!; [reflexivity|eexists; vm_compute; reflexivity|vm_compute; reflexivity]. Qed.

Lemma win_frames_fit max_w max_h e cap es bits :
  win_capture_open max_w max_h e = Ret (Some cap, es) ->
  virt_w e * 4 <= INT_MAX -> virt_h e <= INT_MAX -> 0 < max_w <= INT_MAX -> 0 < max_h <= INT_MAX ->
  virt_w e * 4 * virt_h e <= Z.of_nat (length bits) ->
  exists w h pixels, win_capture_grab cap (Some bits) = Ret (Some (w, h, pixels)) /\
  1 <= w <= max_w /\ 1 <= h <= max_h /\ Z.of_nat (length pixels) = w * h * 4 /\ out_buf_size cap = w * h * 4.
Proof.
  intros Ho Hw Hh Hmw Hmh Hl. unfold win_capture_open in Ho.
  destruct (w_calloc_ok e); [|done]. cbn [negb] in Ho. destruct (_ || _) eqn:Z0; [done|]. breflect.
  destruct (getdc_ok e), (memdc_ok e), (dib_ok e); try done. cbn [negb] in Ho.
  destruct (output_size_bounds (virt_w e) (virt_h e) max_w max_h) as (w & h & E & Bw & Bh & _); [unfold INT_MAX in *; lia..|].
  rewrite E in Ho. cbn [mbind outcome_bind] in Ho. destruct (w_malloc_ok e); [|done]. cbn [negb] in Ho. injection Ho as <- _.
  set (cap := mk_capture _ _ _ _ _ _). destruct (grab_fills cap bits (virt_w e * 4)) as (p & Ep & Lp); [cbn; lia..|].
  exists w, h, p. unfold win_capture_grab. cbv zeta. change (screen_w cap) with (virt_w e) in *.
  destruct (Z.ltb_spec INT_MAX (virt_w e * 4)); [lia|]. rewrite Ep. cbn [mbind outcome_bind].
  destruct (Z.ltb_spec (out_buf_size cap) (Z.of_nat (length p))); [lia|]. cbn in Lp. split_and!; try done; lia.
Qed.

(** ** Resources *)

(** On both platforms, opening a capture either gives one, which closing
    releases entirely, or nothing and leaves nothing acquired; each resource is
    released once, after whatever was made from it. *)
Theorem capture_leaves_nothing max_w max_h xe we :
  (forall o es, x11_capture_open max_w max_h xe = Ret (o, es) ->
    replay x_needs [] (es ++ match o with Some cap => x11_capture_close cap | None => [] end) = Some []) /\
  (forall o es, win_capture_open max_w max_h we = Ret (o, es) ->
    replay w_needs [] (es ++ match o with Some _ => win_capture_close | None => [] end) = Some []).
Proof.
  split; intros o es.
  - unfold x11_capture_open. destruct (cap_calloc_ok xe); [|by intros [= <- <-]]. cbn [negb].
    destruct (display xe) as [d|]; [|by intros [= <- <-]]. destruct (_visual_supported d); [|by intros [= <- <-]]. cbn [negb].
    destruct (leo_rd_compute_output_size _ _ _ _) as [[w h]|]; [|done]. cbn [mbind outcome_bind].
    destruct (out_malloc_ok xe); [|by intros [= <- <-]]. cbn [negb]. unfold _try_setup_shm.
    destruct (shm_extension xe), (shm_image_ok xe), (shmget_ok xe), (shmat_ok xe), (shm_attach_ok xe);
      by intros [= <- <-].
  - unfold win_capture_open. destruct (w_calloc_ok we); [|by intros [= <- <-]]. cbn [negb].
    destruct (_ || _); [by intros [= <- <-]|].
    destruct (getdc_ok we), (memdc_ok we), (dib_ok we); try (by intros [= <- <-]). cbn [negb].
    destruct (leo_rd_compute_output_size _ _ _ _) as [[w h]|]; [|done]. cbn [mbind outcome_bind].
    destruct (w_malloc_ok we); by intros [= <- <-].
Qed.
