(* ===== verification/Logger.v ===== *)
(** The log file and its rotation: [src/logger.c].

    The logger is the state [g_logger], kept under its mutex, so that a call is
    one step; files are those of [Crypto].  Time, and what renaming and opening
    files answer, are inputs.  A stream opened to append has a position, which
    is the size of the file after every write. *)
From S2P Require Import Prelude CString Types Crypto.

Definition LEVEL_NAMES : list (list ascii) := [str "DEBUG"; str "INFO "; str "WARN "; str "ERROR"; str "FATAL"].
Definition LOG_INFO : Z := 1.
Definition LOG_FATAL : Z := 4.

Record logger : Type := mk_logger {
  fp : option (list ascii * Z);     (* the file the stream writes to, its position *)
  min_level : Z;
  max_bytes : Z;
  log_path : list ascii;
  initialized : bool;
}.

Definition logger_zero : logger := mk_logger None 0 0 [] false.

(** The answer of [fopen (name, "a")]: the position, or a failure. *)
Definition fopen_append (fs : files) (name : list ascii) (answer : option Z) : option (list ascii * Z) * files :=
  match answer with
  | None => (None, fs)
  | Some pos =>
      (Some (name, pos), match fs !! name with Some _ => fs | None => <[name := mk_file [] 420]> fs end)
  end.

Record log_env : Type := mk_log_env {
  timestamp : list ascii;        (* strftime *)
  rename_ok : bool;
  reopened : option Z;           (* the answer of fopen after a rotation *)
}.

Definition _file_size (lg : logger) : Z :=
  match fp lg with
  | None => 0
  | Some (_, pos) => if 0 <? pos then pos else 0
  end.

Definition archive_of (path : list ascii) : list ascii := fit 520 (path ++ str ".1").

Definition _rotate (lg : logger) (fs : files) (e : log_env) : logger * files :=
  match fp lg with
  | None => (lg, fs)
  | Some _ =>
      if bool_decide (log_path lg = []) then (lg, fs)
      else
        let fs := match rename_ok e, fs !! log_path lg with
                  | true, Some f => <[archive_of (log_path lg) := f]> (delete (log_path lg) fs)
                  | _, _ => fs
                  end in
        let '(st, fs) := fopen_append fs (log_path lg) (reopened e) in
        (mk_logger st (min_level lg) (max_bytes lg) (log_path lg) (initialized lg), fs)
  end.

(** The logger, the files and the result. *)
Definition leo_log_init (fs : files) (path : option (list ascii)) (level max : Z) (opened : option Z) (old : logger) :
    logger * files * Z :=
  let max := if 0 <? max then max else 10 * 1024 * 1024 in
  let '(st, p, fs) :=
    match path with
    | Some p =>
        if bool_decide (p = []) then (fp old, log_path old, fs)
        else let '(st, fs) := fopen_append fs p opened in (st, fit 512 p, fs)
    | None => (fp old, log_path old, fs)
    end in
  (mk_logger st level max p true, fs,
   if bool_decide (st <> None) || bool_decide (path = None) then 0 else -1).

(** The last component of a path. *)
Fixpoint last_component (s : list ascii) (acc : list ascii) : list ascii :=
  match s with
  | [] => acc
  | c :: s' => if bool_decide (c = "/"%char) then last_component s' s' else last_component s' acc
  end.

Definition base_name (file : option (list ascii)) : list ascii :=
  match file with Some f => last_component f f | None => str "?" end.

Definition record_text (level : Z) (file : option (list ascii)) (line : Z) (msg : list ascii) (e : log_env) : list ascii :=
  fit 32 (timestamp e) ++ str " [" ++ nth (Z.to_nat level) LEVEL_NAMES [] ++ str "] " ++ base_name file ++ str ":" ++
  fmt_d line ++ str " — " ++ fit 4096 msg ++ [LF].

(** Append to the file of the stream. *)
Definition append (fs : files) (name text : list ascii) : files * Z :=
  let f := default (mk_file [] 420) (fs !! name) in
  (<[name := mk_file (f_content f ++ text) (f_mode f)]> fs, strlen (f_content f ++ text)).

(** The logger, the files, and what goes to stderr. *)
Definition leo_log_write (lg : logger) (fs : files) (level : Z) (file : option (list ascii)) (line : Z)
    (msg : list ascii) (e : log_env) : logger * files * list ascii :=
  if negb (initialized lg) || (level <? min_level lg) then (lg, fs, [])
  else
    let text := record_text level file line msg e in
    let '(lg, fs) := match fp lg with
                     | Some _ => if max_bytes lg <=? _file_size lg then _rotate lg fs e else (lg, fs)
                     | None => (lg, fs)
                     end in
    let '(lg, fs, err) :=
      match fp lg with
      | Some (name, _) =>
          let '(fs, pos) := append fs name text in
          (mk_logger (Some (name, pos)) (min_level lg) (max_bytes lg) (log_path lg) (initialized lg), fs, [])
      | None => (lg, fs, text)
      end in
    (lg, fs, err ++ (if level =? LOG_FATAL
                     then fit 32 (timestamp e) ++ str " [FATAL] " ++ base_name file ++ str ":" ++ fmt_d line ++
                          str " — " ++ fit 4096 msg ++ [LF]
                     else [])).

Definition leo_log_destroy (lg : logger) : logger :=
  if negb (initialized lg) then lg
  else mk_logger None (min_level lg) (max_bytes lg) (log_path lg) false.

Lemma log_init_opens fs path level max opened old lg fs' rc :
  leo_log_init fs path level max opened old = (lg, fs', rc) -> initialized lg = true.
Proof.
  unfold leo_log_init. destruct path as [p|]; [destruct (bool_decide (p = [])); [|destruct (fopen_append fs p opened)]|];
    intros [= <- _ _]; reflexivity.
Qed.

Lemma log_destroy_closes lg :
  initialized lg = true -> fp (leo_log_destroy lg) = None /\ initialized (leo_log_destroy lg) = false.
Proof. unfold leo_log_destroy. by intros ->. Qed.

(** ** Rotation *)

(** The log file holds [content] and the stream is at its end. *)
Definition logging_to (lg : logger) (fs : files) (content : list ascii) : Prop :=
  initialized lg = true /\ log_path lg <> [] /\ strlen (log_path lg) < 512 /\ 0 < max_bytes lg /\
  fp lg = Some (log_path lg, strlen content) /\ f_content <$> fs !! log_path lg = Some content.

Lemma archive_name p : strlen p < 512 -> archive_of p = p ++ str ".1" /\ archive_of p <> p.
Proof.
  intros Hp. unfold archive_of. rewrite fit_id.
  - split; [done|]. intros E. apply (f_equal length) in E. rewrite length_app in E. simpl in E. lia.
  - rewrite strlen_app. change (strlen (str ".1")) with 2. lia.
Qed.

(** A message that is not below the threshold is written whole at the end
    of the log file, which is first moved to the archive, complete, when it
    reached the maximum size; a message below the threshold changes nothing. *)
Lemma log_write_step lg fs content level file line msg e :
  logging_to lg fs content -> rename_ok e = true -> reopened e = Some 0 ->
  let '(lg', fs', _) := leo_log_write lg fs level file line msg e in
  let text := record_text level file line msg e in
  if level <? min_level lg then lg' = lg /\ fs' = fs
  else if max_bytes lg <=? strlen content
  then logging_to lg' fs' text /\ f_content <$> fs' !! (log_path lg ++ str ".1") = Some content
  else logging_to lg' fs' (content ++ text) /\ fs' !! (log_path lg ++ str ".1") = fs !! (log_path lg ++ str ".1").
Proof.
  intros (Hi & Hp & Hl & Hm & Hf & Hc) Hr Ho. unfold leo_log_write. rewrite Hi. cbn [negb orb].
  destruct (level <? min_level lg); [done|]. destruct (archive_name (log_path lg) Hl) as [Ea Na].
  unfold _file_size. rewrite Hf. pose proof (strlen_nonneg content).
  assert ((if 0 <? strlen content then strlen content else 0) = strlen content) as -> by (case_goal; breflect; lia).
  destruct (fs !! log_path lg) as [f|] eqn:Ef; [|done]. cbn in Hc. injection Hc as Hc. rewrite <- Ea.
  destruct (Z.leb_spec (max_bytes lg) (strlen content)).
  - unfold _rotate. rewrite Hf, bool_decide_false, Hr, Ef, Ho by done. unfold fopen_append.
    rewrite lookup_insert_ne, lookup_delete_eq by done. cbn [fp log_path min_level max_bytes initialized append].
    unfold append. rewrite lookup_insert_eq. cbn [from_option f_content f_mode app]. unfold id.
    unfold logging_to. cbn [fp log_path min_level max_bytes initialized]. rewrite lookup_insert_eq.
    rewrite lookup_insert_ne, lookup_insert_ne, lookup_insert_eq by done. cbn. by rewrite Hc.
  - rewrite Hf. unfold append. rewrite Ef. cbn [from_option]. unfold id. cbn [f_content f_mode]. rewrite Hc.
    unfold logging_to. cbn [fp log_path min_level max_bytes initialized]. rewrite lookup_insert_eq, lookup_insert_ne by done. done.
Qed.

Lemma log_write_levels lg fs level file line msg e :
  let lg' := (leo_log_write lg fs level file line msg e).1.1 in
  max_bytes lg' = max_bytes lg /\ min_level lg' = min_level lg.
Proof.
  cbv zeta. unfold leo_log_write. destruct (_ || _); [done|].
  assert (forall lg fs, max_bytes (_rotate lg fs e).1 = max_bytes lg /\ min_level (_rotate lg fs e).1 = min_level lg) as R.
  { intros lg' fs'. unfold _rotate. destruct (fp lg'); [|done]. destruct (bool_decide _); [done|]. by destruct (fopen_append _ _ _). }
  specialize (R lg fs).
  destruct (fp lg) as [[nm pos]|] eqn:Hf.
  - destruct (max_bytes lg <=? _file_size lg).
    + destruct (_rotate lg fs e) as [lg1 fs1]. cbn [fst] in R. destruct (fp lg1) as [[nm1 p1]|]; [|done].
      by destruct (append fs1 nm1 _).
    + rewrite Hf. by destruct (append fs nm _).
  - by rewrite Hf.
Qed.

(** A message with its surroundings. *)
Record message : Type := mk_message {
  msg_level : Z;
  msg_file : option (list ascii);
  msg_line : Z;
  msg_text : list ascii;
  msg_env : log_env;
}.

Definition message_record (m : message) : list ascii :=
  record_text (msg_level m) (msg_file m) (msg_line m) (msg_text m) (msg_env m).

Definition log_all (lg : logger) (fs : files) (ms : list message) : logger * files :=
  fold_left (fun s m => (leo_log_write s.1 s.2 (msg_level m) (msg_file m) (msg_line m) (msg_text m) (msg_env m)).1) ms (lg, fs).


(** The condition on renaming is needed: its result is not looked at, so that
    when it fails the same file is opened again and every message, however many
    there are, is added to it. *)
Theorem failed_rename_grows lg fs content ms :
  logging_to lg fs content ->
  Forall (fun m => rename_ok (msg_env m) = false /\ is_Some (reopened (msg_env m)) /\ min_level lg <= msg_level m) ms ->
  let '(lg', fs') := log_all lg fs ms in logging_to lg' fs' (content ++ concat (map message_record ms)).
Proof.
  intros Hlog Hms. unfold log_all. revert lg fs content Hlog Hms.
  induction ms as [|m ms IH]; intros lg fs content Hlog Hms; [cbn; by rewrite app_nil_r|].
  apply Forall_cons_1 in Hms as [(Hr & [pos Ho] & Hl) Hms]. cbn [fold_left fst snd map concat].
  pose proof (log_write_levels lg fs (msg_level m) (msg_file m) (msg_line m) (msg_text m) (msg_env m)) as [_ L].
  assert (let '(lg', fs') := (leo_log_write lg fs (msg_level m) (msg_file m) (msg_line m) (msg_text m) (msg_env m)).1 in
    logging_to lg' fs' (content ++ message_record m)) as W.
  { destruct Hlog as (Hi & Hp & Hlen & Hm & Hf & Hc). unfold leo_log_write. rewrite Hi. cbn [negb orb].
    destruct (Z.ltb_spec (msg_level m) (min_level lg)); [lia|]. fold (message_record m). rewrite Hf.
    destruct (fs !! log_path lg) as [f|] eqn:Ef; [|done]. cbn in Hc. injection Hc as Hc.
    unfold _rotate. rewrite Hf, bool_decide_false, Hr, Ho by done. unfold fopen_append. rewrite Ef.
    destruct (_ <=? _); cbn [fp log_path min_level max_bytes initialized]; rewrite ?Hf; unfold append; rewrite Ef;
      cbn [from_option]; unfold id; cbn [f_content f_mode fst]; rewrite Hc; unfold logging_to;
      cbn [fp log_path min_level max_bytes initialized]; by rewrite lookup_insert_eq. }
  destruct (leo_log_write _ _ _ _ _ _ _) as [[lg1 fs1] er]. cbn [fst snd] in *. rewrite (assoc_L (++)). apply IH; [done|].
  by rewrite L.
Qed.

(** A fresh log file. *)
Lemma log_init_fresh fs path level max :
  path <> [] -> strlen path < 512 -> fs !! path = None ->
  let '(lg, fs', rc) := leo_log_init fs (Some path) level max (Some 0) logger_zero in
  logging_to lg fs' [] /\ rc = 0 /\ min_level lg = level.
Proof.
  intros Hp Hl Hf. unfold leo_log_init. rewrite bool_decide_false by done. unfold fopen_append. rewrite Hf.
  cbn [logging_to]. unfold logging_to. cbn [fp log_path min_level max_bytes initialized]. rewrite fit_id by done.
  rewrite lookup_insert_eq. split_and!; try done. case_goal; breflect; lia.
Qed.

Definition sample_log : logger * files := (leo_log_init ∅ (Some (str "agent.log")) 1 60 (Some 0) logger_zero).1.
Definition sample_message (text : list ascii) : message :=
  mk_message 1 (Some (str "src/main.c")) 99 text (mk_log_env (str "2024-01-01T00:00:00Z") true (Some 0)).

Lemma sample_logging : logging_to sample_log.1 sample_log.2 [].
Proof.
  pose proof (log_init_fresh ∅ (str "agent.log") 1 60 ltac:(done) ltac:(done) (lookup_empty _)) as H.
  unfold sample_log. destruct (leo_log_init _ _ _ _ _ _) as [[lg fs] rc]. by destruct H as [H _].
Qed.


Definition stuck_message (text : list ascii) : message :=
  mk_message 1 (Some (str "src/main.c")) 99 text (mk_log_env (str "2024-01-01T00:00:00Z") false (Some 0)).

Lemma failed_rename_grows_witness :
  let '(lg', fs') := log_all sample_log.1 sample_log.2 (replicate 50 (stuck_message (str "x"))) in
  logging_to lg' fs' ([] ++ concat (map message_record (replicate 50 (stuck_message (str "x"))))).
Proof.
  apply (failed_rename_grows sample_log.1 sample_log.2 []); [exact sample_logging|].
  apply Forall_replicate. split_and!; [reflexivity|by eexists|vm_compute; discriminate].
Defined.
