(* ===== verification/Service.v ===== *)
(** The process and its service on Linux: [main] of [src/main.c] and
    [platform/linux/service_linux.c].

    [main] composes the start and the stop of [Lifecycle] around the wait for a
    signal; what the start and stop do is their sequence of acquisitions and
    releases.  The service functions act on the unit file. *)
From S2P Require Import Prelude CString Double Types Json JsonParse Crypto Connection Enroll Dispatch Agent Lifecycle Logger.

#[local] Existing Instance linux_host.

(** ** The entry point *)

(** The signals that matter here: the two that ask for a stop, the one of a
    closed socket, and one the program leaves alone. *)
Inductive signal : Type := SIGTERM | SIGINT | SIGPIPE | SIGHUP.

#[export] Instance signal_eq_dec : EqDecision signal.
Proof. solve_decision. Defined.

Inductive disposition : Type := SIG_DFL | SIG_IGN | Handled.

(** [sigaction] and [signal]. *)
Definition sigaction (d : signal -> disposition) (sig : signal) (a : disposition) : signal -> disposition :=
  fun s => if decide (s = sig) then a else d s.

(** The new [g_stop_requested]. *)
Definition _signal_handler (sig : signal) : bool := true.

(** A signal is delivered, with the flag [stop]; the default action of all four
    ends the process ([None]). *)
Definition deliver (d : signal -> disposition) (stop : bool) (sig : signal) : option bool :=
  match d sig with
  | SIG_DFL => None
  | SIG_IGN => Some stop
  | Handled => Some (_signal_handler sig)
  end.

Fixpoint deliver_all (d : signal -> disposition) (stop : bool) (sigs : list signal) : option bool :=
  match sigs with
  | [] => Some stop
  | sig :: sigs' => stop ← deliver d stop sig; deliver_all d stop sigs'
  end.

(** What became of the process. *)
Inductive process (A : Type) : Type :=
| Running
| Killed               (* by the default action of a signal *)
| Exited (a : A).

Arguments Running {A}.
Arguments Killed {A}.
Arguments Exited {A} a.

(** [while (!g_stop_requested) nanosleep]: [arrivals] are the signals of each
    sleep. *)
Fixpoint main_loop (d : signal -> disposition) (stop : bool) (arrivals : list (list signal)) : process unit :=
  if stop then Exited tt
  else
    match arrivals with
    | [] => Running
    | sigs :: arrivals' =>
        match deliver_all d stop sigs with
        | None => Killed
        | Some stop => main_loop d stop arrivals'
        end
    end.

Record main_env : Type := mk_main_env {
  log_opened : option Z;              (* the answer of fopen for the log file *)
  before : list signal;               (* those that come before they are handled *)
  start : start_env;
  starting : list signal;             (* those that come while the agent starts *)
  arrivals : list (list signal);      (* and during each sleep of the loop *)
  meanwhile : agent -> agent;         (* what its threads make of the agent while it runs *)
  stop : stop_env;
}.

Definition EXIT_SUCCESS : Z := 0.
Definition EXIT_FAILURE : Z := 1.

(** The dispositions that [main] sets. *)
Definition main_signals : signal -> disposition :=
  let d := fun _ => SIG_DFL in
  let d := sigaction d SIGTERM Handled in
  let d := sigaction d SIGINT Handled in
  sigaction d SIGPIPE SIG_IGN.

(** The exit code, what was acquired and released, the files and the logger.
    A log file that does not open is no reason to stop; what is written to it is
    left out. *)
Definition main `{CLib} (argv : list (list ascii)) (fs : files) (e : main_env) :
    process (Z * list event * files * logger) :=
  let config_path := match argv with _ :: p :: _ => p | _ => LEO_CONFIG_FILE end in
  let '(lg, fs, _) := leo_log_init fs (Some LEO_LOG_PATH) LOG_INFO (10 * 1024 * 1024) (log_opened e) logger_zero in
  match deliver_all (fun _ => SIG_DFL) false (before e) with
  | None => Killed
  | Some requested =>
      match leo_agent_start config_path fs (start e) with
      | None => Running
      | Some (o, es, fs) =>
          match deliver_all main_signals requested (starting e) with
          | None => Killed
          | Some requested =>
              match o with
              | None => Exited (EXIT_FAILURE, es, fs, leo_log_destroy lg)
              | Some ag =>
                  match main_loop main_signals requested (arrivals e) with
                  | Running => Running
                  | Killed => Killed
                  | Exited _ =>
                      match leo_agent_stop (meanwhile e ag) (stop e) with
                      | None => Running
                      | Some (_, es') => Exited (EXIT_SUCCESS, es ++ es', fs, leo_log_destroy lg)
                      end
                  end
              end
          end
      end
  end.

(** ** The service *)

Definition LEO_SYSTEMD_UNIT_PATH : list ascii := str "/etc/systemd/system/leo-agent.service".

Definition unit_lines : list (list ascii) :=
  [str "[Unit]"; str "Description=Leo-One RMM Agent"; str "After=network-online.target";
   str "Wants=network-online.target"; str ""; str "[Service]"; str "Type=simple";
   str "ExecStart=/opt/leo-one/agent/leo-agent"; str "Restart=on-failure"; str "RestartSec=10"; str "User=root";
   str "StandardOutput=journal"; str "StandardError=journal"; str ""; str "[Install]"; str "WantedBy=multi-user.target"].

Definition LEO_SERVICE_UNIT : list ascii := concat (map (fun l => l ++ [LF]) unit_lines).

Record service_env : Type := mk_service {
  euid : Z;
  systemd_available : bool;
  unit_fopen_ok : bool;
  unit_written : Z;              (* the result of fwrite *)
  unit_chmod_ok : bool;
  unit_unlink_ok : bool;
  is_active : option (list ascii);   (* the output of systemctl is-active *)
}.

Definition leo_service_install (fs : files) (e : service_env) : leo_error_t * files :=
  if negb (euid e =? 0) then (LEO_ERR_SYSTEM, fs)
  else if negb (systemd_available e) then (LEO_ERR_SYSTEM, fs)
  else if negb (unit_fopen_ok e) then (LEO_ERR_SYSTEM, fs)
  else
    let mode := match fs !! LEO_SYSTEMD_UNIT_PATH with Some f => f_mode f | None => 420 end in
    let fs := <[LEO_SYSTEMD_UNIT_PATH := mk_file (take (Z.to_nat (unit_written e)) LEO_SERVICE_UNIT) mode]> fs in
    if negb (unit_written e =? strlen LEO_SERVICE_UNIT) then (LEO_ERR_SYSTEM, fs)
    else (LEO_OK, if unit_chmod_ok e then <[LEO_SYSTEMD_UNIT_PATH := mk_file LEO_SERVICE_UNIT 420]> fs else fs).

Definition leo_service_uninstall (fs : files) (e : service_env) : leo_error_t * files :=
  match fs !! LEO_SYSTEMD_UNIT_PATH with
  | None => (LEO_OK, fs)
  | Some _ => if unit_unlink_ok e then (LEO_OK, delete LEO_SYSTEMD_UNIT_PATH fs) else (LEO_ERR_SYSTEM, fs)
  end.

Inductive leo_service_status_t : Type :=
| LEO_SERVICE_UNKNOWN | LEO_SERVICE_ACTIVE | LEO_SERVICE_INACTIVE | LEO_SERVICE_FAILED.

(** A newline at the end is removed, once. *)
Definition chop_lf (s : list ascii) : list ascii :=
  match last s with Some c => if bool_decide (c = LF) then take (length s - 1) s else s | None => s end.

Definition leo_service_status (e : service_env) : leo_service_status_t :=
  if negb (systemd_available e) then LEO_SERVICE_UNKNOWN
  else
    match is_active e with
    | None => LEO_SERVICE_UNKNOWN
    | Some text =>
        match fgets_all 63 text with
        | [] => LEO_SERVICE_UNKNOWN
        | l :: _ =>
            let out := chop_lf (c_str l) in
            if streq out (str "active") then LEO_SERVICE_ACTIVE
            else if streq out (str "inactive") then LEO_SERVICE_INACTIVE
            else if streq out (str "failed") then LEO_SERVICE_FAILED
            else LEO_SERVICE_UNKNOWN
        end
    end.

(** ** Theorems *)

(** One of the signals asks for a stop. *)
Definition asks_stop (sigs : list signal) : bool :=
  existsb (fun sig => bool_decide (sig = SIGTERM) || bool_decide (sig = SIGINT)) sigs.

(** With the dispositions of [main] the signals it knows never kill it, and the
    flag is set by those that ask for a stop. *)
Lemma deliver_known stop sigs : SIGHUP ∉ sigs -> deliver_all main_signals stop sigs = Some (stop || asks_stop sigs).
Proof.
  revert stop. induction sigs as [|sig sigs IH]; intros stop Hn; [by rewrite orb_false_r|].
  apply not_elem_of_cons in Hn as [Hs Hn]. cbn [deliver_all].
  assert (deliver main_signals stop sig = Some (stop || asks_stop [sig])) as ->
    by (destruct sig; try done; by destruct stop).
  cbn [mbind option_bind]. rewrite IH by done. unfold asks_stop. cbn [existsb].
  by rewrite orb_false_r, !orb_assoc.
Qed.

Lemma main_loop_known stop arrivals : SIGHUP ∉ concat arrivals ->
  main_loop main_signals stop arrivals = if stop || asks_stop (concat arrivals) then Exited tt else Running.
Proof.
  revert stop. induction arrivals as [|sigs arrivals IH]; intros stop Hn; [by destruct stop|].
  cbn [main_loop concat] in *. apply not_elem_of_app in Hn as [Hs Hn]. destruct stop; [done|].
  rewrite deliver_known, IH by done. unfold asks_stop. by rewrite existsb_app.
Qed.

(** C36: a process that no signal kills before it handles them, nor later by
    one it does not handle, runs until SIGTERM or SIGINT comes, SIGPIPE being
    ignored, and then stops the agent and exits with success: what the agent had
    acquired was released once and in order, or kept with what a thread that did
    not end in time still uses.  It exits with failure when the agent did not
    start, and then nothing stays acquired but a connection whose thread could not
    be joined.  In both cases the log file is closed.  The enrolment is taken to
    meet its limits and the list of updates to arrive, so that starting and
    stopping return. *)
Theorem main_ends `{CLib} argv fs e :
  enrolment_limited (start e) -> listing_ends (stop e) = true ->
  before e = [] -> SIGHUP ∉ starting e ++ concat (arrivals e) ->
  match main argv fs e with
  | Running => asks_stop (starting e ++ concat (arrivals e)) = false
  | Killed => False
  | Exited (code, es, _, lg) =>
      fp lg = None /\ initialized lg = false /\
      ((code = EXIT_SUCCESS /\ asks_stop (starting e ++ concat (arrivals e)) = true /\
        (perform uses [] es = Some [] \/ perform uses [] es = Some [Conn; Metrics; Sync; Memory])) \/
       (code = EXIT_FAILURE /\
        (perform uses_without_handler [] es = Some [] \/ perform uses_without_handler [] es = Some [Conn; Memory])))
  end.
Proof.
  intros Hl Hj Hb [Hn1 Hn2]%not_elem_of_app. unfold main. set (path := match argv with _ :: p :: _ => p | _ => _ end).
  destruct (leo_log_init _ _ _ _ _ _) as [[lg fs1] rc] eqn:Ei. apply log_init_opens in Ei.
  pose proof (log_destroy_closes lg Ei) as [Hd1 Hd2]. rewrite Hb. cbn [deliver_all].
  destruct (start_resources path fs1 (start e) Hl) as (o & es & fs' & -> & Hr). rewrite deliver_known by done. cbn [orb].
  destruct o as [ag|].
  - destruct Hr as (Hp & _). rewrite main_loop_known by done. unfold asks_stop at 1 2. rewrite <- existsb_app.
    fold (asks_stop (starting e ++ concat (arrivals e))). destruct (asks_stop _); [|done]. destruct (stop_resources (meanwhile e ag) (stop e) Hj) as (o & es' & Es & _).
    rewrite Es. split_and!; [done|done|]. left. split_and!; [done|done|]. by eapply stop_releases.
  - split_and!; [done|done|]. right. split; [done|]. destruct (_ && _) in Hr; auto.
Qed.

(** A broken connection, then a request to stop. *)
Definition sample_main : main_env :=
  mk_main_env (Some 0) [] (open_start true) [] [[]; [SIGPIPE]; [SIGTERM]] (fun ag => ag) (mk_stop_env true true true true).

Definition exit_code {A} (p : process (Z * list event * A * logger)) : option Z :=
  match p with Exited (code, _, _, _) => Some code | _ => None end.

Lemma main_ends_witness :
  exit_code (@main decimal_lib [str "leo-agent"] sample_bootstrap sample_main) = Some EXIT_SUCCESS /\
  match @main decimal_lib [str "leo-agent"] sample_bootstrap sample_main with
  | Running => asks_stop (starting sample_main ++ concat (arrivals sample_main)) = false
  | Killed => False
  | Exited (code, es, _, lg) =>
      fp lg = None /\ initialized lg = false /\
      ((code = EXIT_SUCCESS /\ asks_stop (starting sample_main ++ concat (arrivals sample_main)) = true /\
        (perform uses [] es = Some [] \/ perform uses [] es = Some [Conn; Metrics; Sync; Memory])) \/
       (code = EXIT_FAILURE /\
        (perform uses_without_handler [] es = Some [] \/ perform uses_without_handler [] es = Some [Conn; Memory])))
  end.
Proof.
  split; [vm_compute; reflexivity|].
  apply (@main_ends decimal_lib [str "leo-agent"] sample_bootstrap sample_main).
  - eexists. split; [apply list_elem_of_In; simpl; right; right; left; reflexivity|vm_compute; reflexivity].
  - reflexivity.
  - reflexivity.
  - apply (bool_decide_unpack _). reflexivity.
Defined.

(** A request to stop that comes before the handlers are set ends the process
    at once, nothing being acquired yet. *)
Example early_signal_kills :
  @main decimal_lib [str "leo-agent"] sample_bootstrap
    (mk_main_env (Some 0) [SIGTERM] (open_start true) [] [] (fun ag => ag) (mk_stop_env true true true true)) = Killed.
Proof. vm_compute. reflexivity. Qed.

(** Installing the service succeeds only for root under systemd with the
    whole unit file written, touches no other file, and uninstalling it then
    restores the files as they were without it. *)
Theorem install_uninstall fs e fs1 :
  leo_service_install fs e = (LEO_OK, fs1) -> unit_unlink_ok e = true ->
  euid e = 0 /\ systemd_available e = true /\
  f_content <$> fs1 !! LEO_SYSTEMD_UNIT_PATH = Some LEO_SERVICE_UNIT /\
  leo_service_uninstall fs1 e = (LEO_OK, delete LEO_SYSTEMD_UNIT_PATH fs).
Proof.
  intros Hi Hu. unfold leo_service_install in Hi. destruct (Z.eqb_spec (euid e) 0); [|done]. cbn [negb] in Hi.
  destruct (systemd_available e); [|done]. destruct (unit_fopen_ok e); [|done]. cbn [negb] in Hi.
  destruct (Z.eqb_spec (unit_written e) (strlen LEO_SERVICE_UNIT)) as [Ew|]; [|done]. cbn [negb] in Hi. injection Hi as <-.
  unfold leo_service_uninstall. rewrite Hu.
  destruct (unit_chmod_ok e); rewrite !lookup_insert_eq; (split_and!; [done|done| |]).
  - done.
  - by rewrite insert_insert_eq, delete_insert_eq.
  - cbn. rewrite Ew. unfold strlen. by rewrite Nat2Z.id, firstn_all.
  - by rewrite delete_insert_eq.
Qed.

Lemma install_uninstall_witness :
  let e := mk_service 0 true true (strlen LEO_SERVICE_UNIT) true true None in
  exists fs1, leo_service_install ∅ e = (LEO_OK, fs1) /\
  leo_service_uninstall fs1 e = (LEO_OK, delete LEO_SYSTEMD_UNIT_PATH ∅).
Proof.
  intros e. eexists. split; [reflexivity|]. apply (install_uninstall ∅ e _); reflexivity.
Defined.

(** The answer of [systemctl is-active]. *)
Example status_read :
  leo_service_status (mk_service 0 true true 0 true true (Some (str "active" ++ [LF]))) = LEO_SERVICE_ACTIVE /\
  leo_service_status (mk_service 0 true true 0 true true (Some (str "activating" ++ [LF]))) = LEO_SERVICE_UNKNOWN.
Proof. split; vm_compute; reflexivity. Qed.
