(* ===== verification/PatchesWin.v ===== *)
(** Windows updates: [platform/windows/patches_win.c], over the COM interfaces
    of the Windows Update Agent.

    What COM answers is an input ([wua_env]): the updates a search finds, with
    what their getters give, and the outcome of each call.  A definition
    returns, besides its result, the entries of a ledger: the objects and
    strings it acquired and released. *)
From S2P Require Import Prelude CString Ledger Double Types Executor Platform Patches.

(** A string of COM, known by what [WideCharToMultiByte] leaves in a buffer of
    a given size, up to its first NUL. *)
Definition BSTR : Type := Z -> list ascii.

Inductive com : Type :=
| Com | Str | Session | Searcher | SearchResult | AllUpdates | Update | Kbs | Identity | ToInstall | Downloader
| DlResult | Installer | InstResult | Token.

#[export] Instance com_eq_dec : EqDecision com.
Proof. solve_decision. Defined.

(** Objects live as long as COM is initialised on the thread. *)
Definition com_needs (r : com) : list com :=
  match r with Com | Str | Token => [] | _ => [Com] end.

(** An update and what its getters give; [None] when they fail or give NULL. *)
Record IUpdate : Type := mk_update {
  get_Title : option BSTR;
  get_MsrcSeverity : option BSTR;
  get_MaxDownloadSize : option double;            (* as VarR8FromDec converts it *)
  get_KBArticleIDs : option (Z * option BSTR);    (* the count, and the item 0 *)
  get_UpdateID : option (option BSTR);            (* the identity, and its string *)
  add_ok : bool;                                  (* IUpdateCollection_Add *)
}.

Definition _bstr_to_utf8 (src : option BSTR) (out_sz : Z) : list ascii :=
  match src with None => [] | Some b => fit out_sz (b out_sz) end.

Definition _severity_from_msrc (msrc : option BSTR) : leo_patch_severity_t :=
  let buf := _bstr_to_utf8 msrc 32 in
  if bool_decide (buf = []) then LEO_PATCH_SEVERITY_IMPORTANT
  else if strcaseeq buf (str "Critical") then LEO_PATCH_SEVERITY_CRITICAL
  else if strcaseeq buf (str "Important") then LEO_PATCH_SEVERITY_IMPORTANT
  else LEO_PATCH_SEVERITY_OPTIONAL.

Definition str_entries (b : option BSTR) : list (entry com) :=
  match b with Some _ => [Get Str; Put Str] | None => [] end.

(** The string of the first article, when there is one. *)
Definition first_kb (u : IUpdate) : option BSTR :=
  '(count, kb) ← get_KBArticleIDs u; if 0 <? count then kb else None.

(** The conversion of the size to [uint64_t] is undefined when it does not
    fit. *)
Definition _fill_patch_from_update (u : IUpdate) : outcome (leo_patch_t * list (entry com)) :=
  let title := _bstr_to_utf8 (get_Title u) LEO_PATCH_TITLE_MAX_LEN in
  let severity := _severity_from_msrc (get_MsrcSeverity u) in
  size ← match get_MaxDownloadSize u with
         | Some d => if dgt d (d_of_Z 0) then cast_u64 d else Ret 0
         | None => Ret 0
         end;
  let es := str_entries (get_Title u) ++ str_entries (get_MsrcSeverity u) ++
            match get_KBArticleIDs u with
            | Some _ => [Get Kbs] ++ str_entries (first_kb u) ++ [Put Kbs]
            | None => []
            end in
  let id := match first_kb u with
            | Some kb => fit LEO_PATCH_ID_MAX_LEN (str "KB" ++ _bstr_to_utf8 (Some kb) 32)
            | None => []
            end in
  if bool_decide (id = [])
  then
    let es' := match get_UpdateID u with
               | Some uid => [Get Identity] ++ str_entries uid ++ [Put Identity]
               | None => []
               end in
    Ret (mk_patch (_bstr_to_utf8 (mjoin (get_UpdateID u)) LEO_PATCH_ID_MAX_LEN) title severity size, es ++ es')
  else Ret (mk_patch id title severity size, es).

(** ** Search *)

Record wua_env : Type := mk_wua {
  co_init : Z;                                (* HRESULT of CoInitializeEx *)
  session_ok : bool;
  searcher_ok : bool;
  criteria_ok : bool;                         (* SysAllocString *)
  search_ok : bool;
  updates : option (list (option IUpdate));   (* [None]: the item cannot be had *)
  clsid_ok : bool;                            (* CLSIDFromProgID *)
  coll_created : bool;                        (* CoCreateInstance of the collection *)
  downloader_ok : bool;
  download_ok : bool;
  dl_result_some : bool;
  installer_ok : bool;
  install_ok : bool;
  result_code : option Z;
  reboot_required : option Z;
  token_ok : bool;
  lookup_ok : bool;
}.

(** HRESULTs are 32-bit signed integers; the negative ones are failures. *)
Definition FAILED (hr : Z) : bool := hr <? 0.
Definition RPC_E_CHANGED_MODE : Z := -2147417850.

Definition _create_session (e : wua_env) : bool * list (entry com) :=
  if session_ok e then (true, [Get Session]) else (false, []).

Definition _search (e : wua_env) : bool * list (entry com) :=
  if negb (searcher_ok e) then (false, [])
  else
    let es := [Get Searcher] ++ (if criteria_ok e then [Get Str] else []) ++
              (if search_ok e then [Get SearchResult] else []) ++ (if criteria_ok e then [Put Str] else []) in
    if negb (search_ok e) then (false, es ++ [Put Searcher]) else (true, es).

(** ** Collection *)

(** The loop over the updates found. *)
Fixpoint collect_updates (room : nat) (items : list (option IUpdate)) : outcome (list leo_patch_t * list (entry com)) :=
  match room, items with
  | S room', None :: items' => collect_updates room items'
  | S room', Some u :: items' =>
      '(p, es) ← _fill_patch_from_update u;
      '(ps, es') ← collect_updates (if bool_decide (patch_id p = []) then room else room') items';
      Ret (if bool_decide (patch_id p = []) then ps else p :: ps, [Get Update] ++ es ++ [Put Update] ++ es')
  | _, _ => Ret ([], [])
  end.

(** The entries stored; [None] stands for the result -1. *)
Definition leo_patches_collect (e : wua_env) (max_items : Z) : outcome (option (list leo_patch_t) * list (entry com)) :=
  if max_items <=? 0 then Ret (None, [])
  else if FAILED (co_init e) && negb (co_init e =? RPC_E_CHANGED_MODE) then Ret (Some [], [])
  else
    let need_uninit := negb (FAILED (co_init e)) in
    let enter := if need_uninit then [Get Com] else [] in
    let leave := if need_uninit then [Put Com] else [] in
    let '(session, es1) := _create_session e in
    if negb session then Ret (Some [], enter ++ es1 ++ leave)
    else
      let '(result, es2) := _search e in
      if negb result then Ret (Some [], enter ++ es1 ++ es2 ++ [Put Session] ++ leave)
      else
        match updates e with
        | None => Ret (Some [], enter ++ es1 ++ es2 ++ [Put SearchResult; Put Searcher; Put Session] ++ leave)
        | Some us =>
            '(ps, es3) ← collect_updates (Z.to_nat max_items) us;
            Ret (Some ps, enter ++ es1 ++ es2 ++ [Get AllUpdates] ++ es3 ++
                          [Put AllUpdates; Put SearchResult; Put Searcher; Put Session] ++ leave)
        end.

(** ** Installation *)

(** Whether there is a collection to add updates to. *)
Definition _create_update_collection (e : wua_env) : bool :=
  if negb (clsid_ok e) then false else coll_created e.

Definition _id_in_list (id : list ascii) (ids : argv_t) : bool := existsb (streq id) ids.

(** The updates added to the collection, the number of those that matched, and
    the entries. *)
Fixpoint select_updates (ids : argv_t) (items : list (option IUpdate)) : outcome (list IUpdate * Z * list (entry com)) :=
  match items with
  | [] => Ret ([], 0, [])
  | None :: items' => select_updates ids items'
  | Some u :: items' =>
      '(tmp, es) ← _fill_patch_from_update u;
      '(added, matched, es') ← select_updates ids items';
      let es := [Get Update] ++ es ++ [Put Update] ++ es' in
      if negb (bool_decide (patch_id tmp = [])) && _id_in_list (patch_id tmp) ids
      then Ret (if add_ok u then u :: added else added, matched + 1, es)
      else Ret (added, matched, es)
  end.

Definition _enable_shutdown_privilege (e : wua_env) : list (entry com) :=
  if token_ok e then [Get Token; Put Token] else [].

(** The objects that are not NULL, from the last one; then COM. *)
Definition cleanup (held : list com) (need_uninit : bool) : list (entry com) :=
  map Put (List.filter (fun r => bool_decide (r ∈ held))
    [InstResult; Installer; DlResult; Downloader; ToInstall; AllUpdates; SearchResult; Searcher; Session]) ++
  (if need_uninit then [Put Com] else []).

Definition orcSucceeded : Z := 2.
Definition orcSucceededWithErrors : Z := 3.

(** What an installation did: its result, the collection [Install] was called
    on, whether a reboot was initiated, and the entries. *)
Record install_report : Type := mk_report {
  rep_result : leo_exec_result_t;
  rep_installed : option (list IUpdate);
  rep_reboot : bool;
  rep_entries : list (entry com);
}.

Definition failed_report (text : list ascii) (es : list (entry com)) : install_report :=
  mk_report (mk_result (-1) [] (fit LEO_EXEC_STDERR_MAX text)) None false es.

(** From the search result to the end; [es] are the entries so far, [held] the
    objects to release. *)
Definition install_updates (e : wua_env) (ids : argv_t) (reboot_after need_uninit : bool) (es : list (entry com)) :
    outcome install_report :=
  let us := updates e in
  let held := (if _create_update_collection e then [ToInstall] else []) ++ (match us with Some _ => [AllUpdates] | None => [] end) ++
              [SearchResult; Searcher; Session] in
  let es := es ++ (match us with Some _ => [Get AllUpdates] | None => [] end) ++ (if _create_update_collection e then [Get ToInstall] else []) in
  match us with
  | Some us =>
      if negb (_create_update_collection e)
      then Ret (failed_report (str "Impossible de préparer la liste des patchs à installer") (es ++ cleanup held need_uninit))
      else
        '(added, matched, es1) ← select_updates ids us;
        let es := es ++ es1 in
        if matched =? 0
        then Ret (failed_report (str "Aucun des patchs demandés n'a été retrouvé dans la recherche Windows Update (inventaire périmé ?)")
                    (es ++ cleanup held need_uninit))
        else if negb (downloader_ok e)
        then Ret (failed_report (str "CreateUpdateDownloader a échoué") (es ++ cleanup held need_uninit))
        else
          let es := es ++ [Get Downloader] in
          let held := Downloader :: held in
          if negb (download_ok e)
          then Ret (failed_report (str "Échec du téléchargement des " ++ fmt_d matched ++ str " patch(s)")
                      (es ++ cleanup held need_uninit))
          else
            let es := es ++ (if dl_result_some e then [Get DlResult] else []) in
            let held := (if dl_result_some e then [DlResult] else []) ++ held in
            if negb (installer_ok e)
            then Ret (failed_report (str "CreateUpdateInstaller a échoué") (es ++ cleanup held need_uninit))
            else
              let es := es ++ [Get Installer] in
              let held := Installer :: held in
              if negb (install_ok e)
              then Ret (mk_report (mk_result (-1) []
                                     (fit LEO_EXEC_STDERR_MAX (str "Échec de l'installation des " ++ fmt_d matched ++ str " patch(s)")))
                          (Some added) false (es ++ cleanup held need_uninit))
              else
                let es := es ++ [Get InstResult] in
                let held := InstResult :: held in
                let code := default 0 (result_code e) in
                let reboot_req := negb (default 0 (reboot_required e) =? 0) in
                let ok := (code =? orcSucceeded) || (code =? orcSucceededWithErrors) in
                let out := fmt_d matched ++ str " patch(s) traité(s), résultat=" ++ fmt_d code ++
                           str ", redémarrage requis=" ++ (if reboot_req then str "oui" else str "non") in
                let reboot := ok && reboot_after && reboot_req in
                Ret (mk_report (mk_result (if ok then 0 else -1) (fit LEO_EXEC_STDOUT_MAX out) [])
                       (Some added) reboot
                       (es ++ (if reboot then _enable_shutdown_privilege e else []) ++ cleanup held need_uninit))
  | None => Ret (failed_report (str "Impossible de préparer la liste des patchs à installer") (es ++ cleanup held need_uninit))
  end.

(** [ids] is the array cut to [count] entries; [timeout_secs] is ignored. *)
Definition leo_patches_install (e : wua_env) (ids : argv_t) (reboot_after : bool) (timeout_secs : Z) :
    outcome (leo_error_t * option install_report) :=
  if bool_decide (ids = []) then Ret (LEO_ERR_SYSTEM, None)
  else if FAILED (co_init e) && negb (co_init e =? RPC_E_CHANGED_MODE)
  then Ret (LEO_OK, Some (failed_report (str "CoInitializeEx a échoué (hr=0x" ++ fmt_x 8 (wrap_u32 (co_init e)) ++ str ")") []))
  else
    let need_uninit := negb (FAILED (co_init e)) in
    let enter := if need_uninit then [Get Com] else [] in
    let '(session, es1) := _create_session e in
    if negb session
    then Ret (LEO_OK, Some (failed_report (str "Impossible de créer une session Windows Update")
                              (enter ++ es1 ++ cleanup [] need_uninit)))
    else
      let '(result, es2) := _search e in
      if negb result
      then Ret (LEO_OK, Some (failed_report (str "Échec de la recherche des mises à jour")
                                (enter ++ es1 ++ es2 ++ cleanup [Session] need_uninit)))
      else
        r ← install_updates e ids reboot_after need_uninit (enter ++ es1 ++ es2);
        Ret (LEO_OK, Some r).

(** ** The objects of COM *)

Lemma com_needed held r : r <> Com -> needed com_needs held r = false.
Proof.
  intros Hr. unfold needed. apply not_true_iff_false. intros (h & _ & Hh%bool_decide_eq_true)%existsb_exists.
  destruct h; cbn in Hh; set_solver.
Qed.

Lemma com_scope held r es :
  r <> Com -> r ∉ held -> Com ∈ held -> neutral com_needs (r :: held) es ->
  neutral com_needs held ([Get r] ++ es ++ [Put r]).
Proof.
  intros Hc Hr Hh He. apply neutral_scope; [done| |by apply com_needed|done].
  destruct r; cbn; repeat constructor; done.
Qed.

Lemma str_entries_neutral held b : Str ∉ held -> neutral com_needs held (str_entries b).
Proof.
  intros Hs. destruct b; [|done]. apply (neutral_scope _ held Str []); [done|by constructor|by apply com_needed|done].
Qed.

(** What is held between two updates. *)
Definition quiet (held : list com) : Prop :=
  Com ∈ held /\ Str ∉ held /\ Kbs ∉ held /\ Identity ∉ held.

Lemma fill_neutral held u p es : quiet held -> _fill_patch_from_update u = Ret (p, es) -> neutral com_needs held es.
Proof.
  intros (Hc & Hs & Hk & Hi). unfold _fill_patch_from_update.
  destruct (match get_MaxDownloadSize u with Some _ => _ | None => _ end) as [size|]; [|done]. cbn [mbind outcome_bind].
  set (es0 := str_entries (get_Title u) ++ _). assert (neutral com_needs held es0) as H0.
  { repeat apply neutral_app; [by apply str_entries_neutral..|]. destruct (get_KBArticleIDs u); [|done].
    apply com_scope; [done..|]. apply str_entries_neutral. set_solver. }
  destruct (bool_decide _); intros [= <- <-]; [|done]. apply neutral_app; [done|].
  destruct (get_UpdateID u); [|done]. apply com_scope; [done..|]. apply str_entries_neutral. set_solver.
Qed.

Lemma item_neutral held es : quiet held -> Update ∉ held -> neutral com_needs (Update :: held) es ->
  neutral com_needs held ([Get Update] ++ es ++ [Put Update]).
Proof. intros (? & ? & ? & ?) Hu He. by apply com_scope. Qed.

Lemma quiet_update held : quiet held -> quiet (Update :: held).
Proof. unfold quiet. set_solver. Qed.

Lemma collect_neutral held room items ps es : quiet held -> Update ∉ held ->
  collect_updates room items = Ret (ps, es) -> neutral com_needs held es.
Proof.
  intros Hq Hu. revert room ps es. induction items as [|[u|] items IH]; intros [|room] ps es; cbn [collect_updates];
    try (by intros [= <- <-]); [|by apply IH].
  destruct (_fill_patch_from_update u) as [[p es1]|] eqn:E; [|done]. cbn [mbind outcome_bind].
  destruct (collect_updates _ items) as [[ps2 es2]|] eqn:Ec; [|done]. cbn [mbind outcome_bind]. intros [= _ <-].
  change (Get Update :: es1 ++ Put Update :: es2) with ([Get Update] ++ es1 ++ [Put Update] ++ es2).
  rewrite !(assoc_L (++)). apply neutral_app; [|by eapply IH]. rewrite <- !(assoc_L (++)).
  apply item_neutral; [done..|]. by eapply fill_neutral; [apply quiet_update|].
Qed.

Lemma select_neutral held ids items added matched es : quiet held -> Update ∉ held ->
  select_updates ids items = Ret (added, matched, es) -> neutral com_needs held es.
Proof.
  intros Hq Hu. revert added matched es. induction items as [|[u|] items IH]; intros added matched es; cbn [select_updates];
    [by intros [= <- <- <-]| |by apply IH].
  destruct (_fill_patch_from_update u) as [[p es1]|] eqn:E; [|done]. cbn [mbind outcome_bind].
  destruct (select_updates ids items) as [[[a m] es2]|] eqn:Ec; [|done]. cbn [mbind outcome_bind].
  assert (neutral com_needs held ([Get Update] ++ es1 ++ [Put Update] ++ es2)) as Hn.
  { rewrite !(assoc_L (++)). apply neutral_app; [|by eapply IH]. rewrite <- !(assoc_L (++)).
    apply item_neutral; [done..|]. by eapply fill_neutral; [apply quiet_update|]. }
  destruct (_ && _); intros [= _ _ <-]; exact Hn.
Qed.

(** COM as the thread finds it: already initialised when the call answers
    [RPC_E_CHANGED_MODE]. *)
Definition com_before (e : wua_env) : list com := if FAILED (co_init e) then [Com] else [].

(** Run the entries that are known. *)
Ltac run_ledger :=
  repeat (rewrite ?replay_app; cbn [mbind option_bind];
    match goal with
    | |- context [replay com_needs ?h ?es] =>
        let v := eval vm_compute in (replay com_needs h es) in
        lazymatch v with Some _ => change (replay com_needs h es) with v end
    | |- context [replay com_needs ?h (?c :: ?es)] => change (c :: es) with ([c] ++ es)
    end; cbn [mbind option_bind]);
  rewrite ?replay_app; cbn [mbind option_bind].

Lemma search_entries e es b : _search e = (b, es) ->
  replay com_needs [Session; Com] es = Some (if b then [SearchResult; Searcher; Session; Com] else [Session; Com]).
Proof.
  unfold _search. destruct (searcher_ok e), (criteria_ok e), (search_ok e); cbn; by intros [= <- <-].
Qed.

Lemma collect_entries e max o es : leo_patches_collect e max = Ret (o, es) -> neutral com_needs (com_before e) es.
Proof.
  unfold leo_patches_collect, com_before. destruct (max <=? 0); [by intros [= <- <-]|].
  destruct (_ && _); [by intros [= <- <-]|]. unfold _create_session. destruct (session_ok e); cbn [negb].
  2:{ destruct (FAILED (co_init e)); by intros [= <- <-]. }
  destruct (_search e) as [b es2] eqn:Es. apply search_entries in Es. destruct b; cbn [negb].
  2:{ intros [= <- <-]. unfold neutral. destruct (FAILED (co_init e)); cbn [negb]; run_ledger; rewrite Es; run_ledger; done. }
  destruct (updates e) as [us|].
  2:{ intros [= <- <-]. unfold neutral. destruct (FAILED (co_init e)); cbn [negb]; run_ledger; rewrite Es; run_ledger; done. }
  destruct (collect_updates _ us) as [[ps es3]|] eqn:Ec; [|done]. cbn [mbind outcome_bind]. intros [= <- <-].
  apply (collect_neutral [AllUpdates; SearchResult; Searcher; Session; Com]) in Ec;
    [|by repeat split; apply (bool_decide_unpack _)|by apply (bool_decide_unpack _)].
  unfold neutral in *. destruct (FAILED (co_init e)); cbn [negb]; run_ledger; rewrite Es; run_ledger; rewrite Ec; run_ledger; done.
Qed.

(** The end of a branch: the entries before the loop, those of the loop, the
    rest. *)
Ltac finish_install Hi H0 Hes E :=
  injection Hi as <-; destruct H0 as [-> | ->]; cbn [rep_entries failed_report]; run_ledger; rewrite Hes; run_ledger;
  rewrite E; run_ledger; done.

Lemma install_updates_entries e ids rb es rep h0 :
  replay com_needs h0 es = Some [SearchResult; Searcher; Session; Com] ->
  install_updates e ids rb (bool_decide (h0 = [])) es = Ret rep -> (h0 = [] \/ h0 = [Com]) ->
  neutral com_needs h0 (rep_entries rep).
Proof.
  intros Hes Hi H0. unfold neutral. unfold install_updates in Hi. destruct (updates e) as [us|].
  2:{ injection Hi as <-. destruct H0 as [-> | ->], (_create_update_collection e); cbn [rep_entries failed_report]; run_ledger; rewrite Hes;
      run_ledger; done. }
  destruct (_create_update_collection e); cbn [negb] in Hi.
  2:{ injection Hi as <-. destruct H0 as [-> | ->]; cbn [rep_entries failed_report]; run_ledger; rewrite Hes; run_ledger; done. }
  destruct (select_updates ids us) as [[[added matched] es1]|] eqn:E; [|done]. cbn [mbind outcome_bind] in Hi.
  apply (select_neutral [ToInstall; AllUpdates; SearchResult; Searcher; Session; Com]) in E;
    [|by repeat split; apply (bool_decide_unpack _)|by apply (bool_decide_unpack _)].
  unfold neutral in E.
  destruct (matched =? 0); [finish_install Hi H0 Hes E|].
  destruct (downloader_ok e); cbn [negb] in Hi; [|finish_install Hi H0 Hes E].
  destruct (download_ok e); cbn [negb] in Hi; [|finish_install Hi H0 Hes E].
  destruct (dl_result_some e), (installer_ok e); cbn [negb] in Hi; try finish_install Hi H0 Hes E.
  all: destruct (install_ok e); cbn [negb] in Hi; [|finish_install Hi H0 Hes E].
  all: set (reboot := (_ : bool) && rb && _) in Hi; destruct reboot; [|finish_install Hi H0 Hes E].
  all: unfold _enable_shutdown_privilege in Hi; destruct (token_ok e); finish_install Hi H0 Hes E.
Qed.

(** C39: On every path of a collection and of an installation of updates, each
    object and string obtained from COM is released once, before COM is
    uninitialised, and COM is uninitialised exactly when the call initialised
    it. *)
Theorem com_objects_released e ids rb t max :
  (forall o es, leo_patches_collect e max = Ret (o, es) -> neutral com_needs (com_before e) es) /\
  (forall err rep, leo_patches_install e ids rb t = Ret (err, Some rep) -> neutral com_needs (com_before e) (rep_entries rep)).
Proof.
  split; [apply collect_entries|]. intros err rep. unfold leo_patches_install, com_before.
  destruct (bool_decide _); [done|]. destruct (_ && _); [by intros [= <- <-]|].
  unfold _create_session. destruct (session_ok e); cbn [negb].
  2:{ destruct (FAILED (co_init e)); by intros [= <- <-]. }
  destruct (_search e) as [b es2] eqn:Es. apply search_entries in Es. destruct b; cbn [negb].
  2:{ intros [= <- <-]. unfold neutral. destruct (FAILED (co_init e)); cbn [negb rep_entries failed_report]; run_ledger;
      rewrite Es; run_ledger; done. }
  destruct (install_updates _ _ _ _ _) as [r|] eqn:Ei; [|done]. cbn [mbind outcome_bind]. intros [= <- <-].
  destruct (FAILED (co_init e)); cbn [negb] in Ei; (eapply install_updates_entries; [|exact Ei|]; [|by auto]);
    run_ledger; exact Es.
Qed.

(** ** What is installed *)

(** The identifier an update is reported and selected by. *)
Definition update_id (u : IUpdate) : list ascii :=
  match _fill_patch_from_update u with Ret (p, _) => patch_id p | Undef => [] end.

Definition selected (ids : argv_t) (u : IUpdate) : bool :=
  negb (bool_decide (update_id u = [])) && bool_decide (update_id u ∈ ids).

Lemma id_in_list_spec id ids : _id_in_list id ids = bool_decide (id ∈ ids).
Proof.
  unfold _id_in_list. apply eq_bool_prop_intro. rewrite bool_decide_spec, Is_true_true, existsb_exists.
  split.
  - intros (x & Hx%list_elem_of_In & ->%bool_decide_eq_true). done.
  - intros H. exists id. split; [by apply list_elem_of_In|]. by apply bool_decide_eq_true.
Qed.

Definition found (items : list (option IUpdate)) : list IUpdate := omap (fun x => x) items.

(** The loop selects exactly the updates asked for, in their order. *)
Lemma select_updates_spec ids items added matched es :
  select_updates ids items = Ret (added, matched, es) ->
  added = List.filter add_ok (List.filter (selected ids) (found items)) /\
  matched = Z.of_nat (length (List.filter (selected ids) (found items))).
Proof.
  revert added matched es. induction items as [|[u|] items IH]; intros added matched es; cbn [select_updates];
    [by intros [= <- <- <-]| |by apply IH].
  destruct (_fill_patch_from_update u) as [[p es1]|] eqn:E; [|done]. cbn [mbind outcome_bind].
  destruct (select_updates ids items) as [[[a m] es2]|]; [|done]. cbn [mbind outcome_bind].
  destruct (IH a m es2 eq_refl) as [-> ->]. rewrite id_in_list_spec.
  change (found (Some u :: items)) with (u :: found items). cbn [List.filter].
  assert (selected ids u = negb (bool_decide (patch_id p = [])) && bool_decide (patch_id p ∈ ids)) as ->
    by (unfold selected, update_id; by rewrite E).
  destruct (_ && _); intros [= <- <- _]; cbn [List.filter length]; (split; [by destruct (add_ok u)|lia]).
Qed.

Lemma collect_updates_spec room items ps es :
  collect_updates room items = Ret (ps, es) ->
  (length ps <= room)%nat /\
  Forall (fun p => patch_id p <> [] /\ exists u es, u ∈ found items /\ _fill_patch_from_update u = Ret (p, es)) ps.
Proof.
  revert room ps es. induction items as [|[u|] items IH]; intros [|room] ps es; cbn [collect_updates];
    try (intros [= <- <-]; split; [simpl; lia|constructor]).
  2:{ intros [L F]%IH. done. }
  destruct (_fill_patch_from_update u) as [[p es1]|] eqn:E; [|done]. cbn [mbind outcome_bind].
  destruct (collect_updates _ items) as [[ps2 es2]|] eqn:Ec; [|done]. apply IH in Ec as [L F]. cbn [mbind outcome_bind].
  assert (Forall (fun p => patch_id p <> [] /\
    exists u' es, u' ∈ found (Some u :: items) /\ _fill_patch_from_update u' = Ret (p, es)) ps2) as F'.
  { eapply Forall_impl; [exact F|]. intros p' (? & u' & es' & ? & ?). split; [done|]. exists u', es'. split; [|done].
    cbn. by right. }
  destruct (bool_decide (patch_id p = [])) eqn:Ei; intros [= <- _]; [done|]. breflect. split; [simpl; lia|].
  constructor; [|done]. split; [done|]. exists u, es1. split; [left|done].
Qed.

Definition updates_found (e : wua_env) : list IUpdate := default [] (found <$> updates e).

Lemma install_updates_spec e ids rb nu es rep :
  install_updates e ids rb nu es = Ret rep ->
  (forall us, rep_installed rep = Some us ->
    us = List.filter add_ok (List.filter (selected ids) (updates_found e)) /\
    List.filter (selected ids) (updates_found e) <> []) /\
  (exit_code (rep_result rep) = 0 ->
    rep_installed rep <> None /\ (result_code e = Some orcSucceeded \/ result_code e = Some orcSucceededWithErrors)) /\
  (rep_reboot rep = true -> rb = true /\ exit_code (rep_result rep) = 0 /\ exists v, reboot_required e = Some v /\ v <> 0).
Proof.
  unfold install_updates, updates_found. destruct (updates e) as [us0|]; [|by intros [= <-]].
  destruct (_create_update_collection e); cbn [negb]; [|by intros [= <-]].
  destruct (select_updates ids us0) as [[[added matched] es1]|] eqn:E; [|done]. cbn [mbind outcome_bind fmap option_fmap].
  apply select_updates_spec in E as [-> ->]. set (sel := List.filter (selected ids) _).
  destruct (Z.eqb_spec (Z.of_nat (length sel)) 0); [by intros [= <-]|]. assert (sel <> []) by (by destruct sel).
  destruct (downloader_ok e), (download_ok e), (installer_ok e); cbn [negb]; try (by intros [= <-]).
  destruct (install_ok e); cbn [negb].
  2:{ intros [= <-]. split_and!; [by intros us [= <-]|done..]. }
  intros [= <-]. cbn [rep_installed rep_result rep_reboot exit_code]. split_and!.
  - by intros us [= <-].
  - destruct (_ || _) eqn:Eo; [|done]. intros _. split; [done|]. unfold orcSucceeded, orcSucceededWithErrors in *.
    destruct (result_code e) as [v|]; [|done]. cbn in Eo.
    apply orb_prop in Eo as [->%Z.eqb_eq | ->%Z.eqb_eq]; auto.
  - intros Hr. apply andb_prop in Hr as [Hr Hq]. apply andb_prop in Hr as [-> ->]. split_and!; [done|done|].
    destruct (reboot_required e) as [v|]; [|done]. exists v. cbn in Hq. breflect. done.
Qed.

Lemma collect_found e max ps es p :
  leo_patches_collect e max = Ret (Some ps, es) -> p ∈ ps ->
  patch_id p <> [] /\ exists u es, u ∈ updates_found e /\ _fill_patch_from_update u = Ret (p, es).
Proof.
  unfold leo_patches_collect, updates_found. intros Hc Hp. destruct (max <=? 0); [done|].
  destruct (_ && _); [by injection Hc as <- _; apply not_elem_of_nil in Hp|]. destruct (_create_session e) as [[] es1]; cbn [negb] in Hc.
  2:{ by injection Hc as <- _; apply not_elem_of_nil in Hp. }
  destruct (_search e) as [[] es2]; cbn [negb] in Hc; [|by injection Hc as <- _; apply not_elem_of_nil in Hp].
  destruct (updates e) as [us|]; [|by injection Hc as <- _; apply not_elem_of_nil in Hp].
  destruct (collect_updates _ us) as [[ps' es3]|] eqn:Ec; [|done]. cbn [mbind outcome_bind] in Hc. injection Hc as -> _.
  apply collect_updates_spec in Ec as [_ F]. rewrite Forall_forall in F. by apply F.
Qed.


Lemma utf8_fits src sz : 1 <= sz -> strlen (_bstr_to_utf8 src sz) < sz.
Proof. intros Hz. destruct src; cbn; [by apply fit_length|unfold strlen; simpl; lia]. Qed.

(** Whatever the Windows Update Agent answers, at most the requested number of
    updates is reported, each with an identifier and fields that fit. *)
Theorem collected_updates_fit e max ps es :
  leo_patches_collect e max = Ret (Some ps, es) ->
  Z.of_nat (length ps) <= max /\
  Forall (fun p => patch_id p <> [] /\ strlen (patch_id p) < LEO_PATCH_ID_MAX_LEN /\
                   strlen (patch_title p) < LEO_PATCH_TITLE_MAX_LEN /\ 0 <= patch_size_bytes p < 2 ^ 64) ps.
Proof.
  intros Hc. split.
  - unfold leo_patches_collect in Hc. destruct (Z.leb_spec max 0); [done|].
    destruct (_ && _); [injection Hc as <- _; simpl; lia|].
    destruct (_create_session e) as [[] es1]; cbn [negb] in Hc; [|injection Hc as <- _; simpl; lia].
    destruct (_search e) as [[] es2]; cbn [negb] in Hc; [|injection Hc as <- _; simpl; lia].
    destruct (updates e) as [us|]; [|injection Hc as <- _; simpl; lia].
    destruct (collect_updates _ us) as [[ps' es3]|] eqn:Ec; [|done]. cbn [mbind outcome_bind] in Hc. injection Hc as -> _.
    apply collect_updates_spec in Ec as [L _]. lia.
  - apply Forall_forall. intros p Hp. destruct (collect_found _ _ _ _ _ Hc Hp) as (Hne & u & es' & _ & Ef).
    unfold _fill_patch_from_update in Ef.
    destruct (match get_MaxDownloadSize u with Some _ => _ | None => _ end) as [size|] eqn:Es; [|done].
    assert (0 <= size < 2 ^ 64).
    { destruct (get_MaxDownloadSize u) as [d|]; [|injection Es as <-; lia]. destruct (dgt d _); [|injection Es as <-; lia].
      unfold cast_u64 in Es. destruct (d_trunc d) as [z|]; [|done]. destruct (_ && _) eqn:Ez; [|done].
      injection Es as <-. breflect. lia. }
    cbn [mbind outcome_bind] in Ef. split; [done|].
    destruct (bool_decide _); injection Ef as <- _; cbn [patch_id patch_title patch_size_bytes];
      (split_and!; [|by apply utf8_fits|lia..]); [by apply utf8_fits|].
    destruct (first_kb u); [by apply fit_length|done].
Qed.

Definition plain (s : string) : option BSTR := Some (fun _ => str s).

Definition sample_update (kb : string) (add : bool) : IUpdate :=
  mk_update (plain "Cumulative Update") (plain "Critical") (Some (DFin 1000 0)) (Some (1, plain kb)) None add.

Definition sample_wua (us : list (option IUpdate)) : wua_env :=
  mk_wua 0 true true true true (Some us) true true true true true true true (Some orcSucceeded) (Some (-1)) true true.


(** ** Defects *)

(** A size of [2 ^ 64] bytes or more is converted without a check. *)
Example update_size_overflow add :
  _fill_patch_from_update (mk_update None None (Some (DFin 1 64)) (Some (1, plain "1")) None add) = Undef.
Proof. reflexivity. Qed.

(** An update that [IUpdateCollection_Add] refuses is counted among the
    updates treated: success is reported for an installation of nothing. *)
Example unadded_update_counted :
  exists rep, leo_patches_install (sample_wua [Some (sample_update "5001330" false)]) [str "KB5001330"] false 60 =
    Ret (LEO_OK, Some rep) /\
  rep_installed rep = Some [] /\ exit_code (rep_result rep) = 0 /\
  stdout_buf (rep_result rep) = str "1 patch(s) traité(s), résultat=2, redémarrage requis=oui".
Proof. eexists. split; [reflexivity|]. vm_compute. auto. Qed.
