(* ===== verification/InventoryWin.v ===== *)
(** Inventories on Windows: [platform/windows/inventory_win.c].

    The registry and the answers of the system are inputs.  A string value that
    does not fit the buffer makes [RegGetValueA] fail and leaves the buffer
    unspecified, without a terminator for certain: using the field is undefined
    then.  A key that lists the installed programs is the sequence of the
    answers of [RegEnumKeyExA]. *)
From S2P Require Import Prelude CString Double Types Json JsonParse Protocol Inventory.

(** [RegGetValueA] on a cleared buffer of [sz] bytes: whether it succeeds, and
    the field. *)
Definition RegGetValueA (value : option (list ascii)) (sz : Z) : bool * outcome (list ascii) :=
  match value with
  | None => (false, Ret [])
  | Some s => if strlen s <? sz then (true, Ret s) else (false, Undef)
  end.

Inductive drive_answer : Type := DriveOpened | DriveNotFound | DriveRefused.

Record win_hw_env : Type := mk_whw {
  cpu_key : option (option (list ascii));                 (* the key, and ProcessorNameString *)
  dwNumberOfProcessors : Z;
  glpi_len : Z;                                           (* the length asked for *)
  glpi_malloc_ok : bool;
  glpi : option (list bool);                              (* per entry: RelationProcessorCore *)
  ullTotalPhys : option Z;
  physical_drive : Z -> drive_answer;
  bios_key : option (list ascii -> option (list ascii));  (* the key, and its values *)
}.

Definition _read_cpu_model (e : win_hw_env) : outcome (list ascii) :=
  match cpu_key e with
  | None => Ret []
  | Some v => (RegGetValueA v 128).2
  end.

(** [cpu_threads] and [cpu_cores]. *)
Definition _read_cpu_topology (e : win_hw_env) : Z * Z :=
  let threads := wrap_s32 (dwNumberOfProcessors e) in
  if glpi_len e =? 0 then (threads, 0)
  else if negb (glpi_malloc_ok e) then (threads, 0)
  else
    match glpi e with
    | Some buf => (threads, Z.of_nat (length (List.filter (fun b => b) buf)))
    | None => (threads, 0)
    end.

Definition _read_ram_total (e : win_hw_env) : Z := default 0 (ullTotalPhys e).

(** The loop over the drives from number [i], [n] being left. *)
Fixpoint drives (open : Z -> drive_answer) (n : nat) (i count : Z) : Z :=
  match n with
  | O => count
  | S n' =>
      match open i with
      | DriveNotFound => count
      | DriveRefused => drives open n' (i + 1) count
      | DriveOpened => drives open n' (i + 1) (count + 1)
      end
  end.

Definition _read_disk_count (e : win_hw_env) : Z := drives (physical_drive e) 64 0 0.

Definition _read_bios_field (e : win_hw_env) (value_name : list ascii) (out_sz : Z) : outcome (list ascii) :=
  match bios_key e with
  | None => Ret []
  | Some values => (RegGetValueA (values value_name) out_sz).2
  end.

Definition leo_inventory_collect_hw (e : win_hw_env) : outcome (leo_error_t * leo_hw_inventory_t) :=
  model ← _read_cpu_model e;
  let '(threads, cores) := _read_cpu_topology e in
  version ← _read_bios_field e (str "BIOSVersion") 64;
  vendor ← _read_bios_field e (str "BIOSVendor") 64;
  board ← _read_bios_field e (str "BaseBoardProduct") 128;
  serial ← _read_bios_field e (str "SystemSerialNumber") 128;
  Ret (LEO_OK, mk_hw model cores threads (_read_ram_total e) (_read_disk_count e) version vendor board serial).

(** ** Installed programs *)

Record uninstall_key : Type := mk_key {
  DisplayName : option (list ascii);
  DisplayVersion : option (list ascii);
  Publisher : option (list ascii);
  InstallLocation : option (list ascii);
}.

Inductive enum_answer : Type :=
| NoMoreItems
| EnumError
| SubKey (k : option uninstall_key).    (* [None]: the key does not open *)

(** What a key becomes; [None] when it is skipped. *)
Definition sw_entry (k : uninstall_key) : option (outcome leo_sw_item_t) :=
  match RegGetValueA (DisplayName k) 128 with
  | (true, name) =>
      match name with
      | Ret [] => None
      | _ => Some (name ← name;
                   version ← (RegGetValueA (DisplayVersion k) 64).2;
                   publisher ← (RegGetValueA (Publisher k) 128).2;
                   path ← (RegGetValueA (InstallLocation k) 256).2;
                   Ret (mk_sw name version publisher path))
      end
  | (false, _) => None
  end.

(** The loop of [_collect_uninstall_key] from the index [i], [out] being filled
    already; [None] when the fuel does not suffice. *)
Fixpoint enum_loop (fuel : nat) (enum : Z -> enum_answer) (max_items i : Z) (out : list leo_sw_item_t) :
    option (outcome (list leo_sw_item_t)) :=
  match fuel with
  | O => None
  | S fuel' =>
      if Z.of_nat (length out) <? max_items then
        let next := wrap_u32 (i + 1) in
        match enum i with
        | NoMoreItems => Some (Ret out)
        | EnumError | SubKey None => enum_loop fuel' enum max_items next out
        | SubKey (Some k) =>
            match sw_entry k with
            | None => enum_loop fuel' enum max_items next out
            | Some Undef => Some Undef
            | Some (Ret item) => enum_loop fuel' enum max_items next (out ++ [item])
            end
        end
      else Some (Ret out)
  end.

Definition _collect_uninstall_key (fuel : nat) (key : option (Z -> enum_answer)) (max_items : Z) (out : list leo_sw_item_t) :
    option (outcome (list leo_sw_item_t)) :=
  match key with
  | None => Some (Ret out)
  | Some enum => enum_loop fuel enum max_items 0 out
  end.

(** The items stored, [None] for the result -1; nothing when the enumeration
    does not end. *)
Definition leo_inventory_collect_sw (fuel : nat) (native wow64 : option (Z -> enum_answer)) (max_items : Z) :
    option (outcome (option (list leo_sw_item_t))) :=
  if max_items <=? 0 then Some (Ret None)
  else
    o ← _collect_uninstall_key fuel native max_items [];
    match o with
    | Undef => Some Undef
    | Ret out =>
        o ← _collect_uninstall_key fuel wow64 max_items out;
        match o with Undef => Some Undef | Ret out => Some (Ret (Some out)) end
    end.

(** ** What is read *)

(** A key with finitely many entries. *)
Definition listed (ks : list enum_answer) (i : Z) : enum_answer := nth (Z.to_nat i) ks NoMoreItems.

(** No answer ends the enumeration early, and no value is too long. *)
Definition readable (a : enum_answer) : Prop :=
  match a with
  | NoMoreItems => False
  | SubKey (Some k) => sw_entry k <> Some Undef
  | _ => True
  end.

Definition program_of (a : enum_answer) : option leo_sw_item_t :=
  match a with
  | SubKey (Some k) => match sw_entry k with Some (Ret item) => Some item | _ => None end
  | _ => None
  end.

Lemma enum_loop_spec max ks pre out fuel :
  Forall readable ks -> Z.of_nat (length (pre ++ ks)) < 2 ^ 32 -> Z.of_nat (length out) <= max -> (length ks < fuel)%nat ->
  enum_loop fuel (listed (pre ++ ks)) max (Z.of_nat (length pre)) out =
  Some (Ret (take (Z.to_nat max) (out ++ omap program_of ks))).
Proof.
  revert pre out fuel. induction ks as [|a ks IH]; intros pre out fuel Hr Hl Ho Hf; (destruct fuel as [|fuel]; [lia|]);
    cbn [enum_loop]; (destruct (Z.ltb_spec (Z.of_nat (length out)) max);
      [|rewrite take_app_le by lia; by rewrite take_ge by lia]).
  - unfold listed at 1. rewrite Nat2Z.id, nth_overflow by (rewrite app_nil_r; lia). cbn. rewrite app_nil_r.
    by rewrite take_ge by lia.
  - unfold listed at 1. rewrite Nat2Z.id, app_nth2, Nat.sub_diag by lia. cbn [nth].
    inversion Hr as [|? ? Ha Hr']; subst. rewrite length_app in Hl. cbn [length] in Hl, Hf.
    assert (wrap_u32 (Z.of_nat (length pre) + 1) = Z.of_nat (length (pre ++ [a]))) as ->
      by (rewrite length_app; unfold wrap_u32; cbn [length]; rewrite Z.mod_small; lia).
    replace (pre ++ a :: ks) with ((pre ++ [a]) ++ ks) by (by rewrite <- (assoc_L (++))).
    assert (Z.of_nat (length ((pre ++ [a]) ++ ks)) < 2 ^ 32) as Hl' by (rewrite !length_app; simpl; lia).
    cbn [omap list_omap]. destruct a as [| |[k|]]; [done|..]; cbn [program_of] in *; try (by apply IH; [|..|lia]).
    destruct (sw_entry k) as [[item|]|] eqn:E; [|done|by apply IH; [|..|lia]].
    rewrite IH by (done || (rewrite length_app; simpl; lia) || lia). by rewrite <- (assoc_L (++)).
Qed.

(** The enumeration of the registry ends and gives the programs of the two
    keys that have a name, in their order, those of 64 bits first, up to the
    number asked for; keys that cannot be read are skipped. *)
Theorem uninstall_keys_read fuel native wow64 max :
  Forall readable native -> Forall readable wow64 -> 0 < max ->
  (length native < fuel)%nat -> (length wow64 < fuel)%nat ->
  Z.of_nat (length native) < 2 ^ 32 -> Z.of_nat (length wow64) < 2 ^ 32 ->
  leo_inventory_collect_sw fuel (Some (listed native)) (Some (listed wow64)) max =
  Some (Ret (Some (take (Z.to_nat max) (omap program_of native ++ omap program_of wow64)))).
Proof.
  intros Hn Hw Hm F1 F2 L1 L2. unfold leo_inventory_collect_sw, _collect_uninstall_key.
  destruct (Z.leb_spec max 0); [lia|].
  rewrite (enum_loop_spec max native []) by (done || (simpl; lia)). cbn [mbind option_bind app].
  rewrite (enum_loop_spec max wow64 []); [|done|done|rewrite length_take; lia|done]. cbn [mbind option_bind].
  set (a := omap program_of native). set (b := omap program_of wow64). do 3 f_equal. rewrite !take_app, take_take, length_take.
  replace (Z.to_nat max `min` Z.to_nat max)%nat with (Z.to_nat max) by lia. do 2 f_equal. lia.
Qed.

Lemma uninstall_keys_read_witness :
  let k name := SubKey (Some (mk_key name (Some (str "1.0")) None None)) in
  leo_inventory_collect_sw 4 (Some (listed [k (Some (str "7-Zip")); k None; EnumError])) (Some (listed [k (Some (str "Git"))])) 150 =
  Some (Ret (Some [mk_sw (str "7-Zip") (str "1.0") [] []; mk_sw (str "Git") (str "1.0") [] []])).
Proof.
  intros k. apply (uninstall_keys_read 4 [k (Some (str "7-Zip")); k None; EnumError] [k (Some (str "Git"))] 150);
    try (simpl; lia); repeat constructor; by vm_compute.
Defined.

Lemma reg_value_fits v sz s : 1 <= sz -> (RegGetValueA v sz).2 = Ret s -> strlen s < sz.
Proof.
  intros Hz. destruct v as [x|]; cbn; [|intros [= <-]; unfold strlen; simpl; lia].
  destruct (Z.ltb_spec (strlen x) sz); cbn; [by intros [= <-]|done].
Qed.

(** The fields of a program fit their buffers. *)
Lemma program_fits a i : program_of a = Some i ->
  sw_name i <> [] /\ strlen (sw_name i) < 128 /\ strlen (sw_version i) < 64 /\ strlen (sw_publisher i) < 128 /\
  strlen (sw_install_path i) < 256.
Proof.
  destruct a as [| |[k|]]; cbn; try done. unfold sw_entry.
  destruct (RegGetValueA (DisplayName k) 128) as [[] name] eqn:En; [|done].
  pose proof (reg_value_fits (DisplayName k) 128) as Hn. rewrite En in Hn. cbn [snd] in Hn.
  destruct name as [[|c name]|]; [done| |done]. cbn [mbind outcome_bind].
  destruct ((RegGetValueA (DisplayVersion k) 64).2) as [v|] eqn:Ev; [|done]. cbn [mbind outcome_bind].
  destruct ((RegGetValueA (Publisher k) 128).2) as [p|] eqn:Ep; [|done]. cbn [mbind outcome_bind].
  destruct ((RegGetValueA (InstallLocation k) 256).2) as [q|] eqn:Eq; [|done]. cbn [mbind outcome_bind].
  intros [= <-]. cbn. apply reg_value_fits in Ev, Ep, Eq; [|lia..]. split_and!; [done|by apply Hn|done..].
Qed.

(** ** Hardware *)

(** A registry value that is absent or a C string that fits. *)
Definition fits (v : option (list ascii)) (sz : Z) : Prop :=
  match v with Some s => held sz s | None => True end.

Lemma reg_value_held v sz : 1 <= sz -> fits v sz -> exists s, (RegGetValueA v sz).2 = Ret s /\ held sz s.
Proof.
  intros Hz. destruct v as [s|]; cbn; [|intros _; exists []; split; [done|by apply held_nil]].
  intros [L N]. destruct (Z.ltb_spec (strlen s) sz); [by exists s|lia].
Qed.

Lemma drives_range open n i count : 0 <= count -> count <= drives open n i count <= count + Z.of_nat n.
Proof.
  revert i count. induction n as [|n IH]; intros i count Hc; cbn [drives]; [lia|].
  destruct (open i); [specialize (IH (i + 1) (count + 1))|lia|specialize (IH (i + 1) count)]; lia.
Qed.

(** The hardware inventory of Windows is well typed, as that of Linux is,
    when the strings of the registry fit their fields and the system counts
    fewer than [2 ^ 31] processors; it counts at most 64 disks. *)
Theorem win_collect_hw_typed e :
  (forall v, cpu_key e = Some v -> fits v 128) ->
  (forall vs n, bios_key e = Some vs -> fits (vs n) 64) ->
  0 <= dwNumberOfProcessors e <= INT_MAX -> (forall l, glpi e = Some l -> Z.of_nat (length l) <= INT_MAX) ->
  0 <= _read_ram_total e < 2 ^ 64 ->
  exists h, leo_inventory_collect_hw e = Ret (LEO_OK, h) /\ hw_typed h /\ disk_count h <= 64.
Proof.
  intros Hc Hb Hn Hg Hr. unfold leo_inventory_collect_hw. assert (0 <= 0 <= INT_MAX) as H0 by (unfold INT_MAX; lia).
  assert (wrap_s32 (dwNumberOfProcessors e) = dwNumberOfProcessors e) as Hw by (apply wrap_s32_id; unfold INT_MIN; lia).
  assert (exists m, _read_cpu_model e = Ret m /\ held 128 m) as (m & -> & Hm).
  { unfold _read_cpu_model. destruct (cpu_key e) as [v|]; [apply reg_value_held; [lia|by apply Hc]|].
    exists []. split; [done|apply held_nil; lia]. }
  assert (forall n sz, 64 <= sz -> exists s, _read_bios_field e n sz = Ret s /\ held sz s) as Hf.
  { intros n sz Hz. unfold _read_bios_field. destruct (bios_key e) as [vs|].
    - apply reg_value_held; [lia|]. specialize (Hb vs n eq_refl). destruct (vs n); [|done]. destruct Hb. split; [lia|done].
    - exists []. split; [done|apply held_nil; lia]. }
  destruct (Hf (str "BIOSVersion") 64) as (v1 & -> & H1); [lia|]. destruct (Hf (str "BIOSVendor") 64) as (v2 & -> & H2); [lia|].
  destruct (Hf (str "BaseBoardProduct") 128) as (v3 & -> & H3); [lia|].
  destruct (Hf (str "SystemSerialNumber") 128) as (v4 & -> & H4); [lia|]. cbn [mbind outcome_bind].
  destruct (_read_cpu_topology e) as [threads cores] eqn:Et. eexists. split; [done|].
  assert (0 <= _read_disk_count e <= 64) as Hd by apply (drives_range (physical_drive e) 64 0 0 ltac:(lia)).
  assert (0 <= threads <= INT_MAX /\ 0 <= cores <= INT_MAX) as [Ht Hcr].
  { unfold _read_cpu_topology in Et. rewrite Hw in Et.
    destruct (glpi_len e =? 0); [by injection Et as <- <-|]. destruct (glpi_malloc_ok e); cbn [negb] in Et; [|by injection Et as <- <-].
    destruct (glpi e) as [l|]; injection Et as <- <-; [|done]. split; [done|].
    pose proof (List.filter_length_le (fun b : bool => b) l). specialize (Hg l eq_refl). lia. }
  generalize dependent (_read_disk_count e). intros dc Hd. generalize dependent (_read_ram_total e). intros ram Hr.
  split; [|cbn [disk_count]; lia]. unfold hw_typed. cbn. split_and!; first [assumption|lia].
Qed.

Lemma win_collect_hw_typed_witness :
  exists h, leo_inventory_collect_hw
    (mk_whw (Some (Some (str "Xeon"))) 8 96 true (Some [true; false; true]) (Some 8589934592)
       (fun i => if i <? 2 then DriveOpened else DriveNotFound) (Some (fun _ => Some (str "ACME")))) = Ret (LEO_OK, h) /\
  hw_typed h /\ disk_count h <= 64.
Proof.
  apply win_collect_hw_typed; cbn; unfold INT_MAX; try lia.
  - intros v [= <-]. split; [done|]. by apply (bool_decide_unpack _).
  - intros vs n [= <-]. split; [done|]. by apply (bool_decide_unpack _).
  - intros l [= <-]. simpl. lia.
Defined.

(** ** Defects *)

(** When every call of [RegEnumKeyExA] fails, for instance because the key was
    deleted meanwhile, the loop never ends. *)
Theorem enumeration_never_ends fuel max : 0 < max -> enum_loop fuel (fun _ => EnumError) max 0 [] = None.
Proof.
  intros Hm. generalize 0 at 1 as i. induction fuel as [|fuel IH]; intros i; [done|]. cbn [enum_loop length].
  destruct (Z.ltb_spec (Z.of_nat 0) max); [apply IH|lia].
Qed.

(** A version of 64 characters or more leaves its field unspecified. *)
Example long_version_undefined :
  leo_inventory_collect_sw 2 (Some (listed [SubKey (Some (mk_key (Some (str "X")) (Some (replicate 64 "1"%char)) None None))]))
    None 150 = Some Undef.
Proof. vm_compute. reflexivity. Qed.

(** Programs with install paths, which Linux packages do not have: 150 of them
    fit their fields but not the message, and the inventory is lost. *)
Example win_inventory_dropped :
  let program := mk_sw (str "Microsoft Visual C++ 2022 X64 Minimum Runtime") (str "14.38.33135") (str "Microsoft Corporation")
                       (str "C:" ++ concat (replicate 126 (str "\p"))) in
  @leo_proto_build_inventory decimal_lib sample_env (mk_hw (str "Xeon") 8 8 8589934592 1 [] [] [] [])
    (replicate 150 program) LEO_INVENTORY_MAX_SW_ITEMS LEO_MAX_MSG_SIZE = None.
Proof. vm_compute. reflexivity. Qed.
