(* ===== verification/CryptoWin.v ===== *)
(** Certificates on Windows: [platform/windows/crypto_win.c].

    Files are those of [Crypto]; their mode means nothing here.  The
    fingerprint functions write into a local buffer of 65 bytes, which is
    modelled with its bounds: a write past its end is undefined behaviour. *)
From stdpp Require Import sorting.
From S2P Require Import Prelude CString Types Crypto.

Definition WIN_CERTS_DIR : list ascii := str "C:\ProgramData\LeoOne\certs\".
Definition WIN_CLIENT_CERT_FILE : list ascii := WIN_CERTS_DIR ++ str "client_cert.pem".
Definition WIN_CLIENT_KEY_FILE : list ascii := WIN_CERTS_DIR ++ str "client_key.pem".

(** At most [buf_max - 1] bytes are read. *)
Definition _read_file (io : io_env) (fs : files) (path : list ascii) (buf_max : Z) : option (list ascii) :=
  f ← fs !! path;
  if read_fails io path then None else Some (take (Z.to_nat (buf_max - 1)) (f_content f)).

(** The files after the call, and whether it succeeded: the count of [fwrite] is
    compared, the result of [fclose] is not. *)
Definition _write_file (io : io_env) (fs : files) (path content : list ascii) : files * bool :=
  if negb (can_write io path) then (fs, false)
  else
    let accepted := take (accepted_of io path) content in
    let stored := take (written_of io path) accepted in
    (<[path := mk_file stored 0]> fs, bool_decide (length accepted = length content)).

(** Where the loop starts: after the letter of a drive. *)
Definition drive_end (tmp : list ascii) : nat :=
  if bool_decide (tmp !! 1%nat = Some ":"%char) then 2 else 0.

(** The paths handed to [CreateDirectoryA], in order. *)
Definition create_points (tmp : list ascii) : list (list ascii) :=
  let start := drive_end tmp in
  omap (fun i => if match tmp !! i with
                    | Some c => bool_decide (c = "\"%char)
                    | None => true
                    end then if bool_decide (i = start) then None else Some (take i tmp) else None)
    (seq start (length tmp + 1 - start)).

(** The directories created, and whether the call succeeded. *)
Definition _mkdir_p (io : io_env) (path : list ascii) : list (list ascii) * bool :=
  let tmp := fit 512 path in
  let tmp := match last tmp with
             | Some c => if bool_decide (c = "\"%char) then take (length tmp - 1) tmp else tmp
             | None => tmp
             end in
  mkdir_all io (create_points tmp).

Definition leo_crypto_load_cert_key (io : io_env) (fs : files) (cert_sz key_sz : Z) :
    leo_error_t * option (list ascii * list ascii) :=
  if (cert_sz =? 0) || (key_sz =? 0) then (LEO_ERR_TLS, None)
  else
    match _read_file io fs WIN_CLIENT_CERT_FILE cert_sz with
    | None => (LEO_ERR_TLS, None)
    | Some cert =>
        match _read_file io fs WIN_CLIENT_KEY_FILE key_sz with
        | None => (LEO_ERR_TLS, None)
        | Some key => (LEO_OK, Some (c_str cert, c_str key))
        end
    end.

Definition leo_crypto_save_cert_key (io : io_env) (fs : files) (cert_pem key_pem : list ascii) : leo_error_t * files :=
  if negb (_mkdir_p io WIN_CERTS_DIR).2 then (LEO_ERR_TLS, fs)
  else
    let '(fs, ok) := _write_file io fs WIN_CLIENT_CERT_FILE cert_pem in
    if negb ok then (LEO_ERR_TLS, fs)
    else
      let '(fs, ok) := _write_file io fs WIN_CLIENT_KEY_FILE key_pem in
      if negb ok then (LEO_ERR_TLS, fs) else (LEO_OK, fs).

(** ** Fingerprints *)

(** Bytes written at an offset of a buffer. *)
Definition write_at (buf : list ascii) (i : nat) (bytes : list ascii) : outcome (list ascii) :=
  if bool_decide (i + length bytes <= length buf)%nat
  then Ret (take i buf ++ bytes ++ drop (i + length bytes) buf) else Undef.

(** Each [snprintf] writes two digits and a NUL. *)
Fixpoint hex_loop (bytes : list Z) (i : nat) (hex_out : list ascii) : outcome (list ascii) :=
  match bytes with
  | [] => Ret hex_out
  | b :: bytes' => hex_out ← write_at hex_out (i * 2) (hex2 b ++ [NUL]); hex_loop bytes' (S i) hex_out
  end.

Definition _bytes_to_hex (bytes : list Z) (hex_out : list ascii) : outcome (list ascii) :=
  hex_out ← hex_loop bytes 0 hex_out;
  write_at hex_out (length bytes * 2) [NUL].

Section fingerprints.
Context `{OpenSSL}.

(** Whether the digest was computed, and the buffer. *)
Definition _x509_sha256_hex (cert : X509) (out_hex : list ascii) : outcome (bool * list ascii) :=
  match i2d_X509 cert with
  | None => Ret (false, out_hex)
  | Some der =>
      match EVP_sha256 der with
      | None => Ret (false, out_hex)
      | Some digest => out_hex ← _bytes_to_hex digest out_hex; Ret (true, out_hex)
      end
  end.

(** [computed_fp] is what the local array holds at first. *)
Definition leo_crypto_x509_fingerprint_matches (cert : option X509) (expected_fp : option (list ascii))
    (computed_fp : list ascii) : outcome bool :=
  match cert, expected_fp with
  | Some cert, Some fp =>
      if negb (strlen fp =? 64) then Ret false
      else
        '(computed, computed_fp) ← _x509_sha256_hex cert computed_fp;
        if negb computed then Ret false else Ret (strcaseeq (c_str computed_fp) fp)
  | _, _ => Ret false
  end.

Definition leo_crypto_verify_ca_fingerprint (ca_cert_pem expected_fp : list ascii) (bio_ok : bool)
    (computed_fp : list ascii) : outcome leo_error_t :=
  if negb (strlen expected_fp =? 64) then Ret LEO_ERR_TLS
  else if negb bio_ok then Ret LEO_ERR_TLS
  else
    match PEM_read_bio_X509 ca_cert_pem with
    | None => Ret LEO_ERR_TLS
    | Some cert =>
        '(computed, computed_fp) ← _x509_sha256_hex cert computed_fp;
        if negb computed then Ret LEO_ERR_TLS
        else if negb (strcaseeq (c_str computed_fp) expected_fp) then Ret LEO_ERR_TLS
        else Ret LEO_OK
    end.

End fingerprints.

(** ** Lemmas *)

Lemma write_at_spec (l bytes tail : list ascii) :
  (length bytes <= length tail)%nat -> write_at (l ++ tail) (length l) bytes = Ret (l ++ bytes ++ drop (length bytes) tail).
Proof.
  intros Hb. unfold write_at. rewrite bool_decide_true by (rewrite length_app; lia).
  rewrite take_app_length, drop_app_ge by lia. do 4 f_equal. lia.
Qed.

Lemma hex_length l : length (Crypto._bytes_to_hex l) = (length l * 2)%nat.
Proof.
  unfold Crypto._bytes_to_hex. induction l as [|b l IH]; [done|]. cbn [map concat length].
  rewrite length_app, IH, hex2_length. lia.
Qed.

Lemma hex_app l1 l2 : Crypto._bytes_to_hex (l1 ++ l2) = Crypto._bytes_to_hex l1 ++ Crypto._bytes_to_hex l2.
Proof. unfold Crypto._bytes_to_hex. by rewrite map_app, concat_app. Qed.

(** Bytes already converted stay, and each one takes two places. *)
Lemma hex_loop_spec bytes done tail :
  (length bytes * 2 < length tail)%nat ->
  exists tail', hex_loop bytes (length done) (Crypto._bytes_to_hex done ++ tail) =
    Ret (Crypto._bytes_to_hex (done ++ bytes) ++ tail') /\ length tail = (length bytes * 2 + length tail')%nat.
Proof.
  revert done tail. induction bytes as [|b bytes IH]; intros done tail Hl; cbn [hex_loop].
  - exists tail. by rewrite app_nil_r.
  - cbn [length] in Hl. rewrite <- hex_length, write_at_spec by (rewrite length_app, hex2_length; simpl; lia).
    cbn [mbind outcome_bind]. rewrite !(assoc_L (++)), <- (assoc_L (++) _ [NUL]).
    assert (Crypto._bytes_to_hex done ++ hex2 b = Crypto._bytes_to_hex (done ++ [b])) as ->
      by (rewrite hex_app; unfold Crypto._bytes_to_hex at 3; cbn [map concat]; by rewrite app_nil_r).
    set (rest := [NUL] ++ drop _ tail). assert (length tail = (2 + length rest)%nat) as Hr.
    { unfold rest. rewrite length_app, length_drop, length_app, hex2_length. simpl. lia. }
    destruct (IH (done ++ [b]) rest) as (tail' & E & Ht); [lia|].
    rewrite length_app in E. cbn [length] in E. rewrite Nat.add_1_r in E. exists tail'.
    rewrite E, <- (assoc_L (++)). split; [done|]. cbn [length]. lia.
Qed.

Lemma hex_no_nul l : Forall (fun b => 0 <= b < 256) l -> NUL ∉ Crypto._bytes_to_hex l.
Proof.
  assert (forall d, 0 <= d < 16 -> hex_digit d <> NUL) as Hd.
  { intros d Hd E. apply (f_equal code) in E. unfold hex_digit in E. change (code NUL) with 0 in E.
    destruct (Z.ltb_spec d 10); rewrite code_of_N in E by lia; lia. }
  intros Hf. unfold Crypto._bytes_to_hex. induction Hf as [|b l Hb _ IH]; [apply not_elem_of_nil|].
  cbn [map concat]. rewrite elem_of_app. intros [Hin|]; [|done]. unfold hex2 in Hin.
  pose proof (Z.mod_pos_bound b 16). pose proof (Z.div_pos b 16). pose proof (Z.div_lt_upper_bound b 16 16).
  apply elem_of_cons in Hin as [E|[E|[]%elem_of_nil]%elem_of_cons]; symmetry in E; revert E; apply Hd; lia.
Qed.

Lemma c_str_app_nul l rest : NUL ∉ l -> c_str (l ++ NUL :: rest) = l.
Proof.
  induction l as [|c l IH]; [done|]. intros [Hc Hl]%not_elem_of_cons. cbn [app c_str].
  rewrite bool_decide_false by done. by rewrite IH.
Qed.

(** In a buffer that is long enough, the digits and a NUL. *)
Lemma bytes_to_hex_spec bytes buf :
  (length bytes * 2 < length buf)%nat -> Forall (fun b => 0 <= b < 256) bytes ->
  exists out, _bytes_to_hex bytes buf = Ret out /\ c_str out = Crypto._bytes_to_hex bytes.
Proof.
  intros Hl Hb. unfold _bytes_to_hex. destruct (hex_loop_spec bytes [] buf Hl) as (tail & E & Ht).
  change (hex_loop bytes 0 buf) with (hex_loop bytes (length (A := Z) []) (Crypto._bytes_to_hex [] ++ buf)).
  rewrite E. cbn [mbind outcome_bind app]. rewrite <- hex_length, write_at_spec by (simpl; lia).
  eexists. split; [done|]. cbn [app]. by apply c_str_app_nul, hex_no_nul.
Qed.

Section fingerprint_lemmas.
Context `{OpenSSLLaws}.

Lemma sha256_hex_spec cert buf :
  length buf = 65%nat ->
  match Crypto._x509_sha256_hex cert with
  | None => _x509_sha256_hex cert buf = Ret (false, buf)
  | Some fp => exists out, _x509_sha256_hex cert buf = Ret (true, out) /\ c_str out = fp
  end.
Proof.
  intros Hl. unfold _x509_sha256_hex, Crypto._x509_sha256_hex. destruct (i2d_X509 cert) as [der|]; [|done].
  cbn [mbind option_bind]. destruct (EVP_sha256 der) as [digest|] eqn:E; [|done]. cbn [mbind option_bind].
  apply sha256_bytes in E as [Hd Hb].
  destruct (bytes_to_hex_spec digest buf) as (out & -> & Ho); [lia|done|]. by exists out.
Qed.

(** C40: on Windows a certificate passes the pin exactly when it does on Linux,
    and so does the text of an authority: whatever the local buffer of 65
    bytes holds at first, the digest of 32 bytes is written inside it, and what
    is compared are its 64 digits. *)
Theorem win_fingerprints_checked cert fp pem bio_ok buf :
  length buf = 65%nat ->
  leo_crypto_x509_fingerprint_matches cert fp buf = Ret (Crypto.leo_crypto_x509_fingerprint_matches cert fp) /\
  (forall fp, leo_crypto_verify_ca_fingerprint pem fp bio_ok buf = Ret (Crypto.leo_crypto_verify_ca_fingerprint pem fp bio_ok)).
Proof.
  intros Hl. split.
  - unfold leo_crypto_x509_fingerprint_matches, Crypto.leo_crypto_x509_fingerprint_matches.
    destruct cert as [cert|], fp as [fp|]; try done. destruct (negb _); [done|].
    pose proof (sha256_hex_spec cert buf Hl) as Hx.
    destruct (Crypto._x509_sha256_hex cert); [destruct Hx as (out & -> & <-)|rewrite Hx]; done.
  - intros fp'. unfold leo_crypto_verify_ca_fingerprint, Crypto.leo_crypto_verify_ca_fingerprint.
    destruct (negb _); [done|]. destruct bio_ok; [|done]. cbn [negb].
    destruct (PEM_read_bio_X509 pem) as [c|]; [|done]. pose proof (sha256_hex_spec c buf Hl) as Hx.
    destruct (Crypto._x509_sha256_hex c); [destruct Hx as (out & -> & <-)|rewrite Hx]; [|done].
    cbn [mbind outcome_bind negb]. by destruct (strcaseeq _ _).
Qed.

End fingerprint_lemmas.

Lemma win_fingerprints_checked_witness :
  let fp := Crypto._bytes_to_hex (replicate 32 1) in
  @Crypto.leo_crypto_x509_fingerprint_matches toy_openssl (Some [7]) (Some fp) = true /\
  @leo_crypto_x509_fingerprint_matches toy_openssl (Some [7]) (Some fp) (replicate 65 "x"%char) =
    Ret (@Crypto.leo_crypto_x509_fingerprint_matches toy_openssl (Some [7]) (Some fp)).
Proof.
  split; [vm_compute; reflexivity|].
  apply (@win_fingerprints_checked toy_openssl toy_openssl_laws (Some [7]) (Some (Crypto._bytes_to_hex (replicate 32 1)))
    [] true (replicate 65 "x"%char)).
  reflexivity.
Defined.

(** Prefixes of the same list taken at increasing lengths form a chain. *)
Lemma takes_sorted {A} (tmp : list A) (f : nat -> bool) idx :
  StronglySorted lt idx ->
  StronglySorted prefix (omap (fun i => if f i then Some (take i tmp) else None) idx).
Proof.
  induction 1 as [|i idx _ IH Hi]; [constructor|]. cbn [omap list_omap]. destruct (f i); [|done].
  constructor; [exact IH|]. apply Forall_forall. intros p (j & Hj & Ej)%list_elem_of_omap.
  destruct (f j); [|done]. injection Ej as <-. rewrite Forall_forall in Hi. specialize (Hi j Hj).
  replace i with (i `min` j)%nat by lia. rewrite <- take_take. apply prefix_take.
Qed.

Lemma seq_sorted a n : StronglySorted lt (seq a n).
Proof.
  revert a. induction n as [|n IH]; intros a; cbn [seq]; constructor; [apply IH|].
  apply Forall_forall. intros x Hx%elem_of_seq. lia.
Qed.

Lemma create_points_eq tmp :
  create_points tmp =
  omap (fun i => if match tmp !! i with Some c => bool_decide (c = "\"%char) | None => true end &&
                    negb (bool_decide (i = drive_end tmp)) then Some (take i tmp) else None)
    (seq (drive_end tmp) (length tmp + 1 - drive_end tmp)).
Proof.
  unfold create_points. cbv zeta. generalize (seq (drive_end tmp) (length tmp + 1 - drive_end tmp)). intros l.
  induction l as [|i l IH]; [done|]. cbn [omap list_omap].
  destruct (match tmp !! i with Some _ => _ | None => _ end), (bool_decide (i = drive_end tmp)); cbn [negb andb];
    rewrite IH; done.
Qed.

(** The directories are created from the root down: each path extends those
    before it, the drive alone is never one of them, and the last one is the
    whole path. *)
Theorem create_points_chain tmp :
  (drive_end tmp < length tmp)%nat ->
  StronglySorted prefix (create_points tmp) /\ last (create_points tmp) = Some tmp /\
  take (drive_end tmp) tmp ∉ create_points tmp.
Proof.
  intros Hd. rewrite create_points_eq. split_and!.
  - apply takes_sorted, seq_sorted.
  - replace (length tmp + 1 - drive_end tmp)%nat with (length tmp - drive_end tmp + 1)%nat by lia.
    rewrite seq_app, omap_app. cbn [seq omap list_omap].
    replace (drive_end tmp + (length tmp - drive_end tmp))%nat with (length tmp) by lia.
    rewrite lookup_ge_None_2, bool_decide_false by lia. cbn [negb andb]. rewrite take_ge by lia. apply last_snoc.
  - intros (i & Hi%elem_of_seq & Ei)%list_elem_of_omap. destruct (_ && _) eqn:E; [|done]. injection Ei as Ei.
    apply (f_equal length) in Ei. rewrite !length_take in Ei. breflect. lia.
Qed.

Lemma create_points_chain_witness :
  let dir := str "C:\ProgramData\LeoOne\certs" in
  create_points dir = [str "C:\ProgramData"; str "C:\ProgramData\LeoOne"; dir] /\ StronglySorted prefix (create_points dir).
Proof.
  cbv zeta. split; [vm_compute; reflexivity|].
  apply (create_points_chain (str "C:\ProgramData\LeoOne\certs")). vm_compute. lia.
Defined.

(** A call that succeeds leaves what the disk kept of the content. *)
Lemma win_write_file_ok io fs path content fs' :
  _write_file io fs path content = (fs', true) ->
  can_write io path = true /\ fs' = <[path := mk_file (take (written_of io path) content) 0]> fs.
Proof.
  unfold _write_file. destruct (can_write io path); [|done]. cbn [negb]. intros [= <- E]. breflect.
  rewrite length_take in E. by rewrite (take_ge content) by lia.
Qed.

Lemma win_write_file_accepted io fs path content :
  can_write io path = true -> (length content <= accepted_of io path)%nat -> (_write_file io fs path content).2 = true.
Proof. intros Hw Hl. unfold _write_file. rewrite Hw. cbn. apply bool_decide_eq_true. rewrite length_take. lia. Qed.

Lemma win_save_cert_key_ok io fs cert key fs' :
  leo_crypto_save_cert_key io fs cert key = (LEO_OK, fs') ->
  fs' = <[WIN_CLIENT_KEY_FILE := mk_file (take (written_of io WIN_CLIENT_KEY_FILE) key) 0]>
          (<[WIN_CLIENT_CERT_FILE := mk_file (take (written_of io WIN_CLIENT_CERT_FILE) cert) 0]> fs).
Proof.
  unfold leo_crypto_save_cert_key. destruct (negb _); [done|].
  destruct (_write_file io fs _ cert) as [fs1 []] eqn:E1; [|done]. apply win_write_file_ok in E1 as [_ ->]. cbn [negb].
  destruct (_write_file io _ _ key) as [fs2 []] eqn:E2; [|done]. apply win_write_file_ok in E2 as [_ ->].
  by intros [= <-].
Qed.

(** A certificate and a key that were saved, and that the disk had room for,
    are read back as they were, and no other file changes. *)
Theorem win_cert_key_roundtrip io fs cert key fs' :
  leo_crypto_save_cert_key io fs cert key = (LEO_OK, fs') ->
  (length cert <= written_of io WIN_CLIENT_CERT_FILE)%nat -> (length key <= written_of io WIN_CLIENT_KEY_FILE)%nat ->
  read_fails io WIN_CLIENT_CERT_FILE = false -> read_fails io WIN_CLIENT_KEY_FILE = false ->
  NUL ∉ cert -> NUL ∉ key -> strlen cert < 8192 -> strlen key < 8192 ->
  leo_crypto_load_cert_key io fs' 8192 8192 = (LEO_OK, Some (cert, key)) /\
  forall p, p <> WIN_CLIENT_CERT_FILE -> p <> WIN_CLIENT_KEY_FILE -> fs' !! p = fs !! p.
Proof.
  intros -> %win_save_cert_key_ok D1 D2 R1 R2 N1 N2 L1 L2.
  assert (WIN_CLIENT_KEY_FILE <> WIN_CLIENT_CERT_FILE) by by apply (bool_decide_unpack _).
  split; [|intros p H1 H2; by rewrite !lookup_insert_ne].
  unfold leo_crypto_load_cert_key, _read_file.
  rewrite lookup_insert_ne, !lookup_insert_eq by done. cbn [mbind option_bind]. rewrite R1, R2. cbn [f_content].
  rewrite !(take_ge cert), !(take_ge key) by (unfold strlen in *; lia). by rewrite !c_str_id.
Qed.

Example win_cert_key_roundtrip_witness :
  let fs' := (leo_crypto_save_cert_key open_io ∅ (str "CERT") (str "KEY")).2 in
  leo_crypto_load_cert_key open_io fs' 8192 8192 = (LEO_OK, Some (str "CERT", str "KEY")).
Proof.
  apply (win_cert_key_roundtrip open_io ∅ (str "CERT") (str "KEY")); try reflexivity; try (vm_compute; lia).
  - intros H. by apply (bool_decide_unpack (NUL ∉ str "CERT")).
  - intros H. by apply (bool_decide_unpack (NUL ∉ str "KEY")).
Defined.
