(* ===== verification/EnrollWin.v ===== *)
(** Enrolment on Windows: the Windows branches of [src/enroll.c], with the
    certificate store of [CryptoWin].

    They implement the interface [Host], so that the theorems of [Enroll] and
    [Lifecycle] hold of the agent built for Windows. *)
From S2P Require Import Prelude CString Double Types Json JsonParse Protocol Config Url Crypto Enroll CryptoWin.

Definition WIN_CONFIG_FILE : list ascii := str "C:\ProgramData\LeoOne\agent.conf".
Definition WIN_BOOTSTRAP_FILE : list ascii := str "C:\ProgramData\LeoOne\agent_bootstrap.conf".

(** [GetComputerNameA] fails when the name does not fit the buffer. *)
Definition _detect_hostname (name : option (list ascii)) (sz : Z) : list ascii :=
  match name with
  | Some h => if strlen h <? sz then h else fit sz (str "unknown-host")
  | None => fit sz (str "unknown-host")
  end.

(** The three numbers of [RtlGetVersion], when [ntdll.dll] has it and it
    succeeds. *)
Definition _detect_os_version (version : option (Z * Z * Z)) (sz : Z) : list ascii :=
  match version with
  | Some (major, minor, build) => fit sz (fmt_d major ++ str "." ++ fmt_d minor ++ str "." ++ fmt_d build)
  | None => fit sz (str "unknown")
  end.

(** [MachineGuid] of the registry: whether the key opens, and its value, when
    it is a string; one that does not fit the buffer is an error. *)
Definition _detect_hardware_id (key_ok : bool) (guid : option (list ascii)) (sz : Z) : leo_error_t * list ascii :=
  if negb key_ok then (LEO_ERR_SYSTEM, [])
  else
    match guid with
    | Some g => if (sz <=? strlen g) || bool_decide (g = []) then (LEO_ERR_SYSTEM, []) else (LEO_OK, g)
    | None => (LEO_ERR_SYSTEM, [])
    end.

Record windows_host_env : Type := mk_windows_host {
  wh_name : option (list ascii);
  wh_version : option (Z * Z * Z);
  wh_key_ok : bool;
  wh_guid : option (list ascii);
}.

Definition windows_host : Host := {|
  host_env := windows_host_env;
  host_os := str "windows";
  detect_hostname e := _detect_hostname (wh_name e);
  detect_os_version e := _detect_os_version (wh_version e);
  detect_hardware_id e := _detect_hardware_id (wh_key_ok e) (wh_guid e);
  bootstrap_file := WIN_BOOTSTRAP_FILE;
  cert_file := WIN_CLIENT_CERT_FILE;
  key_file := WIN_CLIENT_KEY_FILE;
  cert_mode := 0;
  save_cert_key := leo_crypto_save_cert_key;
|}.

Lemma windows_host_laws : @HostLaws windows_host.
Proof.
  split; cbn.
  - intros e sz Hs. unfold _detect_hostname. destruct (wh_name e) as [h|]; [|by apply fit_length].
    destruct (Z.ltb_spec (strlen h) sz); [done|by apply fit_length].
  - intros e sz Hs. unfold _detect_os_version. repeat case_goal; by apply fit_length.
  - intros e hw. unfold _detect_hardware_id. destruct (wh_key_ok e); [|done]. cbn [negb].
    destruct (wh_guid e) as [g|]; [|done]. destruct (_ || _) eqn:E; [done|]. intros [= <-].
    apply orb_false_iff in E as [E%Z.leb_gt _]. done.
  - intros io fs cert key rc fs' p. unfold leo_crypto_save_cert_key, _write_file. intros E H1 H2.
    repeat case_hyp; simplify_eq; rewrite ?lookup_insert_ne by done; done.
  - intros io fs cert key fs' -> %win_save_cert_key_ok.
    assert (WIN_CLIENT_KEY_FILE <> WIN_CLIENT_CERT_FILE) by by apply (bool_decide_unpack _).
    by rewrite lookup_insert_ne, !lookup_insert_eq by done.
  - intros io fs cert key Hw Hm A1 A2. unfold leo_crypto_save_cert_key, _mkdir_p. rewrite mkdir_all_done by done.
    cbn [negb].
    pose proof (win_write_file_accepted io fs _ _ (Hw WIN_CLIENT_CERT_FILE) A1) as E1.
    destruct (_write_file io fs _ cert) as [fs1 ok]. cbn in E1. subst ok. cbn [negb].
    pose proof (win_write_file_accepted io fs1 _ _ (Hw WIN_CLIENT_KEY_FILE) A2) as E2.
    destruct (_write_file io fs1 _ key) as [fs2 ok]. cbn in E2. by subst ok.
Qed.

(** C22: the machine is described and the certificate kept on both platforms
    as the enrolment relies on: the host name, the version of the system and
    the identifier of the machine fit their fields whatever the system answers.
    When saving succeeds, the certificate and the key are both stored, in files of
    the mode of the platform: whole when the disk had room for what [fwrite] had
    buffered, since the result of [fclose] is not looked at.  Saving succeeds when
    the directories can be made, the files opened and the bytes taken, and it
    touches no other file in any case. *)
Theorem platforms_implement_host : @HostLaws linux_host /\ @HostLaws windows_host.
Proof. split; [exact linux_host_laws|exact windows_host_laws]. Qed.

(** ** Evaluation *)

Section evaluation.
Local Existing Instances windows_host windows_host_laws.

Definition win_bootstrap : files :=
  {[ WIN_BOOTSTRAP_FILE := mk_file (str "enrollment_token = T" ++ [LF] ++ str "api_endpoint=https://api:8443" ++ [LF]) 0 ]}.

Definition win_enroll_env (fp : list ascii) : enroll_env :=
  mk_enroll_env open_io
    (mk_windows_host (Some (str "PC-1")) (Some (10, 0, 19045)) true (Some (str "0f8fad5b-d9cb-469f-a165-70867728950e")))
    X86_64 true (en_post (sample_enroll_env fp)) true.

(** A machine that was just enrolled starts from its configuration. *)
Example win_enrolled :
  match leo_enroll (H := decimal_lib) WIN_BOOTSTRAP_FILE WIN_CONFIG_FILE win_bootstrap (win_enroll_env good_fp) with
  | Some (rc, Some cfg, fs) =>
      rc = LEO_OK /\ hostname cfg = str "PC-1" /\ os_name cfg = str "windows" /\ os_version cfg = str "10.0.19045" /\
      hardware_id cfg = str "0f8fad5b-d9cb-469f-a165-70867728950e" /\ fs !! WIN_BOOTSTRAP_FILE = None /\
      (leo_config_load (file_bytes fs WIN_CONFIG_FILE) config_zero).1 = LEO_OK
  | _ => False
  end.
Proof. vm_compute. split_and!; reflexivity. Qed.

End evaluation.
