(* ===== verification/ServiceWin.v ===== *)
(** The service of Windows: [platform/windows/service_win.c], and the Windows
    branch of [src/main.c].

    The thread of [_service_main] and the control handler, which the Service
    Control Manager calls from another thread, interleave in a step relation.
    The manager sends a stop request only to a service that last reported it was
    running, as it documents; whether it also sends a shutdown request to one that
    is stopping is a parameter, since the reports say it is accepted.  Starting and stopping the agent
    are those of [Lifecycle], with the enrolment of [EnrollWin]. *)
From S2P Require Import Prelude CString Double Types Json JsonParse Crypto Connection Enroll Dispatch Agent Lifecycle.
From S2P Require Import Logger Service CryptoWin EnrollWin.

#[local] Existing Instance windows_host.

Inductive svc_state : Type := SERVICE_STOPPED | SERVICE_START_PENDING | SERVICE_STOP_PENDING | SERVICE_RUNNING.

#[export] Instance svc_state_eq_dec : EqDecision svc_state.
Proof. solve_decision. Defined.

Definition NO_ERROR : Z := 0.
Definition ERROR_SERVICE_SPECIFIC_ERROR : Z := 1066.

Record SERVICE_STATUS : Type := mk_status {
  dwCurrentState : svc_state;
  dwWin32ExitCode : Z;
  dwWaitHint : Z;
  accepts_stop : bool;          (* dwControlsAccepted: STOP and SHUTDOWN, or nothing *)
  dwCheckPoint : Z;
}.

(** The static variables of the file, and what the manager was told. *)
Record service : Type := mk_svc {
  check_point : Z;
  reports : list SERVICE_STATUS;        (* the calls of SetServiceStatus, in order *)
  g_stop_event : option bool;           (* [None]: NULL; otherwise whether it is signalled *)
  handling : bool;                      (* the handler is before its SetEvent *)
  misused : bool;                       (* SetEvent was called without an event *)
  g_agent : option agent;
  resources : list event;               (* what starting and stopping acquired and released *)
  svc_files : files;
}.

Definition _report_status (s : service) (state : svc_state) (code hint : Z) : service :=
  let still := bool_decide (state = SERVICE_RUNNING) || bool_decide (state = SERVICE_STOPPED) in
  let status := mk_status state code hint (negb (bool_decide (state = SERVICE_START_PENDING)))
                  (if still then 0 else check_point s) in
  mk_svc (if still then check_point s else wrap_u32 (check_point s + 1)) (reports s ++ [status]) (g_stop_event s)
    (handling s) (misused s) (g_agent s) (resources s) (svc_files s).

Definition set_event (s : service) (ev : option bool) : service :=
  mk_svc (check_point s) (reports s) ev (handling s) (misused s) (g_agent s) (resources s) (svc_files s).

Definition set_agent (s : service) (ag : option agent) (es : list event) (fs : files) : service :=
  mk_svc (check_point s) (reports s) (g_stop_event s) (handling s) (misused s) ag (resources s ++ es) fs.

(** ** The control handler *)

Inductive control : Type := SERVICE_CONTROL_STOP | SERVICE_CONTROL_SHUTDOWN | SERVICE_CONTROL_INTERROGATE | OtherControl.

#[export] Instance control_eq_dec : EqDecision control.
Proof. solve_decision. Defined.

(** Its first part; the result NO_ERROR or ERROR_CALL_NOT_IMPLEMENTED is left
    to the manager. *)
Definition _service_ctrl_handler (s : service) (ctrl : control) : service :=
  match ctrl with
  | SERVICE_CONTROL_STOP | SERVICE_CONTROL_SHUTDOWN =>
      let s := _report_status s SERVICE_STOP_PENDING NO_ERROR 3000 in
      mk_svc (check_point s) (reports s) (g_stop_event s) true (misused s) (g_agent s) (resources s) (svc_files s)
  | _ => s
  end.

(** [SetEvent (g_stop_event)]. *)
Definition SetEvent (s : service) : service :=
  match g_stop_event s with
  | Some _ => mk_svc (check_point s) (reports s) (Some true) false (misused s) (g_agent s) (resources s) (svc_files s)
  | None => mk_svc (check_point s) (reports s) None false true (g_agent s) (resources s) (svc_files s)
  end.

(** ** The service thread *)

Record svc_env : Type := mk_svc_env {
  svc_args : list (list ascii);
  register_ok : bool;
  event_ok : bool;
  svc_start : start_env;
  svc_meanwhile : agent -> agent;       (* what its threads make of the agent while it runs *)
  svc_stop : stop_env;
}.


(** Where [_service_main] is. *)
Inductive svc_phase : Type := Registering | Starting | Created | Waiting | Stopping | Closing | Closed | Ended.

#[export] Instance svc_phase_eq_dec : EqDecision svc_phase.
Proof. solve_decision. Defined.

(** [_service_main] until its next wait or call; [None] while it is blocked. *)
Definition _service_main `{CLib} (e : svc_env) (st : svc_phase * service) : option (svc_phase * service) :=
  let '(ph, s) := st in
  match ph with
  | Registering =>
      Some (if register_ok e then (Starting, _report_status s SERVICE_START_PENDING NO_ERROR 3000) else (Ended, s))
  | Starting =>
      Some (if event_ok e then (Created, set_event s (Some false))
            else (Ended, _report_status s SERVICE_STOPPED ERROR_SERVICE_SPECIFIC_ERROR 0))
  | Created =>
      let config_path := match svc_args e with _ :: p :: _ => p | _ => WIN_CONFIG_FILE end in
      match leo_agent_start config_path (svc_files s) (svc_start e) with
      | None => None
      | Some (None, es, fs) =>
          Some (Ended, set_event (_report_status (set_agent s None es fs) SERVICE_STOPPED ERROR_SERVICE_SPECIFIC_ERROR 0) None)
      | Some (Some ag, es, fs) => Some (Waiting, _report_status (set_agent s (Some ag) es fs) SERVICE_RUNNING NO_ERROR 0)
      end
  | Waiting => if bool_decide (g_stop_event s = Some true) then Some (Stopping, s) else None
  | Stopping =>
      match g_agent s with
      | None => Some (Closing, s)
      | Some ag =>
          match leo_agent_stop (svc_meanwhile e ag) (svc_stop e) with
          | None => None
          | Some (_, es) => Some (Closing, set_agent s None es (svc_files s))
          end
      end
  | Closing => Some (Closed, set_event s None)
  | Closed => Some (Ended, _report_status s SERVICE_STOPPED NO_ERROR 0)
  | Ended => None
  end.

Definition last_state (s : service) : option svc_state := dwCurrentState <$> last (reports s).

(** The manager may send a request: the last report accepts them, and tells that
    the service runs or, with [repeated], that it is stopping and the system shuts
    down. *)
Definition may_send (repeated : bool) (s : service) (ctrl : control) : bool :=
  bool_decide (accepts_stop <$> last (reports s) = Some true) &&
  (bool_decide (last_state s = Some SERVICE_RUNNING) ||
   repeated && bool_decide (last_state s = Some SERVICE_STOP_PENDING) && bool_decide (ctrl = SERVICE_CONTROL_SHUTDOWN)).

Inductive service_step `{CLib} (e : svc_env) (repeated : bool) : relation (svc_phase * service) :=
| step_thread st st' : _service_main e st = Some st' -> service_step e repeated st st'
| step_control ph s ctrl : may_send repeated s ctrl = true -> handling s = false ->
    service_step e repeated (ph, s) (ph, _service_ctrl_handler s ctrl)
| step_signal ph s : handling s = true -> service_step e repeated (ph, s) (ph, SetEvent s).

(** The static variables at the start of the process. *)
Definition service_initial (fs : files) : svc_phase * service :=
  (Registering, mk_svc 1 [] None false false None [] fs).

Definition service_reachable `{CLib} (e : svc_env) (repeated : bool) (fs : files) : svc_phase * service -> Prop :=
  rtc (service_step e repeated) (service_initial fs).

(** ** The process *)

(** How [StartServiceCtrlDispatcherA] returns. *)
Inductive dispatch : Type :=
| Dispatched        (* after the whole life of the service *)
| NotFromManager    (* ERROR_FAILED_SERVICE_CONTROLLER_CONNECT *)
| DispatchFails.    (* another error *)

Definition leo_service_run_dispatcher (d : dispatch) : bool :=
  match d with Dispatched => true | NotFromManager => false | DispatchFails => false end.

(** The control events of a console that ask for a stop. *)
Inductive ctrl_type : Type :=
| CTRL_C_EVENT | CTRL_BREAK_EVENT | CTRL_CLOSE_EVENT | CTRL_SHUTDOWN_EVENT | CTRL_LOGOFF_EVENT.

(** The new [g_stop_requested] and the result. *)
Definition _console_ctrl_handler (stop_requested : bool) (c : ctrl_type) : bool * bool :=
  match c with
  | CTRL_C_EVENT | CTRL_BREAK_EVENT | CTRL_CLOSE_EVENT | CTRL_SHUTDOWN_EVENT => (true, true)
  | CTRL_LOGOFF_EVENT => (stop_requested, false)
  end.

(** [g_stop_requested] at each pass of the loop, from the events that arrive
    before it. *)
Fixpoint console_checks (requested : bool) (arrivals : list (list ctrl_type)) : list bool :=
  match arrivals with
  | [] => []
  | cs :: arrivals' =>
      let requested := fold_left (fun r c => (_console_ctrl_handler r c).1) cs requested in
      requested :: console_checks requested arrivals'
  end.

(** [while (!g_stop_requested)]: whether it ends. *)
Definition console_loop (checks : list bool) : bool := existsb (fun b => b) checks.

Record win_main_env : Type := mk_win_main {
  wm_log_opened : option Z;
  wm_dispatch : dispatch;
  wm_start : start_env;
  wm_arrivals : list (list ctrl_type);
  wm_meanwhile : agent -> agent;
  wm_stop : stop_env;
}.

(** The exit code, what was acquired and released, and the files; [None] while
    it runs. *)
Definition _run_console_mode `{CLib} (config_path : list ascii) (fs : files) (e : win_main_env) :
    option (Z * list event * files) :=
  match leo_agent_start config_path fs (wm_start e) with
  | None => None
  | Some (None, es, fs) => Some (EXIT_FAILURE, es, fs)
  | Some (Some ag, es, fs) =>
      if console_loop (console_checks false (wm_arrivals e)) then
        match leo_agent_stop (wm_meanwhile e ag) (wm_stop e) with
        | None => None
        | Some (_, es') => Some (EXIT_SUCCESS, es ++ es', fs)
        end
      else None
  end.

Definition WIN_LOG_PATH : list ascii := str "C:\ProgramData\LeoOne\logs\agent.log".

(** The Windows branch of [main]; what the service did is in its own state. *)
Definition win_main `{CLib} (argv : list (list ascii)) (fs : files) (e : win_main_env) :
    option (Z * list event * files * logger) :=
  let config_path := match argv with _ :: p :: _ => p | _ => WIN_CONFIG_FILE end in
  let '(lg, fs, _) := leo_log_init fs (Some WIN_LOG_PATH) LOG_INFO (10 * 1024 * 1024) (wm_log_opened e) logger_zero in
  if leo_service_run_dispatcher (wm_dispatch e) then Some (EXIT_SUCCESS, [], fs, leo_log_destroy lg)
  else
    match _run_console_mode config_path fs e with
    | None => None
    | Some (rc, es, fs) => Some (rc, es, fs, leo_log_destroy lg)
    end.

(** ** Installation *)

(** A service of the manager's database. *)
Record svc_config : Type := mk_config_svc { binary_path : list ascii; svc_described : bool; delayed_start : bool }.

#[export] Instance svc_config_eq_dec : EqDecision svc_config.
Proof. solve_decision. Defined.

Record scm_env : Type := mk_scm {
  open_scm_ok : bool;
  module_path : option (list ascii);    (* GetModuleFileNameA *)
  create_allowed : bool;
  describe_ok : bool;                   (* the two ChangeServiceConfig2A *)
  delay_ok : bool;
  open_service_ok : bool;
  delete_ok : bool;
  query : option (svc_state * Z);       (* the state and the exit code *)
}.

Definition win_service_install (db : option svc_config) (e : scm_env) : leo_error_t * option svc_config :=
  if negb (open_scm_ok e) then (LEO_ERR_SYSTEM, db)
  else
    match module_path e with
    | None => (LEO_ERR_SYSTEM, db)
    | Some exe_path =>
        match db with
        | Some _ => (LEO_OK, db)        (* ERROR_SERVICE_EXISTS *)
        | None =>
            if negb (create_allowed e) then (LEO_ERR_SYSTEM, db)
            else (LEO_OK, Some (mk_config_svc exe_path (describe_ok e) (delay_ok e)))
        end
    end.

Definition win_service_uninstall (db : option svc_config) (e : scm_env) : leo_error_t * option svc_config :=
  if negb (open_scm_ok e) then (LEO_ERR_SYSTEM, db)
  else
    match db with
    | None => (LEO_OK, db)              (* ERROR_SERVICE_DOES_NOT_EXIST *)
    | Some _ =>
        if negb (open_service_ok e) then (LEO_ERR_SYSTEM, db)
        else if delete_ok e then (LEO_OK, None) else (LEO_ERR_SYSTEM, db)
    end.

Definition win_service_status (db : option svc_config) (e : scm_env) : leo_service_status_t :=
  if negb (open_scm_ok e) then LEO_SERVICE_UNKNOWN
  else if bool_decide (db = None) || negb (open_service_ok e) then LEO_SERVICE_UNKNOWN
  else
    match query e with
    | Some (SERVICE_RUNNING, _) => LEO_SERVICE_ACTIVE
    | Some (SERVICE_STOPPED, code) => if negb (code =? NO_ERROR) then LEO_SERVICE_FAILED else LEO_SERVICE_INACTIVE
    | _ => LEO_SERVICE_UNKNOWN
    end.

(** ** The life of the service *)

Definition states (s : service) : list svc_state := map dwCurrentState (reports s).

Definition running (s : service) : Prop :=
  is_Some (g_agent s) /\ perform uses [] (resources s) = Some all_resources.

(** Everything released, or kept with what a thread that did not end in time
    still uses. *)
Definition stopped (s : service) : Prop :=
  g_agent s = None /\
  (perform uses [] (resources s) = Some [] \/ perform uses [] (resources s) = Some [Conn; Metrics; Sync; Memory]).

Definition not_started (s : service) : Prop :=
  g_agent s = None /\
  (perform uses_without_handler [] (resources s) = Some [] \/
   perform uses_without_handler [] (resources s) = Some [Conn; Memory]).

Definition exit_of (s : service) : option Z := dwWin32ExitCode <$> last (reports s).

(** How the service can have ended. *)
Definition ended (e : svc_env) (s : service) : Prop :=
  (states s = [] /\ resources s = [] /\ register_ok e = false) \/
  (states s = [SERVICE_START_PENDING; SERVICE_STOPPED] /\ exit_of s = Some ERROR_SERVICE_SPECIFIC_ERROR /\ not_started s) \/
  (states s = [SERVICE_START_PENDING; SERVICE_RUNNING; SERVICE_STOP_PENDING; SERVICE_STOPPED] /\ exit_of s = Some NO_ERROR /\
   stopped s).

Definition svc_inv (e : svc_env) (st : svc_phase * service) : Prop :=
  let '(ph, s) := st in
  misused s = false /\
  match ph with
  | Registering =>
      reports s = [] /\ g_stop_event s = None /\ handling s = false /\ g_agent s = None /\ resources s = []
  | Starting =>
      states s = [SERVICE_START_PENDING] /\ g_stop_event s = None /\ handling s = false /\ g_agent s = None /\ resources s = []
  | Created =>
      states s = [SERVICE_START_PENDING] /\ g_stop_event s = Some false /\ handling s = false /\ resources s = []
  | Waiting =>
      running s /\
      ((states s = [SERVICE_START_PENDING; SERVICE_RUNNING] /\ g_stop_event s = Some false /\ handling s = false) \/
       (states s = [SERVICE_START_PENDING; SERVICE_RUNNING; SERVICE_STOP_PENDING] /\ g_stop_event s = Some (negb (handling s))))
  | Stopping =>
      running s /\ states s = [SERVICE_START_PENDING; SERVICE_RUNNING; SERVICE_STOP_PENDING] /\
      g_stop_event s = Some true /\ handling s = false
  | Closing =>
      stopped s /\ states s = [SERVICE_START_PENDING; SERVICE_RUNNING; SERVICE_STOP_PENDING] /\
      g_stop_event s = Some true /\ handling s = false
  | Closed =>
      stopped s /\ states s = [SERVICE_START_PENDING; SERVICE_RUNNING; SERVICE_STOP_PENDING] /\
      g_stop_event s = None /\ handling s = false
  | Ended => ended e s /\ g_stop_event s = None /\ handling s = false
  end.

Lemma status_fields s state code hint :
  states (_report_status s state code hint) = states s ++ [state] /\
  exit_of (_report_status s state code hint) = Some code /\
  last_state (_report_status s state code hint) = Some state.
Proof.
  unfold states, exit_of, last_state. cbn [reports _report_status]. rewrite map_app, !last_snoc. done.
Qed.

Lemma last_state_states s : last_state s = last (states s).
Proof.
  unfold last_state, states. induction (reports s) as [|r l IH]; [done|]. cbn [map]. by rewrite !last_cons, <- IH; destruct (last l).
Qed.

Section life.
Context `{CLib} (e : svc_env) (Hlim : enrolment_limited (svc_start e)).

Lemma start_outcome path fs o es fs' : leo_agent_start path fs (svc_start e) = Some (o, es, fs') ->
  match o with
  | Some _ => perform uses [] es = Some all_resources
  | None => perform uses_without_handler [] es = Some [] \/ perform uses_without_handler [] es = Some [Conn; Memory]
  end.
Proof.
  intros E. destruct (start_resources path fs (svc_start e) Hlim) as (o' & es' & fs2 & E' & Hr). rewrite E' in E.
  injection E as -> -> ->. destruct o; [by destruct Hr|]. destruct (_ && _) in Hr; auto.
Qed.

Lemma thread_keeps_inv st st' : svc_inv e st -> _service_main e st = Some st' -> svc_inv e st'.
Proof.
  destruct st as [ph s]. intros [Hm Hi]. destruct ph; cbn [_service_main].
  - destruct Hi as (Hr & He & Hh & Ha & Hz). destruct (register_ok e) eqn:Er; intros [= <-]; cbn [svc_inv].
    + destruct (status_fields s SERVICE_START_PENDING NO_ERROR 3000) as (-> & _ & _). unfold states. rewrite Hr. done.
    + split_and!; try done. unfold ended, states. left. by rewrite Hr.
  - destruct Hi as (Hs & He & Hh & Ha & Hz). destruct (event_ok e); intros [= <-]; cbn [svc_inv]; [done|].
    split; [done|]. split; [|done]. unfold ended. right. left.
    destruct (status_fields s SERVICE_STOPPED ERROR_SERVICE_SPECIFIC_ERROR 0) as (-> & -> & _). rewrite Hs.
    split; [done|]. split; [done|]. split; [exact Ha|]. left. cbn. by rewrite Hz.
  - destruct Hi as (Hs & He & Hh & Hz). destruct (leo_agent_start _ _ _) as [[[o es] fs]|] eqn:Es; [|done].
    apply start_outcome in Es. destruct o as [ag|]; intros [= <-]; cbn [svc_inv]; (split; [done|]).
    + split.
      * split; [by eexists|]. cbn. by rewrite Hz.
      * left. destruct (status_fields (set_agent s (Some ag) es fs) SERVICE_RUNNING NO_ERROR 0) as (-> & _ & _).
        change (states (set_agent s (Some ag) es fs)) with (states s). by rewrite Hs.
    + split; [|done]. unfold ended. right. left. set (s1 := set_agent s None es fs).
      change (states (set_event ?x None)) with (states x). change (exit_of (set_event ?x None)) with (exit_of x).
      destruct (status_fields s1 SERVICE_STOPPED ERROR_SERVICE_SPECIFIC_ERROR 0) as (-> & -> & _).
      change (states s1) with (states s). rewrite Hs. split; [done|]. split; [done|]. split; [done|]. cbn. by rewrite Hz.
  - destruct (bool_decide _) eqn:Eb; [|done]. breflect. intros [= <-]. destruct Hi as [Hr Hi]. cbn [svc_inv].
    destruct Hi as [(_ & He & _)|(Hs & He)]; [congruence|]. rewrite Eb in He. injection He as He.
    split_and!; try done; [apply Hr..|]. by destruct (handling s).
  - destruct Hi as (Hr & Hs & He & Hh). destruct Hr as [[ag Ha] Hp]. rewrite Ha.
    destruct (leo_agent_stop _ _) as [[o es]|] eqn:Es; [|done]. intros [= <-]. cbn [svc_inv]. split; [done|]. split; [|done].
    split; [done|]. by eapply stop_releases.
  - destruct Hi as (Hr & Hs & He & Hh). by intros [= <-].
  - destruct Hi as (Hr & Hs & He & Hh). intros [= <-]. cbn [svc_inv]. split; [done|]. split; [|done]. unfold ended. right. right.
    destruct (status_fields s SERVICE_STOPPED NO_ERROR 0) as (-> & -> & _). by rewrite Hs.
  - done.
Qed.

Lemma may_send_once s ctrl : may_send false s ctrl = true -> last_state s = Some SERVICE_RUNNING.
Proof. unfold may_send. rewrite orb_false_r. by intros [_ ?%bool_decide_eq_true_1]%andb_true_iff. Qed.

Lemma control_keeps_inv ph s ctrl : svc_inv e (ph, s) -> may_send false s ctrl = true ->
  svc_inv e (ph, _service_ctrl_handler s ctrl).
Proof.
  intros [Hm Hi] Hl%may_send_once. rewrite last_state_states in Hl.
  assert (ph = Waiting /\ running s /\ states s = [SERVICE_START_PENDING; SERVICE_RUNNING] /\ g_stop_event s = Some false /\
    handling s = false) as (-> & Hr & Hs & He & Hh).
  { destruct ph; cbn in Hi.
    1: destruct Hi as (Hr & _); unfold states in Hl; by rewrite Hr in Hl.
    1,2: destruct Hi as (Hs & _); by rewrite Hs in Hl.
    1: destruct Hi as (Hr & [(Hs & ? & ?)|(Hs & _)]); [done|by rewrite Hs in Hl].
    1,2,3: destruct Hi as (_ & Hs & _); by rewrite Hs in Hl.
    destruct Hi as ([[Hs _]|[[Hs _]|[Hs _]]] & _); by rewrite Hs in Hl. }
  destruct ctrl; cbn [_service_ctrl_handler]; try (split; [done|split; [done|by left]]).
  all: split; [done|]; split; [exact Hr|]; right; (split; [|done]);
    destruct (status_fields s SERVICE_STOP_PENDING NO_ERROR 3000) as (Hf & _ & _); unfold states in *; cbn [reports] in *;
    rewrite Hf, Hs; done.
Qed.

Lemma signal_keeps_inv ph s : svc_inv e (ph, s) -> handling s = true -> svc_inv e (ph, SetEvent s).
Proof.
  intros [Hm Hi] Hh. destruct ph; cbn in Hi; try (exfalso; rewrite Hh in Hi; naive_solver).
  destruct Hi as (Hr & [(_ & _ & Hf)|(Hs & He)]); [congruence|]. rewrite Hh in He. unfold SetEvent. rewrite He.
  split; [done|]. split; [exact Hr|]. by right.
Qed.

Lemma reachable_svc_inv fs st : service_reachable e false fs st -> svc_inv e st.
Proof.
  intros Hr. refine (rtc_invariant (service_step e false) (svc_inv e) _ _ _ Hr _); [|by repeat split].
  intros x y Hx Hs. destruct Hs; eauto using thread_keeps_inv, control_keeps_inv, signal_keeps_inv.
Qed.

End life.

(** What the last report of a service that has stopped says: that it failed, and
    the agent did not start, or that it stopped, and the agent was stopped. *)
Definition stop_reported (s : service) : Prop :=
  (exit_of s = Some ERROR_SERVICE_SPECIFIC_ERROR /\ not_started s) \/ (exit_of s = Some NO_ERROR /\ stopped s).

(** C37: Whatever the timing of the one stop or shutdown request the manager
    sends, the service reports its states in the order of the protocol and never
    signals an event it has closed.  It reports that it has stopped only when this
    is so: with no error only after [leo_agent_stop] has returned, everything
    being released or kept with what a thread that did not end in time still uses,
    and with an error only when the agent did not start, nothing staying acquired
    but a connection whose thread could not be joined.  Its thread ends only after
    that report, without any if the handler could not be registered, and with the
    event closed. *)
Theorem service_lifecycle `{CLib} e fs ph s :
  enrolment_limited (svc_start e) -> service_reachable e false fs (ph, s) ->
  misused s = false /\
  (states s `prefix_of` [SERVICE_START_PENDING; SERVICE_RUNNING; SERVICE_STOP_PENDING; SERVICE_STOPPED] \/
   states s `prefix_of` [SERVICE_START_PENDING; SERVICE_STOPPED]) /\
  (last_state s = Some SERVICE_STOPPED -> stop_reported s) /\
  (ph = Ended -> g_stop_event s = None /\
     (last_state s = Some SERVICE_STOPPED \/ register_ok e = false /\ states s = [] /\ resources s = [])).
Proof.
  intros Hl Hr. destruct (reachable_svc_inv e Hl fs _ Hr) as [Hm Hi]. split; [done|]. rewrite last_state_states.
  destruct ph; cbn in Hi.
  - destruct Hi as (Hs & _). unfold states. rewrite Hs. split_and!; [left; by eexists|done|done].
  - destruct Hi as (-> & _). split_and!; [left; by eexists|done|done].
  - destruct Hi as (-> & _). split_and!; [left; by eexists|done|done].
  - destruct Hi as (_ & [(-> & _)|(-> & _)]); (split_and!; [left; by eexists|done|done]).
  - destruct Hi as (_ & -> & _). split_and!; [left; by eexists|done|done].
  - destruct Hi as (_ & -> & _). split_and!; [left; by eexists|done|done].
  - destruct Hi as (_ & -> & _). split_and!; [left; by eexists|done|done].
  - destruct Hi as (Hd & He & _). unfold ended in Hd. unfold stop_reported.
    destruct Hd as [(Hs & Hz & Hg)|[(Hs & Hx)|(Hs & Hx)]]; rewrite Hs; (split_and!; [|auto|by auto]);
      [left|done|right|left]; by eexists.
Qed.

Definition phase_rank (ph : svc_phase) : Z :=
  match ph with Waiting => 4 | Stopping => 3 | Closing => 2 | Closed => 1 | Ended => 0 | _ => 5 end.

Definition svc_rank (st : svc_phase * service) : Z := 2 * phase_rank st.1 + (if handling st.2 then 1 else 0).

Lemma stop_pending_phase `{CLib} e fs ph s :
  enrolment_limited (svc_start e) -> service_reachable e false fs (ph, s) -> SERVICE_STOP_PENDING ∈ states s ->
  phase_rank ph <= 4 /\ last_state s <> Some SERVICE_RUNNING /\ (ph = Stopping -> is_Some (g_agent s)) /\
  (ph = Waiting -> g_stop_event s = Some (negb (handling s))) /\ (ph <> Waiting -> handling s = false).
Proof.
  intros Hl Hr Hp. destruct (reachable_svc_inv e Hl fs _ Hr) as [_ Hi]. rewrite last_state_states.
  destruct ph; cbn in Hi.
  - destruct Hi as (Hs & _). unfold states in Hp. rewrite Hs in Hp. by apply not_elem_of_nil in Hp.
  - destruct Hi as (Hs & _). rewrite Hs in Hp. by apply list_elem_of_singleton in Hp.
  - destruct Hi as (Hs & _). rewrite Hs in Hp. by apply list_elem_of_singleton in Hp.
  - destruct Hi as (_ & [(Hs & _)|(Hs & He)]); rewrite Hs in *; [|by split_and!].
    exfalso. by apply (bool_decide_unpack (SERVICE_STOP_PENDING ∉ [SERVICE_START_PENDING; SERVICE_RUNNING])).
  - destruct Hi as ([Ha _] & Hs & _ & Hh). rewrite Hs. by split_and!.
  - destruct Hi as (_ & Hs & _ & Hh). rewrite Hs. by split_and!.
  - destruct Hi as (_ & Hs & _ & Hh). rewrite Hs. by split_and!.
  - destruct Hi as ([[Hs _]|[[Hs _]|[Hs _]]] & _ & Hh); rewrite Hs; by split_and!.
Qed.

(** A stop or shutdown request is honoured, unless the list of updates never
    arrives: once it was received, the service always has a step to make until its
    thread has ended, and every step brings it closer to that. *)
Theorem service_stops `{CLib} e fs ph s :
  enrolment_limited (svc_start e) -> listing_ends (svc_stop e) = true -> service_reachable e false fs (ph, s) -> SERVICE_STOP_PENDING ∈ states s ->
  (ph <> Ended -> exists st', service_step e false (ph, s) st') /\
  (forall st', service_step e false (ph, s) st' -> 0 <= svc_rank st' < svc_rank (ph, s)).
Proof.
  intros Hl Hj Hr Hp. destruct (stop_pending_phase e fs ph s Hl Hr Hp) as (Hph & Hlast & Ha & Hw & Hh). split.
  - intros Hne. destruct (decide (ph = Waiting)) as [->|Hnw].
    + destruct (handling s) eqn:E; [eexists; by apply step_signal|]. eexists. apply step_thread. cbn.
      by rewrite Hw, bool_decide_true.
    + destruct ph; try done; try (eexists; by apply step_thread). destruct (Ha eq_refl) as [ag Hg].
      destruct (stop_resources (svc_meanwhile e ag) (svc_stop e) Hj) as (o & es & Es & _).
      eexists. apply step_thread. cbn. by rewrite Hg, Es.
  - intros st' Hst. inversion Hst as [? ? Hm|? ? ? Hc|? ? Hs]; subst; [|by apply may_send_once in Hc|].
    + destruct ph; try done; cbn in Hm; try done.
      2: destruct (Ha eq_refl) as [ag Hg]; rewrite Hg in Hm; destruct (leo_agent_stop _ _) as [[o es]|]; [|done].
      2-4: injection Hm as <-; unfold svc_rank; cbn; rewrite Hh by done; lia.
      destruct (bool_decide _) eqn:Eb; [|done]. injection Hm as <-. unfold svc_rank. cbn. destruct (handling s); lia.
    + unfold svc_rank, SetEvent. cbn [fst snd]. rewrite Hs.
      destruct (g_stop_event s); cbn [handling]; destruct ph; cbn; lia.
Qed.

(** A service that starts, runs and gets a stop request. *)
Definition win_open_start : start_env :=
  mk_start_env true (win_enroll_env good_fp) true true true true true true true.

Definition sample_svc : svc_env :=
  mk_svc_env [str "leo-agent"] true true win_open_start (fun ag => ag) (mk_stop_env true true true true).

Lemma sample_limited : enrolment_limited (svc_start sample_svc).
Proof. eexists. split; [apply list_elem_of_In; simpl; right; right; left; reflexivity|vm_compute; reflexivity]. Qed.

Lemma sample_starts : exists ag es fs, @leo_agent_start decimal_lib windows_host WIN_CONFIG_FILE win_bootstrap win_open_start = Some (Some ag, es, fs).
Proof.
  assert (match @leo_agent_start decimal_lib windows_host WIN_CONFIG_FILE win_bootstrap win_open_start with
          | Some (Some _, _, _) => true | _ => false end = true) as E by (vm_compute; reflexivity).
  destruct (leo_agent_start _ _ _) as [[[[ag|] es] fs]|]; try discriminate E. eauto.
Qed.

Lemma created_step `{CLib} e s ag es fs :
  leo_agent_start (match svc_args e with _ :: p :: _ => p | _ => WIN_CONFIG_FILE end) (svc_files s) (svc_start e) =
    Some (Some ag, es, fs) ->
  _service_main e (Created, s) = Some (Waiting, _report_status (set_agent s (Some ag) es fs) SERVICE_RUNNING NO_ERROR 0).
Proof. intros E. unfold _service_main. by rewrite E. Qed.

Lemma sample_stopping : exists s, @service_reachable decimal_lib sample_svc false win_bootstrap (Waiting, s) /\
  SERVICE_STOP_PENDING ∈ states s /\ handling s = false /\ g_stop_event s = Some true /\
  may_send true s SERVICE_CONTROL_SHUTDOWN = true.
Proof.
  destruct sample_starts as (ag & es & fs & E).
  set (s1 := _report_status (service_initial win_bootstrap).2 SERVICE_START_PENDING NO_ERROR 3000).
  set (s2 := set_event s1 (Some false)). set (s3 := _report_status (set_agent s2 (Some ag) es fs) SERVICE_RUNNING NO_ERROR 0).
  assert (@_service_main decimal_lib sample_svc (Created, s2) = Some (Waiting, s3)) as E3 by (apply created_step; exact E).
  exists (SetEvent (_service_ctrl_handler s3 SERVICE_CONTROL_STOP)). split.
  - apply rtc_l with (Starting, s1); [apply step_thread; reflexivity|].
    apply rtc_l with (Created, s2); [apply step_thread; reflexivity|].
    apply rtc_l with (Waiting, s3); [apply step_thread; exact E3|].
    apply rtc_l with (Waiting, _service_ctrl_handler s3 SERVICE_CONTROL_STOP); [apply step_control; [reflexivity|reflexivity]|].
    apply rtc_once, step_signal. reflexivity.
  - split; [|split_and!; reflexivity]. cbn. right. right. left.
Qed.

Lemma service_stops_witness :
  exists s, @service_reachable decimal_lib sample_svc false win_bootstrap (Waiting, s) /\
  (exists st', @service_step decimal_lib sample_svc false (Waiting, s) st') /\
  (forall st', @service_step decimal_lib sample_svc false (Waiting, s) st' -> 0 <= svc_rank st' < svc_rank (Waiting, s)).
Proof.
  destruct sample_stopping as (s & Hr & Hp & _). exists s. split; [exact Hr|].
  destruct (@service_stops decimal_lib sample_svc win_bootstrap Waiting s sample_limited eq_refl Hr Hp) as [H1 H2].
  split; [by apply H1|exact H2].
Defined.

Lemma stopping_step `{CLib} e s ag o es :
  g_agent s = Some ag -> leo_agent_stop (svc_meanwhile e ag) (svc_stop e) = Some (o, es) ->
  _service_main e (Stopping, s) = Some (Closing, set_agent s None es (svc_files s)).
Proof. intros Ha Es. unfold _service_main. by rewrite Ha, Es. Qed.

(** The steps of the thread from its wait to the end. *)
Lemma sample_ending s :
  @service_reachable decimal_lib sample_svc false win_bootstrap (Waiting, s) -> g_stop_event s = Some true ->
  exists s1 s', rtc (@service_step decimal_lib sample_svc false) (Waiting, s) (Closed, s1) /\
    reports s1 = reports s /\ g_stop_event s1 = None /\ handling s1 = handling s /\
    @_service_main decimal_lib sample_svc (Closed, s1) = Some (Ended, s') /\
    last_state s' = Some SERVICE_STOPPED /\ exit_of s' = Some NO_ERROR.
Proof.
  intros Hr He. destruct (reachable_svc_inv sample_svc sample_limited _ _ Hr) as [_ [[[ag Ha] _] _]].
  destruct (stop_resources (svc_meanwhile sample_svc ag) (svc_stop sample_svc) eq_refl) as (o & es & Es & _).
  exists (set_event (set_agent s None es (svc_files s)) None). eexists. split; [|split_and!; try reflexivity; apply status_fields].
  eapply rtc_l; [apply step_thread; cbn; rewrite He; reflexivity|].
  eapply rtc_l; [apply step_thread, (stopping_step sample_svc s ag o es Ha Es)|].
  apply rtc_once, step_thread. reflexivity.
Qed.

Lemma service_lifecycle_witness :
  exists s, @service_reachable decimal_lib sample_svc false win_bootstrap (Ended, s) /\ misused s = false /\
  last_state s = Some SERVICE_STOPPED /\ exit_of s = Some NO_ERROR /\ stop_reported s.
Proof.
  destruct sample_stopping as (s & Hr & Hp & Hh & He & Hsend).
  destruct (sample_ending s Hr He) as (s1 & s' & Hr1 & _ & _ & _ & Hend & Hs' & Hx).
  assert (@service_reachable decimal_lib sample_svc false win_bootstrap (Ended, s')) as Hr'
    by (unfold service_reachable in *; do 2 (etrans; [eassumption|]); by apply rtc_once, step_thread).
  exists s'. destruct (@service_lifecycle decimal_lib sample_svc win_bootstrap Ended s' sample_limited Hr') as (Hm & _ & Hd & _).
  split_and!; [exact Hr'|exact Hm|exact Hs'|exact Hx|]. exact (Hd Hs').
Defined.

Lemma step_repeated `{CLib} e st st' : service_step e false st st' -> service_step e true st st'.
Proof.
  destruct 1 as [st st' Hm|ph s ctrl Hc Hh|ph s Hh]; [by apply step_thread| |by apply step_signal].
  apply step_control; [|done]. pose proof (may_send_once s ctrl Hc) as Hl. unfold may_send in *.
  apply andb_true_iff in Hc as [-> _]. cbn [andb]. by rewrite Hl, (bool_decide_true (Some _ = Some _)) by done.
Qed.

(** That there is only one request is needed: the reports still accept a shutdown
    request while the service stops, and one that comes once the event is closed
    signals an event that no longer is. *)
Theorem shutdown_while_stopping_uses_closed_event :
  exists st, @service_reachable decimal_lib sample_svc true win_bootstrap st /\ misused st.2 = true.
Proof.
  destruct sample_stopping as (s & Hr & Hp & Hh & He & Hsend).
  destruct (sample_ending s Hr He) as (s1 & s' & Hr1 & Hl & Hg & Hh1 & _).
  exists (Closed, SetEvent (_service_ctrl_handler s1 SERVICE_CONTROL_SHUTDOWN)). split.
  - unfold service_reachable. etrans; [exact (rtc_subrel _ _ _ _ (step_repeated sample_svc) Hr)|].
    etrans; [exact (rtc_subrel _ _ _ _ (step_repeated sample_svc) Hr1)|].
    eapply rtc_l; [apply step_control; [|congruence]|apply rtc_once, step_signal; reflexivity].
    unfold may_send, last_state in *. by rewrite Hl.
  - unfold SetEvent. cbn. by rewrite Hg.
Qed.

(** ** The process and its installation *)

(** Once an event that asks for a stop arrived, the loop ends. *)
Lemma console_requested arrivals cs c r :
  cs ∈ arrivals -> c ∈ cs -> (_console_ctrl_handler false c).2 = true -> console_loop (console_checks r arrivals) = true.
Proof.
  intros Hcs Hc Hh. revert r. induction Hcs as [cs arrivals|cs cs' arrivals _ IH]; intros r; unfold console_loop;
    cbn [console_checks existsb].
  - assert (fold_left (fun r c => (_console_ctrl_handler r c).1) cs r = true) as ->; [|done].
    assert (forall l, fold_left (fun r c => (_console_ctrl_handler r c).1) l true = true) as Ht
      by (intros l; induction l as [|[] l IHl]; cbn; done).
    revert r. induction Hc as [c cs|c c' cs _ IHc]; intros r; cbn [fold_left]; [|by apply IHc].
    destruct c; try done; apply Ht.
  - apply orb_true_iff. right. by apply IH.
Qed.

(** On Windows too the process ends once it is asked to stop, in console mode
    with the same exit codes and releases as on Linux, and closes its log. *)
Theorem win_main_ends `{CLib} argv fs e cs c :
  enrolment_limited (wm_start e) -> listing_ends (wm_stop e) = true -> cs ∈ wm_arrivals e -> c ∈ cs -> (_console_ctrl_handler false c).2 = true ->
  exists code es fs' lg, win_main argv fs e = Some (code, es, fs', lg) /\ fp lg = None /\ initialized lg = false /\
  (wm_dispatch e <> Dispatched ->
   (code = EXIT_SUCCESS /\
    (perform uses [] es = Some [] \/ perform uses [] es = Some [Conn; Metrics; Sync; Memory])) \/
   (code = EXIT_FAILURE /\
    (perform uses_without_handler [] es = Some [] \/ perform uses_without_handler [] es = Some [Conn; Memory]))).
Proof.
  intros Hl Hj Hcs Hc Hh. unfold win_main. set (path := match argv with _ :: p :: _ => p | _ => _ end).
  destruct (leo_log_init _ _ _ _ _ _) as [[lg fs1] rc] eqn:Ei. apply log_init_opens in Ei.
  pose proof (log_destroy_closes lg Ei) as [Hd1 Hd2].
  destruct (leo_service_run_dispatcher (wm_dispatch e)) eqn:Ed.
  { eexists _, _, _, _. split_and!; [done..|]. intros Hn. by destruct (wm_dispatch e). }
  unfold _run_console_mode. destruct (start_resources path fs1 (wm_start e) Hl) as (o & es & fs' & -> & Hr).
  destruct o as [ag|].
  - destruct Hr as (Hp & _). rewrite (console_requested _ cs c) by done.
    destruct (stop_resources (wm_meanwhile e ag) (wm_stop e) Hj) as (o & es' & Es & _). rewrite Es.
    eexists _, _, _, _. split_and!; [done..|]. intros _. left. split; [done|]. by eapply stop_releases.
  - eexists _, _, _, _. split_and!; [done..|]. intros _. right. split; [done|]. destruct (_ && _) in Hr; auto.
Qed.

(** Installing the service is idempotent, and uninstalling it after that leaves
    the database without it. *)
Theorem win_install_uninstall db e db1 :
  win_service_install db e = (LEO_OK, db1) -> open_service_ok e = true -> delete_ok e = true ->
  win_service_install db1 e = (LEO_OK, db1) /\ win_service_uninstall db1 e = (LEO_OK, None) /\
  (db = None -> exists p, module_path e = Some p /\ binary_path <$> db1 = Some p).
Proof.
  unfold win_service_install, win_service_uninstall. intros Hi Ho Hd. destruct (open_scm_ok e); [|done]. cbn [negb] in *.
  destruct (module_path e) as [p|]; [|done]. destruct db as [c|].
  - injection Hi as <-. rewrite Ho, Hd. done.
  - destruct (create_allowed e); [|done]. injection Hi as <-. rewrite Ho, Hd. split_and!; [done..|]. intros _. by exists p.
Qed.

(** An error of the dispatcher other than the one of a process that the manager
    did not start also leads to the console mode. *)
Example dispatcher_error_runs_console : leo_service_run_dispatcher DispatchFails = false.
Proof. reflexivity. Qed.
