(* ===== verification/MetricsWin.v ===== *)
(** Collection of metrics on Windows: [platform/windows/metrics_win.c].

    What the system answers is an input.  The static variables are the state a
    collection takes and leaves; more entries than the arrays hold would be
    written past their end.  Counters are 64-bit unsigned integers with their
    wrap-around. *)
From S2P Require Import Prelude CString Double Types Metrics.

Record _cpu_times_t : Type := mk_times { t_idle : Z; t_kernel : Z; t_user : Z }.

Definition times_zero : _cpu_times_t := mk_times 0 0 0.

(** [g_prev_core], [g_prev_core_count] and [g_prev_valid]. *)
Record win_cpu_state : Type := mk_wcpu {
  prev_core : list _cpu_times_t;
  prev_core_count : Z;
  prev_valid : bool;
}.

Definition win_cpu_zero : win_cpu_state := mk_wcpu (replicate (Z.to_nat LEO_MAX_CPU_CORES) times_zero) 0 false.

(** A network interface. *)
Record if_row : Type := mk_row { is_loopback : bool; is_up : bool; InOctets : Z; OutOctets : Z }.

Record win_env : Type := {
  cpu_times : option (list (Z * Z * Z));     (* IdleTime, KernelTime, UserTime of NtQuerySystemInformation *)
  filetime : Z;                              (* GetSystemTimeAsFileTime *)
  memory_status : option (Z * Z);            (* ullTotalPhys, ullAvailPhys *)
  logical_drives : Z;                        (* the mask of GetLogicalDrives *)
  drive_fixed : Z -> bool;
  disk_space : Z -> option (Z * Z);          (* total and free bytes of GetDiskFreeSpaceExA *)
  if_table : option (list if_row);
  processes : option Z;                      (* the processes of the snapshot *)
}.

Definition times_of (raw : Z * Z * Z) : _cpu_times_t :=
  mk_times (wrap_u64 raw.1.1) (wrap_u64 raw.1.2) (wrap_u64 raw.2).

(** The entries, as unsigned numbers. *)
Definition _query_cpu_times (e : win_env) : option (list _cpu_times_t) := map times_of <$> cpu_times e.

Definition _cpu_usage_pct (prev curr : _cpu_times_t) : double :=
  let idle_delta := wrap_u64 (t_idle curr - t_idle prev) in
  let total_delta := wrap_u64 (wrap_u64 (t_kernel curr - t_kernel prev) + wrap_u64 (t_user curr - t_user prev)) in
  if total_delta =? 0 then DFin 0 0
  else d_mul (d_div (d_of_Z (wrap_u64 (total_delta - idle_delta))) (d_of_Z total_delta)) (d_of_Z 100).

Definition _now_ms (e : win_env) : Z := wrap_u64 (filetime e - 116444736000000000) `div` 10000.

(** [total], [available] and [used]. *)
Definition _read_ram (e : win_env) : Z * Z * Z :=
  match memory_status e with
  | None => (0, 0, 0)
  | Some (total, avail) => (total, avail, if avail <? total then total - avail else 0)
  end.

(** The body of the loop over the letters. *)
Definition add_drive (e : win_env) (acc : Z * Z * bool) (i : Z) : Z * Z * bool :=
  if negb (Z.testbit (logical_drives e) i) then acc
  else if negb (drive_fixed e i) then acc
  else
    match disk_space e i with
    | None => acc
    | Some (total, free) => (wrap_u64 (acc.1.1 + total), wrap_u64 (acc.1.2 + wrap_u64 (total - free)), true)
    end.

(** [*total_out], [*used_out] and the result. *)
Definition _read_disk_usage (e : win_env) : Z * Z * bool :=
  fold_left (add_drive e) (map Z.of_nat (seq 0 26)) (0, 0, false).

Definition add_row (acc : Z * Z) (row : if_row) : Z * Z :=
  if is_loopback row then acc
  else if negb (is_up row) then acc
  else (wrap_u64 (acc.1 + InOctets row), wrap_u64 (acc.2 + OutOctets row)).

Definition _read_net_stats (e : win_env) : Z * Z :=
  match if_table e with None => (0, 0) | Some rows => fold_left add_row rows (0, 0) end.

Definition _read_process_count (e : win_env) : Z :=
  match processes e with None => 0 | Some n => wrap_u32 n end.

(** Storing the current times. *)
Definition store_times (prev : list _cpu_times_t) (curr : list _cpu_times_t) : outcome (list _cpu_times_t) :=
  if LEO_MAX_CPU_CORES <? Z.of_nat (length curr) then Undef else Ret (curr ++ drop (length curr) prev).

Definition leo_metrics_init (st : win_cpu_state) (e : win_env) : outcome (win_cpu_state * leo_error_t) :=
  match _query_cpu_times e with
  | None => Ret (st, LEO_OK)
  | Some curr =>
      core ← store_times (prev_core st) curr;
      Ret (mk_wcpu core (Z.of_nat (length curr)) true, LEO_OK)
  end.

(** The sums of the counters of the cores. *)
Definition sum_times (l : list _cpu_times_t) : _cpu_times_t :=
  fold_left (fun a t => mk_times (wrap_u64 (t_idle a + t_idle t)) (wrap_u64 (t_kernel a + t_kernel t))
                                 (wrap_u64 (t_user a + t_user t))) l times_zero.

(** The CPU part of a collection: the new state, the percentage, those of the
    cores and their number. *)
Definition win_collect_cpu (st : win_cpu_state) (e : win_env) : outcome (win_cpu_state * (double * list double * Z)) :=
  match _query_cpu_times e with
  | None => Ret (st, (DFin 0 0, [], 0))
  | Some curr =>
      core ← store_times (prev_core st) curr;
      let count := Z.of_nat (length curr) in
      let next := mk_wcpu core count true in
      if prev_valid st && (count =? prev_core_count st) then
        let cores := if count <? LEO_MAX_CPU_CORES then count else LEO_MAX_CPU_CORES in
        let n := Z.to_nat cores in
        Ret (next,
             (_cpu_usage_pct (sum_times (take n (prev_core st))) (sum_times (take n curr)),
              map (fun i => _cpu_usage_pct (nth i (prev_core st) times_zero) (nth i curr times_zero)) (seq 0 n),
              cores))
      else Ret (next, (DFin 0 0, [], 0))
  end.

Definition leo_metrics_collect (st : win_cpu_state) (e : win_env) :
    outcome (win_cpu_state * (leo_error_t * leo_metrics_t)) :=
  '(next, (cpu, cores, n)) ← win_collect_cpu st e;
  let '(tot, avail, used) := _read_ram e in
  let '(dtot, dused, _) := _read_disk_usage e in
  let '(rx, tx) := _read_net_stats e in
  Ret (next, (LEO_OK, mk_metrics cpu cores n tot used avail dtot dused rx tx (_read_process_count e) (_now_ms e))).

Definition leo_metrics_destroy (st : win_cpu_state) : win_cpu_state := mk_wcpu (prev_core st) 0 false.

(** ** Percentages *)

(** The differences of the counters, when they only grew; the kernel time
    includes the idle time. *)
Definition deltas (prev curr : _cpu_times_t) (idle kernel user : Z) : Prop :=
  wrap_u64 (t_idle curr - t_idle prev) = idle /\ wrap_u64 (t_kernel curr - t_kernel prev) = kernel /\
  wrap_u64 (t_user curr - t_user prev) = user /\ 0 <= idle <= kernel /\ 0 <= user /\ kernel + user < 2 ^ 53.

(** The percentage of a core is between 0 and 100 and within one part in
    [2 ^ 50] of the share of the time outside the idle state, also when the
    counters wrapped around in between. *)
Theorem win_cpu_percent prev curr i k u :
  deltas prev curr i k u ->
  let d := _cpu_usage_pct prev curr in
  (exists m e, d = DFin m e) /\ 0 <= fnum d <= 100 * fden d /\
  (2 ^ 50 - 1) * (100 * (k + u - i)) * fden d <= 2 ^ 50 * fnum d * (k + u) <= (2 ^ 50 + 1) * (100 * (k + u - i)) * fden d.
Proof.
  intros (Ei & Ek & Eu & Hi & Hu & Hs). unfold _cpu_usage_pct. rewrite Ei, Ek, Eu, wrap_u64_id by lia.
  destruct (Z.eqb_spec (k + u) 0) as [E0|].
  { assert (i = 0) as -> by lia. rewrite E0. split; [eauto|simpl; lia]. }
  rewrite wrap_u64_id, share_of_deltas by lia. apply share_percent; lia.
Qed.

Lemma win_cpu_percent_witness :
  let p := mk_times 1000 1200 300 in
  let c := mk_times 1050 1270 330 in
  deltas p c 50 70 30 /\ 0 <= fnum (_cpu_usage_pct p c) <= 100 * fden (_cpu_usage_pct p c).
Proof.
  cbv zeta. assert (deltas (mk_times 1000 1200 300) (mk_times 1050 1270 330) 50 70 30) as D
    by (unfold deltas; cbn; split_and!; (lia || reflexivity)).
  split; [exact D|]. apply (win_cpu_percent _ _ _ _ _ D).
Defined.

Lemma wrap_add_l a b : wrap_u64 (wrap_u64 a + b) = wrap_u64 (a + b).
Proof. unfold wrap_u64. apply Zplus_mod_idemp_l. Qed.

(** The sums of the counters are those modulo [2 ^ 64], so that the total
    percentage is the share of all the cores together. *)
Lemma sum_times_spec l :
  t_idle (sum_times l) = wrap_u64 (foldr Z.add 0 (map t_idle l)) /\
  t_kernel (sum_times l) = wrap_u64 (foldr Z.add 0 (map t_kernel l)) /\
  t_user (sum_times l) = wrap_u64 (foldr Z.add 0 (map t_user l)).
Proof.
  unfold sum_times. set (f := fun (a t : _cpu_times_t) => _).
  assert (forall x y z l,
    t_idle (fold_left f l (mk_times (wrap_u64 x) (wrap_u64 y) (wrap_u64 z))) = wrap_u64 (x + foldr Z.add 0 (map t_idle l)) /\
    t_kernel (fold_left f l (mk_times (wrap_u64 x) (wrap_u64 y) (wrap_u64 z))) = wrap_u64 (y + foldr Z.add 0 (map t_kernel l)) /\
    t_user (fold_left f l (mk_times (wrap_u64 x) (wrap_u64 y) (wrap_u64 z))) = wrap_u64 (z + foldr Z.add 0 (map t_user l))) as G.
  { intros x y z l'. revert x y z. induction l' as [|t l' IH]; intros x y z; cbn [fold_left map foldr]; [by rewrite !Z.add_0_r|].
    assert (f (mk_times (wrap_u64 x) (wrap_u64 y) (wrap_u64 z)) t =
      mk_times (wrap_u64 (x + t_idle t)) (wrap_u64 (y + t_kernel t)) (wrap_u64 (z + t_user t))) as ->
      by (unfold f; cbn [t_idle t_kernel t_user]; by rewrite !wrap_add_l).
    destruct (IH (x + t_idle t) (y + t_kernel t) (z + t_user t)) as (-> & -> & ->). by rewrite !Z.add_assoc. }
  apply (G 0 0 0).
Qed.

(** ** Collections *)

Definition wcpu_ok (st : win_cpu_state) : Prop :=
  Z.of_nat (length (prev_core st)) = LEO_MAX_CPU_CORES /\ 0 <= prev_core_count st <= LEO_MAX_CPU_CORES.

(** What the system answers has its types, and no more cores than asked for. *)
Definition win_env_ok (e : win_env) : Prop :=
  (forall l, cpu_times e = Some l -> Z.of_nat (length l) <= LEO_MAX_CPU_CORES) /\
  (forall t a, memory_status e = Some (t, a) -> u64 t /\ u64 a).

Lemma store_times_ok prev curr : Z.of_nat (length prev) = LEO_MAX_CPU_CORES -> Z.of_nat (length curr) <= LEO_MAX_CPU_CORES ->
  store_times prev curr = Ret (curr ++ drop (length curr) prev) /\
  Z.of_nat (length (curr ++ drop (length curr) prev)) = LEO_MAX_CPU_CORES.
Proof.
  intros Hp Hc. unfold store_times. destruct (Z.ltb_spec LEO_MAX_CPU_CORES (Z.of_nat (length curr))); [lia|].
  split; [done|]. rewrite length_app, length_drop. lia.
Qed.

Lemma disk_usage_range e l acc : u64 acc.1.1 -> u64 acc.1.2 ->
  u64 (fold_left (add_drive e) l acc).1.1 /\ u64 (fold_left (add_drive e) l acc).1.2.
Proof.
  revert acc. induction l as [|i l IH]; intros acc H1 H2; cbn [fold_left]; [done|]. apply IH; unfold add_drive;
    (destruct (negb (Z.testbit _ _)); [done|]); (destruct (negb _); [done|]); destruct (disk_space e i) as [[t f]|];
    try done; apply wrap_u64_range.
Qed.

Lemma win_net_range rows acc : u64 acc.1 -> u64 acc.2 ->
  u64 (fold_left add_row rows acc).1 /\ u64 (fold_left add_row rows acc).2.
Proof.
  revert acc. induction rows as [|r rows IH]; intros acc H1 H2; cbn [fold_left]; [done|]. apply IH; unfold add_row;
    (destruct (is_loopback r); [done|]); (destruct (negb _); [done|]); apply wrap_u64_range.
Qed.

Lemma win_cpu_ok st e : wcpu_ok st -> win_env_ok e ->
  exists next cpu cores n, win_collect_cpu st e = Ret (next, (cpu, cores, n)) /\ wcpu_ok next /\
  Z.of_nat (length cores) = n /\ 0 <= n <= LEO_MAX_CPU_CORES /\
  forall l, cpu_times e = Some l ->
    prev_valid next = true /\ prev_core_count next = Z.of_nat (length l) /\
    (prev_valid st = true -> prev_core_count st = Z.of_nat (length l) -> n = Z.of_nat (length l)).
Proof.
  intros [Hs Hn] [Hc _]. unfold win_collect_cpu, _query_cpu_times. destruct (cpu_times e) as [l|]; cbn [fmap option_fmap option_map].
  2:{ eexists st, _, [], 0. split_and!; try done; cbn; lia. }
  specialize (Hc l eq_refl). set (curr := map times_of l). assert (length curr = length l) as Hl by apply length_map.
  destruct (store_times_ok (prev_core st) curr) as [-> Hlen]; [done|by rewrite Hl|]. cbn [mbind outcome_bind]. rewrite Hl in *.
  assert (wcpu_ok (mk_wcpu (curr ++ drop (length l) (prev_core st)) (Z.of_nat (length l)) true)) as Hok
    by (split; cbn; [done|lia]).
  destruct (prev_valid st && (Z.of_nat (length l) =? prev_core_count st)) eqn:E.
  - eexists _, _, _, _. split; [done|]. split; [done|]. rewrite length_map, length_seq.
    destruct (Z.ltb_spec (Z.of_nat (length l)) LEO_MAX_CPU_CORES); split_and!; try lia; intros l' [= <-]; cbn; split_and!; (done || lia).
  - eexists _, _, [], 0. split; [done|]. split; [done|]. split_and!; try (cbn; lia). intros l' [= <-]. cbn. split_and!; try done.
    intros Hv Hq. rewrite Hv, Hq, Z.eqb_refl in E. done.
Qed.

(** Whatever the system answers, a collection on Windows succeeds with values
    of their C types, and keeps a well-formed state. *)
Theorem win_collect_typed st e :
  wcpu_ok st -> win_env_ok e ->
  exists next m, leo_metrics_collect st e = Ret (next, (LEO_OK, m)) /\ metrics_ok m /\ wcpu_ok next.
Proof.
  intros Hst He. destruct (win_cpu_ok st e Hst He) as (next & cpu & cores & n & E & Hn & Hl & Hr & _).
  unfold leo_metrics_collect. rewrite E. cbn [mbind outcome_bind]. assert (u64 0) as Z0 by (unfold u64; lia).
  assert (exists t a u, _read_ram e = (t, a, u) /\ u64 t /\ u64 a /\ u64 u /\ u <= t) as (t & a & u & -> & Ht & Ha & Hu & Hle).
  { unfold _read_ram. destruct (memory_status e) as [[t a]|] eqn:Em; [|by exists 0, 0, 0].
    destruct (proj2 He t a Em) as [Ht Ha]. eexists t, a, _. split; [done|]. unfold u64 in *.
    destruct (Z.ltb_spec a t); split_and!; lia. }
  assert (u64 (_read_disk_usage e).1.1 /\ u64 (_read_disk_usage e).1.2) as [D1 D2]
    by (unfold _read_disk_usage; by apply disk_usage_range).
  destruct (_read_disk_usage e) as [[dt du] any]. cbn [fst snd] in *.
  assert (u64 (_read_net_stats e).1 /\ u64 (_read_net_stats e).2) as [N1 N2]
    by (unfold _read_net_stats; destruct (if_table e); [by apply win_net_range|done]).
  destruct (_read_net_stats e) as [rx tx]. cbn [fst snd] in *. eexists _, _. split; [done|]. split; [|done].
  assert (u64 (_now_ms e)) by (unfold _now_ms, u64; pose proof (wrap_u64_range (filetime e - 116444736000000000));
    split; [apply Z.div_pos; lia|apply Z.div_lt_upper_bound; lia]).
  assert (0 <= _read_process_count e < 2 ^ 32)
    by (unfold _read_process_count, wrap_u32; destruct (processes e); [apply Z.mod_pos_bound; lia|lia]).
  unfold metrics_ok. cbn [ram_total_bytes ram_used_bytes ram_available_bytes disk_total_bytes disk_used_bytes net_bytes_in
    net_bytes_out timestamp_ms process_count cpu_core_count cpu_per_core].
  rewrite !Forall_cons, Forall_nil. split_and!; try done; lia.
Qed.

Definition sample_win (cpu : option (list (Z * Z * Z))) : win_env :=
  {| cpu_times := cpu; filetime := 133500000000000000; memory_status := Some (8589934592, 4294967296); logical_drives := 12;
     drive_fixed i := i =? 2; disk_space i := Some (500, 200);
     if_table := Some [mk_row true true 9 9; mk_row false true 5 7]; processes := Some 120 |}.

Lemma sample_win_ok n : Z.of_nat (length (replicate n (1, 2, 3))) <= LEO_MAX_CPU_CORES ->
  win_env_ok (sample_win (Some (replicate n (1, 2, 3)))).
Proof. intros Hn. split; cbn; [by intros l [= <-]|]. intros t a [= <- <-]. unfold u64. lia. Qed.

Lemma win_collect_typed_witness :
  exists next m, leo_metrics_collect win_cpu_zero (sample_win (Some (replicate 2 (1, 2, 3)))) = Ret (next, (LEO_OK, m)) /\
  metrics_ok m /\ wcpu_ok next.
Proof.
  apply (win_collect_typed win_cpu_zero (sample_win (Some (replicate 2 (1, 2, 3))))).
  - split; vm_compute; [reflexivity|split; discriminate].
  - apply sample_win_ok. vm_compute. discriminate.
Defined.

(** A failed initialisation costs one collection, as the comment of the Linux
    code says of it too: after any collection that could read the times, the
    next one that finds as many cores measures them. *)
Theorem win_measures_again st e1 e2 l1 l2 :
  wcpu_ok st -> win_env_ok e1 -> win_env_ok e2 -> cpu_times e1 = Some l1 -> cpu_times e2 = Some l2 -> length l1 = length l2 ->
  exists st1 m1 st2 m2, leo_metrics_collect st e1 = Ret (st1, (LEO_OK, m1)) /\
  leo_metrics_collect st1 e2 = Ret (st2, (LEO_OK, m2)) /\ cpu_core_count m2 = Z.of_nat (length l2).
Proof.
  intros Hst H1 H2 E1 E2 El. destruct (win_cpu_ok st e1 Hst H1) as (st1 & cpu1 & cores1 & n1 & C1 & Hst1 & _ & _ & F1).
  destruct (F1 l1 E1) as (V1 & K1 & _). destruct (win_cpu_ok st1 e2 Hst1 H2) as (st2 & cpu2 & cores2 & n2 & C2 & _ & _ & _ & F2).
  destruct (F2 l2 E2) as (_ & _ & N2). unfold leo_metrics_collect. rewrite C1. cbn [mbind outcome_bind].
  destruct (_read_ram e1) as [[? ?] ?], (_read_disk_usage e1) as [[? ?] ?], (_read_net_stats e1),
    (_read_ram e2) as [[? ?] ?], (_read_disk_usage e2) as [[? ?] ?], (_read_net_stats e2).
  eexists _, _, _, _. split; [done|]. rewrite C2. split; [done|]. cbn. apply N2; [done|]. by rewrite K1, El.
Qed.
