(* ===== verification/PlatformWin.v ===== *)
(** The Windows agent: the platform interfaces of [src/executor.h] and
    [src/patches.h], and the working directory of [src/file_transfer.c], on
    Windows.

    The theorems of [Exec], [Agent] and [Shutdown] are proved for any world
    whose platform keeps the promises of these interfaces; with the instances
    of this file they are theorems about the agent built for Windows, whose
    updates are those of the Windows Update Agent. *)
From S2P Require Import Prelude CString Ledger Double Types Json JsonParse Protocol Config Url.
From S2P Require Import Crypto Ring Connection Executor Platform Patches FileTransfer RemoteDesktop Exec.
From S2P Require Import Dispatch Agent CryptoWin ExecutorWin PatchesWin.

(** ** Instances *)

#[export] Program Instance win_file_system : FileSystem win_world := {|
  fs_workdir := windows_workdir;
  get_files := ww_files;
  put_files fs w := mk_win fs (ww_log w) (ww_envs w) (ww_tick w);
|}.
Next Obligation. done. Qed.

(** An installation starts no process: the world is left as it is. *)
#[export] Instance win_patches : PatchManager win_world := {|
  patch_env := wua_env;
  collect_patches e max_items := '(o, _) ← leo_patches_collect e max_items; Ret o;
  install_patches e ids reboot_after t old w :=
    (Some ('(err, rep) ← leo_patches_install e ids reboot_after t;
           Ret (err, match rep with Some rep => rep_result rep | None => old end)), w);
|}.

(** ** Laws *)

Lemma failed_report_fits text es : fits (rep_result (failed_report text es)).
Proof. split; cbn; [done|by apply fit_length]. Qed.

Lemma install_updates_fits e ids rb n es rep : install_updates e ids rb n es = Ret rep -> fits (rep_result rep).
Proof.
  unfold install_updates. cbv zeta. destruct (updates e) as [us|]; [|intros [= <-]; apply failed_report_fits].
  destruct (negb (_create_update_collection e)); [intros [= <-]; apply failed_report_fits|].
  destruct (select_updates ids us) as [[[added matched] es1]|]; [|done]. cbn [mbind outcome_bind].
  repeat (match goal with |- (if ?b then _ else _) = _ -> _ => destruct b end; [intros [= <-]; try apply failed_report_fits|]);
    [split; cbn; [done|by apply fit_length]|].
  intros [= <-]. split; cbn; [by apply fit_length|done].
Qed.

Lemma win_install_result e ids rb t err rep :
  leo_patches_install e ids rb t = Ret (err, rep) ->
  err ∈ [LEO_OK; LEO_ERR_SYSTEM; LEO_ERR_TIMEOUT] /\ (err = LEO_OK -> exists r, rep = Some r /\ fits (rep_result r)).
Proof.
  unfold leo_patches_install. destruct (bool_decide (ids = [])); [intros [= <- <-]; split; [set_solver|done]|].
  destruct (_ && _); [intros [= <- <-]; split; [set_solver|eauto using failed_report_fits]|]. cbv zeta.
  destruct (_create_session e) as [[] es1]; cbn [negb];
    [|intros [= <- <-]; split; [set_solver|eauto using failed_report_fits]].
  destruct (_search e) as [[] es2]; cbn [negb]; [|intros [= <- <-]; split; [set_solver|eauto using failed_report_fits]].
  destruct (install_updates _ _ _ _ _) as [r|] eqn:E; [|done]. cbn [mbind outcome_bind]. intros [= <- <-].
  split; [set_solver|]. apply install_updates_fits in E. eauto.
Qed.

#[export] Instance win_patches_laws : PatchManagerLaws win_world.
Proof.
  split; cbn [collect_patches install_patches win_patches].
  - intros e max_items ps. destruct (leo_patches_collect e max_items) as [[o es]|] eqn:E; [|done].
    cbn [mbind outcome_bind]. intros [= ->]. apply collected_updates_fit in E as [Hl Hf]. split; [done|].
    eapply Forall_impl; [exact Hf|]. intros p (? & ? & ? & _). by split_and!.
  - intros e ids rb t old w. exists []. by rewrite app_nil_r.
  - intros e ids rb t old w o w' [= <- _] p.
    destruct (leo_patches_install e ids rb t) as [[err rep]|] eqn:E; [|done]. cbn [mbind outcome_bind].
    intros [= <-]. apply win_install_result in E as [He Hf]. split; [done|]. cbn. intros ->.
    destruct (Hf eq_refl) as (r & -> & Hr). done.
Qed.

(** C20: both executors keep the promises of [executor.h], against which the
    command threads are verified: a call starts at most one process, with the
    arguments it was given, as the process will read them; a script is started
    only through an interpreter of the whitelist, on the temporary file; the
    error returned is a documented one, and outputs fit their buffers. *)
Theorem platforms_implement_executor : ExecutorLaws linux_world /\ ExecutorLaws win_world.
Proof. split; [exact linux_executor_laws|exact win_executor_laws]. Qed.

(** C21: [patches.h] is kept on both platforms: whatever the package manager or
    the Windows Update Agent answers, at most the number of updates asked for
    is listed, each with an identifier and a title that fit their fields; an
    installation starts no process but the package manager on the identifiers
    it was given, and the restart that was asked for; and it returns a
    documented error, or outputs that fit their buffers. *)
Theorem platforms_implement_patches : PatchManagerLaws linux_world /\ PatchManagerLaws win_world.
Proof. split; [exact linux_patches_laws|exact win_patches_laws]. Qed.

(** ** The working directory *)

Definition win_workdir_path : list ascii := str "C:\ProgramData\LeoOne\work".

(** [_ensure_workdir] is said to follow [_mkdir_p] of [crypto_win.c], which
    never hands the drive alone to [CreateDirectoryA] because that fails; it
    starts with it, and gives up when the call fails with another error than
    that the directory exists. *)
Theorem workdir_needs_drive :
  head (workdir_points win_workdir_path) = Some (str "C:") /\
  str "C:" ∉ create_points win_workdir_path /\
  forall io, mkdir_of io (str "C:") = MkdirFails -> @_ensure_workdir windows_workdir io = false.
Proof.
  split; [vm_compute; reflexivity|]. split; [by apply (bool_decide_unpack _)|]. intros io Hf.
  unfold _ensure_workdir. cbv zeta.
  replace (workdir_points _) with
    [str "C:"; str "C:\ProgramData"; str "C:\ProgramData\LeoOne"; str "C:\ProgramData\LeoOne\work"]
    by (vm_compute; reflexivity).
  cbn [mkdir_all]. by rewrite Hf.
Qed.

(** ** Evaluation *)

(** An update is asked for, installed and reported by the agent for Windows. *)
Section evaluation.
Local Existing Instances decimal_lib toy_openssl.

Definition install_text : list ascii :=
  message_text 108 (str "77") (str "{" ++ print_string_ptr (str "patch_ids") ++ str ":[" ++
    print_string_ptr (str "KB5001330") ++ str "]}").

(** A world in which no child can be started. *)
Definition win_start : win_world :=
  mk_win ∅ [] (fun _ => mk_tmp None 0 0 0 false false (mk_wchild false false None false false false false
    (mk_wpipe [] true) (mk_wpipe [] true) None 0)) 0.
Definition win_agent1 : agent := get agent0 (_on_message agent0 install_text sample_dispatch_env).
Definition win_ctx : _exec_ctx_t :=
  ctx_patches (ctx_new (str "77") _EXEC_KIND_INSTALL_PATCHES 300) [str "KB5001330"] false.

Example win_agent1_runs : running win_agent1 = [Working win_ctx].
Proof. vm_compute. reflexivity. Qed.

Definition win_env : exec_env win_world :=
  mk_exec_env result_zero (sample_wua [Some (sample_update "5001330" true)])
    (mk_transfer open_io true true true 0 [] true []) (fun _ => sample_env).

Definition win_report : report :=
  Exec.mk_report 0 (Live (str "1 patch(s) traité(s), résultat=2, redémarrage requis=oui")) (Live []).
Definition win_agent2 : agent :=
  set_conn (set_exec win_agent1 (exec_active_count win_agent1) [Reporting win_ctx win_report]) (ag_conn win_agent1).
Definition win_sent : leo_conn * option (list ascii) :=
  get (ag_conn win_agent2, None) (exec_report win_ctx (ag_conn win_agent2) win_report sample_env).
Definition win_agent3 : agent := thread_finish win_agent2 win_sent (str "77") [].

Lemma win_update_reported :
  reachable win_start (mk_machine win_agent3 win_start 0 Servicing) /\
  map fst (answered win_agent3) = [str "77"] /\ is_Some win_sent.2.
Proof.
  split; [|split; vm_compute; eauto].
  exists sample_config, idle_conn. split; [exact idle_conn_created|].
  eapply rtc_l; [eexists; apply step_service, loop_connect; reflexivity|].
  eapply rtc_l; [eexists; apply (step_event _ win_start 0 (LWS_CALLBACK_CLIENT_ESTABLISHED sample_env)
    (conn greeted) 0); reflexivity|].
  change (set_conn _ (conn greeted)) with agent0.
  eapply rtc_l; [eexists; apply (step_message agent0 win_start 0 install_text
    (conn greeted) install_text sample_dispatch_env win_agent1); vm_compute; reflexivity|].
  eapply rtc_l; [eexists; apply (step_work win_agent1 win_start 0 Servicing [] win_ctx [] win_env win_report
    (ag_conn win_agent1) win_start); vm_compute; reflexivity|].
  eapply rtc_l; [eexists; apply (step_report win_agent2 win_start 0 Servicing [] win_ctx win_report [] sample_env win_sent win_sent.2);
    vm_compute; reflexivity|].
  apply rtc_refl.
Qed.

End evaluation.
